(* ===== verification/_CoqProject ===== *)
-Q . S2P
Prelude.v
Errors.v
Floats.v
Fixed.v
Constants.v
Utils.v
GroupState.v
InterestRate.v
BankState.v
Price.v
Account.v
BankAccount.v
Risk.v
World.v
UserIx.v
LiquidateIx.v
BankruptcyIx.v
GroupIx.v
Frames.v
System.v
Typed.v
Solvency.v
Exits.v
Fuzz.v
FuzzSpec.v
Profiles.v
Client.v
Cli.v
CliSpec.v
LookupTables.v
SlotQueue.v
Indexer.v
Streams.v
Crawler.v
Crossbar.v
Service.v
Alerts.v
Lip.v
