(* ===== verification/Prelude.v ===== *)
(** * marginfi v2 : a verification library of its programs and tools

    marginfi is a lending protocol on Solana.  A group has banks, each the
    lending pool of one mint; a user's account has positions in the banks of
    its group, deposits on some and debts on others, and its health, the
    weighted value of the first less that of the second at oracle prices,
    bounds what it may borrow.  This library models the repository's programs
    and proves what makes them correct.  This file is its prelude: the error
    monad, machine integers, list and map lemmas, tactics and hints.

    ** The parts and their files

    All paths are under src/.  P is programs/marginfi/src.

    - Errors.v, Constants.v: P/errors.rs, P/constants.rs, the error enumerations
      of both programs and the constants.
    - Fixed.v: the interface of the fixed-point crate and WrappedI80F48.
    - Utils.v: P/utils.rs, calc_value and calc_amount.
    - GroupState.v: MarginfiGroup, its fee cache, FeeState (P/state/).
    - InterestRate.v: the rate configuration, the curve, fees and accrual
      payments of P/state/marginfi_group.rs; BankState.v: Bank and BankConfig of
      the same file (shares, accrual, losses, limits, flags, configuration).
    - Price.v: P/state/price.rs, four kinds of oracle feed and their adapter.
    - Account.v, BankAccount.v, Risk.v: P/state/marginfi_account.rs: balances
      and accounts, the operations on a position and its bank
      (BankAccountWrapper), and the risk engine.
    - World.v: the store of accounts, the account constraints and the steps the
      handlers share; UserIx.v, LiquidateIx.v, BankruptcyIx.v, GroupIx.v: the
      handlers of P/instructions/, one definition each, with their constraints.
    - Frames.v: what each handler can touch.  System.v: P/lib.rs, the dispatch
      ([marginfi]), the worlds the program can reach and whole transactions.
    - Solvency.v: the balance sheet of a bank along its history.  Exits.v: how a
      lender and a borrower leave a bank.  Typed.v: the machine widths of
      everything the program stores.
    - Fuzz.v: programs/marginfi/fuzz/, the harness that runs random actions on
      the handlers, with the theorems about it in FuzzSpec.v.
    - Lip.v: programs/liquidity-incentive-program/src/, the second program,
      which calls the first.
    - The command line client, clients/rust/marginfi-cli/src/.  Client.v: the
      accounts it passes to the instructions that read prices (utils.rs,
      processor/mod.rs).  Profiles.v: profile.rs, config.rs and the commands on
      profiles.  Cli.v: the commands that build and send transactions and their
      dispatch (processor/mod.rs, admin.rs, emissions.rs, entrypoint.rs), with
      the theorems in CliSpec.v.  LookupTables.v: processor/group.rs.
    - The indexer, observability/indexer/src/.  Indexer.v: the copy of the risk
      engine, the account snapshot, its update queue and the metrics (utils/,
      commands/snapshot_accounts.rs); Service.v: the service around them;
      Crossbar.v: the prices it takes from the crossbar service (crossbar.rs,
      swb_pull.rs).  SlotQueue.v: the queue all its streaming services have;
      Streams.v: index_transactions.rs and index_accounts.rs; Crawler.v:
      transactions_crawler.rs and backfill.rs.
    - Alerts.v: tools/alerting/src/main.rs.  Floats.v: doubles, which only the
      off-chain programs use.

    An instruction is a function from a [World] to an outcome with a new
    [World]: the constraints of its #[derive(Accounts)] structure, then the
    body of the handler (a definition [.._handler] of its own where the fuzzer
    calls it directly), in the order of the code.  The handlers find a
    position ([with_position]), run one operation of [BankAccountWrapper] on it
    and its bank, move tokens through [TokenSdk], and ask the risk engine for
    the account's health, which loads the banks and the oracle accounts given
    to it.  Handlers never see the state an error leaves: [Err] and [Panic]
    abort the transaction.  A command of an off-chain program keeps what it has
    done when it fails, so it is an [effect], a function from a state to a result
    and a state; its state is the files and the world ([CliState]), the lookup
    tables, or the events sent ([Alerts.v]), and the transactions it sends are run
    by [marginfi] itself.  A service of several tasks is a step relation or an
    inductive set of runs, a step being what a task does while it holds its
    locks.  Integers are [Z] with the checks or the wrapping of
    their width written out; an [I80F48] is the integer of its bits.

    ** Code that is not in the repository

    It is a class of operations, with a class of the laws its documentation
    promises where the theorems need them, and an instance used by the examples:
    [FixedOps] and [FixedLaws] (the fixed crate; [i80f48] implements them on
    128-bit integers), [TokenSdk] and [TokenLaws] (the token programs),
    [OracleSdk], [OracleLaws], [PushOracles] and [PricesNonneg] (the oracle
    SDKs; [PricesNonneg] is proved of [i80f48]), [Runtime] (program addresses,
    the instructions sysvar, lamports), [LipRuntime] and [LipLaws], [BumpBytes]
    (bumps are bytes), [Custody] (who can debit a vault), [ClientSdk], [CliSdk],
    [Node] and [NodeLaws] (the node the client talks to and what it prints and
    parses), [LutNode], [LutLaws] and [LutLive] (the address lookup table
    program), [IndexerSdk] (account decoders, the node), [Geyser] and
    [Transactions] (decoded transactions), [FixedFromF64] (I80F48::from_num on
    doubles), [AlerterSdk] and [AlerterLaws] (the node and the incident service),
    [HashOrder] (iteration of a HashMap); and of the fuzzer
    [Unstructured] and [UnstructuredLaws] (its bytes), [PriceAccountBytes] (the
    layout of an oracle account), [NewMints] (the extension of a mint), [Debris]
    and [DebrisLaws] (what a failed handler leaves in the accounts it could
    write) and [CanonicalPda] (the canonical bump gives the canonical address).

    ** What is proved

    - The program as a whole (System.v, [reachable_invariant]): in every world
      its instructions reach, banks and accounts are well formed, every position
      is in an existing bank of the account's group, and the shares of all
      positions in a bank never exceed the bank's totals ([books_balance]); who
      may change an account or a group; a flashloan ends in its transaction.
    - Types (Typed.v, [stored_numbers_fit]): whatever instructions run, every
      number an account of the program stores fits the field that stores it.
    - Solvency (Solvency.v, [bank_solvent]): the tokens in a bank's vault and the
      debts of its borrowers cover its deposits and fees, up to a rounding loss
      that is bounded for each instruction and added up.
    - Ways out (Exits.v): a lender of a bank that is solvent and liquid can take
      out the whole deposit, and a borrower who has the tokens can repay the whole
      debt: the instructions succeed and close the position.
    - Instructions (UserIx.v, LiquidateIx.v, BankruptcyIx.v, GroupIx.v): what is
      transferred is what is charged or credited, with rounding in the bank's
      favour up to an explicit bound; risky instructions end healthy; a
      liquidation improves the liquidatee's health and moves the value it
      should; a bankruptcy splits the debt between insurance and depositors.
    - Positions (BankAccount.v): each operation changes the position and the
      bank's totals together, its amounts, its modes and limits, emissions.
    - Interest (InterestRate.v, BankState.v): the curve is the piecewise linear
      one, accrual conserves value and is monotone, and it succeeds whenever the
      amounts fit ([accrual_succeeds], with the ranges in [accrual_fits]).
    - Prices and health (Price.v, Risk.v): the bias of a price is at most five
      percent, initial health implies maintenance health, what the checks
      establish, what happens when an oracle fails.
    - The incentive program (Lip.v): campaigns stay funded, a matured deposit can
      be paid, what it is paid, and that every instruction is a run of
      instructions of the first program.
    - The fuzzer (FuzzSpec.v): its setup establishes the invariants; every run of
      actions is a sequence of instructions of the program, between which balances
      change places, so what it tests is what the chain would run; a failed action
      leaves no trace; and its final check cannot find a bank insolvent.
    - The client (Client.v, Profiles.v, CliSpec.v, LookupTables.v): its accounts
      load as the risk engine expects, except after a gap; a command changes the
      chain only by transactions signed with the keys of its profile, and not at
      all in a dry run; an added bank has the configuration asked for; the
      bankruptcy command covers every debt; after the lookup table command every
      address of the group is in a table; a created profile is loaded back.
    - The indexer (Indexer.v, Service.v, Crossbar.v, Streams.v, Crawler.v): its
      engine agrees with the program's and its metrics are the program's
      components; its queue applies exactly the confirmed updates, the latest
      one last, and the stream follows the accounts it needs; a simulated price
      reaches the snapshot to the last bit; every transaction received is
      published, waiting or thrown away, once; the crawler loses no transaction
      and, on a node that answers, reaches them all.
    - The alerter (Alerts.v): after a run without error the incidents open are
      exactly those of stale oracles and low accounts.
    - Conversions (Fixed.v, Utils.v): round trips of WrappedI80F48 and of the
      token fee.

    ** Termination and bounds

    Every loop of the on-chain code runs over a list (balances, remaining
    accounts, instructions), so the definitions are structural and use no fuel.
    Off chain the splitting of a list into chunks ([chunks]) counts down from the
    length of the list, which [chunks_spec] shows is enough; the loops that fill
    lookup tables count down from the number of keys left, one of which at least
    is added at each turn; the search for a free bank seed takes the number of
    tries as an argument; and the loops that never end are modelled by one turn.
    Hypotheses that a sum or product stays in range are stated with
    [is_i80f48], [rates_wf] and [accrual_fits].

    ** Not modelled

    - Events and logs, which change no account; padding, size and alignment
      checks of the account layout; the discriminators and (de)serialization
      Anchor generates, except the decoders the indexer calls.
    - The client's commands that only print, and the parsing of its arguments;
      the bankruptcy of a single account, which no command reaches.
    - Connecting to nodes and publishers, the text of messages and rows, the
      monitors of the indexer, its tables, and the ETL scripts, which are not
      Rust: I/O around other services.
    - The test utilities, the mocks and the tool that prints the totals of the
      banks, which only exercise or read the programs. *)
From Stdlib Require Import Sorted.
From Stdlib Require Export ZArith Lia Bool.
From stdpp Require Export base option list gmap numbers.

#[global] Open Scope Z_scope.

(** ** The error monad

    Every function of the program that returns [Result<T>] is modelled by a
    function into [outcome E T].  [Panic] is a Rust panic (a failed [assert!],
    an [unwrap] of [None], an index out of range, an arithmetic overflow of
    the checked build); on chain both [Err] and [Panic] abort the whole
    transaction, so the state a failing function leaves behind is never
    observed, and only [Ok] carries a state. *)
Inductive outcome (E A : Type) : Type :=
| Ok (a : A)
| Err (e : E)
| Panic.
Arguments Ok {E A} a.
Arguments Err {E A} & e.
Arguments Panic {E A}.

Definition outcome_bind {E A B} (f : A → outcome E B) (m : outcome E A) : outcome E B :=
  match m with Ok a => f a | Err e => Err e | Panic => Panic end.

Arguments outcome_bind {E A B} & f m.

(** [let? x := m in k] is Rust's [let x = m?; k]. *)
Declare Scope outcome_scope.
Delimit Scope outcome_scope with outcome.
Notation "'let?' x := m 'in' k" := (outcome_bind (λ x, k) m)
  (at level 200, x name, m at level 200, k at level 200,
   format "'[v' 'let?'  x  :=  m  'in' '/' k ']'") : outcome_scope.
Notation "'let?' ' p := m 'in' k" := (outcome_bind (λ x, match x with p => k end) m)
  (at level 200, p pattern, m at level 200, k at level 200,
   format "'[v' 'let?'  ' p  :=  m  'in' '/' k ']'") : outcome_scope.
#[global] Open Scope outcome_scope.

(** [check!(cond, err)] *)
Definition check_or {E} (b : bool) (e : E) : outcome E unit := if b then Ok tt else Err e.
(** [assert!(cond)] *)
Definition rust_assert {E} (b : bool) : outcome E unit := if b then Ok tt else Panic.
(** [o.ok_or(err)] *)
Definition ok_or {E A} (o : option A) (e : E) : outcome E A :=
  match o with Some a => Ok a | None => Err e end.
(** [o.unwrap()] *)
Definition unwrap {E A} (o : option A) : outcome E A :=
  match o with Some a => Ok a | None => Panic end.
(** [r.map_err(f)] *)
Definition map_err {E F A} (f : E → F) (m : outcome E A) : outcome F A :=
  match m with Ok a => Ok a | Err e => Err (f e) | Panic => Panic end.
(** [a[i]] on an array or a slice: out of range panics. *)
Definition index {E A} (l : list A) (i : Z) : outcome E A :=
  if decide (0 ≤ i) then unwrap (l !! Z.to_nat i) else Panic.

Arguments check_or {E} & b e.
Arguments ok_or {E A} & o e.

Definition is_ok {E A} (m : outcome E A) : bool :=
  match m with Ok _ => true | _ => false end.

(** The value of a successful computation; used to name the results of the
    examples. *)
Definition ok_value {E A} (d : A) (m : outcome E A) : A :=
  match m with Ok a => a | _ => d end.

Lemma ok_value_ok {E A} (d : A) (m : outcome E A) : is_ok m = true → m = Ok (ok_value d m).
Proof. by destruct m. Qed.

Section OutcomeLemmas.
Context {E A B : Type}.

Lemma bind_ok (f : A → outcome E B) (m : outcome E A) (b : B) :
  outcome_bind f m = Ok b ↔ ∃ a, m = Ok a ∧ f a = Ok b.
Proof.
  destruct m as [a|e|]; simpl; split; intros H; try naive_solver.
Qed.

Lemma bind_ok_intro (f : A → outcome E B) (m : outcome E A) (a : A) :
  m = Ok a → outcome_bind f m = f a.
Proof. by intros ->. Qed.

Lemma check_or_ok (b : bool) (e : E) u : check_or b e = Ok u ↔ b = true.
Proof. unfold check_or. destruct b, u; naive_solver. Qed.

Lemma rust_assert_ok (b : bool) u : @rust_assert E b = Ok u ↔ b = true.
Proof. unfold rust_assert. destruct b, u; naive_solver. Qed.

Lemma ok_or_ok (o : option A) (e : E) a : ok_or o e = Ok a ↔ o = Some a.
Proof. destruct o; simpl; naive_solver. Qed.

Lemma unwrap_ok (o : option A) a : @unwrap E A o = Ok a ↔ o = Some a.
Proof. destruct o; simpl; naive_solver. Qed.

Lemma map_err_ok {F} (f : E → F) (m : outcome E A) a : map_err f m = Ok a ↔ m = Ok a.
Proof. destruct m; simpl; naive_solver. Qed.

Lemma index_ok (l : list A) i a :
  @index E A l i = Ok a ↔ 0 ≤ i ∧ l !! Z.to_nat i = Some a.
Proof.
  unfold index. case_decide.
  - rewrite unwrap_ok. tauto.
  - split; [done | lia].
Qed.

Lemma is_ok_true (m : outcome E A) : is_ok m = true ↔ ∃ a, m = Ok a.
Proof. destruct m; simpl; naive_solver. Qed.
End OutcomeLemmas.

(** ** Tactics

    [inv_step] peels one layer of a hypothesis [handler = Ok _]; [inv_ok]
    repeats it: the success of a handler becomes the success of its parts and
    the truth of its guards. *)
Ltac inv_step :=
  match goal with
  | H : outcome_bind _ _ = Ok _ |- _ =>
      let x := fresh "v" in let E := fresh "E" in
      apply bind_ok in H; destruct H as (x & E & H)
  | H : check_or _ _ = Ok _ |- _ => apply check_or_ok in H
  | H : rust_assert _ = Ok _ |- _ => apply rust_assert_ok in H
  | H : ok_or _ _ = Ok _ |- _ => apply ok_or_ok in H
  | H : unwrap _ = Ok _ |- _ => apply unwrap_ok in H
  | H : map_err _ _ = Ok _ |- _ => apply map_err_ok in H
  | H : Ok _ = Ok _ |- _ => injection H as H; try subst
  | H : Err _ = Ok _ |- _ => discriminate H
  | H : Panic = Ok _ |- _ => discriminate H
  | H : Some _ = Some _ |- _ => injection H as H; try subst
  | H : None = Some _ |- _ => discriminate H
  | u : unit |- _ => destruct u
  | x : (_ * _)%type |- _ => destruct x
  end.
Ltac inv_ok := repeat (inv_step; simpl in * ).

(** A computation has one result. *)
Ltac det_ok :=
  repeat match goal with
  | H : ?m = Ok ?a, H' : ?m = Ok ?b |- _ =>
      assert (a = b) as <- by congruence; clear H'
  | H : ?m = Some ?a, H' : ?m = Some ?b |- _ =>
      assert (a = b) as <- by congruence; clear H'
  end.

(** Running a handler again whose steps are known to succeed. *)
Ltac replay :=
  repeat (match goal with
          | H : ?m = Ok _ |- context [?m] => rewrite H
          | H : ?m = Some _ |- context [?m] => rewrite H
          | H : ?m = true |- context [?m] => rewrite H
          end; simpl).

(** Boolean tests of the code as propositions. *)
Ltac bool_prop :=
  repeat match goal with
  | H : (_ && _) = true |- _ => apply andb_prop in H; destruct H
  | H : (_ || _) = true |- _ => apply orb_prop in H
  | H : (_ || _) = false |- _ => apply orb_false_elim in H; destruct H
  | H : negb _ = true |- _ => apply negb_true_iff in H
  | H : negb _ = false |- _ => apply negb_false_iff in H
  | H : (_ <? _) = true |- _ => apply Z.ltb_lt in H
  | H : (_ <? _) = false |- _ => apply Z.ltb_ge in H
  | H : (_ <=? _) = true |- _ => apply Z.leb_le in H
  | H : (_ <=? _) = false |- _ => apply Z.leb_gt in H
  | H : (_ =? _) = true |- _ => apply Z.eqb_eq in H
  | H : (_ =? _) = false |- _ => apply Z.eqb_neq in H
  end.

(** ** Integers *)

(** [u64::MAX], [i64] and [u128] bounds. *)
Definition U64_MAX : Z := 2 ^ 64 - 1.
Definition is_u64 (z : Z) : Prop := 0 ≤ z ≤ U64_MAX.
Definition is_i64 (z : Z) : Prop := - 2 ^ 63 ≤ z < 2 ^ 63.

(** [a.checked_add(b)], [a.checked_sub(b)] on [u64]. *)
Definition u64_checked (z : Z) : option Z :=
  if (0 <=? z) && (z <=? U64_MAX) then Some z else None.
Definition u64_checked_add (a b : Z) : option Z := u64_checked (a + b).
Definition u64_checked_sub (a b : Z) : option Z := u64_checked (a - b).
(** [a.saturating_sub(b)] on [u64]. *)
Definition u64_saturating_sub (a b : Z) : Z := Z.max 0 (a - b).
(** [a as i64] for a [u64]: the two's complement reading. *)
Definition u64_as_i64 (z : Z) : Z := if z <? 2 ^ 63 then z else z - 2 ^ 64.
(** [a as u64] for an [i64]. *)
Definition i64_as_u64 (z : Z) : Z := z mod 2 ^ 64.
(** [a + b], [a - b] on [i64] in the checked build: overflow panics. *)
Definition i64_checked {E} (z : Z) : outcome E Z :=
  if (- 2 ^ 63 <=? z) && (z <? 2 ^ 63) then Ok z else Panic.
(** [!a] on [u64]. *)
Definition u64_not (z : Z) : Z := Z.lxor U64_MAX z.

Lemma u64_checked_some z r : u64_checked z = Some r ↔ r = z ∧ is_u64 z.
Proof.
  unfold u64_checked, is_u64.
  destruct (_ && _) eqn:H; [bool_prop; naive_solver lia|].
  apply andb_false_iff in H as [?|?]; bool_prop; naive_solver lia.
Qed.

Lemma i64_checked_ok {E} z r : @i64_checked E z = Ok r ↔ r = z ∧ is_i64 z.
Proof.
  unfold i64_checked, is_i64.
  destruct (_ && _) eqn:H; [bool_prop; naive_solver lia|].
  apply andb_false_iff in H as [?|?]; bool_prop; naive_solver lia.
Qed.

(** Division facts used by the fixed-point lemmas. *)
Lemma div_bounds a d : 0 < d → d * (a / d) ≤ a < d * (a / d) + d.
Proof. intros Hd. pose proof (Z.mod_pos_bound a d Hd). pose proof (Z.div_mod a d). lia. Qed.

Lemma div_le_iff a d q : 0 < d → a / d ≤ q ↔ a < d * (q + 1).
Proof. intros Hd. pose proof (div_bounds a d Hd). split; intros; nia. Qed.

Lemma le_div_iff a d q : 0 < d → q ≤ a / d ↔ d * q ≤ a.
Proof. intros Hd. pose proof (div_bounds a d Hd). split; intros; nia. Qed.

(** ** Bit flags *)
Lemma land_mask_eq_testbit z m :
  0 ≤ m → (Z.land z m =? m) = true ↔ ∀ i, 0 ≤ i → Z.testbit m i = true → Z.testbit z i = true.
Proof.
  intros Hm. rewrite Z.eqb_eq. split.
  - intros H i Hi Hb.
    assert (Z.testbit (Z.land z m) i = true) as Hl by congruence.
    rewrite Z.land_spec in Hl. apply andb_prop in Hl. tauto.
  - intros H. apply Z.bits_inj'. intros i Hi. rewrite Z.land_spec.
    destruct (Z.testbit m i) eqn:E; [by rewrite (H i Hi E)|by rewrite andb_false_r].
Qed.

(** ** Lists *)
Section ListLemmas.
Context {A : Type}.

(** [l.iter().position(p)] *)
Fixpoint position (p : A → bool) (l : list A) : option nat :=
  match l with
  | [] => None
  | x :: l' => if p x then Some 0%nat else S <$> position p l'
  end.

Lemma position_Some p l i :
  position p l = Some i →
  ∃ x, l !! i = Some x ∧ p x = true ∧ ∀ j y, (j < i)%nat → l !! j = Some y → p y = false.
Proof.
  revert i; induction l as [|x l IH]; intros i; simpl; [done|].
  destruct (p x) eqn:Hp.
  - intros [= <-]. exists x. split_and!; [done..|lia].
  - destruct (position p l) as [i'|] eqn:Hpos; [|done]. simpl. intros [= <-].
    destruct (IH i' eq_refl) as (y & Hy & Hpy & Hall).
    exists y. split_and!; [done..|]. intros [|j] z Hj Hz; simpl in *; [naive_solver|].
    apply (Hall j); [lia|done].
Qed.

Lemma position_None p l :
  position p l = None ↔ ∀ i x, l !! i = Some x → p x = false.
Proof.
  induction l as [|x l IH]; simpl; [naive_solver|].
  destruct (p x) eqn:Hp.
  - split; [done|]. intros H. specialize (H 0%nat x eq_refl). congruence.
  - destruct (position p l) as [i'|]; simpl; split; try done.
    + intros H. destruct IH as [_ IH]. discriminate IH. intros i y Hy. by apply (H (S i) y).
    + intros _ [|i] y; simpl; [naive_solver|]. by apply IH.
Qed.

Lemma position_is_Some p l i x :
  l !! i = Some x → p x = true → is_Some (position p l).
Proof.
  intros Hl Hp. destruct (position p l) eqn:E; [by eexists|].
  rewrite position_None in E. rewrite (E i x Hl) in Hp. done.
Qed.

(** [l.chunks(size)]: consecutive pieces, all but the last of that size; the
    counter starts at the length of the list, which is enough. *)
Fixpoint chunks_from (n size : nat) (l : list A) : list (list A) :=
  match n, l with
  | S n, _ :: _ => take size l :: chunks_from n size (drop size l)
  | _, _ => []
  end.
Definition chunks (size : nat) (l : list A) : list (list A) := chunks_from (length l) size l.

Lemma chunks_from_spec size n : (0 < size)%nat → ∀ l, (length l ≤ n)%nat →
  concat (chunks_from n size l) = l ∧ Forall (λ c, c ≠ [] ∧ (length c ≤ size)%nat) (chunks_from n size l).
Proof.
  intros Hs. induction n as [|n IH]; intros [|x l] Hn; try (split; [done|constructor]); [simpl in Hn; lia|].
  cbn [chunks_from concat]. destruct (IH (drop size (x :: l))) as [Hc Hf].
  { rewrite length_drop. simpl in *. lia. }
  split; [by rewrite Hc, take_drop|]. constructor; [|done]. split.
  - destruct size; [lia|done].
  - rewrite length_take. lia.
Qed.
(** No element is left out of the chunks, none is empty, none is too long. *)
Lemma chunks_spec size l : (0 < size)%nat →
  concat (chunks size l) = l ∧ Forall (λ c, c ≠ [] ∧ (length c ≤ size)%nat) (chunks size l).
Proof. intros Hs. by apply chunks_from_spec. Qed.

(** [l.sort_by(..)]: a stable sort, by an order given as a comparison that is
    true when the first element need not come after the second. *)
Fixpoint insert_by (le : A → A → bool) (x : A) (l : list A) : list A :=
  match l with
  | [] => [x]
  | y :: l' => if le x y then x :: l else y :: insert_by le x l'
  end.
Definition sort_by (le : A → A → bool) (l : list A) : list A := foldr (insert_by le) [] l.

Lemma insert_by_perm le x l : insert_by le x l ≡ₚ x :: l.
Proof. induction l as [|y l IH]; simpl; [done|]. destruct (le x y); [done|]. rewrite IH. constructor. Qed.
Lemma sort_by_perm le l : sort_by le l ≡ₚ l.
Proof. induction l as [|x l IH]; simpl; [done|]. by rewrite insert_by_perm, IH. Qed.
(** The result is sorted if the comparison is total on the elements. *)
Lemma insert_by_sorted (P : A → Prop) le x l :
  (∀ a b, P a → P b → le a b = true ∨ le b a = true) →
  (∀ a b c, le a b = true → le b c = true → le a c = true) →
  P x → Forall P l → StronglySorted (λ a b, le a b = true) l →
  StronglySorted (λ a b, le a b = true) (insert_by le x l).
Proof.
  intros Htot Htrans Hx. induction l as [|y l IH]; simpl; intros Hl Hs; [repeat constructor|].
  apply list.Forall_cons in Hl as [Hy Hl]. pose proof Hs as [Hs' Hall]%StronglySorted_inv.
  destruct (le x y) eqn:E.
  - constructor; [done|]. constructor; [done|]. eapply list.Forall_impl; [exact Hall|]. intros z. simpl. by apply Htrans.
  - constructor; [by apply IH|]. rewrite insert_by_perm. constructor; [|done].
    destruct (Htot x y Hx Hy); congruence.
Qed.
Lemma sort_by_sorted (P : A → Prop) le l :
  (∀ a b, P a → P b → le a b = true ∨ le b a = true) →
  (∀ a b c, le a b = true → le b c = true → le a c = true) →
  Forall P l → StronglySorted (λ a b, le a b = true) (sort_by le l).
Proof.
  intros Htot Htrans. induction 1 as [|x l Hx Hl IH]; simpl; [constructor|].
  eapply insert_by_sorted; [done..| |done]. by rewrite sort_by_perm.
Qed.

(** Sum of an integer measure over a list. *)
Definition sumZ (f : A → Z) (l : list A) : Z := foldr (λ x s, f x + s) 0 l.

Lemma sumZ_app f l k : sumZ f (l ++ k) = sumZ f l + sumZ f k.
Proof. induction l; simpl; [done | unfold sumZ in *; simpl; lia]. Qed.

Lemma sumZ_perm f l l' : l ≡ₚ l' → sumZ f l = sumZ f l'.
Proof. unfold sumZ. induction 1; simpl; lia. Qed.
Lemma sumZ_nonneg f l : (∀ x, x ∈ l → 0 ≤ f x) → 0 ≤ sumZ f l.
Proof.
  induction l as [|x l IH]; simpl; intros H; [lia|].
  pose proof (H x ltac:(left)). pose proof (IH ltac:(intros; apply H; by right)).
  unfold sumZ in *. simpl. lia.
Qed.

Lemma sumZ_insert f l i x y :
  l !! i = Some x → sumZ f (<[i := y]> l) = sumZ f l - f x + f y.
Proof.
  revert i; induction l as [|z l IH]; intros [|i] H; simplify_eq/=; [lia|].
  specialize (IH i H). unfold sumZ in *. simpl. lia.
Qed.

Lemma sumZ_elem_le f l i x :
  (∀ y, y ∈ l → 0 ≤ f y) → l !! i = Some x → f x ≤ sumZ f l.
Proof.
  revert i; induction l as [|z l IH]; intros [|i] Hpos H; simplify_eq/=.
  - pose proof (sumZ_nonneg f l ltac:(intros; apply Hpos; by right)). unfold sumZ in *. simpl. lia.
  - pose proof (IH i ltac:(intros; apply Hpos; by right) H).
    pose proof (Hpos z ltac:(left)). unfold sumZ in *. simpl. lia.
Qed.

Lemma sumZ_zero f l : (∀ i x, l !! i = Some x → f x = 0) → sumZ f l = 0.
Proof.
  induction l as [|x l IH]; intros H; [done|].
  pose proof (H 0%nat x eq_refl). pose proof (IH (λ i, H (S i))). unfold sumZ in *. simpl. lia.
Qed.

(** Only one element counts. *)
Lemma sumZ_single f l i x :
  l !! i = Some x → (∀ j y, l !! j = Some y → j ≠ i → f y = 0) → sumZ f l = f x.
Proof.
  revert i; induction l as [|z l IH]; intros [|i] Hi H; simplify_eq/=.
  - unfold sumZ. simpl. fold (sumZ f l).
    rewrite (sumZ_zero f l); [lia|]. intros j y Hj. by apply (H (S j)).
  - unfold sumZ. simpl. fold (sumZ f l). rewrite (H 0%nat z eq_refl) by lia.
    apply (IH i Hi). intros j y Hj Hne. by apply (H (S j)); [|lia].
Qed.
End ListLemmas.

(** ** Sums over the values of a map *)
Definition map_sum {A} (f : A → Z) (m : gmap Z A) : Z := map_fold (λ _ x s, f x + s) 0 m.
Section MapSum.
Context {A : Type} (f : A → Z).
Implicit Types m : gmap Z A.

Lemma map_sum_insert_new m k x : m !! k = None → map_sum f (<[k := x]> m) = f x + map_sum f m.
Proof. intros H. unfold map_sum. rewrite map_fold_insert_L; [done|intros; lia|done]. Qed.

Lemma map_sum_delete m k x : m !! k = Some x → map_sum f m = f x + map_sum f (delete k m).
Proof. intros H. unfold map_sum. rewrite (map_fold_delete_L _ _ k x m); [done|intros; lia|done]. Qed.

Lemma map_sum_update m k x y :
  m !! k = Some x → map_sum f (<[k := y]> m) = map_sum f m - f x + f y.
Proof.
  intros H. rewrite <- (insert_delete_eq m k y), map_sum_insert_new by apply lookup_delete_eq.
  rewrite (map_sum_delete m k x) by done. lia.
Qed.

Lemma map_sum_zero m : (∀ k x, m !! k = Some x → f x = 0) → map_sum f m = 0.
Proof.
  induction m as [|k x m Hn IH] using map_ind; intros H; [done|].
  rewrite map_sum_insert_new, (H k x), IH; [done| |apply lookup_insert_eq|done].
  intros k' x' Hk. apply (H k'). rewrite lookup_insert_ne; [done|congruence].
Qed.

Lemma map_sum_nonneg m : (∀ k x, m !! k = Some x → 0 ≤ f x) → 0 ≤ map_sum f m.
Proof.
  induction m as [|k x m Hn IH] using map_ind; intros H; [done|].
  rewrite map_sum_insert_new by done. pose proof (H k x (lookup_insert_eq _ _ _)).
  assert (0 ≤ map_sum f m); [|lia].
  apply IH. intros k' x' Hk. apply (H k'). rewrite lookup_insert_ne; [done|congruence].
Qed.

Lemma map_sum_ge m k x : (∀ k x, m !! k = Some x → 0 ≤ f x) → m !! k = Some x → f x ≤ map_sum f m.
Proof.
  intros H Hk. rewrite (map_sum_delete _ _ _ Hk).
  assert (0 ≤ map_sum f (delete k m)); [|lia].
  apply map_sum_nonneg. intros k' x' [_ Hx]%lookup_delete_Some. eauto.
Qed.
End MapSum.

Lemma sort_leb_sorted (l : list Z) : StronglySorted Z.le (sort_by Z.leb l).
Proof.
  assert (StronglySorted (λ a b, (a <=? b) = true) (sort_by Z.leb l)) as Hs.
  { apply (sort_by_sorted (λ _, True)); [intros a b; rewrite !Z.leb_le; lia|intros a b c; rewrite !Z.leb_le; lia|].
    by apply list.Forall_forall. }
  induction Hs as [|x k Hs IH Hall]; constructor; [done|]. eapply list.Forall_impl; [exact Hall|]. intros y. apply Z.leb_le.
Qed.
(** [Vec::dedup]: drops an element equal to the one before it. *)
Fixpoint dedup_from (x : Z) (l : list Z) : list Z :=
  match l with
  | [] => []
  | y :: l => if x =? y then dedup_from x l else y :: dedup_from y l
  end.
Definition dedup (l : list Z) : list Z :=
  match l with [] => [] | x :: l => x :: dedup_from x l end.
(** Only consecutive copies are dropped: no element is lost. *)
Lemma dedup_from_elem k l : ∀ x, k ∈ x :: dedup_from x l ↔ k ∈ x :: l.
Proof.
  induction l as [|y l IH]; intros x; simpl; [done|]. destruct (Z.eqb_spec x y) as [->|].
  - rewrite IH. set_solver.
  - specialize (IH y). rewrite (elem_of_cons (y :: l)), (elem_of_cons (y :: dedup_from y l)). by rewrite IH.
Qed.
Lemma dedup_elem k l : k ∈ dedup l ↔ k ∈ l.
Proof. destruct l as [|x l]; [done|]. apply dedup_from_elem. Qed.
(** On a sorted list nothing is kept twice. *)
Lemma dedup_from_sorted l : ∀ x, StronglySorted Z.le (x :: l) → StronglySorted Z.lt (x :: dedup_from x l).
Proof.
  induction l as [|y l IH]; intros x Hs; simpl; [repeat constructor|].
  apply StronglySorted_inv in Hs as [Hs Hall]. apply list.Forall_cons in Hall as [Hxy Hall].
  destruct (Z.eqb_spec x y) as [->|Hne]; [by apply IH|].
  constructor; [by apply IH|]. apply list.Forall_forall. intros z Hz.
  apply StronglySorted_inv in Hs as [_ Hy]. rewrite list.Forall_forall in Hy.
  rewrite dedup_from_elem in Hz. apply elem_of_cons in Hz as [->|Hz]; [lia|]. specialize (Hy z Hz). lia.
Qed.
Lemma dedup_sorted l : StronglySorted Z.le l → StronglySorted Z.lt (dedup l).
Proof. destruct l as [|x l]; [constructor|apply dedup_from_sorted]. Qed.

(** ** Effects that an error does not undo

    Off chain a failing command keeps what it has already done: it is a
    function from a state to a result and the state it leaves, whatever the
    result.  [do! x := m in k] is [let x = m?; k]. *)
Definition effect (S E A : Type) : Type := S → outcome E A * S.
Definition effect_ret {S E A} (a : A) : effect S E A := λ s, (Ok a, s).
Definition effect_bind {S E A B} (f : A → effect S E B) (m : effect S E A) : effect S E B :=
  λ s, match m s with
       | (Ok a, s') => f a s'
       | (Err e, s') => (Err e, s')
       | (Panic, s') => (Panic, s')
       end.
(** A computation that leaves the state alone, and one that replaces it. *)
Definition effect_lift {S E A} (r : outcome E A) : effect S E A := λ s, (r, s).
Definition effect_reads {S E A} (f : S → outcome E A) : effect S E A := λ s, (f s, s).
Definition effect_put {S E} (s : S) : effect S E unit := λ _, (Ok tt, s).
(** [for x in l { f(x)?; }] *)
Fixpoint effect_each {S E A} (f : A → effect S E unit) (l : list A) : effect S E unit :=
  match l with [] => effect_ret tt | x :: l => effect_bind (λ _, effect_each f l) (f x) end.
Notation "'do!' x := m 'in' k" := (effect_bind (λ x, k) m)
  (at level 200, x name, m at level 200, k at level 200,
   format "'[v' 'do!'  x  :=  m  'in' '/' k ']'") : outcome_scope.

(** Every state an effect reaches is related to the one it started from. *)
Definition effect_within {S E A} (R : S → S → Prop) (m : effect S E A) : Prop := ∀ s, R s (snd (m s)).
Section EffectLemmas.
Context {S E : Type}.
Lemma effect_bind_ok {A B} (f : A → effect S E B) (m : effect S E A) s b s' :
  effect_bind f m s = (Ok b, s') ↔ ∃ a s1, m s = (Ok a, s1) ∧ f a s1 = (Ok b, s').
Proof. unfold effect_bind. destruct (m s) as [[a|e|] s1]; split; naive_solver. Qed.
Lemma effect_within_ret {A} (R : relation S) `{!Reflexive R} (a : A) : effect_within R (@effect_ret S E A a).
Proof. intros s. apply reflexivity. Qed.
Lemma effect_within_lift {A} (R : relation S) `{!Reflexive R} (r : outcome E A) :
  effect_within R (@effect_lift S E A r).
Proof. intros s. apply reflexivity. Qed.
Lemma effect_within_reads {A} (R : relation S) `{!Reflexive R} (f : S → outcome E A) :
  effect_within R (effect_reads f).
Proof. intros s. apply reflexivity. Qed.
Lemma effect_within_bind {A B} (R : relation S) `{!Transitive R} (f : A → effect S E B) (m : effect S E A) :
  effect_within R m → (∀ a, effect_within R (f a)) → effect_within R (effect_bind f m).
Proof.
  intros Hm Hf s. unfold effect_bind. specialize (Hm s). destruct (m s) as [[a|e|] s1]; simpl in *; [|done..].
  etransitivity; [exact Hm|apply Hf].
Qed.
Lemma effect_within_each {A} (R : relation S) `{!Reflexive R} `{!Transitive R} (f : A → effect S E unit) (l : list A) :
  (∀ x, effect_within R (f x)) → effect_within R (effect_each f l).
Proof.
  intros H. induction l as [|x l IH]; [by apply effect_within_ret|].
  by apply (effect_within_bind R (λ _, effect_each f l)).
Qed.
End EffectLemmas.

Create HintDb effects.
#[export] Hint Resolve effect_within_ret effect_within_lift effect_within_reads effect_within_bind effect_within_each : effects.

Create HintDb marginfi.
#[export] Hint Rewrite @bind_ok @check_or_ok @rust_assert_ok @ok_or_ok @unwrap_ok : marginfi.

(** ** Hash maps *)
(** The order in which a [HashMap] is iterated is unspecified. *)
Class HashOrder := {
  hash_iter {A} : gmap Z A → list (Z * A);
  hash_iter_perm {A} (m : gmap Z A) : hash_iter m ≡ₚ map_to_list m
}.

Lemma hash_iter_elem {HO : HashOrder} {A} (m : gmap Z A) k a : (k, a) ∈ hash_iter m ↔ m !! k = Some a.
Proof. rewrite hash_iter_perm. apply elem_of_map_to_list. Qed.
