(* ===== verification/Errors.v ===== *)
(** * Errors of the programs

    The error enumerations of [programs/marginfi/src/errors.rs] and
    [programs/liquidity-incentive-program/src/errors.rs], and the sum type of
    every error an instruction can return.  The Anchor and runtime errors are
    the ones the account constraints and the system calls of the handlers can
    raise; [ECpi] is an error a called program returns. *)
From S2P Require Import Prelude.

Inductive MarginfiError : Set :=
| MathError | BankNotFound | LendingAccountBalanceNotFound | BankAssetCapacityExceeded
| InvalidTransfer | MissingPythOrBankAccount | MissingPythAccount | InvalidOracleAccount
| MissingBankAccount | InvalidBankAccount | RiskEngineInitRejected
| LendingAccountBalanceSlotsFull | BankAlreadyExists | IllegalLiquidation
| AccountNotBankrupt | BalanceNotBadDebt | InvalidConfig | StaleOracle | BankPaused
| BankReduceOnly | BankAccountNotFound | OperationDepositOnly | OperationWithdrawOnly
| OperationBorrowOnly | OperationRepayOnly | NoAssetFound | NoLiabilityFound
| InvalidOracleSetup | IllegalUtilizationRatio | BankLiabilityCapacityExceeded
| InvalidPrice | IsolatedAccountIllegalState | EmissionsAlreadySetup | OracleNotSetup
| InvalidSwitchboardDecimalConversion | CannotCloseOutstandingEmissions
| EmissionsUpdateError | AccountDisabled | AccountTempActiveBalanceLimitExceeded
| AccountInFlashloan | IllegalFlashloan | IllegalFlag | IllegalBalanceState
| IllegalAccountAuthorityTransfer | Unauthorized | IllegalAction | T22MintRequired
| InvalidFeeAta.

(** [LIPError] *)
Inductive LIPError : Set :=
| CampaignNotActive | DepositAmountTooLarge | DepositNotMature.

(** The Anchor framework's errors raised by [#[account(..)]] constraints,
    by [require!] macros without a custom error and by account loaders. *)
Inductive AnchorError : Set :=
| ConstraintHasOne | ConstraintRaw | ConstraintSeeds | ConstraintAddress
| AccountNotSigner | AccountNotInitialized | AccountAlreadyInUse
| AccountBorrowFailed | InvalidProgramId | RequireGtViolated | RequireGteViolated.

Inductive error : Set :=
| EMarginfi (e : MarginfiError)
| ELip (e : LIPError)
| EAnchor (e : AnchorError)
| EInvalidAccountData
| EBorshIo
| EInvalidArgument
| ECpi (code : Z).

Coercion EMarginfi : MarginfiError >-> error.
Coercion ELip : LIPError >-> error.
Coercion EAnchor : AnchorError >-> error.

#[export] Instance MarginfiError_eq_dec : EqDecision MarginfiError.
Proof. solve_decision. Defined.
#[export] Instance LIPError_eq_dec : EqDecision LIPError.
Proof. solve_decision. Defined.
#[export] Instance AnchorError_eq_dec : EqDecision AnchorError.
Proof. solve_decision. Defined.
#[export] Instance error_eq_dec : EqDecision error.
Proof. solve_decision. Defined.

(** [MarginfiResult<T>] *)
Notation MarginfiResult := (outcome error).

Definition check (b : bool) (e : error) : MarginfiResult unit := check_or b e.
Arguments check !b e /.

(** [o.ok_or_else(math_error!())] *)
Definition math {A} (o : option A) : MarginfiResult A := ok_or o MathError.

Lemma check_ok b e u : check b e = Ok u ↔ b = true.
Proof. apply check_or_ok. Qed.
Lemma math_ok {A} (o : option A) a : math o = Ok a ↔ o = Some a.
Proof. apply ok_or_ok. Qed.

(** The inversion tactic of the prelude extended with the two forms above. *)
Ltac inv_res :=
  repeat match goal with
  | H : check _ _ = Ok _ |- _ => apply check_ok in H
  | H : math _ = Ok _ |- _ => apply math_ok in H
  | _ => inv_step
  end.
