(* ===== verification/Floats.v ===== *)
(** * Double-precision numbers

    [f64] values as the Standard Library's [spec_float]s, with the operations
    the off-chain programs use on them (rounding to nearest, ties to even),
    and their order, which is total except for NaN. *)
From S2P Require Import Prelude.
From Stdlib Require Export SpecFloat.
#[local] Open Scope Z_scope.

Notation f64 := spec_float.
(** [x as f64], [x as u64] *)
Definition f64_of (n : Z) : f64 := binary_normalize 53 1024 n 0 false.
Definition f64_as_u64 (x : f64) : Z :=
  match x with
  | S754_finite false m e =>
      Z.min U64_MAX (if 0 <=? e then Z.pos m * 2 ^ e else Z.pos m / 2 ^ (- e))
  | S754_infinity false => U64_MAX
  | _ => 0
  end.
Definition f64_add : f64 → f64 → f64 := SFadd 53 1024.
Definition f64_mul : f64 → f64 → f64 := SFmul 53 1024.
Definition f64_div : f64 → f64 → f64 := SFdiv 53 1024.
(** [x.floor() as u64]: the conversion cuts towards zero, which is the floor of
    a positive number; what is negative is 0 either way. *)
Definition f64_floor_as_u64 (x : f64) : Z := f64_as_u64 x.

(** [a.partial_cmp(b)] *)
Definition f64_partial_cmp (a b : f64) : option comparison := SFcompare a b.
Definition is_nan (x : f64) : bool := match x with S754_nan => true | _ => false end.
(** [a] is not after [b]. *)
Definition f64_le (a b : f64) : bool := SFleb a b.

Lemma partial_cmp_some a b : is_nan a = false → is_nan b = false → is_Some (f64_partial_cmp a b).
Proof. destruct a as [[]|[]| |[] ? ?], b as [[]|[]| |[] ? ?]; try done; intros _ _; eexists; reflexivity. Qed.
Lemma partial_cmp_none a b : f64_partial_cmp a b = None ↔ is_nan a = true ∨ is_nan b = true.
Proof. destruct a as [[]|[]| |[] ? ?], b as [[]|[]| |[] ? ?]; split; try (by intros [?|?]); try done; tauto. Qed.

(** Numbers by sign, then by exponent and mantissa. *)
Lemma f64_le_finite s m e s' m' e' : f64_le (S754_finite s m e) (S754_finite s' m' e') = true ↔
  match s, s' with
  | false, false => e < e' ∨ e = e' ∧ (m <= m')%positive
  | true, true => e' < e ∨ e = e' ∧ (m' <= m)%positive
  | true, false => True
  | false, true => False
  end.
Proof.
  unfold f64_le, SFleb, SFcompare. destruct s, s'; simpl; try (split; naive_solver); fold (Pos.compare m m').
  all: destruct (Z.compare_spec e e') as [->|H|H], (Pos.compare_spec m m') as [->|Hm|Hm]; simpl.
  all: split; intros ?; try done; lia.
Qed.
Lemma f64_le_total a b : is_nan a = false → is_nan b = false → f64_le a b = true ∨ f64_le b a = true.
Proof.
  destruct a as [[]|[]| |s m e], b as [[]|[]| |s' m' e']; try (by auto); intros _ _;
    try (by destruct s; auto); try (by destruct s'; auto).
  rewrite !f64_le_finite. destruct s, s'; lia.
Qed.
Lemma f64_le_trans a b c : f64_le a b = true → f64_le b c = true → f64_le a c = true.
Proof.
  destruct a as [[]|[]| |s1 m1 e1], b as [[]|[]| |s2 m2 e2], c as [[]|[]| |s3 m3 e3]; try done;
    try (destruct s1); try (destruct s2); try (destruct s3); try done;
    rewrite !f64_le_finite; lia.
Qed.
