(* ===== verification/Fixed.v ===== *)
(** * The fixed-point interface

    [fixed::types::I80F48] is a signed 128-bit integer that counts units of
    2^-48.  The model represents a value by that integer (its bits), so [ZERO],
    [ONE], comparisons, [min]/[max], [is_zero]/[is_positive] and the lossless
    conversions from machine integers are the integer ones.  The operations
    that round or can overflow belong to the [fixed] crate, which is not part
    of the repository: they are the operations of the class [FixedOps], and
    [FixedLaws] states what the code relies on.  Multiplication and division
    drop the bits that do not fit; the laws leave open whether a negative
    result is rounded toward zero or toward minus infinity, so no theorem
    depends on it.  [i80f48] is a concrete implementation of the interface.

    [Module Wrapped] models [WrappedI80F48] (state/marginfi_group.rs), the
    little-endian 16-byte form of a value in account data. *)
From S2P Require Import Prelude Errors.

Notation I80F48 := Z (only parsing).

Definition SCALE : Z := 2 ^ 48.
Definition ZERO : I80F48 := 0.
Definition ONE : I80F48 := SCALE.
Definition I80F48_MIN : Z := - 2 ^ 127.
Definition I80F48_MAX : Z := 2 ^ 127 - 1.
Definition is_i80f48 (z : Z) : Prop := I80F48_MIN ≤ z ≤ I80F48_MAX.

(** [I80F48::from_num(n)] for an integer type whose values all fit
    ([u64], [i64], [u32], [u8]). *)
Definition from_num (n : Z) : I80F48 := n * SCALE.

(** A result of the exact operation that is representable. *)
Definition fits (z : Z) : option Z :=
  if (I80F48_MIN <=? z) && (z <=? I80F48_MAX) then Some z else None.

(** [q] is [n / d] without the bits that do not fit. *)
Definition drops_bits (n d q : Z) : Prop := q = n / d ∨ q = Z.quot n d.

Class FixedOps : Type := {
  checked_add : I80F48 → I80F48 → option I80F48;
  checked_sub : I80F48 → I80F48 → option I80F48;
  checked_mul : I80F48 → I80F48 → option I80F48;
  checked_div : I80F48 → I80F48 → option I80F48;
  checked_floor : I80F48 → option I80F48;
  checked_ceil : I80F48 → option I80F48;
  checked_to_u64 : I80F48 → option Z;
  fx_int : I80F48 → I80F48;
  fx_frac : I80F48 → I80F48;
  fx_abs : I80F48 → MarginfiResult I80F48;
  op_add : I80F48 → I80F48 → MarginfiResult I80F48;
  op_sub : I80F48 → I80F48 → MarginfiResult I80F48;
  op_neg : I80F48 → MarginfiResult I80F48;
  saturating_add : I80F48 → I80F48 → I80F48;
  saturating_sub : I80F48 → I80F48 → I80F48;
  from_i128 : Z → MarginfiResult I80F48
}.

Class FixedLaws (F : FixedOps) : Prop := {
  checked_add_spec a b : checked_add a b = fits (a + b);
  checked_sub_spec a b : checked_sub a b = fits (a - b);
  checked_mul_spec a b : ∃ q, drops_bits (a * b) SCALE q ∧ checked_mul a b = fits q;
  checked_div_zero a : checked_div a 0 = None;
  checked_div_spec a b : b ≠ 0 → ∃ q, drops_bits (a * SCALE) b q ∧ checked_div a b = fits q;
  checked_floor_spec a : checked_floor a = fits (a / SCALE * SCALE);
  checked_ceil_spec a : checked_ceil a = fits (- (- a / SCALE) * SCALE);
  checked_to_u64_spec a : checked_to_u64 a = u64_checked (a / SCALE);
  fx_int_spec a : fx_int a = a / SCALE * SCALE;
  fx_frac_spec a : fx_frac a = a mod SCALE;
  fx_abs_spec a : is_i80f48 (Z.abs a) → fx_abs a = Ok (Z.abs a);
  op_add_spec a b : is_i80f48 (a + b) → op_add a b = Ok (a + b);
  op_sub_spec a b : is_i80f48 (a - b) → op_sub a b = Ok (a - b);
  op_neg_spec a : is_i80f48 (- a) → op_neg a = Ok (- a);
  op_ok a b c : (op_add a b = Ok c → c = a + b) ∧ (op_sub a b = Ok c → c = a - b);
  op_neg_ok a c : op_neg a = Ok c → c = - a;
  fx_abs_ok a c : fx_abs a = Ok c → c = Z.abs a;
  saturating_add_spec a b : saturating_add a b = Z.max I80F48_MIN (Z.min I80F48_MAX (a + b));
  saturating_sub_spec a b : saturating_sub a b = Z.max I80F48_MIN (Z.min I80F48_MAX (a - b));
  from_i128_spec n : is_i80f48 (n * SCALE) → from_i128 n = Ok (n * SCALE);
  from_i128_ok n c : from_i128 n = Ok c → c = n * SCALE
}.

(** ** A concrete implementation *)
Definition panicking (z : Z) : MarginfiResult I80F48 := unwrap (fits z).

#[export] Instance i80f48 : FixedOps := {|
  checked_add a b := fits (a + b);
  checked_sub a b := fits (a - b);
  checked_mul a b := fits (Z.shiftr (a * b) 48);
  checked_div a b := if b =? 0 then None else fits (Z.quot (Z.shiftl a 48) b);
  checked_floor a := fits (Z.shiftl (Z.shiftr a 48) 48);
  checked_ceil a := fits (Z.shiftl (- Z.shiftr (- a) 48) 48);
  checked_to_u64 a := u64_checked (Z.shiftr a 48);
  fx_int a := Z.shiftl (Z.shiftr a 48) 48;
  fx_frac a := Z.land a (Z.ones 48);
  fx_abs a := panicking (Z.abs a);
  op_add a b := panicking (a + b);
  op_sub a b := panicking (a - b);
  op_neg a := panicking (- a);
  saturating_add a b := Z.max I80F48_MIN (Z.min I80F48_MAX (a + b));
  saturating_sub a b := Z.max I80F48_MIN (Z.min I80F48_MAX (a - b));
  from_i128 n := panicking (n * SCALE)
|}.

Lemma fits_some z r : fits z = Some r ↔ r = z ∧ is_i80f48 z.
Proof.
  unfold fits, is_i80f48.
  destruct (_ && _) eqn:H; [bool_prop; split; [intros [= ->]; tauto | intros [-> _]; done]|].
  apply andb_false_iff in H. split; [done|].
  intros [_ ?]. destruct H; bool_prop; lia.
Qed.

Lemma panicking_ok z r : panicking z = Ok r ↔ r = z ∧ is_i80f48 z.
Proof. unfold panicking. by rewrite unwrap_ok, fits_some. Qed.

#[export] Instance i80f48_laws : FixedLaws i80f48.
Proof.
  split; simpl; try done; intros; rewrite ?panicking_ok;
    rewrite ?Z.shiftl_mul_pow2, ?Z.shiftr_div_pow2 by lia; try done.
  - exists (a * b / SCALE). split; [by left|done].
  - exists (Z.quot (a * SCALE) b). split; [by right|].
    by rewrite (proj2 (Z.eqb_neq b 0)).
  - by rewrite Z.land_ones.
  - tauto.
  - by apply panicking_ok in H as [].
  - by apply panicking_ok in H as [].
  - by apply panicking_ok in H as [].
Qed.

(** ** Derived facts

    [fmul] and [fdiv] are the values of the checked operations on
    non-negative operands. *)
Definition fmul (a b : Z) : Z := a * b / SCALE.
Definition fdiv (a b : Z) : Z := a * SCALE / b.

Lemma SCALE_pos : 0 < SCALE.
Proof. reflexivity. Qed.
#[export] Hint Resolve SCALE_pos : marginfi.

Lemma drops_bits_nn n d q : 0 ≤ n → 0 < d → drops_bits n d q → q = n / d.
Proof. intros Hn Hd [->| ->]; [done|]. apply Z.quot_div_nonneg; lia. Qed.

Lemma drops_bits_err n d q : 0 < d → drops_bits n d q → Z.abs (q * d - n) < d.
Proof.
  intros Hd [->| ->].
  - pose proof (div_bounds n d Hd). lia.
  - pose proof (Z.quot_rem' n d). pose proof (Z.rem_bound_abs n d). lia.
Qed.

Section FmulFacts.
Lemma fmul_nonneg a b : 0 ≤ a → 0 ≤ b → 0 ≤ fmul a b.
Proof. intros. apply Z.div_pos; [nia|apply SCALE_pos]. Qed.
Lemma fdiv_nonneg a b : 0 ≤ a → 0 < b → 0 ≤ fdiv a b.
Proof. intros. pose proof SCALE_pos. apply Z.div_pos; nia. Qed.
Lemma fmul_comm a b : fmul a b = fmul b a.
Proof. unfold fmul. by rewrite Z.mul_comm. Qed.
Lemma fmul_mono a a' b b' : 0 ≤ a ≤ a' → 0 ≤ b ≤ b' → fmul a b ≤ fmul a' b'.
Proof. intros. apply Z.div_le_mono; [apply SCALE_pos|nia]. Qed.
Lemma fdiv_mono a a' b : a ≤ a' → 0 < b → fdiv a b ≤ fdiv a' b.
Proof. intros. pose proof SCALE_pos. apply Z.div_le_mono; [done|nia]. Qed.
(** Division by a non-negative number, zero included. *)
Lemma fdiv_mono' a a' n : a ≤ a' → fdiv a (from_num (10 ^ n)) ≤ fdiv a' (from_num (10 ^ n)).
Proof.
  intros. pose proof SCALE_pos. destruct (decide (0 ≤ n)).
  - apply fdiv_mono; [done|]. unfold from_num. pose proof (Z.pow_pos_nonneg 10 n). nia.
  - rewrite (Z.pow_neg_r 10 n) by lia. unfold fdiv, from_num. simpl. by rewrite !Zdiv_0_r.
Qed.
Lemma fmul_ONE_r a : fmul a ONE = a.
Proof. apply Z.div_mul. discriminate. Qed.
Lemma fmul_ONE_l a : fmul ONE a = a.
Proof. rewrite fmul_comm. apply fmul_ONE_r. Qed.
Lemma fmul_0_l a : fmul 0 a = 0.
Proof. reflexivity. Qed.
Lemma fmul_0_r a : fmul a 0 = 0.
Proof. by rewrite fmul_comm. Qed.
Lemma fdiv_0_l a : fdiv 0 a = 0.
Proof. unfold fdiv. rewrite Z.mul_0_l. by destruct a. Qed.
Lemma fdiv_ONE_r a : fdiv a ONE = a.
Proof. apply Z.div_mul. discriminate. Qed.
Lemma fdiv_diag a : 0 < a → fdiv a a = ONE.
Proof. intros. unfold fdiv. rewrite Z.mul_comm. apply Z.div_mul. lia. Qed.
(** Multiplying by at most one does not increase. *)
Lemma fmul_le_l a b : 0 ≤ a → 0 ≤ b ≤ ONE → fmul a b ≤ a.
Proof. intros. rewrite <- (fmul_ONE_r a) at 2. apply fmul_mono; lia. Qed.
(** Multiplying by at least one does not decrease. *)
Lemma fmul_ge_l a b : 0 ≤ a → ONE ≤ b → a ≤ fmul a b.
Proof.
  intros. rewrite <- (fmul_ONE_r a) at 1. apply fmul_mono; [lia|].
  unfold ONE, SCALE in *. lia.
Qed.
Lemma fdiv_le_ONE a b : 0 ≤ a ≤ b → 0 < b → fdiv a b ≤ ONE.
Proof. intros. rewrite <- (fdiv_diag b) by done. apply fdiv_mono; lia. Qed.
(** Converting an amount to shares and back never gains. *)
Lemma fmul_fdiv_le a b : 0 ≤ a → 0 < b → fmul (fdiv a b) b ≤ a.
Proof.
  intros. unfold fmul, fdiv. pose proof SCALE_pos.
  pose proof (div_bounds (a * SCALE) b ltac:(lia)).
  apply Z.div_le_upper_bound; [lia|]. lia.
Qed.
(** ... and loses less than one share's value and one unit. *)
Lemma fmul_fdiv_ge a b : 0 ≤ a → 0 < b → a - b / SCALE - 1 ≤ fmul (fdiv a b) b.
Proof.
  intros. unfold fmul, fdiv. pose proof SCALE_pos.
  pose proof (div_bounds (a * SCALE) b ltac:(lia)).
  pose proof (div_bounds b SCALE ltac:(lia)).
  apply Z.div_le_lower_bound; [lia|]. nia.
Qed.
(** Converting shares to an amount and back never gains. *)
Lemma fdiv_fmul_le a b : 0 ≤ a → 0 < b → fdiv (fmul a b) b ≤ a.
Proof.
  intros. unfold fmul, fdiv. pose proof SCALE_pos.
  pose proof (div_bounds (a * b) SCALE ltac:(lia)).
  apply Z.div_le_upper_bound; [lia|]. lia.
Qed.
End FmulFacts.
#[export] Hint Resolve fmul_nonneg fdiv_nonneg fmul_fdiv_le fdiv_fmul_le : marginfi.
#[export] Hint Rewrite fmul_ONE_r fmul_ONE_l fmul_0_l fmul_0_r fdiv_ONE_r fdiv_0_l : fixed.

Section Laws.
Context {F : FixedOps} {L : FixedLaws F}.

Lemma add_some a b c : checked_add a b = Some c → c = a + b ∧ is_i80f48 c.
Proof. rewrite checked_add_spec. intros [-> ?]%fits_some. done. Qed.
Lemma sub_some a b c : checked_sub a b = Some c → c = a - b ∧ is_i80f48 c.
Proof. rewrite checked_sub_spec. intros [-> ?]%fits_some. done. Qed.
Lemma add_ok a b : is_i80f48 (a + b) → checked_add a b = Some (a + b).
Proof. intros. rewrite checked_add_spec. by apply fits_some. Qed.
Lemma sub_ok a b : is_i80f48 (a - b) → checked_sub a b = Some (a - b).
Proof. intros. rewrite checked_sub_spec. by apply fits_some. Qed.

Lemma mul_some a b c :
  0 ≤ a → 0 ≤ b → checked_mul a b = Some c → c = fmul a b ∧ is_i80f48 c.
Proof.
  intros Ha Hb Hm. destruct (checked_mul_spec a b) as (q & Hq & E).
  rewrite E in Hm. apply fits_some in Hm as [-> Hi].
  apply drops_bits_nn in Hq; [done|nia|apply SCALE_pos].
Qed.
Lemma mul_ok a b :
  0 ≤ a → 0 ≤ b → fmul a b ≤ I80F48_MAX → checked_mul a b = Some (fmul a b).
Proof.
  intros Ha Hb Hm. destruct (checked_mul_spec a b) as (q & Hq & E).
  apply drops_bits_nn in Hq; [|nia|apply SCALE_pos].
  rewrite E, Hq. apply fits_some. split; [done|].
  pose proof (fmul_nonneg a b Ha Hb). unfold is_i80f48, I80F48_MIN, fmul in *. lia.
Qed.
Lemma mul_err a b c :
  checked_mul a b = Some c → Z.abs (c * SCALE - a * b) < SCALE ∧ is_i80f48 c.
Proof.
  destruct (checked_mul_spec a b) as (q & Hq & ->). intros [-> ?]%fits_some.
  split; [|done]. apply drops_bits_err; [apply SCALE_pos|done].
Qed.

Lemma div_some a b c :
  0 ≤ a → 0 ≤ b → checked_div a b = Some c → 0 < b ∧ c = fdiv a b ∧ is_i80f48 c.
Proof.
  intros Ha Hb Hd. destruct (decide (b = 0)) as [->|Hne].
  { by rewrite checked_div_zero in Hd. }
  destruct (checked_div_spec a b Hne) as (q & Hq & E).
  rewrite E in Hd. apply fits_some in Hd as [-> Hi].
  pose proof SCALE_pos. apply drops_bits_nn in Hq; [|nia|lia]. split_and!; [lia|done..].
Qed.
Lemma div_ok a b :
  0 ≤ a → 0 < b → fdiv a b ≤ I80F48_MAX → checked_div a b = Some (fdiv a b).
Proof.
  intros Ha Hb Hm. destruct (checked_div_spec a b ltac:(lia)) as (q & Hq & E).
  pose proof SCALE_pos. apply drops_bits_nn in Hq; [|nia|lia].
  rewrite E, Hq. apply fits_some. split; [done|].
  pose proof (fdiv_nonneg a b Ha Hb). unfold is_i80f48, I80F48_MIN, fdiv in *. lia.
Qed.

Lemma floor_some a c : checked_floor a = Some c → c = a / SCALE * SCALE.
Proof. rewrite checked_floor_spec. by intros [-> ?]%fits_some. Qed.
Lemma ceil_some a c : checked_ceil a = Some c → c = - (- a / SCALE) * SCALE.
Proof. rewrite checked_ceil_spec. by intros [-> ?]%fits_some. Qed.
Lemma to_u64_some a n : checked_to_u64 a = Some n → n = a / SCALE ∧ is_u64 n ∧ 0 ≤ a.
Proof.
  rewrite checked_to_u64_spec. intros [-> Hu]%u64_checked_some. split_and!; [done..|].
  pose proof (div_bounds a SCALE SCALE_pos). destruct Hu. unfold SCALE in *. nia.
Qed.
Lemma op_add_ok a b c : op_add a b = Ok c → c = a + b.
Proof. apply op_ok. Qed.
Lemma op_sub_ok a b c : op_sub a b = Ok c → c = a - b.
Proof. apply op_ok. Qed.
End Laws.

Lemma floor_bounds a : a - SCALE < a / SCALE * SCALE ≤ a.
Proof. pose proof (div_bounds a SCALE SCALE_pos). lia. Qed.
Lemma ceil_bounds a : a ≤ - (- a / SCALE) * SCALE < a + SCALE.
Proof. pose proof (div_bounds (- a) SCALE SCALE_pos). lia. Qed.



(** ** Little-endian account data *)
Module Wrapped.
(** [WrappedI80F48.value] : sixteen bytes, each 0..255. *)
Fixpoint le_bytes (n : nat) (z : Z) : list Z :=
  match n with O => [] | S n => z mod 256 :: le_bytes n (z / 256) end.
Fixpoint le_value (bs : list Z) : Z :=
  match bs with [] => 0 | b :: bs => b + 256 * le_value bs end.

(** [impl From<I80F48> for WrappedI80F48] : [i.to_le_bytes()], the two's
    complement of the 128-bit integer. *)
Definition from_i80f48 (i : I80F48) : list Z := le_bytes 16 (i mod 2 ^ 128).
(** [impl From<WrappedI80F48> for I80F48] : [from_le_bytes]. *)
Definition into_i80f48 (value : list Z) : I80F48 :=
  let v := le_value value in if v <? 2 ^ 127 then v else v - 2 ^ 128.

(** [impl PartialEq for WrappedI80F48] *)
Definition eqb (a b : list Z) : bool := bool_decide (a = b).

Lemma le_bytes_length n z : length (le_bytes n z) = n.
Proof. revert z; induction n; intros; simpl; auto. Qed.

Lemma le_bytes_range n z : Forall (λ b, 0 ≤ b < 256) (le_bytes n z).
Proof.
  revert z; induction n; intros; simpl; constructor; [|done]. by apply Z.mod_pos_bound.
Qed.

Lemma le_value_bytes n z : 0 ≤ z < 256 ^ Z.of_nat n → le_value (le_bytes n z) = z.
Proof.
  revert z; induction n as [|n IH]; intros z Hz; simpl in *; [lia|].
  rewrite Nat2Z.inj_succ, Z.pow_succ_r in Hz by lia.
  rewrite IH.
  - pose proof (Z.div_mod z 256). lia.
  - split; [apply Z.div_pos; lia | apply Z.div_lt_upper_bound; lia].
Qed.

Lemma le_value_range bs :
  Forall (λ b, 0 ≤ b < 256) bs → 0 ≤ le_value bs < 256 ^ Z.of_nat (length bs).
Proof.
  induction 1 as [|b bs Hb _ IH]; simpl; [lia|].
  rewrite Nat2Z.inj_succ, Z.pow_succ_r by lia. lia.
Qed.

Lemma le_bytes_value bs :
  Forall (λ b, 0 ≤ b < 256) bs → le_bytes (length bs) (le_value bs) = bs.
Proof.
  induction 1 as [|b bs Hb _ IH]; simpl; [done|].
  rewrite (Z.mul_comm 256), Z.mod_add, Z.mod_small, Z.div_add, (Z.div_small b), Z.add_0_l by lia.
  by rewrite IH.
Qed.

Lemma into_from i : is_i80f48 i → into_i80f48 (from_i80f48 i) = i.
Proof.
  unfold is_i80f48, I80F48_MIN, I80F48_MAX, into_i80f48, from_i80f48. intros Hi.
  pose proof (Z.mod_pos_bound i (2 ^ 128) ltac:(lia)).
  change (2 ^ 128) with (256 ^ Z.of_nat 16) in *.
  rewrite le_value_bytes by done.
  destruct (decide (0 ≤ i)).
  - rewrite Z.mod_small by lia. rewrite (proj2 (Z.ltb_lt _ _)) by lia. done.
  - replace (i mod 256 ^ Z.of_nat 16) with (i + 256 ^ Z.of_nat 16) in *.
    + rewrite (proj2 (Z.ltb_ge _ _)) by lia. lia.
    + rewrite <- (Z.mod_add i 1) by lia. rewrite Z.mul_1_l. rewrite Z.mod_small; lia.
Qed.

Lemma from_into bs :
  length bs = 16%nat → Forall (λ b, 0 ≤ b < 256) bs → from_i80f48 (into_i80f48 bs) = bs.
Proof.
  intros Hl Hb. pose proof (le_value_range bs Hb) as Hr. rewrite Hl in Hr.
  change (256 ^ Z.of_nat 16) with (2 ^ 128) in Hr.
  unfold from_i80f48, into_i80f48.
  assert ((if le_value bs <? 2 ^ 127 then le_value bs else le_value bs - 2 ^ 128) mod 2 ^ 128
          = le_value bs) as ->.
  { destruct (_ <? _); [by apply Z.mod_small|].
    replace (le_value bs - 2 ^ 128) with (le_value bs + (-1) * 2 ^ 128) by lia.
    rewrite Z.mod_add by lia. by apply Z.mod_small. }
  rewrite <- Hl. by apply le_bytes_value.
Qed.

(** The byte form of a value in account data loses nothing, in
    either direction: every in-range value is read back as itself, and every
    sixteen bytes are written back as themselves. *)
Theorem wrapped_i80f48_roundtrip (i : I80F48) (bs : list Z) :
  is_i80f48 i → length bs = 16%nat → Forall (λ b, 0 ≤ b < 256) bs →
  into_i80f48 (from_i80f48 i) = i ∧ from_i80f48 (into_i80f48 bs) = bs ∧
  is_i80f48 (into_i80f48 bs).
Proof.
  intros Hi Hl Hb. split_and!; [by apply into_from | by apply from_into|].
  pose proof (le_value_range bs Hb) as Hr. rewrite Hl in Hr.
  change (256 ^ Z.of_nat 16) with (2 ^ 128) in Hr.
  unfold into_i80f48, is_i80f48, I80F48_MIN, I80F48_MAX.
  destruct (_ <? _) eqn:E; bool_prop; lia.
Qed.

Lemma wrapped_i80f48_roundtrip_witness :
  into_i80f48 (from_i80f48 (- 3)) = - 3 ∧
  from_i80f48 (into_i80f48 (repeat 255 16)) = repeat 255 16 ∧
  is_i80f48 (into_i80f48 (repeat 255 16)).
Proof.
  apply wrapped_i80f48_roundtrip.
  - vm_compute. split; discriminate.
  - reflexivity.
  - repeat constructor; lia.
Defined.
End Wrapped.
