(* ===== verification/Constants.v ===== *)
(** * Constants of the program

    [programs/marginfi/src/constants.rs], in the default [mainnet-beta]
    configuration.  A fixed-point literal [I80F48!(x)] is the multiple of 2^-48
    nearest to [x]; a [Pubkey] is the 256-bit integer of its bytes. *)
From S2P Require Import Prelude Errors Fixed.

Notation Pubkey := Z (only parsing).
(** [Pubkey::default()] *)
Definition default_pubkey : Pubkey := 0.

(** The seeds of the program-derived addresses. *)
Inductive Seed : Set :=
| LIQUIDITY_VAULT_AUTHORITY_SEED | INSURANCE_VAULT_AUTHORITY_SEED | FEE_VAULT_AUTHORITY_SEED
| LIQUIDITY_VAULT_SEED | INSURANCE_VAULT_SEED | FEE_VAULT_SEED
| FEE_STATE_SEED | EMISSIONS_AUTH_SEED | EMISSIONS_TOKEN_ACCOUNT_SEED.
#[export] Instance Seed_eq_dec : EqDecision Seed.
Proof. solve_decision. Defined.

Definition PYTH_ID : Pubkey :=
  0xdce5ebe1e49c3b9f114cb5544c50a99ec0d692d63f56795ae029ac83d9ea8be2.
Definition SWITCHBOARD_PULL_ID : Pubkey :=
  0x673bd46f2e47e04f12bd92fb731968ecd9d9757c274da87476f465c040c6573.

(** [I80F48!(n / d)], rounded to the nearest multiple of 2^-48. *)
Definition fx_literal (n d : Z) : I80F48 := (2 * n * SCALE + d) / (2 * d).

Definition LIQUIDATION_LIQUIDATOR_FEE : I80F48 := fx_literal 25 1000.
Definition LIQUIDATION_INSURANCE_FEE : I80F48 := fx_literal 25 1000.
Definition SECONDS_PER_YEAR : I80F48 := from_num 31536000.
Definition MAX_PYTH_ORACLE_AGE : Z := 60.
Definition MAX_SWB_ORACLE_AGE : Z := 3 * 60.
Definition CONF_INTERVAL_MULTIPLE : I80F48 := fx_literal 212 100.
Definition STD_DEV_MULTIPLE : I80F48 := fx_literal 196 100.
Definition MAX_CONF_INTERVAL : I80F48 := fx_literal 5 100.
Definition MAX_ORACLE_KEYS : Z := 5.
Definition EMPTY_BALANCE_THRESHOLD : I80F48 := from_num 1.
Definition BANKRUPT_THRESHOLD : I80F48 := fx_literal 1 10.
Definition ZERO_AMOUNT_THRESHOLD : I80F48 := fx_literal 1 10000.

Definition EMISSIONS_FLAG_BORROW_ACTIVE : Z := Z.shiftl 1 0.
Definition EMISSIONS_FLAG_LENDING_ACTIVE : Z := Z.shiftl 1 1.
Definition PERMISSIONLESS_BAD_DEBT_SETTLEMENT_FLAG : Z := Z.shiftl 1 2.
Definition EMISSION_FLAGS : Z := Z.lor EMISSIONS_FLAG_BORROW_ACTIVE EMISSIONS_FLAG_LENDING_ACTIVE.
Definition GROUP_FLAGS : Z := PERMISSIONLESS_BAD_DEBT_SETTLEMENT_FLAG.
Definition MIN_EMISSIONS_START_TIME : Z := 1681989983.

Definition MAX_EXP_10_I80F48 : nat := 24.
Definition EXP_10_I80F48 : list I80F48 :=
  (λ i : nat, from_num (10 ^ Z.of_nat i)) <$> seq 0 MAX_EXP_10_I80F48.
Definition MAX_EXP_10 : nat := 21.
Definition EXP_10 : list Z := (λ i : nat, 10 ^ Z.of_nat i) <$> seq 0 MAX_EXP_10.

Definition TOTAL_ASSET_VALUE_INIT_LIMIT_INACTIVE : Z := 0.
Definition PROTOCOL_FEE_RATE_DEFAULT : I80F48 := fx_literal 25 1000.
Definition PROTOCOL_FEE_FIXED_DEFAULT : I80F48 := fx_literal 1 100.
Definition PYTH_PUSH_PYTH_SPONSORED_SHARD_ID : Z := 0.
Definition PYTH_PUSH_MARGINFI_SPONSORED_SHARD_ID : Z := 3301.

Lemma EXP_10_I80F48_lookup i v :
  @index error _ EXP_10_I80F48 i = Ok v ↔ 0 ≤ i < 24 ∧ v = from_num (10 ^ i).
Proof.
  rewrite index_ok. unfold EXP_10_I80F48. rewrite list_lookup_fmap.
  split.
  - intros [Hi H]. destruct (seq _ _ !! _) as [j|] eqn:E; [|done].
    apply lookup_seq in E as [-> Hlt]. simplify_eq/=. unfold MAX_EXP_10_I80F48 in *.
    split; [lia|]. rewrite Z2Nat.id; done.
  - intros [Hi ->]. split; [lia|].
    rewrite lookup_seq_lt by (unfold MAX_EXP_10_I80F48; lia). simpl.
    rewrite Z2Nat.id by lia. done.
Qed.

Lemma EXP_10_lookup i v : @index error _ EXP_10 i = Ok v ↔ 0 ≤ i < 21 ∧ v = 10 ^ i.
Proof.
  rewrite index_ok. unfold EXP_10. rewrite list_lookup_fmap.
  split.
  - intros [Hi H]. destruct (seq _ _ !! _) as [j|] eqn:E; [|done].
    apply lookup_seq in E as [-> Hlt]. simplify_eq/=. unfold MAX_EXP_10 in *.
    split; [lia|]. rewrite Z2Nat.id; done.
  - intros [Hi ->]. split; [lia|].
    rewrite lookup_seq_lt by (unfold MAX_EXP_10; lia). simpl.
    rewrite Z2Nat.id by lia. done.
Qed.

Lemma exp10_pos i v : @index error _ EXP_10_I80F48 i = Ok v → 0 < v.
Proof.
  rewrite EXP_10_I80F48_lookup. intros [? ->]. unfold from_num.
  pose proof SCALE_pos. pose proof (Z.pow_pos_nonneg 10 i). nia.
Qed.

(** The literals, in units of 2^-48. *)
Example constants_bits :
  (LIQUIDATION_LIQUIDATOR_FEE, CONF_INTERVAL_MULTIPLE, STD_DEV_MULTIPLE, MAX_CONF_INTERVAL,
   BANKRUPT_THRESHOLD, ZERO_AMOUNT_THRESHOLD)
  = (7036874417766, 596726950626591, 551690954352886, 14073748835533, 28147497671066, 28147497671).
Proof. reflexivity. Qed.
