(* ===== verification/Utils.v ===== *)
(** * Shared arithmetic

    [programs/marginfi/src/utils.rs] and the value arithmetic of
    [state/marginfi_account.rs] ([calc_value], [calc_amount]) that both the
    bank and the risk engine use, with the enumerations they are indexed by.

    The Token-2022 program is not part of the repository.  What the code calls
    of it (the fee configuration of a mint and the transfer instruction) is the
    class [TokenSdk]; [TokenLaws] states what its documentation promises. *)
From S2P Require Import Prelude Errors Fixed Constants.

(** ** Enumerations *)
Inductive BalanceSide : Set := Assets | Liabilities.
Inductive RequirementType : Set := Initial | Maintenance | Equity.
Inductive OraclePriceType : Set := TimeWeighted | RealTime.
Inductive PriceBias : Set := Low | High.

(** [RequirementType::get_oracle_price_type] *)
Definition get_oracle_price_type (r : RequirementType) : OraclePriceType :=
  match r with
  | Initial | Equity => TimeWeighted
  | Maintenance => RealTime
  end.

(** [AccountInfo] of a remaining account: address, owning program, data bytes. *)
Record AccountInfo := mkAccountInfo { ai_key : Pubkey; ai_owner : Pubkey; ai_data : list Z }.

(** ** Token program *)

(** [spl_token_2022::extension::transfer_fee::TransferFee] *)
Record TransferFee := mkTransferFee {
  maximum_fee : Z;                 (* u64 *)
  transfer_fee_basis_points : Z    (* u16 *)
}.

(** [TokenAccount]: the fields the program reads. *)
Record TokenAccount := mkTokenAccount {
  ta_mint : Pubkey; ta_owner : Pubkey; ta_amount : Z
}.
Notation TokenStore := (gmap Z TokenAccount) (only parsing).

(** One transfer call: [transfer_checked] when a mint is supplied, the
    legacy [transfer] otherwise. *)
Record Transfer := mkTransfer {
  tr_amount : Z; tr_from : Pubkey; tr_to : Pubkey; tr_authority : Pubkey;
  tr_mint : option Pubkey; tr_program : Pubkey
}.

Class TokenSdk := {
  TransferFeeConfig : Type;
  token_id : Pubkey;               (* anchor_spl::token::ID *)
  token_2022_id : Pubkey;          (* anchor_spl::token_2022::ID *)
  get_epoch_fee : TransferFeeConfig → Z → TransferFee;
  calculate_epoch_fee : TransferFeeConfig → Z → Z → option Z;
  spl_transfer : Transfer → TokenStore → MarginfiResult TokenStore
}.

Section Utils.
Context {F : FixedOps} {T : TokenSdk}.

(** A mint account: its address, the program that owns it and, for a
    Token-2022 mint with the extension, its transfer fee configuration. *)
Record Mint := mkMint {
  mint_key : Pubkey; mint_owner : Pubkey; mint_dec : Z;
  mint_fee_config : option TransferFeeConfig
}.

(** *** [NumTraitsWithTolerance] *)
Definition is_zero_with_tolerance (x t : I80F48) : MarginfiResult bool :=
  let? a := fx_abs x in Ok (a <? t).
Definition is_positive_with_tolerance (x t : I80F48) : bool := t <? x.

(** *** Transfer fees *)
Definition U128_MAX : Z := 2 ^ 128 - 1.
Definition u128_checked (z : Z) : option Z :=
  if (0 <=? z) && (z <=? U128_MAX) then Some z else None.
Definition ONE_IN_BASIS_POINTS : Z := 10000.

(** Private [ceil_div] on [u128]. *)
Definition ceil_div (numerator denominator : Z) : option Z :=
  s ← u128_checked (numerator + denominator);
  s ← u128_checked (s - 1);
  if denominator =? 0 then None else Some (s / denominator).

Definition calculate_pre_fee_amount (transfer_fee : TransferFee) (post_fee_amount : Z) : option Z :=
  let maximum_fee := maximum_fee transfer_fee in
  let bps := transfer_fee_basis_points transfer_fee in
  if bps =? 0 then Some post_fee_amount
  else if post_fee_amount =? 0 then Some 0
  else if bps =? ONE_IN_BASIS_POINTS then u64_checked_add maximum_fee post_fee_amount
  else
    numerator ← u128_checked (post_fee_amount * ONE_IN_BASIS_POINTS);
    denominator ← u128_checked (ONE_IN_BASIS_POINTS - bps);
    raw_pre_fee_amount ← ceil_div numerator denominator;
    diff ← u128_checked (raw_pre_fee_amount - post_fee_amount);
    if maximum_fee <=? diff then u64_checked_add post_fee_amount maximum_fee
    else u64_checked raw_pre_fee_amount.

Definition calculate_pre_fee_spl_deposit_amount
    (mint_ai : Mint) (post_fee_amount epoch : Z) : MarginfiResult Z :=
  if mint_owner mint_ai =? token_id then Ok post_fee_amount
  else match mint_fee_config mint_ai with
       | Some transfer_fee_config =>
           unwrap (calculate_pre_fee_amount (get_epoch_fee transfer_fee_config epoch) post_fee_amount)
       | None => Ok post_fee_amount
       end.

Definition calculate_post_fee_spl_deposit_amount
    (mint_ai : Mint) (input_amount epoch : Z) : MarginfiResult Z :=
  if mint_owner mint_ai =? token_id then Ok input_amount
  else
    let? fee := match mint_fee_config mint_ai with
                | Some transfer_fee_config =>
                    unwrap (calculate_epoch_fee transfer_fee_config epoch input_amount)
                | None => Ok 0
                end in
    ok_or (u64_checked_sub input_amount fee) MathError.

Definition nonzero_fee (mint_ai : Mint) (epoch : Z) : bool :=
  if mint_owner mint_ai =? token_id then false
  else match mint_fee_config mint_ai with
       | Some cfg => negb (transfer_fee_basis_points (get_epoch_fee cfg epoch) =? 0)
       | None => false
       end.

(** Splits the mint off the remaining accounts when the bank's token program
    is Token-2022.  [mints] is the store of initialized mint accounts; a
    first remaining account that is no mint is refused. *)
Definition maybe_take_bank_mint (mints : gmap Z Mint) (remaining_accounts : list AccountInfo)
    (bank_mint token_program : Pubkey) : MarginfiResult (option Mint * list AccountInfo) :=
  if token_program =? token_id then Ok (None, remaining_accounts)
  else if token_program =? token_2022_id then
    match remaining_accounts with
    | [] => Err T22MintRequired
    | maybe_mint :: remaining =>
        let? _ := check (bank_mint =? ai_key maybe_mint) T22MintRequired in
        let? m := ok_or (mints !! ai_key maybe_mint) T22MintRequired in
        Ok (Some m, remaining)
    end
  else Panic.

(** [maybe_bank_mint.map(..calculate_pre_fee..).transpose()?.unwrap_or(amount)] *)
Definition pre_fee_amount (maybe_mint : option Mint) (amount epoch : Z) : MarginfiResult Z :=
  match maybe_mint with
  | Some m => calculate_pre_fee_spl_deposit_amount m amount epoch
  | None => Ok amount
  end.

(** *** Hexadecimal strings *)
Definition to_digit16 (c : Z) : option Z :=
  if (48 <=? c) && (c <=? 57) then Some (c - 48)
  else if (97 <=? c) && (c <=? 102) then Some (c - 87)
  else if (65 <=? c) && (c <=? 70) then Some (c - 55)
  else None.
(** [hex_to_bytes]: two characters per byte; an odd last character indexes
    out of its chunk and panics, as does a character that is no digit. *)
Fixpoint hex_to_bytes (hex : list Z) : MarginfiResult (list Z) :=
  match hex with
  | [] => Ok []
  | [_] => Panic
  | h :: l :: rest =>
      let? high := unwrap (to_digit16 h) in
      let? low := unwrap (to_digit16 l) in
      let? bytes := hex_to_bytes rest in
      Ok (Z.lor (Z.shiftl high 4) low :: bytes)
  end.

(** *** Value arithmetic (state/marginfi_account.rs) *)
Definition calc_value (amount price : I80F48) (mint_decimals : Z) (weight : option I80F48)
    : MarginfiResult I80F48 :=
  if amount =? ZERO then Ok ZERO
  else
    let? scaling_factor := index EXP_10_I80F48 mint_decimals in
    let? weighted_asset_amount := match weight with
                                  | Some weight => unwrap (checked_mul amount weight)
                                  | None => Ok amount
                                  end in
    let? v := math (checked_mul weighted_asset_amount price) in
    math (checked_div v scaling_factor).

Definition calc_amount (value price : I80F48) (mint_decimals : Z) : MarginfiResult I80F48 :=
  let? scaling_factor := index EXP_10_I80F48 mint_decimals in
  let? qt := math (checked_mul value scaling_factor) in
  math (checked_div qt price).
End Utils.

(** ** What the token program's documentation promises

    The fee of a transfer is [ceil (amount * bps / 10000)], capped by the
    maximum fee; a transfer debits the source by [amount] and credits the
    destination by [amount] less the fee, which is only charged by a
    Token-2022 mint, and touches no other account.  A transfer to the source
    itself moves nothing, amounts stay [u64], and a transfer neither opens nor
    closes an account nor changes its owner. *)
Definition fee_of (f : TransferFee) (amount : Z) : Z :=
  if (transfer_fee_basis_points f =? 0) || (amount =? 0) then 0
  else Z.min (- (- (amount * transfer_fee_basis_points f) / 10000)) (maximum_fee f).

Definition token_amount (ts : TokenStore) (k : Pubkey) : Z :=
  match ts !! k with Some a => ta_amount a | None => 0 end.

Class TokenLaws (T : TokenSdk) : Prop := {
  token_ids_differ : token_id ≠ token_2022_id;
  epoch_fee_range c e :
    0 ≤ maximum_fee (get_epoch_fee c e) ≤ U64_MAX ∧
    0 ≤ transfer_fee_basis_points (get_epoch_fee c e) ≤ 10000;
  calculate_epoch_fee_spec c e amount :
    is_u64 amount → calculate_epoch_fee c e amount = Some (fee_of (get_epoch_fee c e) amount);
  spl_transfer_spec t ts ts' :
    spl_transfer t ts = Ok ts' →
    (∃ a, ts !! tr_from t = Some a) ∧ (∃ b, ts !! tr_to t = Some b) ∧
    tr_amount t ≤ token_amount ts (tr_from t) ∧
    (tr_from t ≠ tr_to t →
     token_amount ts' (tr_from t) = token_amount ts (tr_from t) - tr_amount t ∧
     ∃ fee, 0 ≤ fee ≤ tr_amount t ∧ (tr_mint t = None → fee = 0) ∧
       token_amount ts' (tr_to t) = token_amount ts (tr_to t) + tr_amount t - fee) ∧
    (∀ k, k ≠ tr_from t → k ≠ tr_to t → ts' !! k = ts !! k);
  spl_transfer_u64 t ts ts' :
    spl_transfer t ts = Ok ts' → (∀ k a, ts !! k = Some a → is_u64 (ta_amount a)) →
    ∀ k a, ts' !! k = Some a → is_u64 (ta_amount a);
  spl_transfer_self t ts ts' :
    spl_transfer t ts = Ok ts' → tr_from t = tr_to t →
    token_amount ts' (tr_to t) = token_amount ts (tr_to t);
  spl_transfer_owners t ts ts' k :
    spl_transfer t ts = Ok ts' → ta_owner <$> ts' !! k = ta_owner <$> ts !! k
}.

(** ** Facts *)
Section TolerantLemmas.
Context {F : FixedOps} {L : FixedLaws F}.

Lemma is_zero_tol_ok x t b :
  is_zero_with_tolerance x t = Ok b → b = (Z.abs x <? t).
Proof.
  unfold is_zero_with_tolerance. intros H. inv_res. by apply fx_abs_ok in E as ->.
Qed.

Lemma is_zero_tol_eq x t : is_i80f48 (Z.abs x) → is_zero_with_tolerance x t = Ok (Z.abs x <? t).
Proof. intros. unfold is_zero_with_tolerance. by rewrite fx_abs_spec. Qed.
End TolerantLemmas.

Section ValueLemmas.
Context {F : FixedOps} {L : FixedLaws F}.

(** The value of a position: [amount * weight * price / 10^decimals], every
    step rounded down. *)
Definition value_of (amount price : I80F48) (mint_decimals : Z) (weight : option I80F48) : I80F48 :=
  let w := match weight with Some w => fmul amount w | None => amount end in
  fdiv (fmul w price) (from_num (10 ^ mint_decimals)).

Lemma exp10_SCALE_pos d : 0 ≤ d → 0 < from_num (10 ^ d).
Proof. intros. unfold from_num. pose proof SCALE_pos. pose proof (Z.pow_pos_nonneg 10 d). nia. Qed.

Lemma value_of_nonneg amount price d w :
  0 ≤ amount → 0 ≤ price → 0 ≤ d → (∀ x, w = Some x → 0 ≤ x) → 0 ≤ value_of amount price d w.
Proof.
  intros. apply fdiv_nonneg; [|by apply exp10_SCALE_pos].
  apply fmul_nonneg; [|done]. destruct w; [apply fmul_nonneg; auto|done].
Qed.

Lemma value_of_mono amount amount' price price' d w w' :
  0 ≤ amount ≤ amount' → 0 ≤ price ≤ price' → 0 ≤ d → 0 ≤ w ≤ w' →
  value_of amount price d (Some w) ≤ value_of amount' price' d (Some w').
Proof.
  intros. apply fdiv_mono; [|by apply exp10_SCALE_pos].
  apply fmul_mono; [|done]. split; [apply fmul_nonneg; lia|]. by apply fmul_mono.
Qed.

Lemma calc_value_nn amount price d w v :
  0 ≤ amount → 0 ≤ price → (∀ x, w = Some x → 0 ≤ x) →
  calc_value amount price d w = Ok v → v = value_of amount price d w ∧ 0 ≤ v.
Proof.
  intros Ha Hp Hw. unfold calc_value. destruct (_ =? _) eqn:E0; bool_prop; intros H; inv_res.
  - split; [|done]. unfold value_of. destruct w; by rewrite ?fmul_0_l, fdiv_0_l.
  - apply EXP_10_I80F48_lookup in E as [Hd ->].
    assert (v1 = match w with Some w => fmul amount w | None => amount end ∧ 0 ≤ v1) as [-> ?].
    { destruct w as [x|]; inv_res; [|done].
      apply mul_some in E1 as [-> _]; auto using fmul_nonneg. }
    apply mul_some in E2 as [-> _]; [|done..].
    pose proof (exp10_SCALE_pos d ltac:(lia)).
    apply div_some in H as (_ & -> & _); [|auto using fmul_nonneg|lia].
    split; [done|]. apply fdiv_nonneg; auto using fmul_nonneg.
Qed.

Lemma calc_amount_nn value price d q :
  0 ≤ value → 0 ≤ price → calc_amount value price d = Ok q →
  0 < price ∧ 0 ≤ q ∧ q = fdiv (fmul value (from_num (10 ^ d))) price.
Proof.
  intros Hv Hp H. unfold calc_amount in H. inv_res.
  apply EXP_10_I80F48_lookup in E as [Hd ->].
  pose proof (exp10_SCALE_pos d ltac:(lia)).
  apply mul_some in E0 as [-> _]; [|lia..].
  apply div_some in H as (? & -> & _); [|auto using fmul_nonneg with lia|lia].
  split_and!; [done| |done]. apply fdiv_nonneg; [apply fmul_nonneg; lia|done].
Qed.
End ValueLemmas.

Section TransferFees.
Lemma u128_checked_some z r : u128_checked z = Some r ↔ r = z ∧ 0 ≤ z ≤ U128_MAX.
Proof.
  unfold u128_checked. destruct (_ && _) eqn:H; [bool_prop; naive_solver lia|].
  apply andb_false_iff in H as [?|?]; bool_prop; naive_solver lia.
Qed.

Lemma ceil_div_some n d r : ceil_div n d = Some r → d ≠ 0 ∧ r = (n + d - 1) / d.
Proof.
  unfold ceil_div. intros H.
  destruct (u128_checked (n + d)) as [s|] eqn:E1; simplify_eq/=.
  apply u128_checked_some in E1 as [-> _].
  destruct (u128_checked (n + d - 1)) as [s|] eqn:E2; simplify_eq/=.
  apply u128_checked_some in E2 as [-> _].
  destruct (d =? 0) eqn:E; bool_prop; simplify_eq. done.
Qed.

(** What is left of [p] after an uncapped fee of [b] basis points. *)
Lemma uncapped_fee p b : p - - (- (p * b) / 10000) = p * (10000 - b) / 10000.
Proof.
  replace (p * (10000 - b)) with (- (p * b) + p * 10000) by lia.
  rewrite Z.div_add by lia. lia.
Qed.

Lemma raw_pre_fee x b :
  0 < b < 10000 → 0 ≤ x →
  let raw := (x * 10000 + (10000 - b) - 1) / (10000 - b) in
  raw * (10000 - b) / 10000 = x ∧ x ≤ raw.
Proof.
  intros Hb Hx raw.
  pose proof (div_bounds (x * 10000 + (10000 - b) - 1) (10000 - b) ltac:(lia)).
  fold raw in H. assert (raw * (10000 - b) / 10000 = x) as Hr.
  { apply Z.le_antisymm; [apply div_le_iff | apply le_div_iff]; lia. }
  split; [done|]. nia.
Qed.

Lemma calculate_pre_fee_exact f x p :
  0 ≤ maximum_fee f → 0 ≤ transfer_fee_basis_points f ≤ 10000 → 0 ≤ x →
  calculate_pre_fee_amount f x = Some p → p - fee_of f p = x ∧ x ≤ p.
Proof.
  intros Hm Hb Hx. unfold calculate_pre_fee_amount, fee_of, ONE_IN_BASIS_POINTS.
  destruct f as [m b]; simpl in *.
  destruct (b =? 0) eqn:E0; simpl; [intros [= <-]; lia|].
  destruct (x =? 0) eqn:E1; bool_prop; [intros [= <-]; simpl; lia|].
  destruct (b =? 10000) eqn:E2; bool_prop.
  { intros [-> _]%u64_checked_some. subst b.
    rewrite (proj2 (Z.eqb_neq _ _)) by lia.
    rewrite <- Z.mul_opp_l, Z.div_mul by lia. lia. }
  pose proof (raw_pre_fee x b ltac:(lia) Hx) as [Hr Hle].
  set (raw := (x * 10000 + (10000 - b) - 1) / (10000 - b)) in *.
  destruct (u128_checked (x * 10000)) as [n|] eqn:En; simplify_eq/=; [|done].
  apply u128_checked_some in En as [-> _].
  destruct (u128_checked (10000 - b)) as [d|] eqn:Ed; simplify_eq/=; [|done].
  apply u128_checked_some in Ed as [-> _].
  destruct (ceil_div (x * 10000) (10000 - b)) as [r|] eqn:Er; simplify_eq/=; [|done].
  apply ceil_div_some in Er as [_ ->]. fold raw.
  destruct (u128_checked (raw - x)) as [df|] eqn:Edf; simplify_eq/=; [|done].
  apply u128_checked_some in Edf as [-> _].
  destruct (m <=? raw - x) eqn:Em; bool_prop; intros [-> _]%u64_checked_some.
  - rewrite (proj2 (Z.eqb_neq _ _)) by lia.
    pose proof (uncapped_fee (x + m) b) as Hu.
    assert ((x + m) * (10000 - b) / 10000 ≤ x).
    { rewrite <- Hr at 2. apply Z.div_le_mono; [lia|nia]. }
    lia.
  - pose proof (uncapped_fee raw b).
    rewrite (proj2 (Z.eqb_neq _ _)) by lia. lia.
Qed.

Context {T : TokenSdk} {TL : TokenLaws T}.

(** C40: the amount taken from the user before a Token-2022 transfer fee is
    exactly the one whose post-fee amount is the requested amount: computing
    the pre-fee amount and then the post-fee amount of it is the identity,
    for every mint, epoch and amount on which the first succeeds. *)
Theorem pre_fee_post_fee_roundtrip m amount epoch pre :
  is_u64 amount → is_u64 pre →
  calculate_pre_fee_spl_deposit_amount m amount epoch = Ok pre →
  calculate_post_fee_spl_deposit_amount m pre epoch = Ok amount ∧ amount ≤ pre.
Proof.
  intros Hu Hp. unfold calculate_pre_fee_spl_deposit_amount, calculate_post_fee_spl_deposit_amount.
  destruct (mint_owner m =? token_id); [intros [= ->]; split; [done|lia]|].
  destruct (mint_fee_config m) as [c|]; simpl; intros H; inv_res.
  - destruct (epoch_fee_range c epoch) as [? ?].
    apply calculate_pre_fee_exact in H as [H ?]; [|unfold is_u64 in *; lia..].
    rewrite calculate_epoch_fee_spec by done. simpl. split; [|done].
    apply ok_or_ok, u64_checked_some. split; [lia|]. unfold is_u64 in *. lia.
  - split; [|lia]. apply ok_or_ok, u64_checked_some. split; [lia|].
    unfold is_u64 in *. lia.
Qed.
End TransferFees.

(** *** A token program for the examples *)
Definition demo_token_sdk : TokenSdk := {|
  TransferFeeConfig := TransferFee;
  token_id := 101;
  token_2022_id := 102;
  get_epoch_fee c _ :=
    {| maximum_fee := Z.max 0 (Z.min U64_MAX (maximum_fee c));
       transfer_fee_basis_points := Z.max 0 (Z.min 10000 (transfer_fee_basis_points c)) |};
  calculate_epoch_fee c _ amount :=
    Some (fee_of {| maximum_fee := Z.max 0 (Z.min U64_MAX (maximum_fee c));
                    transfer_fee_basis_points := Z.max 0 (Z.min 10000 (transfer_fee_basis_points c)) |}
                 amount);
  spl_transfer t ts :=
    match ts !! tr_from t, ts !! tr_to t with
    | Some a, Some b =>
        if (0 <=? tr_amount t) && (tr_amount t <=? ta_amount a) && negb (tr_from t =? tr_to t)
           && (ta_amount b + tr_amount t <=? U64_MAX) && (ta_owner a =? tr_authority t) then
          Ok (<[tr_to t := mkTokenAccount (ta_mint b) (ta_owner b) (ta_amount b + tr_amount t)]>
             (<[tr_from t := mkTokenAccount (ta_mint a) (ta_owner a) (ta_amount a - tr_amount t)]> ts))
        else Err (ECpi 1)
    | _, _ => Err (ECpi 2)
    end
|}.

#[export] Instance demo_token_laws : TokenLaws demo_token_sdk.
Proof.
  assert (∀ t ts ts', @spl_transfer demo_token_sdk t ts = Ok ts' → ∃ a b,
    ts !! tr_from t = Some a ∧ ts !! tr_to t = Some b ∧ 0 ≤ tr_amount t ≤ ta_amount a ∧
    tr_from t ≠ tr_to t ∧ ta_amount b + tr_amount t ≤ U64_MAX ∧ ta_owner a = tr_authority t ∧
    ts' = <[tr_to t := mkTokenAccount (ta_mint b) (ta_owner b) (ta_amount b + tr_amount t)]>
            (<[tr_from t := mkTokenAccount (ta_mint a) (ta_owner a) (ta_amount a - tr_amount t)]> ts)) as Hok.
  { simpl. intros t ts ts' H.
    destruct (ts !! tr_from t) as [a|] eqn:Ea; [|done].
    destruct (ts !! tr_to t) as [b|] eqn:Eb; [|done].
    destruct (_ && _) eqn:Hc; [|done]. bool_prop. injection H as <-. by exists a, b. }
  split; [done|simpl; unfold U64_MAX; lia|done|..].
  - intros t ts ts' (a & b & Ea & Eb & ? & ? & ? & ? & ->)%Hok.
    unfold token_amount. rewrite Ea, Eb.
    rewrite (lookup_insert_ne _ (tr_to t)), !lookup_insert_eq by done.
    split_and!; [by eexists..|lia| |].
    + intros _. split; [done|]. exists 0. simpl. lia.
    + intros k Hk1 Hk2. by rewrite !lookup_insert_ne by done.
  - intros t ts ts' (a & b & Ea & Eb & ? & ? & ? & ? & ->)%Hok Hu k x Hx.
    pose proof (Hu _ _ Ea) as [? ?]. pose proof (Hu _ _ Eb) as [? ?].
    apply lookup_insert_Some in Hx as [[_ <-]|[_ [[_ <-]|[_ Hx]]%lookup_insert_Some]];
      [split; simpl; lia..|by eapply Hu].
  - by intros t ts ts' (a & b & _ & _ & _ & ? & _)%Hok ?.
  - intros t ts ts' k (a & b & Ea & Eb & _ & Hne & _ & _ & ->)%Hok.
    destruct (decide (k = tr_to t)) as [->|]; [by rewrite lookup_insert_eq, Eb|].
    rewrite lookup_insert_ne by done. destruct (decide (k = tr_from t)) as [->|];
      [by rewrite lookup_insert_eq, Ea|by rewrite lookup_insert_ne].
Qed.

Lemma pre_fee_post_fee_roundtrip_witness :
  let m := @mkMint demo_token_sdk 7 102 6 (Some (mkTransferFee 5000 100)) in
  @calculate_post_fee_spl_deposit_amount demo_token_sdk m 101011 0 = Ok 100000 ∧ 100000 ≤ 101011.
Proof.
  intros m. apply (pre_fee_post_fee_roundtrip (T := demo_token_sdk) m 100000 0 101011).
  - unfold is_u64, U64_MAX. lia.
  - unfold is_u64, U64_MAX. lia.
  - vm_compute. reflexivity.
Defined.
