(* ===== verification/GroupState.v ===== *)
(** * The marginfi group and the global fee state

    [MarginfiGroup] and its flags (state/marginfi_group.rs), [FeeState]
    (state/fee_state.rs).  Padding fields are not modelled. *)
From S2P Require Import Prelude Errors Fixed Constants.

(** [FeeState]: one per program. *)
Record FeeState := mkFeeState {
  fs_key : Pubkey;
  global_fee_admin : Pubkey;
  fs_global_fee_wallet : Pubkey;
  bank_init_flat_sol_fee : Z;     (* u32 *)
  bump_seed : Z;                  (* u8 *)
  fs_program_fee_fixed : I80F48;
  fs_program_fee_rate : I80F48
}.

(** [FeeStateCache]: the copy of the fee settings each group keeps. *)
Record FeeStateCache := mkFeeStateCache {
  global_fee_wallet : Pubkey;
  program_fee_fixed : I80F48;
  program_fee_rate : I80F48
}.

Module MarginfiGroup.
Record MarginfiGroup := mkMarginfiGroup {
  admin : Pubkey;
  group_flags : Z;              (* u64 *)
  fee_state_cache : FeeStateCache
}.

Definition PROGRAM_FEES_ENABLED : Z := 1.
Definition ALLOWED_FLAGS : Z := PROGRAM_FEES_ENABLED.

(** [GroupConfig] *)
Record GroupConfig := mkGroupConfig { gc_admin : option Pubkey }.

Definition with_admin (a : Pubkey) (g : MarginfiGroup) : MarginfiGroup :=
  mkMarginfiGroup a (group_flags g) (fee_state_cache g).
Definition with_flags (f : Z) (g : MarginfiGroup) : MarginfiGroup :=
  mkMarginfiGroup (admin g) f (fee_state_cache g).
Definition with_cache (c : FeeStateCache) (g : MarginfiGroup) : MarginfiGroup :=
  mkMarginfiGroup (admin g) (group_flags g) c.

(** [set_if_some!(self.admin, config.admin)] *)
Definition configure (g : MarginfiGroup) (config : GroupConfig) : MarginfiResult MarginfiGroup :=
  Ok (match gc_admin config with Some a => with_admin a g | None => g end).

Definition set_initial_configuration (g : MarginfiGroup) (admin_pk : Pubkey) : MarginfiGroup :=
  with_flags PROGRAM_FEES_ENABLED (with_admin admin_pk g).

(** [GroupBankConfig] has the single field [program_fees]. *)
Definition get_group_bank_config (g : MarginfiGroup) : bool :=
  group_flags g =? PROGRAM_FEES_ENABLED.

Definition validate_flags (flag : Z) : MarginfiResult unit :=
  let flag_ok := Z.land flag (u64_not ALLOWED_FLAGS) =? 0 in
  check flag_ok IllegalFlag.

Definition set_flags (g : MarginfiGroup) (flag : Z) : MarginfiResult MarginfiGroup :=
  let? _ := validate_flags flag in
  Ok (with_flags flag g).

Definition program_fees_enabled (g : MarginfiGroup) : bool :=
  negb (Z.land (group_flags g) PROGRAM_FEES_ENABLED =? 0).

(** A group whose only flag bits are the allowed ones. *)
Definition flags_wf (g : MarginfiGroup) : Prop := group_flags g = 0 ∨ group_flags g = 1.

(** The zeroed account Anchor allocates for [init]. *)
Definition zeroed : MarginfiGroup := mkMarginfiGroup 0 0 (mkFeeStateCache 0 0 0).

Lemma land_not_1 flag : is_u64 flag → Z.land flag (u64_not ALLOWED_FLAGS) = flag / 2 * 2.
Proof.
  intros [H0 H1]. unfold u64_not, ALLOWED_FLAGS, PROGRAM_FEES_ENABLED, U64_MAX.
  replace (flag / 2 * 2) with (Z.shiftl (Z.shiftr flag 1) 1)
    by (rewrite Z.shiftr_div_pow2, Z.shiftl_mul_pow2 by lia; done).
  apply Z.bits_inj'. intros i Hi.
  rewrite Z.land_spec, Z.lxor_spec.
  destruct (decide (i = 0)) as [->|].
  { rewrite Z.shiftl_spec_low by lia. by rewrite andb_false_r. }
  rewrite Z.shiftl_spec, Z.shiftr_spec by lia. replace (i - 1 + 1) with i by lia.
  rewrite (Z.bits_above_log2 1 i) by (simpl; lia). rewrite xorb_false_r.
  destruct (decide (i < 64)).
  - replace (2 ^ 64 - 1) with (Z.ones 64) by done.
    rewrite Z.ones_spec_low by lia. apply andb_true_r.
  - replace (2 ^ 64 - 1) with (Z.ones 64) by done.
    rewrite Z.ones_spec_high by lia. rewrite andb_false_r. symmetry.
    destruct (decide (flag = 0)) as [->|]; [apply Z.bits_0|].
    apply Z.bits_above_log2; [lia|]. apply Z.log2_lt_pow2; [lia|].
    unfold U64_MAX in *. apply Z.le_lt_trans with (2 ^ 64 - 1); [done|].
    apply Z.lt_le_trans with (2 ^ 64); [lia|]. apply Z.pow_le_mono_r; lia.
Qed.

(** [set_flags] accepts exactly the two legal flag words and
    then stores the word: a group's flags stay within the allowed bits,
    [program_fees_enabled] and [get_group_bank_config] agree on them, and any
    other word is refused with [IllegalFlag] and no change. *)
Theorem set_flags_spec g flag :
  is_u64 flag →
  (set_flags g flag = Ok (with_flags flag g) ∧ (flag = 0 ∨ flag = 1) ∧
   flags_wf (with_flags flag g) ∧
   get_group_bank_config (with_flags flag g) = program_fees_enabled (with_flags flag g)) ∨
  (set_flags g flag = Err IllegalFlag ∧ 1 < flag).
Proof.
  intros Hu. unfold set_flags, validate_flags. rewrite land_not_1 by done.
  pose proof (Z.div_mod flag 2). pose proof (Z.mod_pos_bound flag 2).
  destruct (_ =? 0) eqn:E; bool_prop; simpl.
  - left. assert (flag = 0 ∨ flag = 1) as [-> | ->] by (destruct Hu; lia).
    all: split_and!; try done; unfold flags_wf; simpl; lia.
  - right. split; [done|]. destruct Hu; lia.
Qed.

Lemma set_flags_spec_witness :
  (set_flags zeroed 6 = Ok (with_flags 6 zeroed) ∧ (6 = 0 ∨ 6 = 1) ∧
   flags_wf (with_flags 6 zeroed) ∧
   get_group_bank_config (with_flags 6 zeroed) = program_fees_enabled (with_flags 6 zeroed)) ∨
  (set_flags zeroed 6 = Err IllegalFlag ∧ 1 < 6).
Proof. apply set_flags_spec. unfold is_u64, U64_MAX. lia. Defined.
End MarginfiGroup.
Notation MarginfiGroup := MarginfiGroup.MarginfiGroup (only parsing).

(** Copying the fee state into a group: [propagate_fee] and the tail of
    [initialize_group]. *)
Definition cache_of_fee_state (fs : FeeState) : FeeStateCache :=
  mkFeeStateCache (fs_global_fee_wallet fs) (fs_program_fee_fixed fs) (fs_program_fee_rate fs).
