(* ===== verification/InterestRate.v ===== *)
(** * Interest rates

    [InterestRateConfig], the rate calculator and the accrual arithmetic of
    [state/marginfi_group.rs]. *)
From S2P Require Import Prelude Errors Fixed Constants GroupState.

Module InterestRateConfig.
Record InterestRateConfig := mkInterestRateConfig {
  optimal_utilization_rate : I80F48;
  plateau_interest_rate : I80F48;
  max_interest_rate : I80F48;
  insurance_fee_fixed_apr : I80F48;
  insurance_ir_fee : I80F48;
  protocol_fixed_fee_apr : I80F48;
  protocol_ir_fee : I80F48;
  protocol_origination_fee : I80F48
}.

(** [InterestRateConfigCompact] has the same eight fields, without padding;
    both conversions copy them. *)
Record InterestRateConfigCompact := mkInterestRateConfigCompact {
  c_optimal_utilization_rate : I80F48;
  c_plateau_interest_rate : I80F48;
  c_max_interest_rate : I80F48;
  c_insurance_fee_fixed_apr : I80F48;
  c_insurance_ir_fee : I80F48;
  c_protocol_fixed_fee_apr : I80F48;
  c_protocol_ir_fee : I80F48;
  c_protocol_origination_fee : I80F48
}.
Definition of_compact (c : InterestRateConfigCompact) : InterestRateConfig :=
  mkInterestRateConfig (c_optimal_utilization_rate c) (c_plateau_interest_rate c)
    (c_max_interest_rate c) (c_insurance_fee_fixed_apr c) (c_insurance_ir_fee c)
    (c_protocol_fixed_fee_apr c) (c_protocol_ir_fee c) (c_protocol_origination_fee c).
Definition to_compact (c : InterestRateConfig) : InterestRateConfigCompact :=
  mkInterestRateConfigCompact (optimal_utilization_rate c) (plateau_interest_rate c)
    (max_interest_rate c) (insurance_fee_fixed_apr c) (insurance_ir_fee c)
    (protocol_fixed_fee_apr c) (protocol_ir_fee c) (protocol_origination_fee c).

Record InterestRateConfigOpt := mkInterestRateConfigOpt {
  o_optimal_utilization_rate : option I80F48;
  o_plateau_interest_rate : option I80F48;
  o_max_interest_rate : option I80F48;
  o_insurance_fee_fixed_apr : option I80F48;
  o_insurance_ir_fee : option I80F48;
  o_protocol_fixed_fee_apr : option I80F48;
  o_protocol_ir_fee : option I80F48;
  o_protocol_origination_fee : option I80F48
}.

Definition validate (c : InterestRateConfig) : MarginfiResult unit :=
  let optimal_ur := optimal_utilization_rate c in
  let plateau_ir := plateau_interest_rate c in
  let max_ir := max_interest_rate c in
  let? _ := check ((ZERO <? optimal_ur) && (optimal_ur <? ONE)) InvalidConfig in
  let? _ := check (ZERO <? plateau_ir) InvalidConfig in
  let? _ := check (ZERO <? max_ir) InvalidConfig in
  let? _ := check (plateau_ir <? max_ir) InvalidConfig in
  Ok tt.

(** [update]: seven of the eight optional fields; the code has no line for
    [protocol_origination_fee]. *)
Definition update (c : InterestRateConfig) (o : InterestRateConfigOpt) : InterestRateConfig :=
  mkInterestRateConfig
    (default (optimal_utilization_rate c) (o_optimal_utilization_rate o))
    (default (plateau_interest_rate c) (o_plateau_interest_rate o))
    (default (max_interest_rate c) (o_max_interest_rate o))
    (default (insurance_fee_fixed_apr c) (o_insurance_fee_fixed_apr o))
    (default (insurance_ir_fee c) (o_insurance_ir_fee o))
    (default (protocol_fixed_fee_apr c) (o_protocol_fixed_fee_apr o))
    (default (protocol_ir_fee c) (o_protocol_ir_fee o))
    (protocol_origination_fee c).

(** What [validate] establishes. *)
Definition valid (c : InterestRateConfig) : Prop :=
  0 < optimal_utilization_rate c < ONE ∧
  0 < plateau_interest_rate c < max_interest_rate c.

Lemma rates_validate_ok c : validate c = Ok tt ↔ valid c.
Proof.
  unfold validate, valid, ZERO. split.
  - intros H. inv_res. bool_prop. done.
  - intros [[H1 H2] [H3 H4]].
    rewrite !(proj2 (Z.ltb_lt _ _)) by lia. done.
Qed.

(** Fees are non-negative (the validation does not check it). *)
Definition fees_nonneg (c : InterestRateConfig) : Prop :=
  0 ≤ insurance_fee_fixed_apr c ∧ 0 ≤ insurance_ir_fee c ∧
  0 ≤ protocol_fixed_fee_apr c ∧ 0 ≤ protocol_ir_fee c ∧ 0 ≤ protocol_origination_fee c.
End InterestRateConfig.
Notation InterestRateConfig := InterestRateConfig.InterestRateConfig (only parsing).

Module InterestRateCalc.
Record InterestRateCalc := mkInterestRateCalc {
  optimal_utilization_rate : I80F48;
  plateau_interest_rate : I80F48;
  max_interest_rate : I80F48;
  insurance_fixed_fee : I80F48;
  insurance_rate_fee : I80F48;
  protocol_fixed_fee : I80F48;
  protocol_rate_fee : I80F48;
  program_fee_fixed : I80F48;
  program_fee_rate : I80F48;
  add_program_fees : bool
}.

Record Fees := mkFees {
  insurance_fee_rate : I80F48; insurance_fee_fixed : I80F48;
  group_fee_rate : I80F48; group_fee_fixed : I80F48;
  protocol_fee_rate : I80F48; protocol_fee_fixed : I80F48
}.

Record ComputedInterestRates := mkComputedInterestRates {
  lending_rate_apr : I80F48; borrowing_rate_apr : I80F48;
  group_fee_apr : I80F48; insurance_fee_apr : I80F48; protocol_fee_apr : I80F48
}.

(** [InterestRateConfig::create_interest_rate_calculator] *)
Definition create_interest_rate_calculator (c : InterestRateConfig) (g : MarginfiGroup)
    : InterestRateCalc :=
  let program_fees := MarginfiGroup.get_group_bank_config g in
  let cache := MarginfiGroup.fee_state_cache g in
  {| optimal_utilization_rate := InterestRateConfig.optimal_utilization_rate c;
     plateau_interest_rate := InterestRateConfig.plateau_interest_rate c;
     max_interest_rate := InterestRateConfig.max_interest_rate c;
     insurance_fixed_fee := InterestRateConfig.insurance_fee_fixed_apr c;
     insurance_rate_fee := InterestRateConfig.insurance_ir_fee c;
     protocol_fixed_fee := InterestRateConfig.protocol_fixed_fee_apr c;
     protocol_rate_fee := InterestRateConfig.protocol_ir_fee c;
     add_program_fees := program_fees;
     program_fee_fixed := GroupState.program_fee_fixed cache;
     program_fee_rate := GroupState.program_fee_rate cache |}.

Definition get_fees (c : InterestRateCalc) : Fees :=
  let '(protocol_fee_rate, protocol_fee_fixed) :=
    if add_program_fees c then (program_fee_rate c, program_fee_fixed c) else (ZERO, ZERO) in
  mkFees (insurance_rate_fee c) (insurance_fixed_fee c)
    (protocol_rate_fee c) (protocol_fixed_fee c) protocol_fee_rate protocol_fee_fixed.

Section Calc.
Context {F : FixedOps}.

(** A function returning [Option<T>] whose operators can panic:
    [Ok None] is [None]. *)
Definition pure_opt {A} (o : option A) : MarginfiResult (option A) := Ok o.
Definition then_opt {A B} (m : MarginfiResult (option A)) (f : A → MarginfiResult (option B))
    : MarginfiResult (option B) :=
  let? o := m in match o with Some a => f a | None => Ok None end.
Notation "'let^' x := o 'in' k" := (then_opt (pure_opt o) (λ x, k))
  (at level 200, x name, o at level 200, k at level 200).
Notation "'let!' x := m 'in' k" := (then_opt m (λ x, k))
  (at level 200, x name, m at level 200, k at level 200).

(** [interest_rate_curve] *)
Definition interest_rate_curve (c : InterestRateCalc) (ur : I80F48)
    : MarginfiResult (option I80F48) :=
  let optimal_ur := optimal_utilization_rate c in
  let plateau_ir := plateau_interest_rate c in
  let max_ir := max_interest_rate c in
  if ur <=? optimal_ur then
    let^ q := checked_div ur optimal_ur in
    pure_opt (checked_mul q plateau_ir)
  else
    let? above := op_sub ur optimal_ur in
    let? width := op_sub ONE optimal_ur in
    let^ q := checked_div above width in
    let? slope := op_sub max_ir plateau_ir in
    let^ r := checked_mul q slope in
    pure_opt (checked_add r plateau_ir).

(** [calc_fee_rate] *)
Definition calc_fee_rate (base_rate rate_fees fixed_fees : I80F48) : option I80F48 :=
  if rate_fees =? 0 then Some fixed_fees
  else r ← checked_mul base_rate rate_fees; checked_add r fixed_fees.

(** [calc_interest_rate] *)
Definition calc_interest_rate (c : InterestRateCalc) (utilization_ratio : I80F48)
    : MarginfiResult (option ComputedInterestRates) :=
  let fees := get_fees c in
  let? fee_ir := op_add (insurance_fee_rate fees) (group_fee_rate fees) in
  let? fee_ir := op_add fee_ir (protocol_fee_rate fees) in
  let? fee_fixed := op_add (insurance_fee_fixed fees) (group_fee_fixed fees) in
  let? fee_fixed := op_add fee_fixed (protocol_fee_fixed fees) in
  let! base_rate := interest_rate_curve c utilization_ratio in
  let^ lending_rate_apr := checked_mul base_rate utilization_ratio in
  let^ factor := checked_add ONE fee_ir in
  let^ scaled := checked_mul base_rate factor in
  let^ borrowing_rate_apr := checked_add scaled fee_fixed in
  let^ group_fee_apr := calc_fee_rate base_rate (group_fee_rate fees) (group_fee_fixed fees) in
  let^ insurance_fee_apr :=
    calc_fee_rate base_rate (insurance_fee_rate fees) (insurance_fee_fixed fees) in
  let^ protocol_fee_apr :=
    calc_fee_rate base_rate (protocol_fee_rate fees) (protocol_fee_fixed fees) in
  let? _ := rust_assert (ZERO <=? lending_rate_apr) in
  let? _ := rust_assert (ZERO <=? borrowing_rate_apr) in
  let? _ := rust_assert (ZERO <=? group_fee_apr) in
  let? _ := rust_assert (ZERO <=? insurance_fee_apr) in
  let? _ := rust_assert (ZERO <=? protocol_fee_apr) in
  Ok (Some (mkComputedInterestRates lending_rate_apr borrowing_rate_apr
              group_fee_apr insurance_fee_apr protocol_fee_apr)).

(** [calc_accrued_interest_payment_per_period] *)
Definition calc_accrued_interest_payment_per_period (apr : I80F48) (time_delta : Z)
    (value : I80F48) : option I80F48 :=
  p ← checked_mul apr (from_num time_delta);
  ir_per_period ← checked_div p SECONDS_PER_YEAR;
  factor ← checked_add ONE ir_per_period;
  checked_mul value factor.

(** [calc_interest_payment_for_period] *)
Definition calc_interest_payment_for_period (apr : I80F48) (time_delta : Z) (value : I80F48)
    : option I80F48 :=
  if apr =? 0 then Some ZERO
  else
    v ← checked_mul value apr;
    v ← checked_mul v (from_num time_delta);
    checked_div v SECONDS_PER_YEAR.

Record InterestRateStateChanges := mkInterestRateStateChanges {
  new_asset_share_value : I80F48;
  new_liability_share_value : I80F48;
  insurance_fees_collected : I80F48;
  group_fees_collected : I80F48;
  protocol_fees_collected : I80F48
}.

(** [calc_interest_rate_accrual_state_changes] *)
Definition calc_interest_rate_accrual_state_changes (time_delta : Z)
    (total_assets_amount total_liabilities_amount : I80F48) (c : InterestRateCalc)
    (asset_share_value liability_share_value : I80F48)
    : MarginfiResult (option InterestRateStateChanges) :=
  let^ utilization_rate := checked_div total_liabilities_amount total_assets_amount in
  let! rates := calc_interest_rate c utilization_rate in
  let^ na := calc_accrued_interest_payment_per_period (lending_rate_apr rates) time_delta asset_share_value in
  let^ nl := calc_accrued_interest_payment_per_period (borrowing_rate_apr rates) time_delta liability_share_value in
  let^ i := calc_interest_payment_for_period (insurance_fee_apr rates) time_delta total_liabilities_amount in
  let^ g := calc_interest_payment_for_period (group_fee_apr rates) time_delta total_liabilities_amount in
  let^ p := calc_interest_payment_for_period (protocol_fee_apr rates) time_delta total_liabilities_amount in
  Ok (Some (mkInterestRateStateChanges na nl i g p)).
End Calc.

(** ** Correctness *)
#[local] Arguments then_opt : simpl never.
#[local] Arguments pure_opt : simpl never.

Lemma then_opt_some {A B} (m : MarginfiResult (option A)) (f : A → MarginfiResult (option B)) b :
  then_opt m f = Ok (Some b) → ∃ a, m = Ok (Some a) ∧ f a = Ok (Some b).
Proof. destruct m as [[a|]| |]; simpl; naive_solver. Qed.
Lemma pure_opt_some {A} (o : option A) a : pure_opt o = Ok (Some a) ↔ o = Some a.
Proof. unfold pure_opt. naive_solver. Qed.

Ltac inv_opt :=
  repeat match goal with
  | H : then_opt _ _ = Ok (Some _) |- _ =>
      let x := fresh "v" in let E := fresh "E" in
      apply then_opt_some in H; destruct H as (x & E & H)
  | H : pure_opt _ = Ok (Some _) |- _ => apply pure_opt_some in H
  | H : (_ ≫= _) = Some _ |- _ =>
      let x := fresh "v" in let E := fresh "E" in
      apply bind_Some in H; destruct H as (x & E & H)
  | H : Ok (Some _) = Ok (Some _) |- _ => injection H as H; try subst
  | _ => progress inv_res
  end.

(** A calculator built from a validated configuration. *)
Definition curve_wf (c : InterestRateCalc) : Prop :=
  0 < optimal_utilization_rate c < ONE ∧
  0 < plateau_interest_rate c < max_interest_rate c ∧
  max_interest_rate c ≤ I80F48_MAX.

(** The piecewise linear curve as a function of integers. *)
Definition curve (c : InterestRateCalc) (ur : Z) : Z :=
  if ur <=? optimal_utilization_rate c
  then fmul (fdiv ur (optimal_utilization_rate c)) (plateau_interest_rate c)
  else fmul (fdiv (ur - optimal_utilization_rate c) (ONE - optimal_utilization_rate c))
         (max_interest_rate c - plateau_interest_rate c) + plateau_interest_rate c.

Lemma curve_low_bounds c ur :
  curve_wf c → 0 ≤ ur ≤ optimal_utilization_rate c → 0 ≤ curve c ur ≤ plateau_interest_rate c.
Proof.
  intros (H1 & H2 & H3) Hu. unfold curve. rewrite (proj2 (Z.leb_le _ _)) by lia. split.
  - apply fmul_nonneg; [apply fdiv_nonneg|]; lia.
  - rewrite fmul_comm. apply fmul_le_l; [lia|]. split; [apply fdiv_nonneg; lia|].
    apply fdiv_le_ONE; lia.
Qed.

Lemma curve_high_bounds c ur :
  curve_wf c → optimal_utilization_rate c < ur → plateau_interest_rate c ≤ curve c ur.
Proof.
  intros (H1 & H2 & H3) Hu. unfold curve. rewrite (proj2 (Z.leb_gt _ _)) by lia.
  assert (0 ≤ fmul (fdiv (ur - optimal_utilization_rate c) (ONE - optimal_utilization_rate c))
         (max_interest_rate c - plateau_interest_rate c)); [|lia].
  apply fmul_nonneg; [apply fdiv_nonneg|]; lia.
Qed.

Lemma curve_le_max c ur : curve_wf c → 0 ≤ ur ≤ ONE → curve c ur ≤ max_interest_rate c.
Proof.
  intros Hw Hu. destruct (decide (ur ≤ optimal_utilization_rate c)).
  - pose proof (curve_low_bounds c ur Hw ltac:(lia)). destruct Hw as (? & ? & ?). lia.
  - destruct Hw as (H1 & H2 & H3). unfold curve. rewrite (proj2 (Z.leb_gt _ _)) by lia.
    enough (fmul (fdiv (ur - optimal_utilization_rate c) (ONE - optimal_utilization_rate c))
         (max_interest_rate c - plateau_interest_rate c)
         ≤ max_interest_rate c - plateau_interest_rate c) by lia.
    rewrite fmul_comm. apply fmul_le_l; [lia|]. split; [apply fdiv_nonneg; lia|].
    apply fdiv_le_ONE; lia.
Qed.

Lemma curve_mono c ur ur' : curve_wf c → 0 ≤ ur ≤ ur' → curve c ur ≤ curve c ur'.
Proof.
  intros Hw Hu. destruct (decide (ur' ≤ optimal_utilization_rate c)).
  - unfold curve. rewrite !(proj2 (Z.leb_le _ _)) by lia. destruct Hw as (H1 & H2 & H3).
    apply fmul_mono; [|lia]. split; [apply fdiv_nonneg; lia|apply fdiv_mono; lia].
  - destruct (decide (ur ≤ optimal_utilization_rate c)).
    + pose proof (curve_low_bounds c ur Hw ltac:(lia)).
      pose proof (curve_high_bounds c ur' Hw ltac:(lia)). lia.
    + unfold curve. rewrite !(proj2 (Z.leb_gt _ _)) by lia. destruct Hw as (H1 & H2 & H3).
      apply Z.add_le_mono_r, fmul_mono; [|lia].
      split; [apply fdiv_nonneg; lia|apply fdiv_mono; lia].
Qed.

Section CurveTheorems.
Context {F : FixedOps} {L : FixedLaws F}.

(** Whenever the curve returns a rate, it is [curve]. *)
Lemma interest_rate_curve_some c ur r :
  curve_wf c → 0 ≤ ur → interest_rate_curve c ur = Ok (Some r) → r = curve c ur ∧ 0 ≤ r.
Proof.
  intros Hw Hu. unfold interest_rate_curve.
  destruct (ur <=? optimal_utilization_rate c) eqn:E; intros H; inv_opt; bool_prop.
  - pose proof (curve_low_bounds c ur Hw ltac:(lia)) as Hb.
    unfold curve in *. rewrite (proj2 (Z.leb_le _ _)) in * by lia.
    destruct Hw as (H1 & H2 & H3).
    apply div_some in E0 as (_ & -> & _); [|lia..].
    apply mul_some in H as [-> _]; [lia| |lia]. apply fdiv_nonneg; lia.
  - pose proof (curve_high_bounds c ur Hw ltac:(lia)) as Hb.
    unfold curve in *. rewrite (proj2 (Z.leb_gt _ _)) in * by lia.
    destruct Hw as (H1 & H2 & H3).
    apply op_sub_ok in E0, E1, E3. subst.
    apply div_some in E2 as (_ & -> & _); [|lia..].
    apply mul_some in E4 as [-> _]; [|apply fdiv_nonneg; lia|lia].
    apply add_some in H as [-> _]. lia.
Qed.

Lemma interest_rate_curve_total c ur :
  curve_wf c → 0 ≤ ur ≤ ONE → interest_rate_curve c ur = Ok (Some (curve c ur)).
Proof.
  intros Hw Hu. pose proof (curve_le_max c ur Hw Hu) as Hmax.
  pose proof SCALE_pos as HS.
  assert (ONE ≤ I80F48_MAX) as HO by (vm_compute; discriminate).
  unfold interest_rate_curve, then_opt, pure_opt.
  destruct (ur <=? optimal_utilization_rate c) eqn:E; bool_prop.
  - pose proof (curve_low_bounds c ur Hw ltac:(lia)) as Hb.
    unfold curve in *. rewrite (proj2 (Z.leb_le _ _)) in * by lia.
    destruct Hw as (H1 & H2 & H3).
    pose proof (fdiv_le_ONE ur (optimal_utilization_rate c) ltac:(lia) ltac:(lia)).
    rewrite div_ok by lia. simpl. rewrite mul_ok; [done|apply fdiv_nonneg; lia|lia|lia].
  - pose proof (curve_high_bounds c ur Hw ltac:(lia)) as Hb.
    unfold curve in *. rewrite (proj2 (Z.leb_gt _ _)) in * by lia.
    destruct Hw as (H1 & H2 & H3).
    pose proof (fdiv_le_ONE (ur - optimal_utilization_rate c) (ONE - optimal_utilization_rate c)
                  ltac:(lia) ltac:(lia)).
    unfold I80F48_MAX in *.
    assert (is_i80f48 (ur - optimal_utilization_rate c) ∧
            is_i80f48 (ONE - optimal_utilization_rate c) ∧
            is_i80f48 (max_interest_rate c - plateau_interest_rate c)) as (R1 & R2 & R3)
      by (unfold is_i80f48, I80F48_MIN, I80F48_MAX; lia).
    rewrite !op_sub_spec by done. simpl.
    rewrite div_ok by (unfold I80F48_MAX; lia). simpl.
    rewrite mul_ok; [|apply fdiv_nonneg; lia|lia|unfold I80F48_MAX; lia]. simpl.
    rewrite add_ok; [done|]. unfold is_i80f48, I80F48_MIN, I80F48_MAX. lia.
Qed.

(** C27: for a validated configuration and a utilization
    ratio between 0 and 1 the curve always returns a rate (it neither
    overflows nor panics); the rate runs from 0 at utilization 0 through
    exactly the plateau rate at the optimal utilization to exactly the
    maximum rate at utilization 1, and never decreases in between. *)
Theorem interest_rate_curve_correct c ur ur' :
  curve_wf c → 0 ≤ ur ≤ ur' → ur' ≤ ONE →
  (∃ r r', interest_rate_curve c ur = Ok (Some r) ∧ interest_rate_curve c ur' = Ok (Some r') ∧
           0 ≤ r ≤ r' ∧ r' ≤ max_interest_rate c ∧
           (ur' ≤ optimal_utilization_rate c → r' ≤ plateau_interest_rate c) ∧
           (optimal_utilization_rate c ≤ ur → plateau_interest_rate c ≤ r)) ∧
  interest_rate_curve c 0 = Ok (Some 0) ∧
  interest_rate_curve c (optimal_utilization_rate c) = Ok (Some (plateau_interest_rate c)) ∧
  interest_rate_curve c ONE = Ok (Some (max_interest_rate c)).
Proof.
  intros Hw Hu Hu'. pose proof SCALE_pos. destruct (Hw) as (H1 & H2 & H3).
  assert (curve c (optimal_utilization_rate c) = plateau_interest_rate c) as Hopt.
  { unfold curve. rewrite Z.leb_refl, fdiv_diag, fmul_ONE_l; lia. }
  split_and!.
  - exists (curve c ur), (curve c ur').
    rewrite !interest_rate_curve_total by (done || lia).
    pose proof (curve_mono c ur ur' Hw ltac:(lia)).
    pose proof (curve_mono c 0 ur Hw ltac:(lia)).
    pose proof (curve_low_bounds c 0 Hw ltac:(lia)).
    split_and!; [done..|lia|lia|apply curve_le_max; [done|lia]| |].
    + intros. apply curve_low_bounds; [done|lia].
    + intros. rewrite <- Hopt. apply curve_mono; [done|lia].
  - rewrite interest_rate_curve_total by (done || unfold ONE; lia).
    unfold curve. rewrite (proj2 (Z.leb_le _ _)) by lia. by rewrite fdiv_0_l, fmul_0_l.
  - rewrite interest_rate_curve_total by (done || lia). by rewrite Hopt.
  - rewrite interest_rate_curve_total by (done || unfold ONE; lia).
    unfold curve. rewrite (proj2 (Z.leb_gt _ _)) by lia.
    rewrite fdiv_diag, fmul_ONE_l by lia. do 2 f_equal. lia.
Qed.

(** Fees of a calculator are non-negative. *)
Definition fees_wf (c : InterestRateCalc) : Prop :=
  0 ≤ insurance_fixed_fee c ∧ 0 ≤ insurance_rate_fee c ∧
  0 ≤ protocol_fixed_fee c ∧ 0 ≤ protocol_rate_fee c ∧
  0 ≤ program_fee_fixed c ∧ 0 ≤ program_fee_rate c.

Lemma get_fees_nonneg c :
  fees_wf c →
  0 ≤ insurance_fee_rate (get_fees c) ∧ 0 ≤ insurance_fee_fixed (get_fees c) ∧
  0 ≤ group_fee_rate (get_fees c) ∧ 0 ≤ group_fee_fixed (get_fees c) ∧
  0 ≤ protocol_fee_rate (get_fees c) ∧ 0 ≤ protocol_fee_fixed (get_fees c).
Proof.
  intros (?&?&?&?&?&?). unfold get_fees, ZERO.
  destruct (add_program_fees c); simpl; split_and!; lia.
Qed.

Lemma calc_fee_rate_some b r f x :
  0 ≤ b → 0 ≤ r → calc_fee_rate b r f = Some x → x = fmul b r + f.
Proof.
  unfold calc_fee_rate. intros Hb Hr. destruct (r =? 0) eqn:E; bool_prop.
  - intros [= <-]. subst r. rewrite fmul_0_r. lia.
  - intros H. inv_opt. apply mul_some in E0 as [-> _]; [|done..].
    by apply add_some in H as [-> _].
Qed.

Lemma fmul_add_r b x y : 0 ≤ b → 0 ≤ x → 0 ≤ y → 
  fmul b x + fmul b y ≤ fmul b (x + y) ≤ fmul b x + fmul b y + 1.
Proof.
  intros. unfold fmul. pose proof SCALE_pos.
  pose proof (div_bounds (b * x) SCALE ltac:(done)).
  pose proof (div_bounds (b * y) SCALE ltac:(done)).
  pose proof (div_bounds (b * (x + y)) SCALE ltac:(done)). nia.
Qed.

Lemma fmul_ONE_add b x : fmul b (ONE + x) = b + fmul b x.
Proof.
  unfold fmul, ONE. pose proof SCALE_pos.
  rewrite Z.mul_add_distr_l, Z.add_comm, Z.div_add by lia. lia.
Qed.

(** The rates the calculator returns. *)
Lemma calc_interest_rate_some c ur rates :
  curve_wf c → fees_wf c → 0 ≤ ur →
  calc_interest_rate c ur = Ok (Some rates) →
  let b := curve c ur in
  0 ≤ b ∧ lending_rate_apr rates = fmul b ur ∧
  0 ≤ group_fee_apr rates ∧ 0 ≤ insurance_fee_apr rates ∧ 0 ≤ protocol_fee_apr rates ∧
  b + group_fee_apr rates + insurance_fee_apr rates + protocol_fee_apr rates
    ≤ borrowing_rate_apr rates ∧
  borrowing_rate_apr rates ≤
    b + group_fee_apr rates + insurance_fee_apr rates + protocol_fee_apr rates + 2.
Proof.
  intros Hw Hf Hu H b. unfold calc_interest_rate in H.
  pose proof (get_fees_nonneg c Hf) as (?&?&?&?&?&?).
  destruct (get_fees c) as [ir iff gr gff pr pf]; simpl in *.
  inv_opt. bool_prop. simpl.
  apply op_add_ok in E, E0, E1, E2. subst.
  apply interest_rate_curve_some in E3 as [-> Hb]; [|done..].
  apply mul_some in E4 as [-> _]; [|done..].
  apply add_some in E5 as [-> _].
  pose proof SCALE_pos. unfold ONE in *.
  apply mul_some in E6 as [-> _]; [|done|lia].
  apply add_some in E7 as [-> _].
  apply calc_fee_rate_some in E8 as ->; [|done..].
  apply calc_fee_rate_some in E9 as ->; [|done..].
  apply calc_fee_rate_some in E10 as ->; [|done..].
  fold b. rewrite fmul_ONE_add in *.
  pose proof (fmul_add_r b ir gr). pose proof (fmul_add_r b (ir + gr) pr).
  pose proof (fmul_nonneg b gr). pose proof (fmul_nonneg b ir). pose proof (fmul_nonneg b pr).
  fold b in Hb. unfold ZERO in *. split_and!; try done; lia.
Qed.

(** The rates charged and paid balance.  With
    non-negative fees, every rate is non-negative; depositors earn at most
    the base rate, which is at most what borrowers pay (for utilization up
    to 1); and the borrowing rate is the base rate plus the group, the
    insurance and the program fee rate, to within two units of 2^-48. *)
Theorem interest_rates_consistent c ur rates :
  curve_wf c → fees_wf c → 0 ≤ ur ≤ ONE →
  calc_interest_rate c ur = Ok (Some rates) →
  ∃ base, interest_rate_curve c ur = Ok (Some base) ∧
    lending_rate_apr rates = fmul base ur ∧
    0 ≤ lending_rate_apr rates ≤ base ∧
    0 ≤ group_fee_apr rates ∧ 0 ≤ insurance_fee_apr rates ∧ 0 ≤ protocol_fee_apr rates ∧
    0 ≤ borrowing_rate_apr rates -
        (base + group_fee_apr rates + insurance_fee_apr rates + protocol_fee_apr rates) ≤ 2.
Proof.
  intros Hw Hf Hu H.
  pose proof (calc_interest_rate_some c ur rates Hw Hf ltac:(lia) H) as (?&Hl&?&?&?&?&?).
  exists (curve c ur). rewrite interest_rate_curve_total by done.
  pose proof (fmul_le_l (curve c ur) ur ltac:(done) ltac:(lia)).
  pose proof (fmul_nonneg (curve c ur) ur ltac:(done) ltac:(lia)).
  split_and!; try done; lia.
Qed.

(** *** Accrual over a period *)

(** The interest factor of a period, in units of 2^-48. *)
Definition period_rate (apr time_delta : Z) : Z := apr * time_delta / 31536000.

Lemma seconds_div x : fdiv x SECONDS_PER_YEAR = x / 31536000.
Proof.
  unfold fdiv, SECONDS_PER_YEAR, from_num. pose proof SCALE_pos.
  apply Z.div_mul_cancel_r; lia.
Qed.
Lemma fmul_from_num x n : fmul x (from_num n) = x * n.
Proof.
  unfold fmul, from_num. pose proof SCALE_pos.
  rewrite Z.mul_assoc. apply Z.div_mul. lia.
Qed.

Lemma period_rate_nonneg apr t : 0 ≤ apr → 0 ≤ t → 0 ≤ period_rate apr t.
Proof. intros. apply Z.div_pos; nia. Qed.

Lemma accrued_some apr t v x :
  0 ≤ apr → 0 ≤ t → 0 ≤ v →
  calc_accrued_interest_payment_per_period apr t v = Some x →
  x = v + fmul v (period_rate apr t).
Proof.
  intros Ha Ht Hv H. unfold calc_accrued_interest_payment_per_period in H. inv_opt.
  pose proof SCALE_pos.
  apply mul_some in E as [-> _]; [|done|unfold from_num; nia].
  rewrite fmul_from_num in *.
  apply div_some in E0 as (_ & -> & _); [|nia|unfold SECONDS_PER_YEAR, from_num; nia].
  rewrite seconds_div in *.
  apply add_some in E1 as [-> _].
  assert (0 ≤ apr * t / 31536000) by (apply Z.div_pos; nia).
  apply mul_some in H as [-> _]; [|done|unfold ONE; lia].
  by rewrite fmul_ONE_add.
Qed.

Lemma payment_some apr t v x :
  0 ≤ apr → 0 ≤ t → 0 ≤ v →
  calc_interest_payment_for_period apr t v = Some x →
  x = fmul v apr * t / 31536000.
Proof.
  intros Ha Ht Hv H. unfold calc_interest_payment_for_period in H.
  pose proof SCALE_pos.
  destruct (apr =? 0) eqn:E; bool_prop; inv_opt; [by rewrite fmul_0_r|].
  apply mul_some in E0 as [-> _]; [|done..].
  pose proof (fmul_nonneg v apr Hv Ha).
  apply mul_some in E1 as [-> _]; [|done|unfold from_num; nia].
  rewrite fmul_from_num in *.
  apply div_some in H as (_ & -> & _); [|nia|unfold SECONDS_PER_YEAR, from_num; nia].
  by rewrite seconds_div.
Qed.

(** The assertions at the end of [calc_interest_rate]. *)
Lemma calc_interest_rate_asserts c ur rates :
  calc_interest_rate c ur = Ok (Some rates) →
  0 ≤ lending_rate_apr rates ∧ 0 ≤ borrowing_rate_apr rates ∧ 0 ≤ group_fee_apr rates ∧
  0 ≤ insurance_fee_apr rates ∧ 0 ≤ protocol_fee_apr rates.
Proof.
  intros H. unfold calc_interest_rate in H. inv_opt. simpl. unfold ZERO in *. bool_prop. done.
Qed.

Lemma state_changes_some t A Li c asv lsv ch :
  0 ≤ t → 0 ≤ A → 0 ≤ Li → 0 ≤ asv → 0 ≤ lsv →
  calc_interest_rate_accrual_state_changes t A Li c asv lsv = Ok (Some ch) →
  ∃ rates, 0 < A ∧ calc_interest_rate c (fdiv Li A) = Ok (Some rates) ∧
    new_asset_share_value ch = asv + fmul asv (period_rate (lending_rate_apr rates) t) ∧
    new_liability_share_value ch = lsv + fmul lsv (period_rate (borrowing_rate_apr rates) t) ∧
    insurance_fees_collected ch = fmul Li (insurance_fee_apr rates) * t / 31536000 ∧
    group_fees_collected ch = fmul Li (group_fee_apr rates) * t / 31536000 ∧
    protocol_fees_collected ch = fmul Li (protocol_fee_apr rates) * t / 31536000.
Proof.
  intros Ht HA HL Ha Hl H. unfold calc_interest_rate_accrual_state_changes in H.
  inv_opt. apply div_some in E as (HA' & -> & _); [|done..].
  pose proof (calc_interest_rate_asserts _ _ _ E0) as (?&?&?&?&?).
  exists v0. simpl.
  apply accrued_some in E1 as ->; [|lia..].
  apply accrued_some in E2 as ->; [|lia..].
  apply payment_some in E3 as ->; [|lia..].
  apply payment_some in E4 as ->; [|lia..].
  apply payment_some in E5 as ->; [|lia..].
  done.
Qed.

(** Over any period the accrual only raises both share
    values and only collects non-negative fees; over an empty period it
    changes nothing. *)
Lemma changes_monotone t A Li c asv lsv ch :
  0 ≤ t → 0 ≤ A → 0 ≤ Li → 0 ≤ asv → 0 ≤ lsv →
  calc_interest_rate_accrual_state_changes t A Li c asv lsv = Ok (Some ch) →
  asv ≤ new_asset_share_value ch ∧ lsv ≤ new_liability_share_value ch ∧
  0 ≤ insurance_fees_collected ch ∧ 0 ≤ group_fees_collected ch ∧
  0 ≤ protocol_fees_collected ch ∧
  (t = 0 → ch = mkInterestRateStateChanges asv lsv 0 0 0).
Proof.
  intros Ht HA HL Ha Hl H.
  destruct (state_changes_some _ _ _ _ _ _ _ Ht HA HL Ha Hl H)
    as (r & HA' & Hr & H1 & H2 & H3 & H4 & H5).
  pose proof (calc_interest_rate_asserts _ _ _ Hr) as (?&?&?&?&?).
  destruct ch as [na nl i g p]; simpl in *.
  pose proof (fmul_nonneg asv _ Ha (period_rate_nonneg (lending_rate_apr r) t ltac:(lia) Ht)).
  pose proof (fmul_nonneg lsv _ Hl (period_rate_nonneg (borrowing_rate_apr r) t ltac:(lia) Ht)).
  split_and!; [lia|lia| | | |].
  - subst i. apply Z.div_pos; [|lia]. apply Z.mul_nonneg_nonneg; [apply fmul_nonneg|]; lia.
  - subst g. apply Z.div_pos; [|lia]. apply Z.mul_nonneg_nonneg; [apply fmul_nonneg|]; lia.
  - subst p. apply Z.div_pos; [|lia]. apply Z.mul_nonneg_nonneg; [apply fmul_nonneg|]; lia.
  - intros ->. unfold period_rate in *. rewrite !Z.mul_0_r in *. simpl in *.
    rewrite fmul_0_r in *. subst. by rewrite !Z.add_0_r.
Qed.
End CurveTheorems.

(** *** Accruals that succeed *)
(** The sum of the fee rates, and the borrowing rate at full utilization: no
    rate of the calculator is above it. *)
Definition fee_rates (c : InterestRateCalc) : Z :=
  insurance_fee_rate (get_fees c) + group_fee_rate (get_fees c) + protocol_fee_rate (get_fees c).
Definition borrowing_cap (c : InterestRateCalc) : Z :=
  fmul (max_interest_rate c) (ONE + fee_rates c)
  + (insurance_fee_fixed (get_fees c) + group_fee_fixed (get_fees c) + protocol_fee_fixed (get_fees c)).

Lemma borrowing_cap_nonneg c : curve_wf c → fees_wf c → 0 ≤ borrowing_cap c.
Proof.
  intros (? & ? & ?) Hf. pose proof (get_fees_nonneg c Hf). assert (0 < ONE) by done.
  unfold borrowing_cap, fee_rates. apply Z.add_nonneg_nonneg; [apply fmul_nonneg|]; lia.
Qed.

Section Totality.
Context {F : FixedOps} {L : FixedLaws F}.

Lemma calc_fee_rate_total b r f cap :
  0 ≤ b → 0 ≤ r → 0 ≤ f → fmul b r + f ≤ cap → cap ≤ I80F48_MAX →
  ∃ x, calc_fee_rate b r f = Some x ∧ 0 ≤ x ≤ cap.
Proof.
  intros Hb Hr Hf Hc Hm. pose proof (fmul_nonneg b r Hb Hr). unfold calc_fee_rate.
  destruct (r =? 0) eqn:E; [exists f; split; [done|lia]|].
  rewrite mul_ok by lia. simpl. rewrite add_ok by (unfold is_i80f48, I80F48_MIN, I80F48_MAX in *; lia).
  eexists. split; [done|lia].
Qed.

Ltac in_i80f48 := unfold is_i80f48, I80F48_MIN, I80F48_MAX in *; lia.

Lemma calc_interest_rate_total c ur :
  curve_wf c → fees_wf c → 0 ≤ ur ≤ ONE →
  ONE + fee_rates c ≤ I80F48_MAX → borrowing_cap c ≤ I80F48_MAX →
  ∃ r, calc_interest_rate c ur = Ok (Some r) ∧
    0 ≤ lending_rate_apr r ≤ borrowing_cap c ∧ 0 ≤ borrowing_rate_apr r ≤ borrowing_cap c ∧
    0 ≤ group_fee_apr r ≤ borrowing_cap c ∧ 0 ≤ insurance_fee_apr r ≤ borrowing_cap c ∧
    0 ≤ protocol_fee_apr r ≤ borrowing_cap c.
Proof.
  intros Hw Hf Hu Hr Hc. pose proof (get_fees_nonneg c Hf) as (?&?&?&?&?&?).
  pose proof (curve_le_max c ur Hw Hu) as Hmax.
  pose proof (interest_rate_curve_total c ur Hw Hu) as Hcur.
  destruct (interest_rate_curve_some c ur _ Hw ltac:(lia) Hcur) as [_ Hb].
  unfold borrowing_cap, fee_rates in *. unfold calc_interest_rate. rewrite Hcur.
  destruct (get_fees c) as [ir iff gr gff pr pf]; simpl in *. set (b := curve c ur) in *.
  pose proof SCALE_pos. assert (ONE = SCALE) as HO by done.
  set (cap := fmul (max_interest_rate c) (ONE + (ir + gr + pr)) + (iff + gff + pf)) in *.
  assert (∀ r, 0 ≤ r ≤ ONE + (ir + gr + pr) → 0 ≤ fmul b r ∧ fmul b r + (iff + gff + pf) ≤ cap) as Hfm.
  { intros r Hr'. split; [apply fmul_nonneg; lia|]. apply Z.add_le_mono_r, fmul_mono; lia. }
  assert (0 ≤ fmul (max_interest_rate c) (ONE + (ir + gr + pr))) by (apply fmul_nonneg; lia).
  pose proof (Hfm ur ltac:(lia)). pose proof (Hfm _ (conj (ltac:(lia) : 0 ≤ ONE + (ir + gr + pr)) (Z.le_refl _))).
  pose proof (Hfm gr ltac:(lia)). pose proof (Hfm ir ltac:(lia)). pose proof (Hfm pr ltac:(lia)).
  destruct (calc_fee_rate_total b gr gff cap) as (xg & Hxg & ?); [lia..|].
  destruct (calc_fee_rate_total b ir iff cap) as (xi & Hxi & ?); [lia..|].
  destruct (calc_fee_rate_total b pr pf cap) as (xp & Hxp & ?); [lia..|].
  unfold then_opt, pure_opt.
  rewrite (op_add_spec ir), (op_add_spec iff) by in_i80f48. simpl.
  rewrite (op_add_spec (ir + gr)), (op_add_spec (iff + gff)) by in_i80f48. simpl.
  rewrite (mul_ok b ur) by in_i80f48. simpl. rewrite add_ok by in_i80f48. simpl.
  rewrite mul_ok by in_i80f48. simpl. rewrite add_ok by in_i80f48. simpl.
  rewrite Hxg. simpl. rewrite Hxi. simpl. rewrite Hxp. simpl.
  unfold ZERO. rewrite !(proj2 (Z.leb_le _ _)) by lia. simpl.
  eexists. split; [done|]. simpl. lia.
Qed.

Lemma accrued_total apr cap t v :
  0 ≤ apr ≤ cap → 0 ≤ t → 0 ≤ v → ONE + cap * t ≤ I80F48_MAX →
  v + fmul v (period_rate cap t) ≤ I80F48_MAX →
  ∃ x, calc_accrued_interest_payment_per_period apr t v = Some x.
Proof.
  intros Ha Ht Hv H1 H2. unfold calc_accrued_interest_payment_per_period. pose proof SCALE_pos.
  assert (ONE = SCALE) as HO by done. assert (0 ≤ apr * t ≤ cap * t) as Hat by nia.
  assert (0 ≤ period_rate apr t ≤ period_rate cap t) as Hp.
  { split; [apply period_rate_nonneg; lia|]. apply Z.div_le_mono; lia. }
  assert (period_rate apr t ≤ apr * t) by (apply Z.div_le_upper_bound; lia).
  rewrite mul_ok; [|lia|unfold from_num; nia|rewrite fmul_from_num; lia]. simpl.
  rewrite fmul_from_num, div_ok; [|lia|done|rewrite seconds_div; fold (period_rate apr t); lia].
  simpl. rewrite seconds_div. fold (period_rate apr t). rewrite add_ok by in_i80f48. simpl.
  pose proof (fmul_mono v v (period_rate apr t) (period_rate cap t) ltac:(lia) ltac:(lia)).
  rewrite mul_ok; [by eexists|done|lia|rewrite fmul_ONE_add; lia].
Qed.

Lemma payment_total apr cap t v :
  0 ≤ apr ≤ cap → 0 ≤ t → 0 ≤ v → fmul v cap * t ≤ I80F48_MAX → 0 < t →
  ∃ x, calc_interest_payment_for_period apr t v = Some x ∧ 0 ≤ x ≤ fmul v cap * t / 31536000.
Proof.
  intros Ha Ht Hv H1 Ht'. unfold calc_interest_payment_for_period. pose proof SCALE_pos.
  pose proof (fmul_mono v v apr cap ltac:(lia) Ha). pose proof (fmul_nonneg v apr Hv ltac:(lia)).
  assert (0 ≤ fmul v cap * t / 31536000) by (apply Z.div_pos; nia).
  destruct (apr =? 0); [exists 0; split; [done|lia]|].
  assert (fmul v apr * t ≤ fmul v cap * t) by nia. assert (fmul v apr ≤ fmul v apr * t) by nia.
  rewrite mul_ok by lia. simpl. rewrite mul_ok; [|done|unfold from_num; nia|rewrite fmul_from_num; lia]. simpl.
  assert (0 ≤ fmul v apr * t / 31536000 ≤ fmul v cap * t / 31536000)
    by (split; [apply Z.div_pos; nia|apply Z.div_le_mono; lia]).
  assert (fmul v cap * t / 31536000 ≤ fmul v cap * t) by (apply Z.div_le_upper_bound; lia).
  rewrite fmul_from_num, div_ok; [|nia|done|rewrite seconds_div; lia].
  rewrite seconds_div. eexists. split; [done|lia].
Qed.

(** What keeps an accrual of [t] seconds within the range of the numbers. *)
Record accrual_fits (c : InterestRateCalc) (t debts asv lsv : Z) : Prop := {
  af_rates : ONE + fee_rates c ≤ I80F48_MAX;
  af_factor : ONE + borrowing_cap c * t ≤ I80F48_MAX;
  af_asv : asv + fmul asv (period_rate (borrowing_cap c) t) ≤ I80F48_MAX;
  af_lsv : lsv + fmul lsv (period_rate (borrowing_cap c) t) ≤ I80F48_MAX;
  af_payment : fmul debts (borrowing_cap c) * t ≤ I80F48_MAX
}.

Lemma state_changes_total t A Li c asv lsv :
  curve_wf c → fees_wf c → 0 < t → 0 < A → 0 ≤ Li ≤ A → 0 ≤ asv → 0 ≤ lsv →
  accrual_fits c t Li asv lsv →
  ∃ ch, calc_interest_rate_accrual_state_changes t A Li c asv lsv = Ok (Some ch) ∧
    ∀ x, x ∈ [insurance_fees_collected ch; group_fees_collected ch; protocol_fees_collected ch] →
      0 ≤ x ≤ fmul Li (borrowing_cap c) * t / 31536000.
Proof.
  intros Hw Hf Ht HA HL Ha Hl [R1 R2 R3 R4 R5]. pose proof SCALE_pos.
  pose proof (fdiv_le_ONE Li A ltac:(lia) ltac:(lia)). pose proof (fdiv_nonneg Li A ltac:(lia) HA).
  assert (ONE ≤ I80F48_MAX) by (vm_compute; discriminate).
  destruct (calc_interest_rate_total c (fdiv Li A) Hw Hf ltac:(lia) R1) as (r & Hr & B1 & B2 & B3 & B4 & B5).
  { assert (0 < ONE) by done. nia. }
  destruct (accrued_total _ _ t asv B1) as (na & Hna); [lia|done..|].
  destruct (accrued_total _ _ t lsv B2) as (nl & Hnl); [lia|done..|].
  destruct (payment_total _ _ t Li B4) as (pi & Hpi & ?); [lia..|].
  destruct (payment_total _ _ t Li B3) as (pg & Hpg & ?); [lia..|].
  destruct (payment_total _ _ t Li B5) as (pp & Hpp & ?); [lia..|].
  unfold calc_interest_rate_accrual_state_changes, then_opt, pure_opt. rewrite div_ok by lia. simpl.
  rewrite Hr. simpl. rewrite Hna. simpl. rewrite Hnl. simpl. rewrite Hpi. simpl. rewrite Hpg. simpl.
  rewrite Hpp. simpl. eexists. split; [done|]. simpl. intros x Hx. rewrite !elem_of_cons in Hx.
  destruct Hx as [->|[->|[->|[]%elem_of_nil]]]; done.
Qed.
End Totality.

(** *** Conservation of value

    The arithmetic core of the accrual's correctness, over integers: [A] and
    [L] are the amounts of all deposits and debts before, [A'] and [L'] after. *)
Section Conservation.
Context (S Y : Z) (HS : 0 < S) (HY : 0 < Y).

(** Depositors' growth, scaled: at most the lending interest on [A]. *)
Lemma asset_growth_bound As asv il :
  0 ≤ As → 0 ≤ asv → 0 ≤ il →
  S * (As * (asv + asv * il / S) / S - As * asv / S) ≤ S + (As * asv / S + 1) * il.
Proof.
  intros HAs Hasv Hil.
  pose proof (div_bounds (asv * il) S HS) as H1.
  pose proof (div_bounds (As * asv) S HS) as H2.
  pose proof (div_bounds (As * (asv + asv * il / S)) S HS) as H3.
  set (A := As * asv / S) in *. set (d := asv * il / S) in *.
  set (A' := As * (asv + d) / S) in *.
  assert (S * (As * d) ≤ As * asv * il) by nia.
  assert (As * asv * il ≤ (S * A + S) * il) by nia.
  assert (As * d ≤ (A + 1) * il) by nia.
  nia.
Qed.

(** Borrowers' growth, scaled: at least the borrowing interest on [L]. *)
Lemma liability_growth_bound Ls lsv ib :
  0 ≤ Ls → 0 ≤ lsv → 0 ≤ ib →
  (Ls * lsv / S) * ib - Ls - S ≤ S * (Ls * (lsv + lsv * ib / S) / S - Ls * lsv / S).
Proof.
  intros HLs Hlsv Hib.
  pose proof (div_bounds (lsv * ib) S HS) as H1.
  pose proof (div_bounds (Ls * lsv) S HS) as H2.
  pose proof (div_bounds (Ls * (lsv + lsv * ib / S)) S HS) as H3.
  set (L := Ls * lsv / S) in *. set (d := lsv * ib / S) in *.
  set (L' := Ls * (lsv + d) / S) in *.
  assert (Ls * lsv * ib ≤ Ls * (S * d) + Ls * S) by nia.
  assert (S * L * ib ≤ Ls * lsv * ib) by nia.
  assert (L * ib ≤ Ls * d + Ls) by nia.
  nia.
Qed.

(** The fees of a period, scaled. *)
Lemma fee_bound L g t : 0 ≤ L → 0 ≤ g → 0 ≤ t → S * (Y * (L * g / S * t / Y)) ≤ L * g * t.
Proof.
  intros HL Hg Ht.
  pose proof (div_bounds (L * g) S HS). pose proof (div_bounds (L * g / S * t) Y HY).
  assert (Y * (L * g / S * t / Y) ≤ L * g / S * t) by lia.
  assert (S * (L * g / S) * t ≤ L * g * t) by nia. nia.
Qed.

(** The lending interest on [A] is at most the base interest on [L]. *)
Lemma lending_bound A L b t :
  0 < A → 0 ≤ L → 0 ≤ b → 0 ≤ t →
  Y * (A * (b * (L * S / A) / S * t / Y)) ≤ b * L * t.
Proof.
  intros HA HL Hb Ht.
  pose proof (div_bounds (L * S) A HA) as H1.
  pose proof (div_bounds (b * (L * S / A)) S HS) as H2.
  set (ur := L * S / A) in *. set (lend := b * ur / S) in *.
  pose proof (div_bounds (lend * t) Y HY) as H3.
  assert (A * (S * lend) ≤ b * (L * S)) by nia.
  assert (A * lend ≤ b * L) by nia.
  assert (A * (Y * (lend * t / Y)) ≤ A * (lend * t)) by nia. nia.
Qed.
End Conservation.

Section ConservationTheorem.
Context {F : FixedOps} {L : FixedLaws F}.

(** Accruing interest creates no value.  For a
    bank with [As] deposit shares and [Ls] debt shares, what depositors and
    the three fee accounts gain in a period is at most what the debts grow
    by, up to the rounding of the fixed-point arithmetic: two units of
    2^-48, plus one unit per whole token of debt and debt share, plus the
    lending interest factor itself. *)
Lemma changes_conserve_value t As Ls asv lsv c ch rates :
  curve_wf c → fees_wf c → 0 ≤ t → 0 ≤ As → 0 ≤ Ls → 0 ≤ asv → 0 ≤ lsv →
  let A := fmul As asv in
  let Li := fmul Ls lsv in
  calc_interest_rate_accrual_state_changes t A Li c asv lsv = Ok (Some ch) →
  calc_interest_rate c (fdiv Li A) = Ok (Some rates) →
  let A' := fmul As (new_asset_share_value ch) in
  let Li' := fmul Ls (new_liability_share_value ch) in
  let fees := insurance_fees_collected ch + group_fees_collected ch
              + protocol_fees_collected ch in
  SCALE * ((A' - A) + fees) ≤
  SCALE * (Li' - Li) + 2 * SCALE + Li + Ls + period_rate (lending_rate_apr rates) t.
Proof.
  intros Hw Hf Ht HAs HLs Hasv Hlsv A Li Hch Hr A' Li' fees.
  assert (0 ≤ A ∧ 0 ≤ Li) as [HA HL] by (split; by apply fmul_nonneg).
  destruct (state_changes_some _ _ _ _ _ _ _ Ht HA HL Hasv Hlsv Hch)
    as (r & HA' & Hr' & H1 & H2 & H3 & H4 & H5).
  assert (r = rates) as -> by congruence. clear Hr' Hch.
  pose proof (fdiv_nonneg Li A HL HA') as Hur.
  pose proof (calc_interest_rate_some c _ _ Hw Hf Hur Hr) as (Hb&Hlend&?&?&?&Hbor&_).
  set (b := curve c (fdiv Li A)) in *.
  pose proof (fmul_nonneg b (fdiv Li A) Hb Hur) as Hlend0.
  pose proof SCALE_pos as HS.
  pose proof (period_rate_nonneg (lending_rate_apr rates) t ltac:(lia) Ht) as Hil.
  pose proof (period_rate_nonneg (borrowing_rate_apr rates) t ltac:(lia) Ht) as Hib.
  pose proof (asset_growth_bound SCALE HS As asv _ HAs Hasv Hil) as HG.
  pose proof (liability_growth_bound SCALE HS Ls lsv _ HLs Hlsv Hib) as HD.
  pose proof (lending_bound SCALE 31536000 HS ltac:(lia) A Li b t HA' HL Hb Ht) as HB.
  pose proof (fee_bound SCALE 31536000 HS ltac:(lia) Li (insurance_fee_apr rates) t HL
                ltac:(done) Ht) as F1.
  pose proof (fee_bound SCALE 31536000 HS ltac:(lia) Li (group_fee_apr rates) t HL
                ltac:(done) Ht) as F2.
  pose proof (fee_bound SCALE 31536000 HS ltac:(lia) Li (protocol_fee_apr rates) t HL
                ltac:(done) Ht) as F3.
  fold (fmul asv (period_rate (lending_rate_apr rates) t)) in HG.
  fold (fmul lsv (period_rate (borrowing_rate_apr rates) t)) in HD.
  rewrite <- H1 in HG. rewrite <- H2 in HD.
  fold (fdiv Li A) in HB. fold (fmul b (fdiv Li A)) in HB. rewrite <- Hlend in HB.
  fold (period_rate (lending_rate_apr rates) t) in HB.
  fold (fmul Li (insurance_fee_apr rates)) in F1. rewrite <- H3 in F1.
  fold (fmul Li (group_fee_apr rates)) in F2. rewrite <- H4 in F2.
  fold (fmul Li (protocol_fee_apr rates)) in F3. rewrite <- H5 in F3.
  change (As * asv / SCALE) with A in HG. change (Ls * lsv / SCALE) with Li in HD.
  change (As * new_asset_share_value ch / SCALE) with A' in HG.
  change (Ls * new_liability_share_value ch / SCALE) with Li' in HD.
  assert (HI : borrowing_rate_apr rates * t
          < 31536000 * period_rate (borrowing_rate_apr rates) t + 31536000)
    by (unfold period_rate; apply div_bounds; lia).
  assert (Li * ((b + group_fee_apr rates + insurance_fee_apr rates
                 + protocol_fee_apr rates) * t)
          ≤ Li * (31536000 * period_rate (borrowing_rate_apr rates) t + 31536000)) as HJ.
  { apply Z.mul_le_mono_nonneg_l; [done|]. apply Z.le_trans with (borrowing_rate_apr rates * t).
    - apply Z.mul_le_mono_nonneg_r; lia.
    - lia. }
  unfold fees. clear -HG HD HB F1 F2 F3 HJ. nia.
Qed.
End ConservationTheorem.

(** A calculator with the rates of the unit tests. *)
Definition demo_calc : InterestRateCalc := {|
  optimal_utilization_rate := fx_literal 4 10; plateau_interest_rate := fx_literal 4 10;
  max_interest_rate := from_num 3;
  insurance_fixed_fee := 0; insurance_rate_fee := fx_literal 1 10;
  protocol_fixed_fee := fx_literal 1 100; protocol_rate_fee := 0;
  program_fee_fixed := 0; program_fee_rate := 0; add_program_fees := false |}.

Lemma demo_calc_wf : curve_wf demo_calc ∧ fees_wf demo_calc.
Proof.
  unfold curve_wf, fees_wf. vm_compute.
  repeat (split || match goal with |- _ → False => intro; discriminate end); try discriminate; done.
Qed.

Lemma interest_rate_curve_correct_witness :
  interest_rate_curve demo_calc ONE = Ok (Some (from_num 3)).
Proof.
  apply (interest_rate_curve_correct (F := i80f48) demo_calc (from_num 0) ONE).
  - apply demo_calc_wf.
  - vm_compute. split; discriminate.
  - done.
Defined.

Definition demo_rates : ComputedInterestRates := {|
  lending_rate_apr := 334955222285680; borrowing_rate_apr := 529172956216034;
  group_fee_apr := 2814749767107; insurance_fee_apr := 47850746040812; protocol_fee_apr := 0 |}.

Lemma interest_rates_consistent_witness :
  ∃ base, interest_rate_curve demo_calc (fx_literal 7 10) = Ok (Some base) ∧
      lending_rate_apr demo_rates = fmul base (fx_literal 7 10) ∧
      0 ≤ lending_rate_apr demo_rates ≤ base ∧
      0 ≤ group_fee_apr demo_rates ∧ 0 ≤ insurance_fee_apr demo_rates ∧
      0 ≤ protocol_fee_apr demo_rates ∧
      0 ≤ borrowing_rate_apr demo_rates -
          (base + group_fee_apr demo_rates + insurance_fee_apr demo_rates
           + protocol_fee_apr demo_rates) ≤ 2.
Proof.
  apply (interest_rates_consistent (F := i80f48) demo_calc (fx_literal 7 10) demo_rates).
  - apply demo_calc_wf.
  - apply demo_calc_wf.
  - vm_compute. split; discriminate.
  - vm_compute. reflexivity.
Defined.
End InterestRateCalc.
