(* ===== verification/BankState.v ===== *)
(** * The bank

    [Bank] and its configuration ([state/marginfi_group.rs]): one lending pool
    of one mint.  Deposits and debts are counted in shares whose values grow
    with interest.  Padding fields are not modelled; the emitted events carry
    no state and are left out. *)
From S2P Require Import Prelude Errors Fixed Constants Utils GroupState InterestRate.

Inductive BankOperationalState : Set := Paused | Operational | ReduceOnly.
Inductive RiskTier : Set := Collateral | Isolated.
(** [OracleSetup] (state/price.rs) *)
Inductive OracleSetup : Set :=
| OracleNone | PythLegacy | SwitchboardV2 | PythPushOracle | SwitchboardPull.

#[export] Instance BankOperationalState_eq_dec : EqDecision BankOperationalState.
Proof. solve_decision. Defined.
#[export] Instance RiskTier_eq_dec : EqDecision RiskTier.
Proof. solve_decision. Defined.
#[export] Instance OracleSetup_eq_dec : EqDecision OracleSetup.
Proof. solve_decision. Defined.

(** [OracleConfig] *)
Record OracleConfig := mkOracleConfig { oc_setup : OracleSetup; oc_keys : list Pubkey }.

(** [BankVaultType] and its seeds. *)
Inductive BankVaultType : Set := Liquidity | Insurance | Fee.
Definition get_seed (t : BankVaultType) : Seed :=
  match t with
  | Liquidity => LIQUIDITY_VAULT_SEED
  | Insurance => INSURANCE_VAULT_SEED
  | Fee => FEE_VAULT_SEED
  end.
Definition get_authority_seed (t : BankVaultType) : Seed :=
  match t with
  | Liquidity => LIQUIDITY_VAULT_AUTHORITY_SEED
  | Insurance => INSURANCE_VAULT_AUTHORITY_SEED
  | Fee => FEE_VAULT_AUTHORITY_SEED
  end.

(** [a >= b] on fixed-point values, as the code writes it. *)
Notation geb a b := (Z.leb b a) (only parsing).

Module BankConfig.
Record BankConfig := mkBankConfig {
  asset_weight_init : I80F48;
  asset_weight_maint : I80F48;
  liability_weight_init : I80F48;
  liability_weight_maint : I80F48;
  deposit_limit : Z;                 (* u64 *)
  interest_rate_config : InterestRateConfig;
  operational_state : BankOperationalState;
  oracle_setup : OracleSetup;
  oracle_keys : list Pubkey;         (* [Pubkey; MAX_ORACLE_KEYS] *)
  borrow_limit : Z;                  (* u64 *)
  risk_tier : RiskTier;
  total_asset_value_init_limit : Z;  (* u64 *)
  oracle_max_age : Z                 (* u16 *)
}.

Definition with_asset_weight_init (v : _) (c : BankConfig) : BankConfig :=
  mkBankConfig v (asset_weight_maint c) (liability_weight_init c) (liability_weight_maint c)
    (deposit_limit c) (interest_rate_config c) (operational_state c) (oracle_setup c)
    (oracle_keys c) (borrow_limit c) (risk_tier c) (total_asset_value_init_limit c)
    (oracle_max_age c).
Definition with_asset_weight_maint (v : _) (c : BankConfig) : BankConfig :=
  mkBankConfig (asset_weight_init c) v (liability_weight_init c) (liability_weight_maint c)
    (deposit_limit c) (interest_rate_config c) (operational_state c) (oracle_setup c)
    (oracle_keys c) (borrow_limit c) (risk_tier c) (total_asset_value_init_limit c)
    (oracle_max_age c).
Definition with_liability_weight_init (v : _) (c : BankConfig) : BankConfig :=
  mkBankConfig (asset_weight_init c) (asset_weight_maint c) v (liability_weight_maint c)
    (deposit_limit c) (interest_rate_config c) (operational_state c) (oracle_setup c)
    (oracle_keys c) (borrow_limit c) (risk_tier c) (total_asset_value_init_limit c)
    (oracle_max_age c).
Definition with_liability_weight_maint (v : _) (c : BankConfig) : BankConfig :=
  mkBankConfig (asset_weight_init c) (asset_weight_maint c) (liability_weight_init c) v
    (deposit_limit c) (interest_rate_config c) (operational_state c) (oracle_setup c)
    (oracle_keys c) (borrow_limit c) (risk_tier c) (total_asset_value_init_limit c)
    (oracle_max_age c).
Definition with_deposit_limit (v : _) (c : BankConfig) : BankConfig :=
  mkBankConfig (asset_weight_init c) (asset_weight_maint c) (liability_weight_init c)
    (liability_weight_maint c) v (interest_rate_config c) (operational_state c)
    (oracle_setup c) (oracle_keys c) (borrow_limit c) (risk_tier c)
    (total_asset_value_init_limit c) (oracle_max_age c).
Definition with_interest_rate_config (v : _) (c : BankConfig) : BankConfig :=
  mkBankConfig (asset_weight_init c) (asset_weight_maint c) (liability_weight_init c)
    (liability_weight_maint c) (deposit_limit c) v (operational_state c) (oracle_setup c)
    (oracle_keys c) (borrow_limit c) (risk_tier c) (total_asset_value_init_limit c)
    (oracle_max_age c).
Definition with_operational_state (v : _) (c : BankConfig) : BankConfig :=
  mkBankConfig (asset_weight_init c) (asset_weight_maint c) (liability_weight_init c)
    (liability_weight_maint c) (deposit_limit c) (interest_rate_config c) v (oracle_setup c)
    (oracle_keys c) (borrow_limit c) (risk_tier c) (total_asset_value_init_limit c)
    (oracle_max_age c).
Definition with_oracle_setup (v : _) (c : BankConfig) : BankConfig :=
  mkBankConfig (asset_weight_init c) (asset_weight_maint c) (liability_weight_init c)
    (liability_weight_maint c) (deposit_limit c) (interest_rate_config c)
    (operational_state c) v (oracle_keys c) (borrow_limit c) (risk_tier c)
    (total_asset_value_init_limit c) (oracle_max_age c).
Definition with_oracle_keys (v : _) (c : BankConfig) : BankConfig :=
  mkBankConfig (asset_weight_init c) (asset_weight_maint c) (liability_weight_init c)
    (liability_weight_maint c) (deposit_limit c) (interest_rate_config c)
    (operational_state c) (oracle_setup c) v (borrow_limit c) (risk_tier c)
    (total_asset_value_init_limit c) (oracle_max_age c).
Definition with_borrow_limit (v : _) (c : BankConfig) : BankConfig :=
  mkBankConfig (asset_weight_init c) (asset_weight_maint c) (liability_weight_init c)
    (liability_weight_maint c) (deposit_limit c) (interest_rate_config c)
    (operational_state c) (oracle_setup c) (oracle_keys c) v (risk_tier c)
    (total_asset_value_init_limit c) (oracle_max_age c).
Definition with_risk_tier (v : _) (c : BankConfig) : BankConfig :=
  mkBankConfig (asset_weight_init c) (asset_weight_maint c) (liability_weight_init c)
    (liability_weight_maint c) (deposit_limit c) (interest_rate_config c)
    (operational_state c) (oracle_setup c) (oracle_keys c) (borrow_limit c) v
    (total_asset_value_init_limit c) (oracle_max_age c).
Definition with_total_asset_value_init_limit (v : _) (c : BankConfig) : BankConfig :=
  mkBankConfig (asset_weight_init c) (asset_weight_maint c) (liability_weight_init c)
    (liability_weight_maint c) (deposit_limit c) (interest_rate_config c)
    (operational_state c) (oracle_setup c) (oracle_keys c) (borrow_limit c) (risk_tier c) v
    (oracle_max_age c).
Definition with_oracle_max_age (v : _) (c : BankConfig) : BankConfig :=
  mkBankConfig (asset_weight_init c) (asset_weight_maint c) (liability_weight_init c)
    (liability_weight_maint c) (deposit_limit c) (interest_rate_config c)
    (operational_state c) (oracle_setup c) (oracle_keys c) (borrow_limit c) (risk_tier c)
    (total_asset_value_init_limit c) v.

(** [BankConfigCompact]: the same fields with one oracle key. *)
Record BankConfigCompact := mkBankConfigCompact {
  c_asset_weight_init : I80F48;
  c_asset_weight_maint : I80F48;
  c_liability_weight_init : I80F48;
  c_liability_weight_maint : I80F48;
  c_deposit_limit : Z;
  c_interest_rate_config : InterestRateConfig.InterestRateConfigCompact;
  c_operational_state : BankOperationalState;
  c_oracle_setup : OracleSetup;
  c_oracle_key : Pubkey;
  c_borrow_limit : Z;
  c_risk_tier : RiskTier;
  c_total_asset_value_init_limit : Z;
  c_oracle_max_age : Z
}.

(** [impl From<BankConfigCompact> for BankConfig] *)
Definition of_compact (c : BankConfigCompact) : BankConfig :=
  let keys := [c_oracle_key c; default_pubkey; default_pubkey; default_pubkey; default_pubkey] in
  mkBankConfig (c_asset_weight_init c) (c_asset_weight_maint c) (c_liability_weight_init c)
    (c_liability_weight_maint c) (c_deposit_limit c)
    (InterestRateConfig.of_compact (c_interest_rate_config c)) (c_operational_state c)
    (c_oracle_setup c) keys (c_borrow_limit c) (c_risk_tier c)
    (c_total_asset_value_init_limit c) (c_oracle_max_age c).

(** [impl From<BankConfig> for BankConfigCompact]: [oracle_keys[0]] of an
    array of five. *)
Definition to_compact (c : BankConfig) : MarginfiResult BankConfigCompact :=
  let? key := index (oracle_keys c) 0 in
  Ok (mkBankConfigCompact (asset_weight_init c) (asset_weight_maint c) (liability_weight_init c)
    (liability_weight_maint c) (deposit_limit c)
    (InterestRateConfig.to_compact (interest_rate_config c)) (operational_state c)
    (oracle_setup c) key (borrow_limit c) (risk_tier c)
    (total_asset_value_init_limit c) (oracle_max_age c)).

Record BankConfigOpt := mkBankConfigOpt {
  o_asset_weight_init : option I80F48;
  o_asset_weight_maint : option I80F48;
  o_liability_weight_init : option I80F48;
  o_liability_weight_maint : option I80F48;
  o_deposit_limit : option Z;
  o_borrow_limit : option Z;
  o_operational_state : option BankOperationalState;
  o_oracle : option OracleConfig;
  o_interest_rate_config : option InterestRateConfig.InterestRateConfigOpt;
  o_risk_tier : option RiskTier;
  o_total_asset_value_init_limit : option Z;
  o_oracle_max_age : option Z;
  o_permissionless_bad_debt_settlement : option bool
}.

Definition get_weights (c : BankConfig) (req_type : RequirementType) : I80F48 * I80F48 :=
  match req_type with
  | Initial => (asset_weight_init c, liability_weight_init c)
  | Maintenance => (asset_weight_maint c, liability_weight_maint c)
  | Equity => (ONE, ONE)
  end.

Definition get_weight (c : BankConfig) (requirement_type : RequirementType)
    (balance_side : BalanceSide) : I80F48 :=
  match requirement_type, balance_side with
  | Initial, Assets => asset_weight_init c
  | Initial, Liabilities => liability_weight_init c
  | Maintenance, Assets => asset_weight_maint c
  | Maintenance, Liabilities => liability_weight_maint c
  | Equity, _ => ONE
  end.

Definition validate (c : BankConfig) : MarginfiResult unit :=
  let asset_init_w := asset_weight_init c in
  let asset_maint_w := asset_weight_maint c in
  let? _ := check (geb asset_init_w ZERO && (asset_init_w <=? ONE)) InvalidConfig in
  let? _ := check (geb asset_maint_w asset_init_w) InvalidConfig in
  let liab_init_w := liability_weight_init c in
  let liab_maint_w := liability_weight_maint c in
  let? _ := check (geb liab_init_w ONE) InvalidConfig in
  let? _ := check ((liab_maint_w <=? liab_init_w) && geb liab_maint_w ONE) InvalidConfig in
  let? _ := InterestRateConfig.validate (interest_rate_config c) in
  match risk_tier c with
  | Isolated =>
      let? _ := check (asset_init_w =? ZERO) InvalidConfig in
      check (asset_maint_w =? ZERO) InvalidConfig
  | Collateral => Ok tt
  end.

Definition is_deposit_limit_active (c : BankConfig) : bool := negb (deposit_limit c =? U64_MAX).
Definition is_borrow_limit_active (c : BankConfig) : bool := negb (borrow_limit c =? U64_MAX).
Definition usd_init_limit_active (c : BankConfig) : bool :=
  negb (total_asset_value_init_limit c =? TOTAL_ASSET_VALUE_INIT_LIMIT_INACTIVE).

Definition get_oracle_max_age (c : BankConfig) : Z :=
  match oracle_max_age c =? 0, oracle_setup c with
  | true, SwitchboardV2 => MAX_SWB_ORACLE_AGE
  | true, (PythLegacy | PythPushOracle) => MAX_PYTH_ORACLE_AGE
  | _, _ => oracle_max_age c
  end.

(** The feed id is the first oracle key's bytes. *)
Definition get_pyth_push_oracle_feed_id (c : BankConfig) : MarginfiResult (option Pubkey) :=
  match oracle_setup c with
  | PythPushOracle => let? key := index (oracle_keys c) 0 in Ok (Some key)
  | _ => Ok None
  end.

(** What [validate] establishes. *)
Definition valid (c : BankConfig) : Prop :=
  0 ≤ asset_weight_init c ≤ ONE ∧ asset_weight_init c ≤ asset_weight_maint c ∧
  ONE ≤ liability_weight_maint c ≤ liability_weight_init c ∧
  InterestRateConfig.valid (interest_rate_config c) ∧
  (risk_tier c = Isolated → asset_weight_init c = 0 ∧ asset_weight_maint c = 0).

Lemma validate_ok c u : validate c = Ok u ↔ valid c.
Proof.
  destruct u. unfold validate, valid, ZERO. split.
  - intros H. inv_res. bool_prop. apply InterestRateConfig.rates_validate_ok in E3.
    split_and!; try done. intros Hr. rewrite Hr in H. inv_res. bool_prop. done.
  - intros (H1 & H2 & H3 & H4%InterestRateConfig.rates_validate_ok & H5).
    rewrite !(proj2 (Z.leb_le _ _)) by lia. simpl. rewrite H4. simpl.
    destruct (risk_tier c); [done|]. destruct (H5 eq_refl) as [-> ->]. done.
Qed.
End BankConfig.
Notation BankConfig := BankConfig.BankConfig (only parsing).

Module Bank.
Import BankConfig (BankConfigOpt).
Record Bank := mkBank {
  mint : Pubkey;
  mint_decimals : Z;   (* u8 *)
  group : Pubkey;
  asset_share_value : I80F48;
  liability_share_value : I80F48;
  liquidity_vault : Pubkey;
  liquidity_vault_bump : Z;   (* u8 *)
  liquidity_vault_authority_bump : Z;   (* u8 *)
  insurance_vault : Pubkey;
  insurance_vault_bump : Z;   (* u8 *)
  insurance_vault_authority_bump : Z;   (* u8 *)
  collected_insurance_fees_outstanding : I80F48;
  fee_vault : Pubkey;
  fee_vault_bump : Z;   (* u8 *)
  fee_vault_authority_bump : Z;   (* u8 *)
  collected_group_fees_outstanding : I80F48;
  total_liability_shares : I80F48;
  total_asset_shares : I80F48;
  last_update : Z;   (* i64 *)
  config : BankConfig;
  flags : Z;   (* u64 *)
  emissions_rate : Z;   (* u64 *)
  emissions_remaining : I80F48;
  emissions_mint : Pubkey;
  collected_program_fees_outstanding : I80F48
}.

Definition with_asset_share_value (v : _) (b : Bank) : Bank :=
  mkBank (mint b) (mint_decimals b) (group b) v (liability_share_value b) (liquidity_vault b)
    (liquidity_vault_bump b) (liquidity_vault_authority_bump b) (insurance_vault b)
    (insurance_vault_bump b) (insurance_vault_authority_bump b)
    (collected_insurance_fees_outstanding b) (fee_vault b) (fee_vault_bump b)
    (fee_vault_authority_bump b) (collected_group_fees_outstanding b)
    (total_liability_shares b) (total_asset_shares b) (last_update b) (config b) (flags b)
    (emissions_rate b) (emissions_remaining b) (emissions_mint b)
    (collected_program_fees_outstanding b).
Definition with_liability_share_value (v : _) (b : Bank) : Bank :=
  mkBank (mint b) (mint_decimals b) (group b) (asset_share_value b) v (liquidity_vault b)
    (liquidity_vault_bump b) (liquidity_vault_authority_bump b) (insurance_vault b)
    (insurance_vault_bump b) (insurance_vault_authority_bump b)
    (collected_insurance_fees_outstanding b) (fee_vault b) (fee_vault_bump b)
    (fee_vault_authority_bump b) (collected_group_fees_outstanding b)
    (total_liability_shares b) (total_asset_shares b) (last_update b) (config b) (flags b)
    (emissions_rate b) (emissions_remaining b) (emissions_mint b)
    (collected_program_fees_outstanding b).
Definition with_collected_insurance_fees_outstanding (v : _) (b : Bank) : Bank :=
  mkBank (mint b) (mint_decimals b) (group b) (asset_share_value b) (liability_share_value b)
    (liquidity_vault b) (liquidity_vault_bump b) (liquidity_vault_authority_bump b)
    (insurance_vault b) (insurance_vault_bump b) (insurance_vault_authority_bump b) v
    (fee_vault b) (fee_vault_bump b) (fee_vault_authority_bump b)
    (collected_group_fees_outstanding b) (total_liability_shares b) (total_asset_shares b)
    (last_update b) (config b) (flags b) (emissions_rate b) (emissions_remaining b)
    (emissions_mint b) (collected_program_fees_outstanding b).
Definition with_collected_group_fees_outstanding (v : _) (b : Bank) : Bank :=
  mkBank (mint b) (mint_decimals b) (group b) (asset_share_value b) (liability_share_value b)
    (liquidity_vault b) (liquidity_vault_bump b) (liquidity_vault_authority_bump b)
    (insurance_vault b) (insurance_vault_bump b) (insurance_vault_authority_bump b)
    (collected_insurance_fees_outstanding b) (fee_vault b) (fee_vault_bump b)
    (fee_vault_authority_bump b) v (total_liability_shares b) (total_asset_shares b)
    (last_update b) (config b) (flags b) (emissions_rate b) (emissions_remaining b)
    (emissions_mint b) (collected_program_fees_outstanding b).
Definition with_total_liability_shares (v : _) (b : Bank) : Bank :=
  mkBank (mint b) (mint_decimals b) (group b) (asset_share_value b) (liability_share_value b)
    (liquidity_vault b) (liquidity_vault_bump b) (liquidity_vault_authority_bump b)
    (insurance_vault b) (insurance_vault_bump b) (insurance_vault_authority_bump b)
    (collected_insurance_fees_outstanding b) (fee_vault b) (fee_vault_bump b)
    (fee_vault_authority_bump b) (collected_group_fees_outstanding b) v (total_asset_shares b)
    (last_update b) (config b) (flags b) (emissions_rate b) (emissions_remaining b)
    (emissions_mint b) (collected_program_fees_outstanding b).
Definition with_total_asset_shares (v : _) (b : Bank) : Bank :=
  mkBank (mint b) (mint_decimals b) (group b) (asset_share_value b) (liability_share_value b)
    (liquidity_vault b) (liquidity_vault_bump b) (liquidity_vault_authority_bump b)
    (insurance_vault b) (insurance_vault_bump b) (insurance_vault_authority_bump b)
    (collected_insurance_fees_outstanding b) (fee_vault b) (fee_vault_bump b)
    (fee_vault_authority_bump b) (collected_group_fees_outstanding b)
    (total_liability_shares b) v (last_update b) (config b) (flags b) (emissions_rate b)
    (emissions_remaining b) (emissions_mint b) (collected_program_fees_outstanding b).
Definition with_last_update (v : _) (b : Bank) : Bank :=
  mkBank (mint b) (mint_decimals b) (group b) (asset_share_value b) (liability_share_value b)
    (liquidity_vault b) (liquidity_vault_bump b) (liquidity_vault_authority_bump b)
    (insurance_vault b) (insurance_vault_bump b) (insurance_vault_authority_bump b)
    (collected_insurance_fees_outstanding b) (fee_vault b) (fee_vault_bump b)
    (fee_vault_authority_bump b) (collected_group_fees_outstanding b)
    (total_liability_shares b) (total_asset_shares b) v (config b) (flags b)
    (emissions_rate b) (emissions_remaining b) (emissions_mint b)
    (collected_program_fees_outstanding b).
Definition with_config (v : _) (b : Bank) : Bank :=
  mkBank (mint b) (mint_decimals b) (group b) (asset_share_value b) (liability_share_value b)
    (liquidity_vault b) (liquidity_vault_bump b) (liquidity_vault_authority_bump b)
    (insurance_vault b) (insurance_vault_bump b) (insurance_vault_authority_bump b)
    (collected_insurance_fees_outstanding b) (fee_vault b) (fee_vault_bump b)
    (fee_vault_authority_bump b) (collected_group_fees_outstanding b)
    (total_liability_shares b) (total_asset_shares b) (last_update b) v (flags b)
    (emissions_rate b) (emissions_remaining b) (emissions_mint b)
    (collected_program_fees_outstanding b).
Definition with_flags (v : _) (b : Bank) : Bank :=
  mkBank (mint b) (mint_decimals b) (group b) (asset_share_value b) (liability_share_value b)
    (liquidity_vault b) (liquidity_vault_bump b) (liquidity_vault_authority_bump b)
    (insurance_vault b) (insurance_vault_bump b) (insurance_vault_authority_bump b)
    (collected_insurance_fees_outstanding b) (fee_vault b) (fee_vault_bump b)
    (fee_vault_authority_bump b) (collected_group_fees_outstanding b)
    (total_liability_shares b) (total_asset_shares b) (last_update b) (config b) v
    (emissions_rate b) (emissions_remaining b) (emissions_mint b)
    (collected_program_fees_outstanding b).
Definition with_emissions_rate (v : _) (b : Bank) : Bank :=
  mkBank (mint b) (mint_decimals b) (group b) (asset_share_value b) (liability_share_value b)
    (liquidity_vault b) (liquidity_vault_bump b) (liquidity_vault_authority_bump b)
    (insurance_vault b) (insurance_vault_bump b) (insurance_vault_authority_bump b)
    (collected_insurance_fees_outstanding b) (fee_vault b) (fee_vault_bump b)
    (fee_vault_authority_bump b) (collected_group_fees_outstanding b)
    (total_liability_shares b) (total_asset_shares b) (last_update b) (config b) (flags b) v
    (emissions_remaining b) (emissions_mint b) (collected_program_fees_outstanding b).
Definition with_emissions_remaining (v : _) (b : Bank) : Bank :=
  mkBank (mint b) (mint_decimals b) (group b) (asset_share_value b) (liability_share_value b)
    (liquidity_vault b) (liquidity_vault_bump b) (liquidity_vault_authority_bump b)
    (insurance_vault b) (insurance_vault_bump b) (insurance_vault_authority_bump b)
    (collected_insurance_fees_outstanding b) (fee_vault b) (fee_vault_bump b)
    (fee_vault_authority_bump b) (collected_group_fees_outstanding b)
    (total_liability_shares b) (total_asset_shares b) (last_update b) (config b) (flags b)
    (emissions_rate b) v (emissions_mint b) (collected_program_fees_outstanding b).
Definition with_emissions_mint (v : _) (b : Bank) : Bank :=
  mkBank (mint b) (mint_decimals b) (group b) (asset_share_value b) (liability_share_value b)
    (liquidity_vault b) (liquidity_vault_bump b) (liquidity_vault_authority_bump b)
    (insurance_vault b) (insurance_vault_bump b) (insurance_vault_authority_bump b)
    (collected_insurance_fees_outstanding b) (fee_vault b) (fee_vault_bump b)
    (fee_vault_authority_bump b) (collected_group_fees_outstanding b)
    (total_liability_shares b) (total_asset_shares b) (last_update b) (config b) (flags b)
    (emissions_rate b) (emissions_remaining b) v (collected_program_fees_outstanding b).
Definition with_collected_program_fees_outstanding (v : _) (b : Bank) : Bank :=
  mkBank (mint b) (mint_decimals b) (group b) (asset_share_value b) (liability_share_value b)
    (liquidity_vault b) (liquidity_vault_bump b) (liquidity_vault_authority_bump b)
    (insurance_vault b) (insurance_vault_bump b) (insurance_vault_authority_bump b)
    (collected_insurance_fees_outstanding b) (fee_vault b) (fee_vault_bump b)
    (fee_vault_authority_bump b) (collected_group_fees_outstanding b)
    (total_liability_shares b) (total_asset_shares b) (last_update b) (config b) (flags b)
    (emissions_rate b) (emissions_remaining b) (emissions_mint b) v.

Section Operations.
Context {F : FixedOps} {T : TokenSdk}.

Definition new (marginfi_group_pk : Pubkey) (config : BankConfig) (mint : Pubkey)
    (mint_decimals : Z) (liquidity_vault insurance_vault fee_vault : Pubkey)
    (current_timestamp liquidity_vault_bump liquidity_vault_authority_bump
     insurance_vault_bump insurance_vault_authority_bump fee_vault_bump
     fee_vault_authority_bump : Z) : Bank := {|
  mint := mint; mint_decimals := mint_decimals; group := marginfi_group_pk;
  asset_share_value := ONE; liability_share_value := ONE;
  liquidity_vault := liquidity_vault; liquidity_vault_bump := liquidity_vault_bump;
  liquidity_vault_authority_bump := liquidity_vault_authority_bump;
  insurance_vault := insurance_vault; insurance_vault_bump := insurance_vault_bump;
  insurance_vault_authority_bump := insurance_vault_authority_bump;
  collected_insurance_fees_outstanding := ZERO;
  fee_vault := fee_vault; fee_vault_bump := fee_vault_bump;
  fee_vault_authority_bump := fee_vault_authority_bump;
  collected_group_fees_outstanding := ZERO;
  total_liability_shares := ZERO; total_asset_shares := ZERO;
  last_update := current_timestamp; config := config; flags := 0; emissions_rate := 0;
  emissions_remaining := ZERO; emissions_mint := default_pubkey;
  collected_program_fees_outstanding := ZERO |}.

Definition get_liability_amount (b : Bank) (shares : I80F48) : MarginfiResult I80F48 :=
  math (checked_mul shares (liability_share_value b)).
Definition get_asset_amount (b : Bank) (shares : I80F48) : MarginfiResult I80F48 :=
  math (checked_mul shares (asset_share_value b)).
Definition get_liability_shares (b : Bank) (value : I80F48) : MarginfiResult I80F48 :=
  math (checked_div value (liability_share_value b)).
Definition get_asset_shares (b : Bank) (value : I80F48) : MarginfiResult I80F48 :=
  math (checked_div value (asset_share_value b)).

Definition change_asset_shares (b : Bank) (shares : I80F48) (bypass_deposit_limit : bool)
    : MarginfiResult Bank :=
  let? total := math (checked_add (total_asset_shares b) shares) in
  let b := with_total_asset_shares total b in
  if (0 <? shares) && BankConfig.is_deposit_limit_active (config b)
     && negb bypass_deposit_limit then
    let? total_deposits_amount := get_asset_amount b (total_asset_shares b) in
    let deposit_limit := from_num (BankConfig.deposit_limit (config b)) in
    let? _ := check (total_deposits_amount <? deposit_limit) BankAssetCapacityExceeded in
    Ok b
  else Ok b.

Definition maybe_get_asset_weight_init_discount (b : Bank) (price : I80F48)
    : MarginfiResult (option I80F48) :=
  if BankConfig.usd_init_limit_active (config b) then
    let? total := get_asset_amount b (total_asset_shares b) in
    let? bank_total_assets_value := calc_value total price (mint_decimals b) None in
    let total_asset_value_init_limit :=
      from_num (BankConfig.total_asset_value_init_limit (config b)) in
    if total_asset_value_init_limit <? bank_total_assets_value then
      let? discount := math (checked_div total_asset_value_init_limit bank_total_assets_value) in
      Ok (Some discount)
    else Ok None
  else Ok None.

Definition change_liability_shares (b : Bank) (shares : I80F48) (bypass_borrow_limit : bool)
    : MarginfiResult Bank :=
  let? total := math (checked_add (total_liability_shares b) shares) in
  let b := with_total_liability_shares total b in
  if negb bypass_borrow_limit && (0 <? shares)
     && BankConfig.is_borrow_limit_active (config b) then
    let? total_liability_amount := get_liability_amount b (total_liability_shares b) in
    let borrow_limit := from_num (BankConfig.borrow_limit (config b)) in
    let? _ := check (total_liability_amount <? borrow_limit) BankLiabilityCapacityExceeded in
    Ok b
  else Ok b.

Definition check_utilization_ratio (b : Bank) : MarginfiResult unit :=
  let? total_assets := get_asset_amount b (total_asset_shares b) in
  let? total_liabilities := get_liability_amount b (total_liability_shares b) in
  check (geb total_assets total_liabilities) IllegalUtilizationRatio.

Definition get_flag (b : Bank) (flag : Z) : bool := Z.land (flags b) flag =? flag.
Definition verify_emissions_flags (flags : Z) : bool := Z.land flags EMISSION_FLAGS =? flags.
Definition verify_group_flags (flags : Z) : bool := Z.land flags GROUP_FLAGS =? flags.

Definition override_emissions_flag (b : Bank) (flag : Z) : MarginfiResult Bank :=
  let? _ := rust_assert (verify_emissions_flags flag) in
  Ok (with_flags flag b).

Definition update_flag (b : Bank) (value : bool) (flag : Z) : MarginfiResult Bank :=
  let? _ := rust_assert (verify_group_flags flag) in
  if value then Ok (with_flags (Z.lor (flags b) flag) b)
  else Ok (with_flags (Z.land (flags b) (u64_not flag)) b).

(** The [set_if_some!] lines of [configure], before the interest rate
    configuration. *)
Definition configure_fields (c : BankConfig) (o : BankConfigOpt) : BankConfig := {|
  BankConfig.asset_weight_init :=
    default (BankConfig.asset_weight_init c) (BankConfig.o_asset_weight_init o);
  BankConfig.asset_weight_maint :=
    default (BankConfig.asset_weight_maint c) (BankConfig.o_asset_weight_maint o);
  BankConfig.liability_weight_init :=
    default (BankConfig.liability_weight_init c) (BankConfig.o_liability_weight_init o);
  BankConfig.liability_weight_maint :=
    default (BankConfig.liability_weight_maint c) (BankConfig.o_liability_weight_maint o);
  BankConfig.deposit_limit :=
    default (BankConfig.deposit_limit c) (BankConfig.o_deposit_limit o);
  BankConfig.borrow_limit :=
    default (BankConfig.borrow_limit c) (BankConfig.o_borrow_limit o);
  BankConfig.operational_state :=
    default (BankConfig.operational_state c) (BankConfig.o_operational_state o);
  BankConfig.oracle_setup :=
    default (BankConfig.oracle_setup c) (oc_setup <$> BankConfig.o_oracle o);
  BankConfig.oracle_keys :=
    default (BankConfig.oracle_keys c) (oc_keys <$> BankConfig.o_oracle o);
  BankConfig.interest_rate_config :=
    match BankConfig.o_interest_rate_config o with
    | Some ir_config => InterestRateConfig.update (BankConfig.interest_rate_config c) ir_config
    | None => BankConfig.interest_rate_config c
    end;
  BankConfig.risk_tier := default (BankConfig.risk_tier c) (BankConfig.o_risk_tier o);
  BankConfig.total_asset_value_init_limit :=
    default (BankConfig.total_asset_value_init_limit c)
      (BankConfig.o_total_asset_value_init_limit o);
  BankConfig.oracle_max_age :=
    default (BankConfig.oracle_max_age c) (BankConfig.o_oracle_max_age o)
|}.

Definition configure (b : Bank) (o : BankConfigOpt) : MarginfiResult Bank :=
  let b := with_config (configure_fields (config b) o) b in
  let? b := match BankConfig.o_permissionless_bad_debt_settlement o with
            | Some flag => update_flag b flag PERMISSIONLESS_BAD_DEBT_SETTLEMENT_FLAG
            | None => Ok b
            end in
  let? _ := BankConfig.validate (config b) in
  Ok b.

(** [if fees > ZERO { outstanding = fees.checked_add(outstanding)? }] *)
Definition collect_fee (fees outstanding : I80F48) : MarginfiResult I80F48 :=
  if ZERO <? fees then math (checked_add fees outstanding) else Ok outstanding.

Definition accrue_interest (b : Bank) (current_timestamp : Z) (g : MarginfiGroup)
    : MarginfiResult Bank :=
  let? delta := i64_checked (current_timestamp - last_update b) in
  let? time_delta := unwrap (u64_checked delta) in
  if time_delta =? 0 then Ok b
  else
    let? total_assets := get_asset_amount b (total_asset_shares b) in
    let? total_liabilities := get_liability_amount b (total_liability_shares b) in
    let b := with_last_update current_timestamp b in
    if (total_assets =? ZERO) || (total_liabilities =? ZERO) then Ok b
    else
      let ir_calc := InterestRateCalc.create_interest_rate_calculator
                       (BankConfig.interest_rate_config (config b)) g in
      let? changes := InterestRateCalc.calc_interest_rate_accrual_state_changes time_delta
                        total_assets total_liabilities ir_calc
                        (asset_share_value b) (liability_share_value b) in
      let? changes := math changes in
      let b := with_asset_share_value (InterestRateCalc.new_asset_share_value changes) b in
      let b := with_liability_share_value (InterestRateCalc.new_liability_share_value changes) b in
      let? group_fees := collect_fee (InterestRateCalc.group_fees_collected changes)
                           (collected_group_fees_outstanding b) in
      let b := with_collected_group_fees_outstanding group_fees b in
      let? insurance_fees := collect_fee (InterestRateCalc.insurance_fees_collected changes)
                               (collected_insurance_fees_outstanding b) in
      let b := with_collected_insurance_fees_outstanding insurance_fees b in
      let? program_fees := collect_fee (InterestRateCalc.protocol_fees_collected changes)
                             (collected_program_fees_outstanding b) in
      Ok (with_collected_program_fees_outstanding program_fees b).

(** The token transfer into the liquidity vault. *)
Definition deposit_spl_transfer (b : Bank) (amount : Z) (from to authority : Pubkey)
    (maybe_mint : option Mint) (program : Pubkey) (ts : TokenStore)
    : MarginfiResult TokenStore :=
  let? _ := check (to =? liquidity_vault b) InvalidTransfer in
  spl_transfer (mkTransfer amount from to authority (mint_key <$> maybe_mint) program) ts.

Definition withdraw_spl_transfer (b : Bank) (amount : Z) (from to authority : Pubkey)
    (maybe_mint : option Mint) (program : Pubkey) (ts : TokenStore)
    : MarginfiResult TokenStore :=
  spl_transfer (mkTransfer amount from to authority (mint_key <$> maybe_mint) program) ts.

Definition socialize_loss (b : Bank) (loss_amount : I80F48) : MarginfiResult Bank :=
  let? v := math (checked_mul (total_asset_shares b) (asset_share_value b)) in
  let? v := math (checked_sub v loss_amount) in
  let? new_share_value := math (checked_div v (total_asset_shares b)) in
  Ok (with_asset_share_value new_share_value b).

Definition assert_operational_mode (b : Bank)
    (is_asset_or_liability_amount_increasing : option bool) : MarginfiResult unit :=
  match BankConfig.operational_state (config b) with
  | Paused => Err BankPaused
  | Operational => Ok tt
  | ReduceOnly =>
      match is_asset_or_liability_amount_increasing with
      | Some increasing => check (negb increasing) BankReduceOnly
      | None => Ok tt
      end
  end.
End Operations.

(** ** Correctness *)
(** The calculator the bank accrues with. *)
Definition ir_calc (b : Bank) (g : MarginfiGroup) : InterestRateCalc.InterestRateCalc :=
  InterestRateCalc.create_interest_rate_calculator
    (BankConfig.interest_rate_config (config b)) g.

(** The accounting part of a bank's well-formedness. *)
Record wf (b : Bank) : Prop := {
  wf_assets : 0 ≤ total_asset_shares b;
  wf_liabs : 0 ≤ total_liability_shares b;
  wf_asv : 0 ≤ asset_share_value b;
  wf_lsv : ONE ≤ liability_share_value b;
  wf_group_fees : 0 ≤ collected_group_fees_outstanding b;
  wf_insurance_fees : 0 ≤ collected_insurance_fees_outstanding b;
  wf_program_fees : 0 ≤ collected_program_fees_outstanding b;
  wf_emissions_remaining : 0 ≤ emissions_remaining b;
  wf_emissions_rate : 0 ≤ emissions_rate b
}.

(** The configured curve and fees are those the theorems on rates need. *)
Definition rates_wf (b : Bank) (g : MarginfiGroup) : Prop :=
  InterestRateCalc.curve_wf (ir_calc b g) ∧ InterestRateCalc.fees_wf (ir_calc b g).

(** All that accruing interest may change. *)
Definition accrual_frame (b b' : Bank) : Prop :=
  b' = with_last_update (last_update b')
        (with_asset_share_value (asset_share_value b')
        (with_liability_share_value (liability_share_value b')
        (with_collected_group_fees_outstanding (collected_group_fees_outstanding b')
        (with_collected_insurance_fees_outstanding (collected_insurance_fees_outstanding b')
        (with_collected_program_fees_outstanding (collected_program_fees_outstanding b') b))))).

Lemma wf_lsv_pos b : wf b → 0 < liability_share_value b.
Proof. intros H. pose proof (wf_lsv b H). unfold ONE, SCALE in *. lia. Qed.

Section Lemmas.
Context {F : FixedOps} {L : FixedLaws F} {T : TokenSdk}.

Lemma get_asset_amount_nn b s v :
  0 ≤ s → 0 ≤ asset_share_value b → get_asset_amount b s = Ok v →
  v = fmul s (asset_share_value b) ∧ 0 ≤ v.
Proof.
  intros Hs Ha H. unfold get_asset_amount in H. inv_res.
  apply mul_some in H as [-> _]; auto using fmul_nonneg.
Qed.
Lemma get_liability_amount_nn b s v :
  0 ≤ s → 0 ≤ liability_share_value b → get_liability_amount b s = Ok v →
  v = fmul s (liability_share_value b) ∧ 0 ≤ v.
Proof.
  intros Hs Ha H. unfold get_liability_amount in H. inv_res.
  apply mul_some in H as [-> _]; auto using fmul_nonneg.
Qed.
Lemma get_asset_shares_nn b v s :
  0 ≤ v → 0 ≤ asset_share_value b → get_asset_shares b v = Ok s →
  0 < asset_share_value b ∧ s = fdiv v (asset_share_value b) ∧ 0 ≤ s.
Proof.
  intros Hv Ha H. unfold get_asset_shares in H. inv_res.
  apply div_some in H as (? & -> & _); [|done..]. auto using fdiv_nonneg.
Qed.
Lemma get_liability_shares_nn b v s :
  0 ≤ v → 0 ≤ liability_share_value b → get_liability_shares b v = Ok s →
  0 < liability_share_value b ∧ s = fdiv v (liability_share_value b) ∧ 0 ≤ s.
Proof.
  intros Hv Ha H. unfold get_liability_shares in H. inv_res.
  apply div_some in H as (? & -> & _); [|done..]. auto using fdiv_nonneg.
Qed.

(** Changing the totals: the new total, and the limit it respects. *)
Lemma change_asset_shares_ok b s bp b' :
  0 ≤ asset_share_value b → 0 ≤ total_asset_shares b + s →
  change_asset_shares b s bp = Ok b' →
  b' = with_total_asset_shares (total_asset_shares b + s) b ∧
  (bp = false → 0 < s → BankConfig.is_deposit_limit_active (config b) = true →
   fmul (total_asset_shares b + s) (asset_share_value b)
     < from_num (BankConfig.deposit_limit (config b))).
Proof.
  intros Ha Ht H. unfold change_asset_shares in H. apply bind_ok in H as (t & Hadd & H).
  apply math_ok, add_some in Hadd as [-> _]. simpl in H.
  destruct (_ && _) eqn:Hc.
  - apply bind_ok in H as (v & Hv & H). apply bind_ok in H as (u & Hu & H).
    apply get_asset_amount_nn in Hv as [-> _]; [|done..]. apply check_ok in Hu. simpl in Hu.
    injection H as <-. bool_prop. done.
  - injection H as <-. split; [done|]. intros -> Hs Hl.
    rewrite Hl, (proj2 (Z.ltb_lt 0 s) Hs) in Hc. done.
Qed.
Lemma change_liability_shares_ok b s bp b' :
  0 ≤ liability_share_value b → 0 ≤ total_liability_shares b + s →
  change_liability_shares b s bp = Ok b' →
  b' = with_total_liability_shares (total_liability_shares b + s) b ∧
  (bp = false → 0 < s → BankConfig.is_borrow_limit_active (config b) = true →
   fmul (total_liability_shares b + s) (liability_share_value b)
     < from_num (BankConfig.borrow_limit (config b))).
Proof.
  intros Ha Ht H. unfold change_liability_shares in H. apply bind_ok in H as (t & Hadd & H).
  apply math_ok, add_some in Hadd as [-> _]. simpl in H.
  destruct (_ && _) eqn:Hc.
  - apply bind_ok in H as (v & Hv & H). apply bind_ok in H as (u & Hu & H).
    apply get_liability_amount_nn in Hv as [-> _]; [|done..]. apply check_ok in Hu. simpl in Hu.
    injection H as <-. bool_prop. done.
  - injection H as <-. split; [done|]. intros -> Hs Hl.
    rewrite Hl, (proj2 (Z.ltb_lt 0 s) Hs) in Hc. done.
Qed.

Lemma assert_operational_mode_ok b o u :
  assert_operational_mode b o = Ok u →
  BankConfig.operational_state (config b) ≠ Paused ∧
  (BankConfig.operational_state (config b) = ReduceOnly → o ≠ Some true).
Proof.
  unfold assert_operational_mode. destruct (BankConfig.operational_state (config b)); [done|done|].
  intros H. split; [done|]. intros _ ->. done.
Qed.

(** ... as the position operations call it, with a change [x] of the side
    that may be growing. *)
Lemma assert_mode_tolerant_ok b x t u :
  assert_operational_mode b (Some (is_positive_with_tolerance x t)) = Ok u →
  BankConfig.operational_state (config b) ≠ Paused ∧
  (BankConfig.operational_state (config b) = ReduceOnly → x ≤ t).
Proof.
  intros [Hnp Hro]%assert_operational_mode_ok. split; [done|]. intros Hr. specialize (Hro Hr).
  unfold is_positive_with_tolerance in Hro. destruct (t <? x) eqn:E; bool_prop; done.
Qed.

Lemma check_utilization_ratio_ok b u :
  0 ≤ total_asset_shares b → 0 ≤ total_liability_shares b →
  0 ≤ asset_share_value b → 0 ≤ liability_share_value b →
  check_utilization_ratio b = Ok u →
  fmul (total_liability_shares b) (liability_share_value b)
    ≤ fmul (total_asset_shares b) (asset_share_value b).
Proof.
  intros ???? H. unfold check_utilization_ratio in H. inv_res. bool_prop.
  apply get_asset_amount_nn in E as [-> _]; [|done..].
  by apply get_liability_amount_nn in E0 as [-> _].
Qed.

Lemma collect_fee_ok f o r : 0 ≤ f → collect_fee f o = Ok r → r = f + o.
Proof.
  intros Hf. unfold collect_fee, ZERO. destruct (0 <? f) eqn:E; intros H; inv_res.
  - by apply add_some in H as [-> _].
  - bool_prop. lia.
Qed.

(** The three ways accruing interest can succeed: no time has passed, one
    side of the bank is empty, or the computed changes are applied. *)
Lemma accrue_interest_cases b now g b' :
  wf b → accrue_interest b now g = Ok b' →
  last_update b ≤ now ∧
  ((now = last_update b ∧ b' = b) ∨
   (last_update b < now ∧ b' = with_last_update now b) ∨
   (last_update b < now ∧ ∃ ch,
      let A := fmul (total_asset_shares b) (asset_share_value b) in
      let Li := fmul (total_liability_shares b) (liability_share_value b) in
      InterestRateCalc.calc_interest_rate_accrual_state_changes (now - last_update b) A Li
        (ir_calc b g) (asset_share_value b) (liability_share_value b) = Ok (Some ch) ∧
      0 < A ∧ 0 < Li ∧
      accrual_frame b b' ∧ last_update b' = now ∧
      asset_share_value b' = InterestRateCalc.new_asset_share_value ch ∧
      liability_share_value b' = InterestRateCalc.new_liability_share_value ch ∧
      collected_group_fees_outstanding b' =
        InterestRateCalc.group_fees_collected ch + collected_group_fees_outstanding b ∧
      collected_insurance_fees_outstanding b' =
        InterestRateCalc.insurance_fees_collected ch + collected_insurance_fees_outstanding b ∧
      collected_program_fees_outstanding b' =
        InterestRateCalc.protocol_fees_collected ch + collected_program_fees_outstanding b)).
Proof.
  intros Hwf H. unfold accrue_interest in H. inv_res.
  apply i64_checked_ok in E as [-> _]. apply u64_checked_some in E0 as [-> [Hd _]].
  split; [lia|]. destruct (_ =? 0) eqn:E0; bool_prop; inv_res; [left; split; [lia|done]|].
  right. pose proof (wf_lsv_pos b Hwf). destruct Hwf.
  apply get_asset_amount_nn in E as [-> HA]; [|done..].
  apply get_liability_amount_nn in E1 as [-> HL]; [|lia..].
  unfold ZERO in *. destruct (_ || _) eqn:Ez; inv_res; [left; split; [lia|done]|].
  apply orb_false_elim in Ez as [? ?]. bool_prop.
  right. split; [lia|]. simpl in *.
  pose proof (InterestRateCalc.changes_monotone (now - last_update b) _ _ _ (asset_share_value b) (liability_share_value b) _ ltac:(lia) HA HL
                ltac:(done) ltac:(lia) E) as (?&?&?&?&?&_).
  eexists. split; [exact E|].
  apply collect_fee_ok in E2, E3, E4; [|done..]. subst.
  split_and!; try done; lia.
Qed.
End Lemmas.

Lemma lor_flag_other f i :
  0 ≤ i → i ≠ 2 →
  Z.testbit (Z.lor f PERMISSIONLESS_BAD_DEBT_SETTLEMENT_FLAG) i = Z.testbit f i.
Proof.
  intros Hi Hne. rewrite Z.lor_spec.
  change PERMISSIONLESS_BAD_DEBT_SETTLEMENT_FLAG with (2 ^ 2).
  by rewrite Z.pow2_bits_false, orb_false_r.
Qed.
Lemma lor_flag_same f : Z.testbit (Z.lor f PERMISSIONLESS_BAD_DEBT_SETTLEMENT_FLAG) 2 = true.
Proof. rewrite Z.lor_spec. apply orb_true_r. Qed.
Lemma land_not_flag_same f :
  Z.testbit (Z.land f (u64_not PERMISSIONLESS_BAD_DEBT_SETTLEMENT_FLAG)) 2 = false.
Proof. rewrite Z.land_spec. apply andb_false_r. Qed.

Lemma land_not_flag_other f i :
  is_u64 f → 0 ≤ i → i ≠ 2 →
  Z.testbit (Z.land f (u64_not PERMISSIONLESS_BAD_DEBT_SETTLEMENT_FLAG)) i = Z.testbit f i.
Proof.
  intros [H0 H1] Hi Hne. rewrite Z.land_spec. unfold u64_not. rewrite Z.lxor_spec.
  change PERMISSIONLESS_BAD_DEBT_SETTLEMENT_FLAG with (2 ^ 2).
  rewrite Z.pow2_bits_false, xorb_false_r by done. change U64_MAX with (Z.ones 64) in *.
  destruct (decide (i < 64)).
  - rewrite Z.ones_spec_low by lia. apply andb_true_r.
  - rewrite Z.ones_spec_high, andb_false_r by lia. symmetry.
    destruct (decide (f = 0)) as [->|]; [apply Z.bits_0|].
    apply Z.bits_above_log2; [lia|]. apply Z.log2_lt_pow2; [lia|].
    change (Z.ones 64) with (2 ^ 64 - 1) in H1.
    apply Z.lt_le_trans with (2 ^ 64); [lia|]. apply Z.pow_le_mono_r; lia.
Qed.

Section Theorems.
Context {F : FixedOps} {L : FixedLaws F} {T : TokenSdk}.

Lemma accrue_values b now g b' :
  wf b → accrue_interest b now g = Ok b' →
  asset_share_value b ≤ asset_share_value b' ∧ liability_share_value b ≤ liability_share_value b' ∧
  collected_group_fees_outstanding b ≤ collected_group_fees_outstanding b' ∧
  collected_insurance_fees_outstanding b ≤ collected_insurance_fees_outstanding b' ∧
  collected_program_fees_outstanding b ≤ collected_program_fees_outstanding b'.
Proof.
  intros Hwf H. destruct (accrue_interest_cases _ _ _ _ Hwf H) as [Ht Hcases].
  pose proof (wf_lsv_pos b Hwf).
  destruct Hcases as [[-> ->] | [[Hlt ->] | (Hlt & ch & Hch & HA & HL & Hfr & Hl & Ha & Hli & Hg & Hi & Hp)]];
    [split_and!; done..|].
  apply InterestRateCalc.changes_monotone in Hch as (?&?&?&?&?&_);
    [|solve [done | apply (wf_asv b Hwf) | lia]..].
  split_and!; lia.
Qed.

(** C25: accruing interest never goes back in time (the
    clock of the bank moves to the given time, an earlier time panics), never
    lowers a share value or an outstanding fee, changes nothing else (share
    totals, configuration, flags, vaults, emissions), keeps the bank well
    formed, and a second accrual at the same time changes nothing. *)
Theorem accrue_interest_monotone b now g :
  wf b →
  (now < last_update b → accrue_interest b now g = Panic) ∧
  (∀ b', accrue_interest b now g = Ok b' →
     wf b' ∧ accrual_frame b b' ∧ last_update b' = now ∧
     asset_share_value b ≤ asset_share_value b' ∧
     liability_share_value b ≤ liability_share_value b' ∧
     collected_group_fees_outstanding b ≤ collected_group_fees_outstanding b' ∧
     collected_insurance_fees_outstanding b ≤ collected_insurance_fees_outstanding b' ∧
     collected_program_fees_outstanding b ≤ collected_program_fees_outstanding b' ∧
     accrue_interest b' now g = Ok b').
Proof.
  intros Hwf. split.
  { intros Hlt. unfold accrue_interest, i64_checked, u64_checked.
    destruct (_ && _); simpl; [|done].
    by rewrite (proj2 (Z.leb_gt 0 (now - last_update b))) by lia. }
  intros b' H. destruct (accrue_interest_cases _ _ _ _ Hwf H) as [Ht Hcases].
  assert (Hidem : last_update b' = now → accrue_interest b' now g = Ok b').
  { intros <-. unfold accrue_interest. by rewrite Z.sub_diag. }
  pose proof (wf_lsv_pos b Hwf).
  destruct Hcases as [[-> ->] | [[Hlt ->] | (Hlt & ch & Hch & HA & HL & Hfr & Hl & Ha & Hli & Hg & Hi & Hp)]].
  - split_and!; auto with lia. by destruct b.
  - destruct b, Hwf; simpl in *. split_and!; auto with lia; split; done.
  - apply InterestRateCalc.changes_monotone in Hch as (?&?&?&?&?&_);
      [|solve [done | apply (wf_asv b Hwf) | lia]..].
    destruct Hwf. split_and!; auto; try lia.
    rewrite Hfr. split; simpl; lia.
Qed.

(** C24: accruing interest creates no value.  What
    depositors gain and what the three fee accounts collect is at most what
    the debts grow by, up to the rounding of the fixed-point arithmetic: two
    units of 2^-48, plus one unit per whole token of debt and per whole debt
    share, plus the lending interest factor [il] of the period itself. *)
Theorem accrue_interest_conserves_value b now g b' :
  wf b → rates_wf b g → accrue_interest b now g = Ok b' →
  let deposits x := fmul (total_asset_shares x) (asset_share_value x) in
  let debts x := fmul (total_liability_shares x) (liability_share_value x) in
  let fees x := collected_group_fees_outstanding x + collected_insurance_fees_outstanding x
                + collected_program_fees_outstanding x in
  ∃ il, 0 ≤ il ∧ asset_share_value b' = asset_share_value b + fmul (asset_share_value b) il ∧
    SCALE * ((deposits b' - deposits b) + (fees b' - fees b)) ≤
    SCALE * (debts b' - debts b) + 2 * SCALE + debts b + total_liability_shares b + il.
Proof.
  intros Hwf Hr H deposits debts fees.
  pose proof (wf_lsv_pos b Hwf) as Hlsv.
  assert (0 ≤ debts b) by (apply fmul_nonneg; [apply Hwf|lia]).
  destruct (accrue_interest_cases _ _ _ _ Hwf H) as [Ht Hcases].
  pose proof (wf_liabs b Hwf). pose proof SCALE_pos.
  destruct Hcases as [[-> ->] | [[Hlt ->] | (Hlt & ch & Hch & HA & HL & Hfr & Hl & Ha & Hli & Hg & Hi & Hp)]].
  - exists 0. rewrite fmul_0_r. lia.
  - exists 0. rewrite fmul_0_r. unfold deposits, debts, fees in *. simpl in *. split_and!; lia.
  - destruct Hr as [Hc Hf].
    pose proof Hch as Hst. apply InterestRateCalc.state_changes_some in Hst
      as (r & _ & Hrate & Hasv & _); [|solve [done | apply (wf_asv b Hwf) | lia]..].
    pose proof (InterestRateCalc.changes_conserve_value (now - last_update b)
                  (total_asset_shares b) (total_liability_shares b)
                  (asset_share_value b) (liability_share_value b) (ir_calc b g) ch r Hc Hf
                  ltac:(lia) (wf_assets b Hwf) (wf_liabs b Hwf) (wf_asv b Hwf)
                  ltac:(lia) Hch Hrate) as Hcons.
    pose proof Hrate as Hl0. apply InterestRateCalc.calc_interest_rate_some in Hl0
      as (Hb & Hlend & _); [|done..|apply fdiv_nonneg; lia].
    eexists. split; [|split].
    + apply (InterestRateCalc.period_rate_nonneg (InterestRateCalc.lending_rate_apr r)
               (now - last_update b)); [|lia].
      rewrite Hlend. apply fmul_nonneg; [done|apply fdiv_nonneg; lia].
    + by rewrite Ha.
    + unfold deposits, debts, fees. rewrite Ha, Hli, Hg, Hi, Hp.
      replace (total_asset_shares b') with (total_asset_shares b) by (by rewrite Hfr).
      replace (total_liability_shares b') with (total_liability_shares b) by (by rewrite Hfr).
      clear -Hcons. cbv zeta in Hcons. lia.
Qed.

(** What an accrual collects at most for each fee account. *)
Definition interest_cap (b : Bank) (now : Z) (g : MarginfiGroup) : Z :=
  fmul (fmul (total_liability_shares b) (liability_share_value b)) (InterestRateCalc.borrowing_cap (ir_calc b g))
  * (now - last_update b) / 31536000.
(** What lets interest be accrued. *)
Record accruable (b : Bank) (now : Z) (g : MarginfiGroup) : Prop := {
  ac_rates : rates_wf b g;
  ac_time : 0 ≤ now - last_update b < 2 ^ 63;
  ac_lent : fmul (total_liability_shares b) (liability_share_value b)
            ≤ fmul (total_asset_shares b) (asset_share_value b) ≤ I80F48_MAX;
  ac_fits : InterestRateCalc.accrual_fits (ir_calc b g) (now - last_update b)
              (fmul (total_liability_shares b) (liability_share_value b))
              (asset_share_value b) (liability_share_value b);
  ac_group : collected_group_fees_outstanding b + interest_cap b now g ≤ I80F48_MAX;
  ac_insurance : collected_insurance_fees_outstanding b + interest_cap b now g ≤ I80F48_MAX;
  ac_program : collected_program_fees_outstanding b + interest_cap b now g ≤ I80F48_MAX
}.

Lemma accrual_total b now g :
  wf b → accruable b now g →
  ∃ b', accrue_interest b now g = Ok b' ∧ last_update b' = now ∧
    collected_group_fees_outstanding b' ≤ collected_group_fees_outstanding b + interest_cap b now g ∧
    collected_insurance_fees_outstanding b' ≤ collected_insurance_fees_outstanding b + interest_cap b now g ∧
    collected_program_fees_outstanding b' ≤ collected_program_fees_outstanding b + interest_cap b now g.
Proof.
  intros Hwf [[Hc Hf] Ht [Hle Hmax] Hfit Fg Fi Fp]. unfold interest_cap in *.
  set (t := now - last_update b) in *.
  set (deposits := fmul (total_asset_shares b) (asset_share_value b)) in *.
  set (debts := fmul (total_liability_shares b) (liability_share_value b)) in *.
  set (interest := fmul debts (InterestRateCalc.borrowing_cap (ir_calc b g)) * t / 31536000) in *.
  pose proof (wf_lsv_pos b Hwf).
  destruct (Hwf) as [Has Hls Hav _ Hg Hi Hp _ _].
  assert (0 ≤ debts) as Hd by (apply fmul_nonneg; lia).
  assert (0 ≤ interest) as Hint.
  { apply Z.div_pos; [|lia]. pose proof (InterestRateCalc.borrowing_cap_nonneg _ Hc Hf).
    pose proof (fmul_nonneg debts _ Hd H0). nia. }
  unfold accrue_interest. fold t. rewrite (proj2 (i64_checked_ok t t)) by (unfold is_i64; lia). simpl.
  rewrite (proj2 (u64_checked_some t t)) by (unfold is_u64, U64_MAX; lia). simpl.
  destruct (t =? 0) eqn:E0; bool_prop; [exists b; split_and!; lia || done|].
  unfold get_asset_amount, get_liability_amount. simpl. fold deposits debts.
  rewrite (mul_ok (total_asset_shares b)) by done. rewrite mul_ok by (unfold debts, deposits in *; lia). simpl. fold deposits debts.
  destruct (_ || _) eqn:Ez; [eexists; split; [done|]; simpl; split_and!; lia || done|].
  apply orb_false_iff in Ez as [Ea El]. unfold ZERO in Ea, El. bool_prop.
  assert (0 ≤ deposits) by (by apply fmul_nonneg).
  destruct (InterestRateCalc.state_changes_total t deposits debts (ir_calc b g) (asset_share_value b)
              (liability_share_value b)) as (ch & Hch & Hfees); [done|done|lia..|done|].
  unfold ir_calc in Hch. rewrite Hch. simpl. fold interest in Hfees.
  assert (∀ x out, 0 ≤ x ≤ interest → 0 ≤ out → out + interest ≤ I80F48_MAX →
            ∃ y, collect_fee x out = Ok y ∧ y ≤ out + interest) as Hcol.
  { intros x out Hx Ho Hm. unfold collect_fee, ZERO. destruct (0 <? x); [|exists out; split; [done|lia]].
    rewrite add_ok by (unfold is_i80f48, I80F48_MIN, I80F48_MAX in *; lia). exists (x + out). split; [done|lia]. }
  destruct (Hcol _ _ (Hfees (InterestRateCalc.group_fees_collected ch) ltac:(set_solver)) Hg Fg) as (yg & -> & ?).
  simpl.
  destruct (Hcol _ _ (Hfees (InterestRateCalc.insurance_fees_collected ch) ltac:(set_solver)) Hi Fi) as (yi & -> & ?).
  simpl.
  destruct (Hcol _ _ (Hfees (InterestRateCalc.protocol_fees_collected ch) ltac:(set_solver)) Hp Fp) as (yp & -> & ?).
  eexists. split; [done|]. simpl. done.
Qed.

(** C26: Interest can always be accrued: from the time of the
    last accrual on, when the debts do not exceed the deposits and the amounts
    the accrual computes (at the highest rate the configuration allows) are in
    the range of the fixed-point numbers, [accrue_interest] returns, for any
    period, without an error or a panic.  What it collects for each of the
    three fee accounts is at most the interest on the debts at that rate. *)
Theorem accrual_succeeds b now g :
  wf b → rates_wf b g →
  let t := now - last_update b in
  let deposits := fmul (total_asset_shares b) (asset_share_value b) in
  let debts := fmul (total_liability_shares b) (liability_share_value b) in
  let interest := fmul debts (InterestRateCalc.borrowing_cap (ir_calc b g)) * t / 31536000 in
  0 ≤ t < 2 ^ 63 → debts ≤ deposits ≤ I80F48_MAX →
  InterestRateCalc.accrual_fits (ir_calc b g) t debts (asset_share_value b) (liability_share_value b) →
  collected_group_fees_outstanding b + interest ≤ I80F48_MAX →
  collected_insurance_fees_outstanding b + interest ≤ I80F48_MAX →
  collected_program_fees_outstanding b + interest ≤ I80F48_MAX →
  ∃ b', accrue_interest b now g = Ok b' ∧ last_update b' = now ∧
    collected_group_fees_outstanding b' ≤ collected_group_fees_outstanding b + interest ∧
    collected_insurance_fees_outstanding b' ≤ collected_insurance_fees_outstanding b + interest ∧
    collected_program_fees_outstanding b' ≤ collected_program_fees_outstanding b + interest.
Proof.
  intros Hwf Hr t deposits debts interest Ht Hle Hfit Fg Fi Fp. by apply accrual_total; [|split].
Qed.

(** Turning an amount into shares and back never
    pays out more than was put in, and loses less than the value of one unit
    (2^-48) of a share plus one unit; on both sides of the bank.  Turning
    shares into an amount and back never creates shares. *)
Theorem shares_amount_roundtrip b x s v s' :
  wf b → 0 ≤ x →
  (get_asset_shares b x = Ok s → get_asset_amount b s = Ok v →
     0 ≤ s ∧ x - asset_share_value b / SCALE - 1 ≤ v ≤ x) ∧
  (get_liability_shares b x = Ok s → get_liability_amount b s = Ok v →
     0 ≤ s ∧ x - liability_share_value b / SCALE - 1 ≤ v ≤ x) ∧
  (get_asset_amount b x = Ok v → get_asset_shares b v = Ok s' → 0 ≤ s' ≤ x) ∧
  (get_liability_amount b x = Ok v → get_liability_shares b v = Ok s' → 0 ≤ s' ≤ x).
Proof.
  intros Hwf Hx. pose proof (wf_lsv_pos b Hwf). pose proof (wf_asv b Hwf).
  split_and!; intros H1 H2.
  - apply get_asset_shares_nn in H1 as (? & -> & ?); [|done..].
    apply get_asset_amount_nn in H2 as [-> _]; [|done..].
    split; [done|]. split; [by apply fmul_fdiv_ge|by apply fmul_fdiv_le].
  - apply get_liability_shares_nn in H1 as (? & -> & ?); [|lia..].
    apply get_liability_amount_nn in H2 as [-> _]; [|lia..].
    split; [done|]. split; [by apply fmul_fdiv_ge|by apply fmul_fdiv_le].
  - apply get_asset_amount_nn in H1 as [-> ?]; [|done..].
    apply get_asset_shares_nn in H2 as (? & -> & ?); [|done..].
    split; [done|by apply fdiv_fmul_le].
  - apply get_liability_amount_nn in H1 as [-> ?]; [|lia..].
    apply get_liability_shares_nn in H2 as (? & -> & ?); [|lia..].
    split; [done|by apply fdiv_fmul_le].
Qed.

(** New deposit and debt shares are added to the
    totals of the bank, and to nothing else; after a deposit (or borrow) that
    is not exempt, the total amount is strictly below the configured limit,
    and a change that would reach the limit is refused with the capacity
    error of its side.  A limit of [u64::MAX], the removal of shares and the
    exempt operations are not limited. *)
Theorem capacity_limits_enforced b s bypass :
  wf b → is_i80f48 (total_asset_shares b + s) → is_i80f48 (total_liability_shares b + s) →
  0 ≤ total_asset_shares b + s → 0 ≤ total_liability_shares b + s →
  let deposits := fmul (total_asset_shares b + s) (asset_share_value b) in
  let debts := fmul (total_liability_shares b + s) (liability_share_value b) in
  let dlimited := (0 <? s) && BankConfig.is_deposit_limit_active (config b) && negb bypass in
  let blimited := negb bypass && (0 <? s) && BankConfig.is_borrow_limit_active (config b) in
  deposits ≤ I80F48_MAX → debts ≤ I80F48_MAX →
  change_asset_shares b s bypass =
    (if dlimited && (from_num (BankConfig.deposit_limit (config b)) <=? deposits)
     then Err BankAssetCapacityExceeded
     else Ok (with_total_asset_shares (total_asset_shares b + s) b)) ∧
  change_liability_shares b s bypass =
    (if blimited && (from_num (BankConfig.borrow_limit (config b)) <=? debts)
     then Err BankLiabilityCapacityExceeded
     else Ok (with_total_liability_shares (total_liability_shares b + s) b)).
Proof.
  intros Hwf Ha Hl Ha0 Hl0 deposits debts dlimited blimited Hd Hb.
  pose proof (wf_lsv_pos b Hwf). pose proof (wf_asv b Hwf).
  unfold change_asset_shares, change_liability_shares.
  rewrite !add_ok by done. simpl. fold dlimited blimited. split.
  - destruct dlimited; [|done]. unfold get_asset_amount. simpl.
    rewrite mul_ok by done. simpl. unfold check, check_or. fold deposits.
    rewrite Z.ltb_antisym. by destruct (_ <=? _).
  - destruct blimited; [|done]. unfold get_liability_amount. simpl.
    rewrite mul_ok by (done || lia). simpl. unfold check, check_or. fold debts.
    rewrite Z.ltb_antisym. by destruct (_ <=? _).
Qed.

(** The discount factor of a bank over its
    USD collateral limit lies in [0, 1]; scaling the value of all the bank's
    deposits by it gives at most the limit; and no discount is applied
    exactly when the limit is inactive or not exceeded. *)
Theorem init_discount_caps_collateral b price d :
  wf b → 0 ≤ price → 0 ≤ BankConfig.total_asset_value_init_limit (config b) →
  maybe_get_asset_weight_init_discount b price = Ok d →
  let limit := BankConfig.total_asset_value_init_limit (config b) in
  let value := value_of (fmul (total_asset_shares b) (asset_share_value b)) price
                 (mint_decimals b) None in
  match d with
  | None => limit = 0 ∨ value ≤ from_num limit
  | Some x => 0 < limit ∧ from_num limit < value ∧ 0 ≤ x ≤ ONE ∧ fmul value x ≤ from_num limit
  end.
Proof.
  intros Hwf Hp Hlim H limit value. unfold maybe_get_asset_weight_init_discount in H.
  unfold BankConfig.usd_init_limit_active, TOTAL_ASSET_VALUE_INIT_LIMIT_INACTIVE in H.
  fold limit in H. destruct (limit =? 0) eqn:E0; bool_prop; simpl in H; inv_res; [by left|].
  apply get_asset_amount_nn in E as [-> HA]; [|apply Hwf..].
  apply calc_value_nn in E1 as [-> Hv]; [|done..]. fold value in H, Hv.
  pose proof SCALE_pos. destruct (_ <? _) eqn:Elt; bool_prop; inv_res; [|by right].
  assert (0 ≤ from_num limit) by (unfold from_num; nia).
  apply div_some in E as (? & -> & _); [|done..].
  split_and!; [lia|done|by apply fdiv_nonneg|apply fdiv_le_ONE; lia|].
  rewrite fmul_comm. by apply fmul_fdiv_le.
Qed.

(** What is left of a loss that the deposits cover. *)
Lemma socialize_loss_ok b loss b' :
  wf b → 0 ≤ loss ≤ fmul (total_asset_shares b) (asset_share_value b) →
  socialize_loss b loss = Ok b' →
  let before := fmul (total_asset_shares b) (asset_share_value b) in
  let after := fmul (total_asset_shares b) (asset_share_value b') in
  wf b' ∧ before - loss - total_asset_shares b / SCALE - 1 ≤ after ≤ before - loss.
Proof.
  intros Hwf Hloss H before after. unfold socialize_loss in H. inv_res.
  pose proof (wf_asv b Hwf). pose proof (wf_assets b Hwf).
  apply mul_some in E as [-> _]; [|done..]. apply sub_some in E0 as [-> _].
  apply div_some in E1 as (Hpos & -> & _); [|lia..]. fold before in Hloss, after |- *.
  simpl in after.
  assert (0 ≤ fdiv (before - loss) (total_asset_shares b)) by (apply fdiv_nonneg; lia).
  split_and!; [destruct Hwf; split; simpl; done| |]; unfold after; rewrite fmul_comm.
  - apply fmul_fdiv_ge; lia.
  - apply fmul_fdiv_le; lia.
Qed.
Lemma socialize_loss_frame b loss b' :
  socialize_loss b loss = Ok b' → b' = with_asset_share_value (asset_share_value b') b.
Proof. unfold socialize_loss. intros H. by inv_res. Qed.

(** A loss is taken from the value of the deposit
    shares alone.  The share count and everything else stay; the total
    deposit value falls by the loss, and by at most one unit per whole share
    and one more from rounding.  As long as the loss does not exceed the total deposits
    the share value stays non-negative. *)
Theorem socialize_loss_spreads b loss b' :
  wf b → 0 ≤ loss ≤ fmul (total_asset_shares b) (asset_share_value b) →
  socialize_loss b loss = Ok b' →
  let before := fmul (total_asset_shares b) (asset_share_value b) in
  let after := fmul (total_asset_shares b) (asset_share_value b') in
  wf b' ∧ b' = with_asset_share_value (asset_share_value b') b ∧
  asset_share_value b' ≤ asset_share_value b ∧
  before - loss - total_asset_shares b / SCALE - 1 ≤ after ≤ before - loss.
Proof.
  intros Hwf Hloss H before after.
  pose proof (socialize_loss_ok _ _ _ Hwf Hloss H) as (Hwf' & ? & ?).
  pose proof (socialize_loss_frame _ _ _ H) as Hfr. split_and!; try done.
  apply bind_ok in H as (v & Hv & H). apply bind_ok in H as (x & Hx & H).
  apply bind_ok in H as (y & Hy & H). injection H as <-. simpl.
  apply math_ok in Hv, Hx, Hy. pose proof (wf_asv b Hwf). pose proof (wf_assets b Hwf).
  apply mul_some in Hv as [-> _]; [|done..]. apply sub_some in Hx as [-> _].
  apply div_some in Hy as (Hpos & -> & _); [|lia..].
  apply Z.le_trans with (fdiv before (total_asset_shares b)); [apply fdiv_mono; lia|].
  unfold before. rewrite fmul_comm. by apply fdiv_fmul_le.
Qed.

(** Nothing in the operation compares the loss
    with the deposits: a loss larger than the total deposits leaves a
    negative deposit share value. *)
Theorem socialize_loss_unguarded b loss b' :
  wf b → fmul (total_asset_shares b) (asset_share_value b) + total_asset_shares b < loss →
  socialize_loss b loss = Ok b' → asset_share_value b' < 0.
Proof.
  intros Hwf Hloss H. unfold socialize_loss in H. inv_res.
  pose proof (wf_asv b Hwf). pose proof (wf_assets b Hwf). pose proof SCALE_pos.
  apply mul_some in E as [-> _]; [|done..]. apply sub_some in E0 as [-> _].
  destruct (decide (total_asset_shares b = 0)) as [Hz|Hz].
  { by rewrite Hz, checked_div_zero in E1. }
  destruct (checked_div_spec (fmul (total_asset_shares b) (asset_share_value b) - loss) _ Hz)
    as (q & Hq & Heq).
  rewrite Heq in E1. apply fits_some in E1 as [-> _]. simpl.
  apply drops_bits_err in Hq; [|lia]. nia.
Qed.

(** A successful configuration leaves a valid
    configuration (weights ordered and bounded, an isolated bank lends
    nothing as collateral, a rising rate curve), takes every supplied field
    and keeps every other one, and outside the configuration changes at most
    the bad-debt flag: shares, share values and fees are untouched. *)
Theorem configure_keeps_valid b o b' :
  is_u64 (flags b) → configure b o = Ok b' →
  BankConfig.valid (config b') ∧
  b' = with_flags (flags b') (with_config (config b') b) ∧
  config b' = configure_fields (config b) o ∧
  (∀ i, 0 ≤ i → i ≠ 2 → Z.testbit (flags b') i = Z.testbit (flags b) i) ∧
  Z.testbit (flags b') 2 =
    default (Z.testbit (flags b) 2) (BankConfig.o_permissionless_bad_debt_settlement o).
Proof.
  intros Hu H. unfold configure in H.
  apply bind_ok in H as (b1 & E & H). apply bind_ok in H as (u & E0 & H).
  injection H as <-. apply BankConfig.validate_ok in E0.
  destruct (BankConfig.o_permissionless_bad_debt_settlement o) as [f|].
  - unfold update_flag in E. apply bind_ok in E as (u' & _ & E).
    destruct f; injection E as <-; split_and!; try done.
    + intros i Hi Hne. apply lor_flag_other; done.
    + apply lor_flag_same.
    + intros i Hi Hne. by apply land_not_flag_other.
    + apply land_not_flag_same.
  - injection E as <-. split_and!; done.
Qed.

(** The emissions flags are stored as the whole flag
    word, after an assertion that no other bit is set: whatever was there
    before, the permissionless bad-debt flag included, is cleared, and a word
    with any other bit panics. *)
Theorem emissions_flag_overrides b flag :
  0 ≤ flag →
  (verify_emissions_flags flag = true ↔ flag < 4) ∧
  (flag < 4 → ∃ b', override_emissions_flag b flag = Ok b' ∧ b' = with_flags flag b ∧
     get_flag b' PERMISSIONLESS_BAD_DEBT_SETTLEMENT_FLAG = false) ∧
  (4 ≤ flag → override_emissions_flag b flag = Panic).
Proof.
  intros Hf.
  assert (Hv : verify_emissions_flags flag = (flag <? 4)).
  { unfold verify_emissions_flags. change EMISSION_FLAGS with (Z.ones 2).
    rewrite Z.land_ones by lia. change (2 ^ 2) with 4.
    pose proof (Z.mod_pos_bound flag 4). pose proof (Z.mod_small flag 4).
    apply eq_bool_prop_intro. rewrite !Is_true_true, Z.eqb_eq, Z.ltb_lt. lia. }
  unfold override_emissions_flag. rewrite Hv. split_and!.
  - by rewrite Z.ltb_lt.
  - intros Hlt. rewrite (proj2 (Z.ltb_lt _ _)) by done. simpl.
    eexists. split_and!; [done..|]. unfold get_flag. simpl.
    change PERMISSIONLESS_BAD_DEBT_SETTLEMENT_FLAG with 4.
    assert (flag = 0 ∨ flag = 1 ∨ flag = 2 ∨ flag = 3) as [-> | [-> | [-> | ->]]] by lia; done.
  - intros Hge. by rewrite (proj2 (Z.ltb_ge _ _)) by done.
Qed.
End Theorems.

(** ** Examples

    A USDC-like bank with 100 tokens deposited and 50 borrowed. *)
Definition demo_ir_config : InterestRateConfig := {|
  InterestRateConfig.optimal_utilization_rate := fx_literal 4 10;
  InterestRateConfig.plateau_interest_rate := fx_literal 4 10;
  InterestRateConfig.max_interest_rate := from_num 3;
  InterestRateConfig.insurance_fee_fixed_apr := 0;
  InterestRateConfig.insurance_ir_fee := fx_literal 1 10;
  InterestRateConfig.protocol_fixed_fee_apr := fx_literal 1 100;
  InterestRateConfig.protocol_ir_fee := 0;
  InterestRateConfig.protocol_origination_fee := 0 |}.

Definition demo_config : BankConfig := {|
  BankConfig.asset_weight_init := fx_literal 8 10;
  BankConfig.asset_weight_maint := fx_literal 9 10;
  BankConfig.liability_weight_init := fx_literal 12 10;
  BankConfig.liability_weight_maint := fx_literal 11 10;
  BankConfig.deposit_limit := 1000000000; BankConfig.interest_rate_config := demo_ir_config;
  BankConfig.operational_state := Operational; BankConfig.oracle_setup := PythLegacy;
  BankConfig.oracle_keys := [900; 0; 0; 0; 0]; BankConfig.borrow_limit := U64_MAX;
  BankConfig.risk_tier := Collateral; BankConfig.total_asset_value_init_limit := 50;
  BankConfig.oracle_max_age := 0 |}.

Definition demo_bank : Bank :=
  with_total_asset_shares (from_num 100000000)
    (with_total_liability_shares (from_num 50000000)
       (new 1 demo_config 500 6 601 602 603 0 255 255 255 255 255 255)).

Definition demo_group : MarginfiGroup := MarginfiGroup.zeroed.

Definition demo_accrued : Bank := ok_value demo_bank (accrue_interest demo_bank 3600 demo_group).

Lemma demo_bank_wf : wf demo_bank ∧ rates_wf demo_bank demo_group.
Proof.
  split; [split; vm_compute; discriminate|].
  unfold rates_wf, InterestRateCalc.curve_wf, InterestRateCalc.fees_wf. vm_compute.
  repeat split; discriminate.
Qed.

Lemma accrue_interest_monotone_witness :
  wf demo_accrued ∧ accrual_frame demo_bank demo_accrued ∧ last_update demo_accrued = 3600 ∧
  asset_share_value demo_bank ≤ asset_share_value demo_accrued ∧
  liability_share_value demo_bank ≤ liability_share_value demo_accrued ∧
  collected_group_fees_outstanding demo_bank ≤ collected_group_fees_outstanding demo_accrued ∧
  collected_insurance_fees_outstanding demo_bank
    ≤ collected_insurance_fees_outstanding demo_accrued ∧
  collected_program_fees_outstanding demo_bank
    ≤ collected_program_fees_outstanding demo_accrued ∧
  accrue_interest demo_accrued 3600 demo_group = Ok demo_accrued.
Proof.
  apply (proj2 (accrue_interest_monotone (F := i80f48) demo_bank 3600 demo_group
                  (proj1 demo_bank_wf))).
  vm_compute. reflexivity.
Defined.

Lemma accrue_interest_conserves_value_witness :
  let deposits x := fmul (total_asset_shares x) (asset_share_value x) in
  let debts x := fmul (total_liability_shares x) (liability_share_value x) in
  let fees x := collected_group_fees_outstanding x + collected_insurance_fees_outstanding x
                + collected_program_fees_outstanding x in
  ∃ il, 0 ≤ il ∧ asset_share_value demo_accrued =
                  asset_share_value demo_bank + fmul (asset_share_value demo_bank) il ∧
    SCALE * ((deposits demo_accrued - deposits demo_bank) + (fees demo_accrued - fees demo_bank)) ≤
    SCALE * (debts demo_accrued - debts demo_bank) + 2 * SCALE + debts demo_bank
    + total_liability_shares demo_bank + il.
Proof.
  apply (accrue_interest_conserves_value (F := i80f48) demo_bank 3600 demo_group demo_accrued).
  - apply demo_bank_wf.
  - apply demo_bank_wf.
  - vm_compute. reflexivity.
Defined.

(** A year without an accrual. *)
Lemma accrual_succeeds_witness :
  ∃ b', accrue_interest demo_bank 31536000 demo_group = Ok b' ∧ last_update b' = 31536000.
Proof.
  destruct (accrual_succeeds (F := i80f48) demo_bank 31536000 demo_group (proj1 demo_bank_wf) (proj2 demo_bank_wf))
    as (b' & Hb' & Hl & _).
  - split; vm_compute; [discriminate|reflexivity].
  - split; vm_compute; discriminate.
  - split; vm_compute; discriminate.
  - vm_compute. discriminate.
  - vm_compute. discriminate.
  - vm_compute. discriminate.
  - exists b'. split; [exact Hb'|exact Hl].
Defined.

Lemma shares_amount_roundtrip_witness :
  let b := demo_accrued in
  let s := ok_value 0 (get_asset_shares b (from_num 7)) in
  let v := ok_value 0 (get_asset_amount b s) in
  0 ≤ s ∧ from_num 7 - asset_share_value b / SCALE - 1 ≤ v ≤ from_num 7.
Proof.
  intros b s v.
  refine (proj1 (shares_amount_roundtrip (F := i80f48) b (from_num 7) s v s _ _) _ _).
  - split; vm_compute; discriminate.
  - vm_compute. discriminate.
  - vm_compute. reflexivity.
  - vm_compute. reflexivity.
Defined.

(** 950 more tokens exceed the limit of 1000. *)
Lemma capacity_limits_enforced_witness :
  change_asset_shares demo_bank (from_num 950000000) false = Err BankAssetCapacityExceeded.
Proof.
  refine (eq_trans (proj1 (capacity_limits_enforced (F := i80f48) demo_bank
                             (from_num 950000000) false _ _ _ _ _ _ _)) _).
  - apply demo_bank_wf.
  - vm_compute. split; discriminate.
  - vm_compute. split; discriminate.
  - vm_compute. discriminate.
  - vm_compute. discriminate.
  - vm_compute. discriminate.
  - vm_compute. discriminate.
  - vm_compute. reflexivity.
Defined.

(** 100 USD of deposits under a limit of 50: the factor is one half. *)
Lemma init_discount_caps_collateral_witness :
  let value := value_of (fmul (total_asset_shares demo_bank) (asset_share_value demo_bank))
                 ONE 6 None in
  0 < 50 ∧ from_num 50 < value ∧ 0 ≤ SCALE / 2 ≤ ONE ∧ fmul value (SCALE / 2) ≤ from_num 50.
Proof.
  apply (init_discount_caps_collateral (F := i80f48) demo_bank ONE (Some (SCALE / 2))).
  - apply demo_bank_wf.
  - vm_compute. discriminate.
  - vm_compute. discriminate.
  - vm_compute. reflexivity.
Defined.

Definition demo_loss_bank : Bank := ok_value demo_bank (socialize_loss demo_bank (from_num 30000000)).
Lemma socialize_loss_spreads_witness :
  wf demo_loss_bank ∧
  demo_loss_bank = with_asset_share_value (asset_share_value demo_loss_bank) demo_bank ∧
  asset_share_value demo_loss_bank ≤ asset_share_value demo_bank ∧
  fmul (total_asset_shares demo_bank) (asset_share_value demo_bank) - from_num 30000000
    - total_asset_shares demo_bank / SCALE - 1
    ≤ fmul (total_asset_shares demo_bank) (asset_share_value demo_loss_bank)
    ≤ fmul (total_asset_shares demo_bank) (asset_share_value demo_bank) - from_num 30000000.
Proof.
  apply (socialize_loss_spreads (F := i80f48) demo_bank (from_num 30000000) demo_loss_bank).
  - apply demo_bank_wf.
  - vm_compute. split; discriminate.
  - vm_compute. reflexivity.
Defined.

Lemma socialize_loss_unguarded_witness :
  asset_share_value (ok_value demo_bank (socialize_loss demo_bank (from_num 300000000))) < 0.
Proof.
  apply (socialize_loss_unguarded (F := i80f48) demo_bank (from_num 300000000)).
  - apply demo_bank_wf.
  - vm_compute. reflexivity.
  - vm_compute. reflexivity.
Defined.

Definition demo_opt : BankConfig.BankConfigOpt := {|
  BankConfig.o_asset_weight_init := Some (fx_literal 7 10);
  BankConfig.o_asset_weight_maint := None; BankConfig.o_liability_weight_init := None;
  BankConfig.o_liability_weight_maint := None; BankConfig.o_deposit_limit := Some 5;
  BankConfig.o_borrow_limit := None; BankConfig.o_operational_state := Some ReduceOnly;
  BankConfig.o_oracle := None; BankConfig.o_interest_rate_config := None;
  BankConfig.o_risk_tier := None; BankConfig.o_total_asset_value_init_limit := None;
  BankConfig.o_oracle_max_age := None;
  BankConfig.o_permissionless_bad_debt_settlement := Some true |}.
Definition demo_configured : Bank := ok_value demo_bank (configure demo_bank demo_opt).

Lemma configure_keeps_valid_witness :
  BankConfig.valid (config demo_configured) ∧
  demo_configured = with_flags (flags demo_configured)
                      (with_config (config demo_configured) demo_bank) ∧
  config demo_configured = configure_fields (config demo_bank) demo_opt ∧
  (∀ i, 0 ≤ i → i ≠ 2 →
     Z.testbit (flags demo_configured) i = Z.testbit (flags demo_bank) i) ∧
  Z.testbit (flags demo_configured) 2 = true.
Proof.
  apply (configure_keeps_valid demo_bank demo_opt demo_configured).
  - vm_compute. split; discriminate.
  - vm_compute. reflexivity.
Defined.

Lemma emissions_flag_overrides_witness :
  ∃ b', override_emissions_flag demo_configured 3 = Ok b' ∧ b' = with_flags 3 demo_configured ∧
    get_flag b' PERMISSIONLESS_BAD_DEBT_SETTLEMENT_FLAG = false.
Proof. apply emissions_flag_overrides; lia. Defined.
End Bank.
Notation Bank := Bank.Bank (only parsing).
