(* ===== verification/Price.v ===== *)
(** * Oracle prices

    [state/price.rs]: the four kinds of price feed, how they are loaded from
    an oracle account and how a price with a confidence bias is computed.

    The oracle SDKs (pyth, switchboard) are not part of the repository: the
    class [OracleSdk] has the functions the code calls of them, and
    [OracleLaws] the documented facts the theorems use.  Of an SDK's structure
    only the fields the program reads are kept. *)
From S2P Require Import Prelude Errors Fixed Constants Utils BankState.

(** [Clock]: the fields the program reads. *)
Record Clock := mkClock { unix_timestamp : Z; epoch : Z }.

(** A price of the pyth SDKs ([pyth_sdk_solana::Price] and
    [pyth_solana_receiver_sdk::price_update::Price]). *)
Record PythPrice := mkPythPrice { pp_price : Z (* i64 *); pp_conf : Z (* u64 *); pp_expo : Z (* i32 *) }.

(** [PriceUpdateV2.price_message] : the fields [load_checked] copies. *)
Record PriceFeedMessage := mkPriceFeedMessage {
  pm_feed_id : Pubkey; pm_exponent : Z; pm_ema_price : Z; pm_ema_conf : Z
}.
Inductive GetPriceError : Set := PriceTooOld | OtherPriceError.

(** [switchboard_on_demand::CurrentResult], [SwitchboardDecimal]. *)
Record CurrentResult := mkCurrentResult { cr_value : Z (* i128 *); cr_std_dev : Z (* i128 *) }.
Record PullFeedAccountData := mkPullFeed {
  pf_result : CurrentResult; pf_last_update_timestamp : Z; pf_feed_hash : Z (* [u8; 32] *)
}.
Record SwitchboardDecimal := mkDecimal { mantissa : Z (* i128 *); scale : Z (* u32 *) }.
Inductive AggregatorResolutionMode : Set := ModeRoundResolution | ModeSlidingResolution.
Record AggregatorAccountData := mkAggregator {
  ag_resolution_mode : AggregatorResolutionMode;
  ag_result : SwitchboardDecimal;
  ag_num_success : Z;
  ag_std_deviation : SwitchboardDecimal;
  ag_min_oracle_results : Z
}.

(** [PythPushOraclePriceFeed::find_oracle_address]: [find_program_address] of
    the shard id and the feed id, of [PYTH_PUSH_ORACLE_ID]. *)
Class PushOracles := { find_oracle_address : Z → Pubkey → Pubkey }.

Class OracleSdk := {
  (* pyth_sdk_solana *)
  PriceFeed : Type;
  account_info_to_feed : AccountInfo → option PriceFeed;
  get_price_no_older_than : PriceFeed → Z → Z → option PythPrice;
  get_ema_price_no_older_than : PriceFeed → Z → Z → option PythPrice;
  (* pyth_solana_receiver_sdk *)
  PriceUpdateV2 : Type;
  pyth_receiver_id : Pubkey;
  price_update_discriminator : list Z;
  price_update_deserialize : list Z → option PriceUpdateV2;
  price_message : PriceUpdateV2 → PriceFeedMessage;
  (* get_price_no_older_than_with_custom_verification_level(clock, max_age, feed_id, Full) *)
  get_full_price_no_older_than :
    PriceUpdateV2 → Clock → Z → Pubkey → outcome GetPriceError PythPrice;
  (* switchboard_on_demand *)
  PRECISION : Z;
  pull_feed_parse : list Z → option PullFeedAccountData;
  (* switchboard_solana *)
  SWITCHBOARD_PROGRAM_ID : Pubkey;
  aggregator_new_from_bytes : list Z → option AggregatorAccountData;
  aggregator_check_staleness : list Z → Z → Z → bool
}.

(** What the documentation of the SDKs promises. *)
Class OracleLaws (O : OracleSdk) : Prop := {
  precision_18 : PRECISION = 18;
  full_price_feed_id pu clock age id p :
    get_full_price_no_older_than pu clock age id = Ok p → pm_feed_id (price_message pu) = id
}.

(** [a.saturating_sub(b)] on [i64]. *)
Definition i64_saturating_sub (a b : Z) : Z := Z.max (- 2 ^ 63) (Z.min (2 ^ 63 - 1) (a - b)).

Section Feeds.
Context {F : FixedOps} {O : OracleSdk}.

(** ** Arithmetic shared by the feeds *)
Definition pyth_price_components_to_i80f48 (price : I80F48) (exponent : Z)
    : MarginfiResult I80F48 :=
  let? scaling_factor := index EXP_10_I80F48 (Z.abs exponent) in
  if exponent =? 0 then Ok price
  else if exponent <? 0 then math (checked_div price scaling_factor)
  else math (checked_mul price scaling_factor).

(** The end of every [get_confidence_interval]: cap the interval to 5% of
    the price. *)
Definition cap_confidence (conf_interval price : I80F48) : MarginfiResult I80F48 :=
  let? max_conf_interval := math (checked_mul price MAX_CONF_INTERVAL) in
  let? _ := rust_assert (geb max_conf_interval ZERO) in
  let? _ := rust_assert (geb conf_interval ZERO) in
  Ok (Z.min conf_interval max_conf_interval).

(** The end of every [get_price_of_type]. *)
Definition apply_bias (price : I80F48) (bias : option PriceBias)
    (get_confidence_interval : MarginfiResult I80F48) : MarginfiResult I80F48 :=
  match bias with
  | None => Ok price
  | Some price_bias =>
      let? confidence_interval := get_confidence_interval in
      match price_bias with
      | Low => math (checked_sub price confidence_interval)
      | High => math (checked_add price confidence_interval)
      end
  end.

(** [get_confidence_interval] of the two pyth feeds, on the selected price. *)
Definition pyth_confidence_interval (p : PythPrice) : MarginfiResult I80F48 :=
  let? conf := pyth_price_components_to_i80f48 (from_num (pp_conf p)) (pp_expo p) in
  let? conf_interval := math (checked_mul conf CONF_INTERVAL_MULTIPLE) in
  let? price := pyth_price_components_to_i80f48 (from_num (pp_price p)) (pp_expo p) in
  cap_confidence conf_interval price.

Definition is_time_weighted (t : OraclePriceType) : bool :=
  match t with TimeWeighted => true | RealTime => false end.

(** ** Pyth, legacy accounts *)
Definition load_pyth_price_feed (ai : AccountInfo) : MarginfiResult PriceFeed :=
  let? _ := check (ai_owner ai =? PYTH_ID) InvalidOracleAccount in
  ok_or (account_info_to_feed ai) InvalidOracleAccount.
End Feeds.

Module PythLegacyPriceFeed.
Record PythLegacyPriceFeed := mkFeed { ema_price : PythPrice; price : PythPrice }.
Section Ops.
Context {F : FixedOps} {O : OracleSdk}.

Definition load_checked (ai : AccountInfo) (current_time max_age : Z)
    : MarginfiResult PythLegacyPriceFeed :=
  let? price_feed := load_pyth_price_feed ai in
  let? ema_price := ok_or (get_ema_price_no_older_than price_feed current_time max_age) StaleOracle in
  let? price := ok_or (get_price_no_older_than price_feed current_time max_age) StaleOracle in
  Ok (mkFeed ema_price price).

Definition check_ais (ai : AccountInfo) : MarginfiResult unit :=
  let? _ := load_pyth_price_feed ai in Ok tt.

Definition get_confidence_interval (f : PythLegacyPriceFeed) (use_ema : bool)
    : MarginfiResult I80F48 :=
  pyth_confidence_interval (if use_ema then ema_price f else price f).
Definition get_ema_price (f : PythLegacyPriceFeed) : MarginfiResult I80F48 :=
  pyth_price_components_to_i80f48 (from_num (pp_price (ema_price f))) (pp_expo (ema_price f)).
Definition get_unweighted_price (f : PythLegacyPriceFeed) : MarginfiResult I80F48 :=
  pyth_price_components_to_i80f48 (from_num (pp_price (price f))) (pp_expo (price f)).

Definition get_price_of_type (f : PythLegacyPriceFeed) (price_type : OraclePriceType)
    (bias : option PriceBias) : MarginfiResult I80F48 :=
  let? p := match price_type with
            | TimeWeighted => get_ema_price f
            | RealTime => get_unweighted_price f
            end in
  apply_bias p bias (get_confidence_interval f (is_time_weighted price_type)).
End Ops.
End PythLegacyPriceFeed.

(** [LitePullFeedAccountData] keeps the result of the feed, and for clients the
    hash of the jobs that compute it. *)
Module SwitchboardPullPriceFeed.
Record SwitchboardPullPriceFeed := mkFeed { result : CurrentResult; feed_hash : Z }.
Section Ops.
Context {F : FixedOps} {O : OracleSdk}.

Definition load_checked (ai : AccountInfo) (current_timestamp max_age : Z)
    : MarginfiResult SwitchboardPullPriceFeed :=
  let? _ := check (ai_owner ai =? SWITCHBOARD_PULL_ID) InvalidOracleAccount in
  let? feed := ok_or (pull_feed_parse (ai_data ai)) InvalidOracleAccount in
  let last_updated := pf_last_update_timestamp feed in
  if u64_as_i64 max_age <? i64_saturating_sub current_timestamp last_updated then Err StaleOracle
  else Ok (mkFeed (pf_result feed) (pf_feed_hash feed)).

Definition check_ais (ai : AccountInfo) : MarginfiResult unit :=
  let? _ := check (ai_owner ai =? SWITCHBOARD_PULL_ID) InvalidOracleAccount in
  let? _ := ok_or (pull_feed_parse (ai_data ai)) InvalidOracleAccount in
  Ok tt.

Definition get_price (f : SwitchboardPullPriceFeed) : MarginfiResult I80F48 :=
  let? value := from_i128 (cr_value (result f)) in
  let? scaling_factor := index EXP_10_I80F48 PRECISION in
  math (checked_div value scaling_factor).

(** The standard deviation is not divided by [10^PRECISION], as the price
    is. *)
Definition get_confidence_interval (f : SwitchboardPullPriceFeed) : MarginfiResult I80F48 :=
  let? std_div := from_i128 (cr_std_dev (result f)) in
  let? conf_interval := math (checked_mul std_div STD_DEV_MULTIPLE) in
  let? price := get_price f in
  cap_confidence conf_interval price.

Definition get_price_of_type (f : SwitchboardPullPriceFeed) (_ : OraclePriceType)
    (bias : option PriceBias) : MarginfiResult I80F48 :=
  let? price := get_price f in
  apply_bias price bias (get_confidence_interval f).
End Ops.
End SwitchboardPullPriceFeed.

(** ** Switchboard V2 decimals *)
Section Decimals.
Context {F : FixedOps}.

Definition MAX_SCALE : Z := 20.

(** The division of [i128]s truncates. *)
Definition fit_scale_switchboard_decimal (decimal : SwitchboardDecimal) (scale' : Z)
    : MarginfiResult (option SwitchboardDecimal) :=
  if scale decimal <=? scale' then Ok (Some decimal)
  else
    let scale_diff := scale decimal - scale' in
    let? d := index EXP_10 scale_diff in
    Ok (if d =? 0 then None else Some (mkDecimal (Z.quot (mantissa decimal) d) scale')).

Definition switchboard_decimal_to_i80f48 (decimal : SwitchboardDecimal)
    : MarginfiResult (option I80F48) :=
  let? d := fit_scale_switchboard_decimal decimal MAX_SCALE in
  match d with
  | None => Ok None
  | Some d =>
      let? m := from_i128 (mantissa d) in
      let? s := index EXP_10_I80F48 (scale d) in
      Ok (checked_div m s)
  end.
End Decimals.

(** The feed keeps a [LiteAggregatorAccountData]: the fields of the aggregator
    account recorded above. *)
Module SwitchboardV2PriceFeed.
Record SwitchboardV2PriceFeed := mkFeed { aggregator_account : AggregatorAccountData }.
Section Ops.
Context {F : FixedOps} {O : OracleSdk}.

Definition load_checked (ai : AccountInfo) (current_timestamp max_age : Z)
    : MarginfiResult SwitchboardV2PriceFeed :=
  let? _ := check (ai_owner ai =? SWITCHBOARD_PROGRAM_ID) InvalidOracleAccount in
  let? aggregator := ok_or (aggregator_new_from_bytes (ai_data ai)) InvalidOracleAccount in
  let? _ := check (aggregator_check_staleness (ai_data ai) current_timestamp (u64_as_i64 max_age))
              StaleOracle in
  Ok (mkFeed aggregator).

Definition check_ais (ai : AccountInfo) : MarginfiResult unit :=
  let? _ := check (ai_owner ai =? SWITCHBOARD_PROGRAM_ID) InvalidOracleAccount in
  let? _ := ok_or (aggregator_new_from_bytes (ai_data ai)) InvalidOracleAccount in
  Ok tt.

(** [LiteAggregatorAccountData::get_result] *)
Definition get_result (a : AggregatorAccountData) : MarginfiResult SwitchboardDecimal :=
  match ag_resolution_mode a with
  | ModeSlidingResolution => Ok (ag_result a)
  | ModeRoundResolution =>
      if ag_num_success a <? ag_min_oracle_results a then Err InvalidOracleAccount
      else Ok (ag_result a)
  end.

Definition get_price (f : SwitchboardV2PriceFeed) : MarginfiResult I80F48 :=
  let? sw_decimal := map_err (λ _, InvalidPrice : error) (get_result (aggregator_account f)) in
  let? p := switchboard_decimal_to_i80f48 sw_decimal in
  ok_or p InvalidSwitchboardDecimalConversion.

Definition get_confidence_interval (f : SwitchboardV2PriceFeed) : MarginfiResult I80F48 :=
  let? std_div := switchboard_decimal_to_i80f48 (ag_std_deviation (aggregator_account f)) in
  let? std_div := ok_or std_div InvalidSwitchboardDecimalConversion in
  let? conf_interval := math (checked_mul std_div STD_DEV_MULTIPLE) in
  let? price := get_price f in
  cap_confidence conf_interval price.

Definition get_price_of_type (f : SwitchboardV2PriceFeed) (_ : OraclePriceType)
    (bias : option PriceBias) : MarginfiResult I80F48 :=
  let? price := get_price f in
  apply_bias price bias (get_confidence_interval f).
End Ops.
End SwitchboardV2PriceFeed.

Module PythPushOraclePriceFeed.
Record PythPushOraclePriceFeed := mkFeed { ema_price : PythPrice; price : PythPrice }.
Section Ops.
Context {F : FixedOps} {O : OracleSdk}.

(** [&price_feed_data[0..8]] panics on shorter data. *)
Definition load_price_update_v2_checked (ai : AccountInfo) : MarginfiResult PriceUpdateV2 :=
  let? _ := check (ai_owner ai =? pyth_receiver_id) InvalidOracleAccount in
  let? _ := rust_assert (8 <=? Z.of_nat (length (ai_data ai))) in
  let? _ := check (bool_decide (take 8 (ai_data ai) = price_update_discriminator))
              InvalidOracleAccount in
  ok_or (price_update_deserialize (drop 8 (ai_data ai))) EBorshIo.

Definition load_checked (ai : AccountInfo) (feed_id : Pubkey) (clock : Clock) (max_age : Z)
    : MarginfiResult PythPushOraclePriceFeed :=
  let? price_feed_account := load_price_update_v2_checked ai in
  let? price := map_err (λ e, match e with
                              | PriceTooOld => StaleOracle : error
                              | OtherPriceError => InvalidOracleAccount
                              end)
                  (get_full_price_no_older_than price_feed_account clock max_age feed_id) in
  let m := price_message price_feed_account in
  let ema_price := mkPythPrice (pm_ema_price m) (pm_ema_conf m) (pm_exponent m) in
  Ok (mkFeed ema_price price).

(** [peek_feed_id], compiled for clients. *)
Definition peek_feed_id (ai : AccountInfo) : MarginfiResult Pubkey :=
  let? price_feed_account := load_price_update_v2_checked ai in
  Ok (pm_feed_id (price_message price_feed_account)).

Definition check_ai_and_feed_id (ai : AccountInfo) (feed_id : Pubkey) : MarginfiResult unit :=
  let? price_feed_account := load_price_update_v2_checked ai in
  check (pm_feed_id (price_message price_feed_account) =? feed_id) InvalidOracleAccount.

Definition get_confidence_interval (f : PythPushOraclePriceFeed) (use_ema : bool)
    : MarginfiResult I80F48 :=
  pyth_confidence_interval (if use_ema then ema_price f else price f).
Definition get_ema_price (f : PythPushOraclePriceFeed) : MarginfiResult I80F48 :=
  pyth_price_components_to_i80f48 (from_num (pp_price (ema_price f))) (pp_expo (ema_price f)).
Definition get_unweighted_price (f : PythPushOraclePriceFeed) : MarginfiResult I80F48 :=
  pyth_price_components_to_i80f48 (from_num (pp_price (price f))) (pp_expo (price f)).

Definition get_price_of_type (f : PythPushOraclePriceFeed) (price_type : OraclePriceType)
    (bias : option PriceBias) : MarginfiResult I80F48 :=
  let? p := match price_type with
            | TimeWeighted => get_ema_price f
            | RealTime => get_unweighted_price f
            end in
  apply_bias p bias (get_confidence_interval f (is_time_weighted price_type)).
End Ops.
End PythPushOraclePriceFeed.

Module OraclePriceFeedAdapter.
Inductive OraclePriceFeedAdapter : Type :=
| APythLegacy (f : PythLegacyPriceFeed.PythLegacyPriceFeed)
| ASwitchboardV2 (f : SwitchboardV2PriceFeed.SwitchboardV2PriceFeed)
| APythPushOracle (f : PythPushOraclePriceFeed.PythPushOraclePriceFeed)
| ASwitchboardPull (f : SwitchboardPullPriceFeed.SwitchboardPullPriceFeed).

Section Ops.
Context {F : FixedOps} {O : OracleSdk}.

(** The trait dispatched on the kind of feed. *)
Definition get_price_of_type (a : OraclePriceFeedAdapter) (price_type : OraclePriceType)
    (bias : option PriceBias) : MarginfiResult I80F48 :=
  match a with
  | APythLegacy f => PythLegacyPriceFeed.get_price_of_type f price_type bias
  | ASwitchboardV2 f => SwitchboardV2PriceFeed.get_price_of_type f price_type bias
  | APythPushOracle f => PythPushOraclePriceFeed.get_price_of_type f price_type bias
  | ASwitchboardPull f => SwitchboardPullPriceFeed.get_price_of_type f price_type bias
  end.

(** [ais.len() == 1] and [ais[0]]. *)
Definition single (ais : list AccountInfo) : MarginfiResult AccountInfo :=
  match ais with [ai] => Ok ai | _ => Err InvalidOracleAccount end.
(** [ais[0].key == &bank_config.oracle_keys[0]] *)
Definition check_key (ai : AccountInfo) (c : BankConfig) : MarginfiResult unit :=
  let? key := index (BankConfig.oracle_keys c) 0 in
  check (ai_key ai =? key) InvalidOracleAccount.

Definition try_from_bank_config_with_max_age (c : BankConfig) (ais : list AccountInfo)
    (clock : Clock) (max_age : Z) : MarginfiResult OraclePriceFeedAdapter :=
  match BankConfig.oracle_setup c with
  | OracleNone => Err OracleNotSetup
  | PythLegacy =>
      let? ai := single ais in
      let? _ := check_key ai c in
      let? f := PythLegacyPriceFeed.load_checked ai (unix_timestamp clock) max_age in
      Ok (APythLegacy f)
  | SwitchboardV2 =>
      let? ai := single ais in
      let? _ := check_key ai c in
      let? f := SwitchboardV2PriceFeed.load_checked ai (unix_timestamp clock) max_age in
      Ok (ASwitchboardV2 f)
  | PythPushOracle =>
      let? ai := single ais in
      let? _ := check (ai_owner ai =? pyth_receiver_id) InvalidOracleAccount in
      let? id := BankConfig.get_pyth_push_oracle_feed_id c in
      let? price_feed_id := unwrap id in
      let? f := PythPushOraclePriceFeed.load_checked ai price_feed_id clock max_age in
      Ok (APythPushOracle f)
  | SwitchboardPull =>
      let? ai := single ais in
      let? _ := check_key ai c in
      let? f := SwitchboardPullPriceFeed.load_checked ai (unix_timestamp clock) max_age in
      Ok (ASwitchboardPull f)
  end.

Definition try_from_bank_config (c : BankConfig) (ais : list AccountInfo) (clock : Clock)
    : MarginfiResult OraclePriceFeedAdapter :=
  try_from_bank_config_with_max_age c ais clock (BankConfig.get_oracle_max_age c).

Definition validate_bank_config (c : BankConfig) (oracle_ais : list AccountInfo)
    : MarginfiResult unit :=
  match BankConfig.oracle_setup c with
  | OracleNone => Err OracleNotSetup
  | PythLegacy =>
      let? ai := single oracle_ais in
      let? _ := check_key ai c in
      PythLegacyPriceFeed.check_ais ai
  | SwitchboardV2 =>
      let? ai := single oracle_ais in
      let? _ := check_key ai c in
      SwitchboardV2PriceFeed.check_ais ai
  | PythPushOracle =>
      let? ai := single oracle_ais in
      let? id := BankConfig.get_pyth_push_oracle_feed_id c in
      let? price_feed_id := unwrap id in
      PythPushOraclePriceFeed.check_ai_and_feed_id ai price_feed_id
  | SwitchboardPull =>
      let? ai := single oracle_ais in
      let? _ := check_key ai c in
      SwitchboardPullPriceFeed.check_ais ai
  end.
End Ops.
End OraclePriceFeedAdapter.

(** ** Correctness *)
Section PriceLemmas.
Context {F : FixedOps} {L : FixedLaws F} {O : OracleSdk}.

Lemma mul_sign a b c : 0 < b → checked_mul a b = Some c → (0 ≤ a → c = fmul a b ∧ 0 ≤ c) ∧ (a < 0 → c ≤ 0).
Proof.
  intros Hb H. split; intros Ha.
  - apply mul_some in H as [-> _]; [|lia..]. split; [done|apply fmul_nonneg; lia].
  - apply mul_err in H as [H _]. pose proof SCALE_pos. nia.
Qed.

(** The interval is never negative and at most 5% of the price. *)
Lemma cap_confidence_ok conf price ci :
  cap_confidence conf price = Ok ci →
  0 ≤ ci ∧ ci ≤ conf ∧ (0 ≤ price → ci ≤ fmul price MAX_CONF_INTERVAL) ∧ (price < 0 → ci = 0).
Proof.
  unfold cap_confidence, ZERO. intros H. inv_res. bool_prop.
  destruct (mul_sign price MAX_CONF_INTERVAL v ltac:(done) E) as [Hp Hn].
  split_and!; [lia..|intros Hpos; destruct (Hp Hpos) as [-> _]; lia|lia].
Qed.

Lemma apply_bias_spec p ci bias r :
  apply_bias p bias ci = Ok r →
  match bias with
  | None => r = p
  | Some Low => ∃ i, ci = Ok i ∧ r = p - i
  | Some High => ∃ i, ci = Ok i ∧ r = p + i
  end.
Proof.
  destruct bias as [[]|]; simpl; intros H; inv_res; [| |done].
  - apply sub_some in H as [-> _]. by eexists.
  - apply add_some in H as [-> _]. by eexists.
Qed.

Lemma five_percent p : 0 ≤ p → fmul p MAX_CONF_INTERVAL ≤ p.
Proof. intros. apply fmul_le_l; [done|]. split; vm_compute; discriminate. Qed.

(** What every kind of feed does: it picks a price [p] for the type and
    biases it by an interval capped by [cap_confidence]. *)
Lemma get_price_of_type_shape a t :
  ∃ (mp mci : MarginfiResult I80F48),
    (∀ bias, OraclePriceFeedAdapter.get_price_of_type a t bias =
             let? p := mp in apply_bias p bias mci) ∧
    (∀ p ci, mp = Ok p → mci = Ok ci → ∃ conf, cap_confidence conf p = Ok ci).
Proof.
  destruct a as [f|f|f|f]; simpl.
  - eexists (match t with TimeWeighted => _ | RealTime => _ end), _.
    split; [intros bias; destruct t; reflexivity|].
    intros p ci Hp Hci. unfold PythLegacyPriceFeed.get_confidence_interval,
      pyth_confidence_interval in Hci.
    destruct t; inv_res; unfold PythLegacyPriceFeed.get_ema_price,
      PythLegacyPriceFeed.get_unweighted_price in *; simpl in *; det_ok; eauto.
  - eexists _, _. split; [reflexivity|]. intros p ci Hp Hci.
    unfold SwitchboardV2PriceFeed.get_confidence_interval in Hci. inv_res. simpl in *. det_ok. eauto.
  - eexists (match t with TimeWeighted => _ | RealTime => _ end), _.
    split; [intros bias; destruct t; reflexivity|].
    intros p ci Hp Hci. unfold PythPushOraclePriceFeed.get_confidence_interval,
      pyth_confidence_interval in Hci.
    destruct t; inv_res; unfold PythPushOraclePriceFeed.get_ema_price,
      PythPushOraclePriceFeed.get_unweighted_price in *; simpl in *; det_ok; eauto.
  - eexists _, _. split; [reflexivity|]. intros p ci Hp Hci.
    unfold SwitchboardPullPriceFeed.get_confidence_interval in Hci. inv_res. simpl in *. det_ok. eauto.
Qed.

(** For every kind of feed, the low-biased price is at most
    the price and the high-biased price at least it, by the same margin; the
    margin is at most 5% of the price, so a non-negative price stays
    non-negative under the low bias. *)
Theorem price_bias_bounds a t p l h :
  OraclePriceFeedAdapter.get_price_of_type a t None = Ok p →
  OraclePriceFeedAdapter.get_price_of_type a t (Some Low) = Ok l →
  OraclePriceFeedAdapter.get_price_of_type a t (Some High) = Ok h →
  l ≤ p ≤ h ∧ p - l = h - p ∧
  (0 ≤ p → 0 ≤ l ∧ h - p ≤ fmul p MAX_CONF_INTERVAL) ∧
  (p < 0 → l = p).
Proof.
  destruct (get_price_of_type_shape a t) as (mp & mci & Heq & Hcap).
  rewrite !Heq. intros Hp Hl Hh.
  apply bind_ok in Hp as (p' & Hmp & Hp). apply apply_bias_spec in Hp as ->.
  rewrite Hmp in Hl, Hh. simpl in Hl, Hh.
  apply (apply_bias_spec _ _ (Some Low)) in Hl as (i & Hi & ->).
  apply (apply_bias_spec _ _ (Some High)) in Hh as (i' & Hi' & ->).
  assert (i' = i) as -> by congruence.
  destruct (Hcap _ _ Hmp Hi) as (conf & Hc).
  apply cap_confidence_ok in Hc as (H0 & _ & Hpos & Hneg).
  split_and!; [lia..| |lia].
  intros Hge. pose proof (five_percent p' Hge). specialize (Hpos Hge). lia.
Qed.

(** Scaling a pyth price by its exponent multiplies by
    [10^exponent] exactly when the exponent is not negative; for a negative
    exponent the result is the exact quotient rounded to within one unit of
    2^-48; an exponent beyond 23 in absolute value panics. *)
Theorem pyth_price_scaling n e :
  0 ≤ n →
  (23 < Z.abs e → pyth_price_components_to_i80f48 (from_num n) e = Panic) ∧
  (∀ p, pyth_price_components_to_i80f48 (from_num n) e = Ok p →
     Z.abs e ≤ 23 ∧ 0 ≤ p ∧
     (0 ≤ e → p = from_num (n * 10 ^ e)) ∧
     (e < 0 → p * 10 ^ (- e) ≤ from_num n < (p + 1) * 10 ^ (- e))).
Proof.
  intros Hn. assert (Hnn : 0 ≤ from_num n) by (unfold from_num; pose proof SCALE_pos; nia). split.
  - intros He. unfold pyth_price_components_to_i80f48.
    destruct (index EXP_10_I80F48 (Z.abs e)) as [v|er|] eqn:E; [|exfalso|done].
    + apply EXP_10_I80F48_lookup in E. lia.
    + unfold index in E. case_decide; [|done]. by destruct (_ !! _).
  - intros p H. unfold pyth_price_components_to_i80f48 in H. inv_res.
    apply EXP_10_I80F48_lookup in E as [Hr ->].
    pose proof (exp10_SCALE_pos (Z.abs e) ltac:(lia)) as Hpos.
    pose proof SCALE_pos. split; [lia|].
    destruct (e =? 0) eqn:E0; bool_prop; inv_res.
    { split_and!; [done| |lia]. intros _. by rewrite Z.pow_0_r, Z.mul_1_r. }
    destruct (e <? 0) eqn:E1; bool_prop; inv_res.
    + apply div_some in H as (_ & -> & _); [|lia..]. split_and!; [by apply fdiv_nonneg|lia|].
      intros _. replace (Z.abs e) with (- e) by lia.
      pose proof (Z.pow_pos_nonneg 10 (- e)).
      assert (fdiv (from_num n) (from_num (10 ^ (- e))) = from_num n / 10 ^ (- e)) as ->.
      { unfold fdiv. unfold from_num at 2. by rewrite Z.div_mul_cancel_r by lia. }
      pose proof (div_bounds (from_num n) (10 ^ (- e)) ltac:(lia)). lia.
    + apply mul_some in H as [-> _]; [|lia..]. split_and!; [apply fmul_nonneg; lia| |lia].
      intros _. rewrite Z.abs_eq by lia. unfold fmul, from_num.
      replace (n * SCALE * (10 ^ e * SCALE)) with (n * 10 ^ e * SCALE * SCALE) by lia.
      by rewrite Z.div_mul by lia.
Qed.

(** Bringing a Switchboard decimal to a smaller scale gives a
    decimal of at most that scale whose value differs from the original by
    less than one unit of the new scale and never exceeds it in magnitude; a
    decimal already at the scale is returned unchanged. *)
Theorem fit_scale_bounds d s r :
  0 ≤ s → fit_scale_switchboard_decimal d s = Ok (Some r) →
  scale r ≤ s ∧ (scale d ≤ s → r = d) ∧
  (s < scale d →
     let u := 10 ^ (scale d - s) in
     Z.abs (mantissa r * u - mantissa d) < u ∧ Z.abs (mantissa r) * u ≤ Z.abs (mantissa d)).
Proof.
  intros Hs H. unfold fit_scale_switchboard_decimal in H.
  destruct (_ <=? _) eqn:E; bool_prop; inv_res; [split_and!; [done|done|lia]|].
  apply EXP_10_lookup in E0 as [Hr ->].
  destruct (_ =? 0) eqn:E0; bool_prop; [done|]. injection H as <-. simpl.
  split_and!; [done|lia|]. intros _.
  set (u := 10 ^ (scale d - s)) in *.
  assert (0 < u) by (apply Z.pow_pos_nonneg; lia).
  pose proof (Z.quot_rem' (mantissa d) u). pose proof (Z.rem_bound_abs (mantissa d) u ltac:(lia)).
  split; [lia|]. rewrite Z.quot_div by lia.
  pose proof (div_bounds (Z.abs (mantissa d)) (Z.abs u) ltac:(lia)).
  rewrite (Z.sgn_pos u), Z.mul_1_r by done. rewrite (Z.abs_eq u) in * by lia.
  rewrite Z.abs_mul. destruct (Z.sgn_spec (mantissa d)) as [[? ->]|[[? ->]|[? ->]]]; simpl.
  - pose proof (Z.div_pos (Z.abs (mantissa d)) u). rewrite Z.abs_eq by lia. lia.
  - lia.
  - pose proof (Z.div_pos (Z.abs (mantissa d)) u).
    rewrite (Z.abs_eq (_ / _)) by lia. destruct (_ / _); lia.
Qed.

Ltac feed_loaded :=
  bool_prop;
  match goal with H : index _ 0 = Ok _ |- _ => apply index_ok in H as [_ H] end;
  do 2 eexists; split_and!; eauto.

(** A price feed is only built from the single account handed in,
    and only if that account is the bank's configured oracle: it is owned by
    the oracle program of the configured kind, its address is the configured
    one (or, for push oracles, its feed id is), and it is fresh.  Every
    account a feed loads from also passes the validation of the bank's oracle
    configuration. *)
Theorem feed_checks {OL : OracleLaws O} c ais clock max_age a :
  OraclePriceFeedAdapter.try_from_bank_config_with_max_age c ais clock max_age = Ok a →
  OraclePriceFeedAdapter.validate_bank_config c ais = Ok tt ∧
  ∃ ai key, ais = [ai] ∧ BankConfig.oracle_keys c !! 0%nat = Some key ∧
    match BankConfig.oracle_setup c, a with
    | PythLegacy, OraclePriceFeedAdapter.APythLegacy f =>
        ai_owner ai = PYTH_ID ∧ ai_key ai = key ∧
        ∃ feed, account_info_to_feed ai = Some feed ∧
          get_ema_price_no_older_than feed (unix_timestamp clock) max_age
            = Some (PythLegacyPriceFeed.ema_price f) ∧
          get_price_no_older_than feed (unix_timestamp clock) max_age
            = Some (PythLegacyPriceFeed.price f)
    | SwitchboardV2, OraclePriceFeedAdapter.ASwitchboardV2 f =>
        ai_owner ai = SWITCHBOARD_PROGRAM_ID ∧ ai_key ai = key ∧
        aggregator_check_staleness (ai_data ai) (unix_timestamp clock) (u64_as_i64 max_age) = true
    | PythPushOracle, OraclePriceFeedAdapter.APythPushOracle f =>
        ai_owner ai = pyth_receiver_id ∧
        ∃ pu, price_update_deserialize (drop 8 (ai_data ai)) = Some pu ∧
          pm_feed_id (price_message pu) = key ∧
          get_full_price_no_older_than pu clock max_age key
            = Ok (PythPushOraclePriceFeed.price f)
    | SwitchboardPull, OraclePriceFeedAdapter.ASwitchboardPull f =>
        ai_owner ai = SWITCHBOARD_PULL_ID ∧ ai_key ai = key ∧
        ∃ feed, pull_feed_parse (ai_data ai) = Some feed ∧
          SwitchboardPullPriceFeed.result f = pf_result feed ∧
          i64_saturating_sub (unix_timestamp clock) (pf_last_update_timestamp feed)
            ≤ u64_as_i64 max_age
    | _, _ => False
    end.
Proof.
  unfold OraclePriceFeedAdapter.try_from_bank_config_with_max_age,
    OraclePriceFeedAdapter.validate_bank_config, BankConfig.get_pyth_push_oracle_feed_id.
  destruct (BankConfig.oracle_setup c) eqn:Es; intros H; [done|..];
    apply bind_ok in H as (ai & Hai & H);
    unfold OraclePriceFeedAdapter.single in Hai;
    (destruct ais as [|ai0 [|]]; [done| |done]); injection Hai as ->; simpl.
  - unfold OraclePriceFeedAdapter.check_key, PythLegacyPriceFeed.load_checked,
      PythLegacyPriceFeed.check_ais, load_pyth_price_feed in *.
    inv_res. replay. split; [done|]. feed_loaded.
  - unfold OraclePriceFeedAdapter.check_key, SwitchboardV2PriceFeed.load_checked,
      SwitchboardV2PriceFeed.check_ais in *.
    inv_res. replay. split; [done|]. feed_loaded.
  - unfold PythPushOraclePriceFeed.load_checked, PythPushOraclePriceFeed.check_ai_and_feed_id in *.
    apply bind_ok in H as (u & Hown & H). apply check_ok in Hown.
    apply bind_ok in H as (id & Hid & H). apply bind_ok in Hid as (key & Hkey & Hid).
    injection Hid as <-. simpl in H. apply bind_ok in H as (f & Hf & H). injection H as <-.
    apply bind_ok in Hf as (pu & Hpu & Hf). apply bind_ok in Hf as (p & Hp & Hf).
    apply map_err_ok in Hp. injection Hf as <-.
    rewrite Hkey. simpl. rewrite Hpu. simpl.
    pose proof (full_price_feed_id _ _ _ _ _ Hp) as Hfid. rewrite Hfid, Z.eqb_refl.
    split; [done|]. unfold PythPushOraclePriceFeed.load_price_update_v2_checked in Hpu.
    inv_res. feed_loaded.
  - unfold OraclePriceFeedAdapter.check_key, SwitchboardPullPriceFeed.load_checked,
      SwitchboardPullPriceFeed.check_ais in *.
    inv_res. destruct (_ <? _) eqn:Hst; inv_res.
    replay. split; [done|]. feed_loaded.
Qed.

(** The confidence interval of a Switchboard pull feed
    takes the reported standard deviation as a whole number although the price
    is divided by [10^18]: as soon as the deviation is positive, the interval
    of any price below 39 times that whole number is the 5% cap. *)
Theorem pull_interval_unscaled {OL : OracleLaws O} f ci :
  let v := cr_value (SwitchboardPullPriceFeed.result f) in
  let sd := cr_std_dev (SwitchboardPullPriceFeed.result f) in
  0 < sd → 0 ≤ v ≤ 39 * sd * 10 ^ 18 →
  SwitchboardPullPriceFeed.get_confidence_interval f = Ok ci →
  ∃ p, SwitchboardPullPriceFeed.get_price f = Ok p ∧ p = from_num v / 10 ^ 18 ∧
    ci = fmul p MAX_CONF_INTERVAL.
Proof.
  intros v sd Hsd Hv H. unfold SwitchboardPullPriceFeed.get_confidence_interval in H. inv_res.
  exists v2. split; [done|]. unfold SwitchboardPullPriceFeed.get_price in E1. inv_res.
  rewrite precision_18 in E3. apply EXP_10_I80F48_lookup in E3 as [_ ->].
  apply from_i128_ok in E as ->. apply from_i128_ok in E2 as ->. fold v in E1. fold sd in E0.
  pose proof SCALE_pos.
  apply div_some in E1 as (_ & -> & _); [|unfold from_num; nia..].
  assert (fdiv (from_num v) (from_num (10 ^ 18)) = from_num v / 10 ^ 18) as Hp.
  { unfold fdiv. unfold from_num at 2. by rewrite Z.div_mul_cancel_r by lia. }
  change (v * SCALE) with (from_num v) in *. rewrite Hp in *. split; [done|].
  assert (0 ≤ from_num v / 10 ^ 18 ≤ 39 * sd * SCALE) as Hb.
  { unfold from_num. split; [apply Z.div_pos; nia|]. apply Z.div_le_upper_bound; nia. }
  apply mul_some in E0 as [-> _]; [|unfold from_num; nia|done].
  unfold cap_confidence in H. inv_res.
  apply mul_some in E as [-> _]; [|lia|done].
  apply Z.min_r. apply Z.le_trans with (fmul (39 * sd * SCALE) MAX_CONF_INTERVAL).
  - apply fmul_mono; [done|]. vm_compute; done.
  - unfold fmul. replace (39 * sd * SCALE * MAX_CONF_INTERVAL) with (39 * sd * MAX_CONF_INTERVAL * SCALE) by lia.
    replace (sd * SCALE * STD_DEV_MULTIPLE) with (sd * STD_DEV_MULTIPLE * SCALE) by lia.
    rewrite !Z.div_mul by done.
    change MAX_CONF_INTERVAL with 14073748835533. change STD_DEV_MULTIPLE with 551690954352886. lia.
Qed.
End PriceLemmas.

(** ** Examples *)
(** Oracle SDKs whose account data are the fields in order. *)
Definition demo_oracle_sdk : OracleSdk := {|
  PriceFeed := list Z;
  account_info_to_feed ai := match ai_data ai with [_; _; _; _; _; _] => Some (ai_data ai) | _ => None end;
  get_price_no_older_than f now age :=
    match f with
    | [p; c; e; _; _; t] => if now - t <=? age then Some (mkPythPrice p c e) else None
    | _ => None
    end;
  get_ema_price_no_older_than f now age :=
    match f with
    | [_; _; e; p; c; t] => if now - t <=? age then Some (mkPythPrice p c e) else None
    | _ => None
    end;
  PriceUpdateV2 := list Z;
  pyth_receiver_id := 301;
  price_update_discriminator := [1; 2; 3; 4; 5; 6; 7; 8];
  price_update_deserialize d := match d with [_; _; _; _; _; _; _] => Some d | _ => None end;
  price_message d := match d with
                     | [id; _; _; e; ep; ec; _] => mkPriceFeedMessage id e ep ec
                     | _ => mkPriceFeedMessage 0 0 0 0
                     end;
  get_full_price_no_older_than d clock age id :=
    match d with
    | [id'; p; c; e; _; _; t] =>
        if negb (id' =? id) then Err OtherPriceError
        else if unix_timestamp clock - t <=? age then Ok (mkPythPrice p c e) else Err PriceTooOld
    | _ => Err OtherPriceError
    end;
  PRECISION := 18;
  pull_feed_parse d :=
    match d with [v; s; t] => Some (mkPullFeed (mkCurrentResult v s) t 0) | _ => None end;
  SWITCHBOARD_PROGRAM_ID := 302;
  aggregator_new_from_bytes d :=
    match d with
    | [m; s; n; sm; ss; min; _] =>
        Some (mkAggregator ModeRoundResolution (mkDecimal m s) n (mkDecimal sm ss) min)
    | _ => None
    end;
  aggregator_check_staleness d now age :=
    match d with [_; _; _; _; _; _; t] => now - t <=? age | _ => false end
|}.

Definition demo_push_oracles : PushOracles := {| find_oracle_address shard feed_id := shard + feed_id |}.

#[export] Instance demo_oracle_laws : OracleLaws demo_oracle_sdk.
Proof.
  split; [done|]. intros pu clock age id p. simpl.
  repeat (destruct pu as [|? pu]; [done|]). destruct pu; [|done].
  destruct (_ =? _) eqn:E; simpl; [|done]. bool_prop. intros _. done.
Qed.

#[local] Existing Instance demo_oracle_sdk.

(** A legacy pyth feed quoting 1.00 +- 0.01 USD. *)
Definition demo_pyth_ai : AccountInfo := mkAccountInfo 900 PYTH_ID [100; 1; -2; 100; 1; 0].
Definition demo_clock : Clock := mkClock 30 0.
Definition demo_feed : PythLegacyPriceFeed.PythLegacyPriceFeed :=
  PythLegacyPriceFeed.mkFeed (mkPythPrice 100 1 (-2)) (mkPythPrice 100 1 (-2)).

Definition demo_price (bias : option PriceBias) : I80F48 :=
  ok_value 0 (OraclePriceFeedAdapter.get_price_of_type
                (OraclePriceFeedAdapter.APythLegacy demo_feed) RealTime bias).

Lemma price_bias_bounds_witness :
  let p := demo_price None in let l := demo_price (Some Low) in let h := demo_price (Some High) in
  l ≤ p ≤ h ∧ p - l = h - p ∧
  (0 ≤ p → 0 ≤ l ∧ h - p ≤ fmul p MAX_CONF_INTERVAL) ∧ (p < 0 → l = p).
Proof.
  intros p l h.
  apply (price_bias_bounds (F := i80f48) (OraclePriceFeedAdapter.APythLegacy demo_feed) RealTime);
    vm_compute; reflexivity.
Defined.

Lemma pyth_price_scaling_witness :
  let p := ok_value 0 (pyth_price_components_to_i80f48 (from_num 1234) (-2)) in
  Z.abs (-2) ≤ 23 ∧ 0 ≤ p ∧ (0 ≤ -2 → p = from_num (1234 * 10 ^ (-2))) ∧
  (-2 < 0 → p * 10 ^ (- -2) ≤ from_num 1234 < (p + 1) * 10 ^ (- -2)).
Proof.
  intros p. apply (proj2 (pyth_price_scaling (F := i80f48) 1234 (-2) ltac:(lia)) p).
  vm_compute. reflexivity.
Defined.

Lemma fit_scale_bounds_witness :
  let d := mkDecimal (-12345) 22 in
  let r := mkDecimal (-123) 20 in
  scale r ≤ 20 ∧ (scale d ≤ 20 → r = d) ∧
  (20 < scale d →
     let u := 10 ^ (scale d - 20) in
     Z.abs (mantissa r * u - mantissa d) < u ∧ Z.abs (mantissa r) * u ≤ Z.abs (mantissa d)).
Proof.
  intros d r. apply (fit_scale_bounds d 20 r); [lia|]. vm_compute. reflexivity.
Defined.

Lemma feed_checks_witness :
  OraclePriceFeedAdapter.validate_bank_config (O := demo_oracle_sdk) Bank.demo_config [demo_pyth_ai]
    = Ok tt ∧
  ∃ ai key, [demo_pyth_ai] = [ai] ∧
    BankConfig.oracle_keys Bank.demo_config !! 0%nat = Some key ∧
    ai_owner ai = PYTH_ID ∧ ai_key ai = key ∧
    ∃ feed, account_info_to_feed (OracleSdk := demo_oracle_sdk) ai = Some feed ∧
      get_ema_price_no_older_than feed 30 60 = Some (PythLegacyPriceFeed.ema_price demo_feed) ∧
      get_price_no_older_than feed 30 60 = Some (PythLegacyPriceFeed.price demo_feed).
Proof.
  apply (feed_checks (O := demo_oracle_sdk) Bank.demo_config [demo_pyth_ai] demo_clock 60
           (OraclePriceFeedAdapter.APythLegacy demo_feed)).
  vm_compute. reflexivity.
Defined.

(** 30 USD with a deviation of 10^-18: the interval is 1.50 USD. *)
Lemma pull_interval_unscaled_witness :
  let f := SwitchboardPullPriceFeed.mkFeed (mkCurrentResult (30 * 10 ^ 18) 1) 0 in
  let ci := ok_value 0 (SwitchboardPullPriceFeed.get_confidence_interval (O := demo_oracle_sdk) f) in
  ∃ p, SwitchboardPullPriceFeed.get_price (O := demo_oracle_sdk) f = Ok p ∧
    p = from_num (30 * 10 ^ 18) / 10 ^ 18 ∧ ci = fmul p MAX_CONF_INTERVAL.
Proof.
  intros f ci. apply (pull_interval_unscaled (F := i80f48) (O := demo_oracle_sdk) f ci).
  - reflexivity.
  - vm_compute. split; discriminate.
  - vm_compute. reflexivity.
Defined.
