(* ===== verification/Account.v ===== *)
(** * The marginfi account

    [MarginfiAccount], [LendingAccount] and [Balance]
    ([state/marginfi_account.rs]): a user's account of one group, with sixteen
    slots, each the user's position in one bank.  Padding is not modelled. *)
From S2P Require Import Prelude Errors Fixed Constants Utils.

Module Balance.
Record Balance := mkBalance {
  active : bool;
  bank_pk : Pubkey;
  asset_shares : I80F48;
  liability_shares : I80F48;
  emissions_outstanding : I80F48;
  last_update : Z    (* u64 *)
}.

Definition with_asset_shares (v : I80F48) (b : Balance) : Balance :=
  mkBalance (active b) (bank_pk b) v (liability_shares b) (emissions_outstanding b) (last_update b).
Definition with_liability_shares (v : I80F48) (b : Balance) : Balance :=
  mkBalance (active b) (bank_pk b) (asset_shares b) v (emissions_outstanding b) (last_update b).
Definition with_emissions_outstanding (v : I80F48) (b : Balance) : Balance :=
  mkBalance (active b) (bank_pk b) (asset_shares b) (liability_shares b) v (last_update b).
Definition with_last_update (v : Z) (b : Balance) : Balance :=
  mkBalance (active b) (bank_pk b) (asset_shares b) (liability_shares b) (emissions_outstanding b) v.

Definition is_empty (b : Balance) (side : BalanceSide) : bool :=
  let shares := match side with
                | Assets => asset_shares b
                | Liabilities => liability_shares b
                end in
  shares <? EMPTY_BALANCE_THRESHOLD.

Definition empty_deactivated : Balance := mkBalance false default_pubkey ZERO ZERO ZERO 0.

(** The slot [find_or_create] opens. *)
Definition opened (bank_pk : Pubkey) (now : Z) : Balance := mkBalance true bank_pk ZERO ZERO ZERO now.

Section Ops.
Context {F : FixedOps}.

Definition change_asset_shares (b : Balance) (delta : I80F48) : MarginfiResult Balance :=
  let? v := math (checked_add (asset_shares b) delta) in Ok (with_asset_shares v b).
Definition change_liability_shares (b : Balance) (delta : I80F48) : MarginfiResult Balance :=
  let? v := math (checked_add (liability_shares b) delta) in Ok (with_liability_shares v b).

Context {L : FixedLaws F}.
Lemma balance_assets_changed b d b' :
  change_asset_shares b d = Ok b' → b' = with_asset_shares (asset_shares b + d) b.
Proof. unfold change_asset_shares. intros H. inv_res. by apply add_some in E as [-> _]. Qed.
Lemma balance_liabs_changed b d b' :
  change_liability_shares b d = Ok b' → b' = with_liability_shares (liability_shares b + d) b.
Proof. unfold change_liability_shares. intros H. inv_res. by apply add_some in E as [-> _]. Qed.
End Ops.

Definition close (b : Balance) : MarginfiResult Balance :=
  let? _ := check (emissions_outstanding b <? ONE) CannotCloseOutstandingEmissions in
  Ok empty_deactivated.

Definition get_side (b : Balance) : MarginfiResult (option BalanceSide) :=
  let? _ := rust_assert ((asset_shares b <? EMPTY_BALANCE_THRESHOLD)
                         || (liability_shares b <? EMPTY_BALANCE_THRESHOLD)) in
  if EMPTY_BALANCE_THRESHOLD <=? liability_shares b then Ok (Some Liabilities)
  else if EMPTY_BALANCE_THRESHOLD <=? asset_shares b then Ok (Some Assets)
  else Ok None.

(** A position is on at most one side, and counts nothing negative. *)
Record wf (b : Balance) : Prop := {
  wf_assets : 0 ≤ asset_shares b;
  wf_liabs : 0 ≤ liability_shares b;
  wf_emissions : 0 ≤ emissions_outstanding b;
  wf_one_side : asset_shares b < EMPTY_BALANCE_THRESHOLD ∨ liability_shares b < EMPTY_BALANCE_THRESHOLD
}.

Lemma empty_wf : wf empty_deactivated.
Proof. split; simpl; try done. by left. Qed.
Lemma opened_wf k now : wf (opened k now).
Proof. split; simpl; try done. by left. Qed.

Lemma get_side_spec b :
  wf b →
  get_side b = Ok (if EMPTY_BALANCE_THRESHOLD <=? liability_shares b then Some Liabilities
                   else if EMPTY_BALANCE_THRESHOLD <=? asset_shares b then Some Assets else None).
Proof.
  intros [_ _ _ Hs]. unfold get_side.
  assert ((asset_shares b <? EMPTY_BALANCE_THRESHOLD)
          || (liability_shares b <? EMPTY_BALANCE_THRESHOLD) = true) as ->.
  { apply orb_true_iff. rewrite !Z.ltb_lt. done. }
  simpl. by repeat case_match.
Qed.

Lemma get_side_ok b s :
  get_side b = Ok s →
  match s with
  | Some Liabilities => EMPTY_BALANCE_THRESHOLD ≤ liability_shares b ∧
                        asset_shares b < EMPTY_BALANCE_THRESHOLD
  | Some Assets => EMPTY_BALANCE_THRESHOLD ≤ asset_shares b ∧
                   liability_shares b < EMPTY_BALANCE_THRESHOLD
  | None => asset_shares b < EMPTY_BALANCE_THRESHOLD ∧
            liability_shares b < EMPTY_BALANCE_THRESHOLD
  end.
Proof.
  unfold get_side. intros H. apply bind_ok in H as (u & Ha & H).
  apply rust_assert_ok in Ha. apply orb_true_iff in Ha. rewrite !Z.ltb_lt in Ha.
  destruct (_ <=? liability_shares b) eqn:E1; bool_prop; [injection H as <-; lia|].
  destruct (_ <=? asset_shares b) eqn:E2; bool_prop; injection H as <-; lia.
Qed.
End Balance.
Notation Balance := Balance.Balance (only parsing).

Definition MAX_LENDING_ACCOUNT_BALANCES : nat := 16.

Module LendingAccount.
(** [LendingAccount.balances : [Balance; 16]] *)
Notation LendingAccount := (list Balance).

Definition get_first_empty_balance (l : LendingAccount) : option nat :=
  position (λ b, negb (Balance.active b)) l.

(** [balance.active && balance.bank_pk.eq(bank_pk)] *)
Definition is_position (bank_pk : Pubkey) (b : Balance) : bool :=
  Balance.active b && (Balance.bank_pk b =? bank_pk).

Definition zeroed : LendingAccount :=
  replicate MAX_LENDING_ACCOUNT_BALANCES Balance.empty_deactivated.

Definition active_balances (l : LendingAccount) : list Balance :=
  filter (λ b, Balance.active b = true) l.

(** Every position is well formed and no bank has two. *)
Record wf (l : LendingAccount) : Prop := {
  wf_length : length l = MAX_LENDING_ACCOUNT_BALANCES;
  wf_balances : ∀ i b, l !! i = Some b → Balance.wf b;
  wf_unique : ∀ i j b b', l !! i = Some b → l !! j = Some b' →
    Balance.active b = true → Balance.active b' = true →
    Balance.bank_pk b = Balance.bank_pk b' → i = j
}.

Lemma zeroed_wf : wf zeroed.
Proof.
  split; [done| |].
  - intros i b [-> _]%lookup_replicate. apply Balance.empty_wf.
  - intros i j b b' [-> _]%lookup_replicate. done.
Qed.

(** Writing back a position of the same bank, or an inactive slot, keeps the
    account well formed. *)
Lemma wf_insert l i b b' :
  wf l → l !! i = Some b → Balance.wf b' →
  (Balance.active b' = true →
     ∀ j c, l !! j = Some c → Balance.active c = true →
            Balance.bank_pk c = Balance.bank_pk b' → j = i) →
  wf (<[i := b']> l).
Proof.
  intros [Hlen Hwf Hu] Hi Hb' Huniq. split.
  - by rewrite length_insert.
  - intros j c Hj. apply list_lookup_insert_Some in Hj as [(-> & <- & _)|(_ & Hj)]; eauto.
  - intros j k c c' Hj Hk Hac Hac' Heq.
    apply list_lookup_insert_Some in Hj as [(-> & <- & _)|(Hne & Hj)];
      apply list_lookup_insert_Some in Hk as [(-> & <- & _)|(Hne' & Hk)]; eauto.
    symmetry. eauto.
Qed.
End LendingAccount.
Notation LendingAccount := (list Balance) (only parsing).

Definition DISABLED_FLAG : Z := Z.shiftl 1 0.
Definition IN_FLASHLOAN_FLAG : Z := Z.shiftl 1 1.
Definition FLASHLOAN_ENABLED_FLAG : Z := Z.shiftl 1 2.
Definition TRANSFER_AUTHORITY_ALLOWED_FLAG : Z := Z.shiftl 1 3.

Module MarginfiAccount.
Record MarginfiAccount := mkMarginfiAccount {
  group : Pubkey;
  authority : Pubkey;
  lending_account : LendingAccount;
  account_flags : Z    (* u64 *)
}.

Definition with_lending_account (l : LendingAccount) (a : MarginfiAccount) : MarginfiAccount :=
  mkMarginfiAccount (group a) (authority a) l (account_flags a).
Definition with_account_flags (f : Z) (a : MarginfiAccount) : MarginfiAccount :=
  mkMarginfiAccount (group a) (authority a) (lending_account a) f.
Definition with_authority (k : Pubkey) (a : MarginfiAccount) : MarginfiAccount :=
  mkMarginfiAccount (group a) k (lending_account a) (account_flags a).

(** The zeroed account Anchor allocates for [init]. *)
Definition zeroed : MarginfiAccount := mkMarginfiAccount 0 0 LendingAccount.zeroed 0.

Definition initialize (a : MarginfiAccount) (group authority : Pubkey) : MarginfiAccount :=
  mkMarginfiAccount group authority (lending_account a) (account_flags a).

Definition get_remaining_accounts_len (a : MarginfiAccount) : Z :=
  Z.of_nat (length (LendingAccount.active_balances (lending_account a))) * 2.

Definition set_flag (a : MarginfiAccount) (flag : Z) : MarginfiAccount :=
  with_account_flags (Z.lor (account_flags a) flag) a.
Definition unset_flag (a : MarginfiAccount) (flag : Z) : MarginfiAccount :=
  with_account_flags (Z.land (account_flags a) (u64_not flag)) a.
Definition get_flag (a : MarginfiAccount) (flag : Z) : bool :=
  negb (Z.land (account_flags a) flag =? 0).

Definition set_new_account_authority_checked (a : MarginfiAccount) (new_authority : Pubkey)
    : MarginfiResult MarginfiAccount :=
  if negb (get_flag a TRANSFER_AUTHORITY_ALLOWED_FLAG) || get_flag a DISABLED_FLAG then
    Err IllegalAccountAuthorityTransfer
  else Ok (unset_flag (with_authority new_authority a) TRANSFER_AUTHORITY_ALLOWED_FLAG).

(** [balances.iter().all(|b| b.get_side().is_none())] stops at the first
    position that has a side. *)
Fixpoint all_sides_none (l : list Balance) : MarginfiResult bool :=
  match l with
  | [] => Ok true
  | b :: l' =>
      let? s := Balance.get_side b in
      match s with None => all_sides_none l' | Some _ => Ok false end
  end.

Definition can_be_closed (a : MarginfiAccount) : MarginfiResult bool :=
  let is_disabled := get_flag a DISABLED_FLAG in
  let? only_has_empty_balances := all_sides_none (lending_account a) in
  Ok (negb is_disabled && only_has_empty_balances).

(** ** Flags *)
(** The bits the four flags stand for. *)
Definition bit_of (flag : Z) : Z := Z.log2 flag.

Lemma land_pow2_0 f n : 0 ≤ n → (Z.land f (2 ^ n) =? 0) = negb (Z.testbit f n).
Proof.
  intros Hn. apply eq_bool_prop_intro. rewrite Is_true_true, Z.eqb_eq.
  rewrite Is_true_true, negb_true_iff. split.
  - intros H. assert (Z.testbit (Z.land f (2 ^ n)) n = false) as Hb by (by rewrite H, Z.bits_0).
    rewrite Z.land_spec, Z.pow2_bits_true, andb_true_r in Hb by done. done.
  - intros H. apply Z.bits_inj'. intros i Hi. rewrite Z.land_spec, Z.bits_0.
    destruct (decide (i = n)) as [->|]; [by rewrite H|].
    rewrite Z.pow2_bits_false by done. apply andb_false_r.
Qed.

Lemma get_flag_testbit a n : 0 ≤ n → get_flag a (2 ^ n) = Z.testbit (account_flags a) n.
Proof. intros. unfold get_flag. rewrite land_pow2_0 by done. apply negb_involutive. Qed.

Lemma testbit_not n i : 0 ≤ i < 64 → 0 ≤ n → Z.testbit (u64_not (2 ^ n)) i = negb (bool_decide (i = n)).
Proof.
  intros Hi Hn. unfold u64_not. rewrite Z.lxor_spec. change U64_MAX with (Z.ones 64).
  rewrite Z.ones_spec_low by lia. simpl.
  destruct (decide (i = n)) as [->|].
  - by rewrite Z.pow2_bits_true, bool_decide_true by done.
  - by rewrite Z.pow2_bits_false, bool_decide_false by done.
Qed.

Lemma set_flag_testbit a n i :
  0 ≤ n → 0 ≤ i →
  Z.testbit (account_flags (set_flag a (2 ^ n))) i =
    Z.testbit (account_flags a) i || bool_decide (i = n).
Proof.
  intros. simpl. rewrite Z.lor_spec. f_equal. destruct (decide (i = n)) as [->|].
  - by rewrite Z.pow2_bits_true, bool_decide_true by done.
  - by rewrite Z.pow2_bits_false, bool_decide_false by done.
Qed.

Lemma unset_flag_testbit a n i :
  0 ≤ n → 0 ≤ i < 64 →
  Z.testbit (account_flags (unset_flag a (2 ^ n))) i =
    Z.testbit (account_flags a) i && negb (bool_decide (i = n)).
Proof. intros. simpl. rewrite Z.land_spec. by rewrite testbit_not. Qed.

Lemma set_flag_get a n m :
  0 ≤ n → 0 ≤ m →
  get_flag (set_flag a (2 ^ n)) (2 ^ m) = get_flag a (2 ^ m) || bool_decide (m = n).
Proof. intros. rewrite !get_flag_testbit by done. by rewrite set_flag_testbit. Qed.

Lemma unset_flag_get a n m :
  0 ≤ n → 0 ≤ m < 64 →
  get_flag (unset_flag a (2 ^ n)) (2 ^ m) = get_flag a (2 ^ m) && negb (bool_decide (m = n)).
Proof. intros. rewrite !get_flag_testbit by lia. by rewrite unset_flag_testbit. Qed.

(** The flashloan flag and the others. *)
Lemma unset_flashloan a :
  let a' := unset_flag a IN_FLASHLOAN_FLAG in
  get_flag a' IN_FLASHLOAN_FLAG = false ∧ get_flag a' DISABLED_FLAG = get_flag a DISABLED_FLAG ∧
  lending_account a' = lending_account a.
Proof.
  change IN_FLASHLOAN_FLAG with (2 ^ 1). change DISABLED_FLAG with (2 ^ 0). simpl.
  rewrite !unset_flag_get by lia. rewrite andb_false_r, andb_true_r. done.
Qed.

(** The four flags of an account are independent: setting or
    unsetting one changes exactly that flag and nothing else of the account. *)
Theorem account_flags_spec a n m :
  0 ≤ n < 64 → 0 ≤ m < 64 →
  get_flag (set_flag a (2 ^ n)) (2 ^ m) = (if decide (m = n) then true else get_flag a (2 ^ m)) ∧
  get_flag (unset_flag a (2 ^ n)) (2 ^ m) = (if decide (m = n) then false else get_flag a (2 ^ m)) ∧
  with_account_flags (account_flags a) (set_flag a (2 ^ n)) = a ∧
  with_account_flags (account_flags a) (unset_flag a (2 ^ n)) = a.
Proof.
  intros. rewrite set_flag_get, unset_flag_get by lia.
  split_and!; [| |by destruct a..].
  - case_decide; subst; [by rewrite bool_decide_true, orb_true_r|].
    by rewrite bool_decide_false, orb_false_r.
  - case_decide; subst; [by rewrite bool_decide_true, andb_false_r|].
    by rewrite bool_decide_false, andb_true_r.
Qed.

(** The authority of an account can only be replaced
    when the transfer flag is set and the account is not disabled; the
    replacement consumes the flag, so a second transfer is refused, and
    changes no position. *)
Theorem authority_transfer_spec a new_authority a' :
  set_new_account_authority_checked a new_authority = Ok a' →
  get_flag a TRANSFER_AUTHORITY_ALLOWED_FLAG = true ∧ get_flag a DISABLED_FLAG = false ∧
  authority a' = new_authority ∧ lending_account a' = lending_account a ∧ group a' = group a ∧
  get_flag a' IN_FLASHLOAN_FLAG = get_flag a IN_FLASHLOAN_FLAG ∧
  ∀ k, set_new_account_authority_checked a' k = Err IllegalAccountAuthorityTransfer.
Proof.
  unfold set_new_account_authority_checked. destruct (_ || _) eqn:E; [done|].
  intros [= <-]. bool_prop. split_and!; try done.
  - change IN_FLASHLOAN_FLAG with (2 ^ 1). change TRANSFER_AUTHORITY_ALLOWED_FLAG with (2 ^ 3).
    by rewrite unset_flag_get, andb_true_r.
  - intros k. change TRANSFER_AUTHORITY_ALLOWED_FLAG with (2 ^ 3).
    by rewrite unset_flag_get, andb_false_r.
Qed.

Definition demo_transferable : MarginfiAccount :=
  mkMarginfiAccount 1 70 LendingAccount.zeroed 8.

Lemma account_flags_spec_witness :
  get_flag (set_flag demo_transferable 1) 1 = true ∧
  get_flag (unset_flag demo_transferable 1) 1 = false ∧
  with_account_flags 8 (set_flag demo_transferable 1) = demo_transferable ∧
  with_account_flags 8 (unset_flag demo_transferable 1) = demo_transferable.
Proof. apply (account_flags_spec demo_transferable 0 0); lia. Defined.

Lemma authority_transfer_spec_witness :
  let a' := mkMarginfiAccount 1 71 LendingAccount.zeroed 0 in
  get_flag demo_transferable TRANSFER_AUTHORITY_ALLOWED_FLAG = true ∧
  get_flag demo_transferable DISABLED_FLAG = false ∧
  authority a' = 71 ∧ lending_account a' = lending_account demo_transferable ∧
  group a' = group demo_transferable ∧
  get_flag a' IN_FLASHLOAN_FLAG = get_flag demo_transferable IN_FLASHLOAN_FLAG ∧
  ∀ k, set_new_account_authority_checked a' k = Err IllegalAccountAuthorityTransfer.
Proof. intros a'. apply (authority_transfer_spec demo_transferable 71 a'). reflexivity. Defined.
End MarginfiAccount.
Notation MarginfiAccount := MarginfiAccount.MarginfiAccount (only parsing).
