(* ===== verification/BankAccount.v ===== *)
(** * Positions and their bank

    [BankAccountWrapper] ([state/marginfi_account.rs]): one position of an
    account together with its bank.  The wrapper of the code borrows both
    mutably; here it is a pair of values, [find] and [find_or_create] return
    the index of the slot it came from, and [write_back] stores the position
    again.  The emissions events and logs are left out. *)
From S2P Require Import Prelude Errors Fixed Constants Utils GroupState InterestRate BankState Account.

Inductive BalanceIncreaseType : Set := IncAny | RepayOnly | DepositOnly | BypassDepositLimit.
Inductive BalanceDecreaseType : Set := DecAny | WithdrawOnly | BorrowOnly | BypassBorrowLimit.
#[export] Instance BalanceIncreaseType_eq_dec : EqDecision BalanceIncreaseType.
Proof. solve_decision. Defined.
#[export] Instance BalanceDecreaseType_eq_dec : EqDecision BalanceDecreaseType.
Proof. solve_decision. Defined.

Module BankAccountWrapper.
Record BankAccountWrapper := mkWrapper { balance : Balance; bank : Bank }.

(** The first active position of the bank. *)
Definition find (bank_pk : Pubkey) (bank : Bank) (l : LendingAccount)
    : MarginfiResult (nat * BankAccountWrapper) :=
  let? i := ok_or (position (LendingAccount.is_position bank_pk) l) BankAccountNotFound in
  let? b := ok_or (l !! i) BankAccountNotFound in
  Ok (i, mkWrapper b bank).

(** [now] is [Clock::get()?.unix_timestamp]. *)
Definition find_or_create (bank_pk : Pubkey) (bank : Bank) (l : LendingAccount) (now : Z)
    : MarginfiResult (nat * LendingAccount * BankAccountWrapper) :=
  match position (LendingAccount.is_position bank_pk) l with
  | Some balance_index =>
      let? b := ok_or (l !! balance_index) BankAccountNotFound in
      Ok (balance_index, l, mkWrapper b bank)
  | None =>
      let? empty_index := ok_or (LendingAccount.get_first_empty_balance l)
                            LendingAccountBalanceSlotsFull in
      let b := Balance.opened bank_pk (i64_as_u64 now) in
      Ok (empty_index, <[empty_index := b]> l, mkWrapper b bank)
  end.

Definition write_back (i : nat) (w : BankAccountWrapper) (l : LendingAccount) : LendingAccount :=
  <[i := balance w]> l.

Section Ops.
Context {F : FixedOps}.

Definition calc_emissions (period balance_amount : I80F48) (mint_decimals : Z)
    (emissions_rate : I80F48) : MarginfiResult I80F48 :=
  let? exponent := index EXP_10_I80F48 mint_decimals in
  let? balance_amount_ui := math (checked_div balance_amount exponent) in
  let? e := math (checked_mul period balance_amount_ui) in
  let? e := math (checked_div e SECONDS_PER_YEAR) in
  math (checked_mul e emissions_rate).

(** The amount emissions accrue on: the side of the position, if
    emissions are active for it. *)
Definition emissions_base (w : BankAccountWrapper) : MarginfiResult (option I80F48) :=
  let? side := Balance.get_side (balance w) in
  match side, Bank.get_flag (bank w) EMISSIONS_FLAG_LENDING_ACTIVE,
        Bank.get_flag (bank w) EMISSIONS_FLAG_BORROW_ACTIVE with
  | Some Assets, true, _ =>
      let? a := Bank.get_asset_amount (bank w) (Balance.asset_shares (balance w)) in Ok (Some a)
  | Some Liabilities, _, true =>
      let? a := Bank.get_liability_amount (bank w) (Balance.liability_shares (balance w)) in
      Ok (Some a)
  | _, _, _ => Ok None
  end.

Definition claim_emissions (w : BankAccountWrapper) (current_timestamp : Z)
    : MarginfiResult BankAccountWrapper :=
  let? base := emissions_base w in
  let? w :=
    match base with
    | Some balance_amount =>
        let last_update :=
          if Balance.last_update (balance w) <? MIN_EMISSIONS_START_TIME then current_timestamp
          else Balance.last_update (balance w) in
        let? period := math (u64_checked_sub current_timestamp last_update) in
        let? emissions := calc_emissions (from_num period) balance_amount
                            (Bank.mint_decimals (bank w))
                            (from_num (Bank.emissions_rate (bank w))) in
        let emissions_real := Z.min emissions (Bank.emissions_remaining (bank w)) in
        let? outstanding := math (checked_add (Balance.emissions_outstanding (balance w))
                                    emissions_real) in
        let? remaining := math (checked_sub (Bank.emissions_remaining (bank w)) emissions_real) in
        Ok (mkWrapper (Balance.with_emissions_outstanding outstanding (balance w))
              (Bank.with_emissions_remaining remaining (bank w)))
    | None => Ok w
    end in
  Ok (mkWrapper (Balance.with_last_update current_timestamp (balance w)) (bank w)).

(** The user's part and the rest: [(min(current, delta), max(delta - current, 0))]. *)
Definition split_delta (current delta : I80F48) : MarginfiResult (I80F48 * I80F48) :=
  let? rest := math (checked_sub delta current) in
  Ok (Z.min current delta, Z.max rest ZERO).

Definition increase_balance_internal (w : BankAccountWrapper) (balance_delta : I80F48)
    (operation_type : BalanceIncreaseType) (now : Z) : MarginfiResult BankAccountWrapper :=
  let? w := claim_emissions w (i64_as_u64 now) in
  let b := balance w in
  let k := bank w in
  let? current_liability_amount := Bank.get_liability_amount k (Balance.liability_shares b) in
  let? '(liability_amount_decrease, asset_amount_increase) :=
    split_delta current_liability_amount balance_delta in
  let? _ := match operation_type with
            | RepayOnly =>
                let? z := is_zero_with_tolerance asset_amount_increase ZERO_AMOUNT_THRESHOLD in
                check z OperationRepayOnly
            | DepositOnly =>
                let? z := is_zero_with_tolerance liability_amount_decrease ZERO_AMOUNT_THRESHOLD in
                check z OperationDepositOnly
            | IncAny | BypassDepositLimit => Ok tt
            end in
  let? _ := Bank.assert_operational_mode k
              (Some (is_positive_with_tolerance asset_amount_increase ZERO_AMOUNT_THRESHOLD)) in
  let? asset_shares_increase := Bank.get_asset_shares k asset_amount_increase in
  let? b := Balance.change_asset_shares b asset_shares_increase in
  let? k := Bank.change_asset_shares k asset_shares_increase
              (bool_decide (operation_type = BypassDepositLimit)) in
  let? liability_shares_decrease := Bank.get_liability_shares k liability_amount_decrease in
  let? neg := op_neg liability_shares_decrease in
  let? b := Balance.change_liability_shares b neg in
  let? k := Bank.change_liability_shares k neg true in
  Ok (mkWrapper b k).

Definition decrease_balance_internal (w : BankAccountWrapper) (balance_delta : I80F48)
    (operation_type : BalanceDecreaseType) (now : Z) : MarginfiResult BankAccountWrapper :=
  let? w := claim_emissions w (i64_as_u64 now) in
  let b := balance w in
  let k := bank w in
  let? current_asset_amount := Bank.get_asset_amount k (Balance.asset_shares b) in
  let? '(asset_amount_decrease, liability_amount_increase) :=
    split_delta current_asset_amount balance_delta in
  let? _ := match operation_type with
            | WithdrawOnly =>
                let? z := is_zero_with_tolerance liability_amount_increase ZERO_AMOUNT_THRESHOLD in
                check z OperationWithdrawOnly
            | BorrowOnly =>
                let? z := is_zero_with_tolerance asset_amount_decrease ZERO_AMOUNT_THRESHOLD in
                check z OperationBorrowOnly
            | DecAny | BypassBorrowLimit => Ok tt
            end in
  let? _ := Bank.assert_operational_mode k
              (Some (is_positive_with_tolerance liability_amount_increase ZERO_AMOUNT_THRESHOLD)) in
  let? asset_shares_decrease := Bank.get_asset_shares k asset_amount_decrease in
  let? neg := op_neg asset_shares_decrease in
  let? b := Balance.change_asset_shares b neg in
  let? k := Bank.change_asset_shares k neg false in
  let? liability_shares_increase := Bank.get_liability_shares k liability_amount_increase in
  let? b := Balance.change_liability_shares b liability_shares_increase in
  let? k := Bank.change_liability_shares k liability_shares_increase
              (bool_decide (operation_type = BypassBorrowLimit)) in
  let? _ := Bank.check_utilization_ratio k in
  Ok (mkWrapper b k).

Definition deposit w amount now := increase_balance_internal w amount IncAny now.
Definition repay w amount now := increase_balance_internal w amount RepayOnly now.
Definition withdraw w amount now := decrease_balance_internal w amount WithdrawOnly now.
Definition borrow w amount now := decrease_balance_internal w amount DecAny now.
Definition increase_balance w amount now := increase_balance_internal w amount IncAny now.
Definition increase_balance_in_liquidation w amount now :=
  increase_balance_internal w amount BypassDepositLimit now.
Definition decrease_balance w amount now := decrease_balance_internal w amount DecAny now.
Definition decrease_balance_in_liquidation w amount now :=
  decrease_balance_internal w amount BypassBorrowLimit now.

Definition withdraw_all (w : BankAccountWrapper) (now : Z)
    : MarginfiResult (Z * BankAccountWrapper) :=
  let? w := claim_emissions w (i64_as_u64 now) in
  let b := balance w in
  let k := bank w in
  let? _ := Bank.assert_operational_mode k None in
  let total_asset_shares := Balance.asset_shares b in
  let? current_asset_amount := Bank.get_asset_amount k total_asset_shares in
  let? current_liability_amount := Bank.get_liability_amount k (Balance.liability_shares b) in
  let? _ := check (is_positive_with_tolerance current_asset_amount ZERO_AMOUNT_THRESHOLD)
              NoAssetFound in
  let? z := is_zero_with_tolerance current_liability_amount ZERO_AMOUNT_THRESHOLD in
  let? _ := check z NoAssetFound in
  let? b := Balance.close b in
  let? neg := op_neg total_asset_shares in
  let? k := Bank.change_asset_shares k neg false in
  let? _ := Bank.check_utilization_ratio k in
  let? spl_withdraw_amount := math (checked_floor current_asset_amount) in
  let? dust := math (checked_sub current_asset_amount spl_withdraw_amount) in
  let? fees := math (checked_add dust (Bank.collected_insurance_fees_outstanding k)) in
  let k := Bank.with_collected_insurance_fees_outstanding fees k in
  let? n := math (checked_to_u64 spl_withdraw_amount) in
  Ok (n, mkWrapper b k).

Definition repay_all (w : BankAccountWrapper) (now : Z)
    : MarginfiResult (Z * BankAccountWrapper) :=
  let? w := claim_emissions w (i64_as_u64 now) in
  let b := balance w in
  let k := bank w in
  let? _ := Bank.assert_operational_mode k None in
  let total_liability_shares := Balance.liability_shares b in
  let? current_liability_amount := Bank.get_liability_amount k total_liability_shares in
  let? current_asset_amount := Bank.get_asset_amount k (Balance.asset_shares b) in
  let? _ := check (is_positive_with_tolerance current_liability_amount ZERO_AMOUNT_THRESHOLD)
              NoLiabilityFound in
  let? z := is_zero_with_tolerance current_asset_amount ZERO_AMOUNT_THRESHOLD in
  let? _ := check z NoLiabilityFound in
  let? b := Balance.close b in
  let? neg := op_neg total_liability_shares in
  let? k := Bank.change_liability_shares k neg false in
  let? spl_deposit_amount := math (checked_ceil current_liability_amount) in
  let? dust := math (checked_sub spl_deposit_amount current_liability_amount) in
  let? fees := math (checked_add dust (Bank.collected_insurance_fees_outstanding k)) in
  let k := Bank.with_collected_insurance_fees_outstanding fees k in
  let? n := math (checked_to_u64 spl_deposit_amount) in
  Ok (n, mkWrapper b k).

Definition close_balance (w : BankAccountWrapper) (now : Z) : MarginfiResult BankAccountWrapper :=
  let? w := claim_emissions w (i64_as_u64 now) in
  let b := balance w in
  let k := bank w in
  let? current_liability_amount := Bank.get_liability_amount k (Balance.liability_shares b) in
  let? current_asset_amount := Bank.get_asset_amount k (Balance.asset_shares b) in
  let? z := is_zero_with_tolerance current_liability_amount ZERO_AMOUNT_THRESHOLD in
  let? _ := check z IllegalBalanceState in
  let? z := is_zero_with_tolerance current_asset_amount ZERO_AMOUNT_THRESHOLD in
  let? _ := check z IllegalBalanceState in
  let? b := Balance.close b in
  Ok (mkWrapper b k).

Definition settle_emissions_and_get_transfer_amount (w : BankAccountWrapper) (now : Z)
    : MarginfiResult (Z * BankAccountWrapper) :=
  let? w := claim_emissions w (i64_as_u64 now) in
  let outstanding := Balance.emissions_outstanding (balance w) in
  let? outstanding_emissions_floored := math (checked_floor outstanding) in
  let? new_outstanding_amount := math (checked_sub outstanding outstanding_emissions_floored) in
  let? n := math (checked_to_u64 outstanding_emissions_floored) in
  Ok (n, mkWrapper (Balance.with_emissions_outstanding new_outstanding_amount (balance w)) (bank w)).
End Ops.

(** ** Correctness *)

(** The wrapped position and bank are well formed and the bank's totals
    cover the position. *)
Record wf (w : BankAccountWrapper) : Prop := {
  wf_balance : Balance.wf (balance w);
  wf_bank : Bank.wf (bank w);
  wf_cover_assets : Balance.asset_shares (balance w) ≤ Bank.total_asset_shares (bank w);
  wf_cover_liabs : Balance.liability_shares (balance w) ≤ Bank.total_liability_shares (bank w)
}.

(** The effect every operation has: emissions [e] move from the bank to the
    position, then [da] asset and [dl] liability shares are added to both. *)
Definition effect (now e da dl : Z) (w : BankAccountWrapper) : BankAccountWrapper :=
  let b := balance w in
  let k := bank w in
  mkWrapper
    (Balance.mkBalance (Balance.active b) (Balance.bank_pk b) (Balance.asset_shares b + da)
       (Balance.liability_shares b + dl) (Balance.emissions_outstanding b + e) now)
    (Bank.with_total_liability_shares (Bank.total_liability_shares k + dl)
       (Bank.with_total_asset_shares (Bank.total_asset_shares k + da)
          (Bank.with_emissions_remaining (Bank.emissions_remaining k - e) k))).

(** The value of a position's two sides, and how an amount divides over
    them: what is paid in first repays the debt, what is taken out first
    uses up the deposit. *)
Definition debt (w : BankAccountWrapper) : I80F48 :=
  fmul (Balance.liability_shares (balance w)) (Bank.liability_share_value (bank w)).
Definition holdings (w : BankAccountWrapper) : I80F48 :=
  fmul (Balance.asset_shares (balance w)) (Bank.asset_share_value (bank w)).
Definition repaid_by (w : BankAccountWrapper) (delta : I80F48) : I80F48 := Z.min (debt w) delta.
Definition deposited_by (w : BankAccountWrapper) (delta : I80F48) : I80F48 :=
  Z.max (delta - debt w) 0.
Definition withdrawn_by (w : BankAccountWrapper) (delta : I80F48) : I80F48 :=
  Z.min (holdings w) delta.
Definition borrowed_by (w : BankAccountWrapper) (delta : I80F48) : I80F48 :=
  Z.max (delta - holdings w) 0.

Lemma i64_as_u64_range z : is_u64 (i64_as_u64 z).
Proof. unfold is_u64, i64_as_u64, U64_MAX. pose proof (Z.mod_pos_bound z (2 ^ 64)). lia. Qed.

Section Lemmas.
Context {F : FixedOps} {L : FixedLaws F}.

Lemma calc_emissions_nn p a d r e :
  0 ≤ p → 0 ≤ a → 0 ≤ r → calc_emissions p a d r = Ok e →
  e = fmul (fmul p (fdiv a (from_num (10 ^ d))) / 31536000) r ∧ 0 ≤ e.
Proof.
  intros Hp Ha Hr H. unfold calc_emissions in H. inv_res.
  apply EXP_10_I80F48_lookup in E as [Hd ->].
  pose proof (exp10_SCALE_pos d ltac:(lia)) as Hpos.
  apply div_some in E0 as (_ & -> & _); [|lia..].
  pose proof (fdiv_nonneg a _ Ha Hpos).
  apply mul_some in E1 as [-> _]; [|done..].
  pose proof (fmul_nonneg p (fdiv a (from_num (10 ^ d))) ltac:(done) ltac:(done)).
  apply div_some in E2 as (_ & -> & _); [|done|vm_compute; discriminate].
  rewrite InterestRateCalc.seconds_div in *.
  pose proof (Z.div_pos (fmul p (fdiv a (from_num (10 ^ d)))) 31536000 ltac:(done) ltac:(lia)).
  apply mul_some in H as [-> _]; [|done..]. auto using fmul_nonneg.
Qed.

Lemma emissions_base_nn w r :
  wf w → emissions_base w = Ok (Some r) → 0 ≤ r.
Proof.
  intros [[Ha Hl _ _] Hk _ _] H. unfold emissions_base in H. inv_res.
  pose proof (Bank.wf_asv _ Hk). pose proof (Bank.wf_lsv_pos _ Hk).
  destruct v as [[]|].
  - destruct (Bank.get_flag _ _); inv_res.
    apply Bank.get_asset_amount_nn in E0 as [_ ?]; done.
  - destruct (Bank.get_flag (bank w) EMISSIONS_FLAG_LENDING_ACTIVE),
      (Bank.get_flag (bank w) EMISSIONS_FLAG_BORROW_ACTIVE); inv_res;
      apply Bank.get_liability_amount_nn in E0 as [_ ?]; (done || lia).
  - done.
Qed.

(** Claiming moves an amount between zero and what remains. *)
Lemma claim_emissions_spec w now w' :
  wf w → is_u64 now → claim_emissions w now = Ok w' →
  ∃ e, 0 ≤ e ≤ Bank.emissions_remaining (bank w) ∧ w' = effect now e 0 0 w.
Proof.
  intros Hwf Hnow H. unfold claim_emissions in H. inv_res.
  pose proof (Bank.wf_emissions_remaining _ (wf_bank _ Hwf)).
  destruct v as [base|]; inv_res.
  - apply emissions_base_nn in E; [|done].
    apply u64_checked_some in E1 as [-> [Hp _]].
    apply calc_emissions_nn in E2 as [_ He]; [|unfold from_num; pose proof SCALE_pos; nia|done|].
    2: { unfold from_num. pose proof SCALE_pos. pose proof (Bank.wf_emissions_rate _ (wf_bank _ Hwf)). nia. }
    apply add_some in E3 as [-> _]. apply sub_some in E4 as [-> _].
    exists (Z.min v1 (Bank.emissions_remaining (bank w))). split; [lia|].
    unfold effect. destruct w as [b k]; destruct b, k; simpl. by rewrite !Z.add_0_r.
  - exists 0. split; [lia|]. unfold effect. destruct v0 as [b k]; destruct b, k; simpl.
    by rewrite !Z.add_0_r, Z.sub_0_r.
Qed.

Lemma effect_claim_wf now e w :
  wf w → 0 ≤ e ≤ Bank.emissions_remaining (bank w) → wf (effect now e 0 0 w).
Proof.
  intros [[] [] ? ?] He. destruct w as [b k]; simpl in *.
  split; simpl; [split|split| |]; simpl; rewrite ?Z.add_0_r; try done; lia.
Qed.

Lemma split_delta_ok cur delta d i :
  split_delta cur delta = Ok (d, i) → d = Z.min cur delta ∧ i = Z.max (delta - cur) 0.
Proof. unfold split_delta, ZERO. intros H. inv_res. by apply sub_some in E as [-> _]. Qed.

Lemma zero_check x e u :
  (let? z := is_zero_with_tolerance x ZERO_AMOUNT_THRESHOLD in check z e) = Ok u →
  x < ZERO_AMOUNT_THRESHOLD.
Proof.
  intros H. apply bind_ok in H as (z & Hz & H). apply is_zero_tol_ok in Hz as ->.
  apply check_ok in H. bool_prop. lia.
Qed.

(** What a position gives back when [x] is taken off its [s] shares. *)
Lemma shares_of_part s v x :
  0 ≤ s → 0 < v → 0 ≤ x → 0 ≤ fdiv (Z.min (fmul s v) x) v ≤ s.
Proof.
  intros. pose proof (fmul_nonneg s v ltac:(done) ltac:(lia)). split; [apply fdiv_nonneg; lia|].
  apply Z.le_trans with (fdiv (fmul s v) v); [apply fdiv_mono; lia|by apply fdiv_fmul_le].
Qed.

(** Taking the full value leaves less than one share. *)
Lemma full_part_dust s v :
  0 ≤ s → 0 < v → s - fdiv (fmul s v) v < EMPTY_BALANCE_THRESHOLD.
Proof.
  intros Hs Hv. unfold fmul, fdiv. change EMPTY_BALANCE_THRESHOLD with SCALE.
  pose proof SCALE_pos as HS.
  assert (1 < SCALE) by (vm_compute; done).
  pose proof (div_bounds (s * v) SCALE HS) as H1.
  set (k := s * v / SCALE) in *. pose proof (div_bounds (k * SCALE) v Hv) as H2.
  set (q := k * SCALE / v) in *.
  destruct (decide (v = 1)) as [->|]; [lia|]. nia.
Qed.

(** The effect and the guards of [increase_balance_internal]. *)
Lemma increase_spec w delta op now w' :
  wf w → 0 ≤ delta → increase_balance_internal w delta op now = Ok w' →
  let deposited := deposited_by w delta in
  let da := fdiv deposited (Bank.asset_share_value (bank w)) in
  let dl := fdiv (repaid_by w delta) (Bank.liability_share_value (bank w)) in
  let cfg := Bank.config (bank w) in
  ∃ e, w' = effect (i64_as_u64 now) e da (- dl) w ∧
    0 ≤ e ≤ Bank.emissions_remaining (bank w) ∧
    0 < Bank.asset_share_value (bank w) ∧
    0 ≤ da ∧ 0 ≤ dl ≤ Balance.liability_shares (balance w) ∧
    (op = RepayOnly → deposited < ZERO_AMOUNT_THRESHOLD) ∧
    (op = DepositOnly → repaid_by w delta < ZERO_AMOUNT_THRESHOLD) ∧
    BankConfig.operational_state cfg ≠ Paused ∧
    (BankConfig.operational_state cfg = ReduceOnly → deposited ≤ ZERO_AMOUNT_THRESHOLD) ∧
    (op ≠ BypassDepositLimit → 0 < da → BankConfig.is_deposit_limit_active cfg = true →
       fmul (Bank.total_asset_shares (bank w) + da) (Bank.asset_share_value (bank w))
         < from_num (BankConfig.deposit_limit cfg)).
Proof.
  intros Hwf Hd H deposited da dl cfg. unfold increase_balance_internal in H.
  apply bind_ok in H as (w1 & Hc & H).
  apply claim_emissions_spec in Hc as (e & He & ->); [|done|apply i64_as_u64_range].
  exists e. destruct w as [b k]. destruct Hwf as [[Ha Hl Hem Hs] Hk Hca Hcl].
  unfold deposited_by, repaid_by, debt, effect in *. simpl in *.
  pose proof (Bank.wf_asv _ Hk) as Hasv. pose proof (Bank.wf_lsv_pos _ Hk) as Hlsv.
  rewrite !Z.add_0_r in H.
  apply bind_ok in H as (c & Hcur & H).
  apply Bank.get_liability_amount_nn in Hcur as [-> _]; [|simpl; lia..]. simpl in H.
  apply bind_ok in H as ([d i] & Hsp & H). apply split_delta_ok in Hsp as [-> ->].
  fold deposited in H.
  apply bind_ok in H as (u1 & Hop & H). apply bind_ok in H as (u2 & Hmode & H).
  apply bind_ok in H as (sa & Hsa & H). apply bind_ok in H as (b1 & Hb1 & H).
  apply bind_ok in H as (k1 & Hk1 & H). apply bind_ok in H as (sl & Hsl & H).
  apply bind_ok in H as (neg & Hneg & H). apply bind_ok in H as (b2 & Hb2 & H).
  apply bind_ok in H as (k2 & Hk2 & H). injection H as <-.
  assert (0 ≤ deposited) by (unfold deposited; lia).
  apply Bank.get_asset_shares_nn in Hsa as (Hapos & -> & Hda); [|done..].
  simpl in Hapos, Hda, Hb1, Hk1. fold da in Hda, Hb1, Hk1.
  pose proof (shares_of_part (Balance.liability_shares b) _ delta Hl Hlsv Hd) as Hdl. fold dl in Hdl.
  apply Balance.balance_assets_changed in Hb1 as ->.
  pose proof (Bank.wf_assets _ Hk). pose proof (Bank.wf_liabs _ Hk).
  apply Bank.change_asset_shares_ok in Hk1 as [-> Hlim]; [|simpl; lia..]. simpl in *.
  apply Bank.get_liability_shares_nn in Hsl as (_ & -> & _);
    [|pose proof (fmul_nonneg (Balance.liability_shares b) _ Hl (Z.lt_le_incl _ _ Hlsv)); lia|simpl; lia].
  simpl in Hneg. fold dl in Hneg. apply op_neg_ok in Hneg as ->.
  apply Balance.balance_liabs_changed in Hb2 as ->.
  apply Bank.change_liability_shares_ok in Hk2 as [-> _]; [|simpl; lia..]. simpl in *.
  apply Bank.assert_mode_tolerant_ok in Hmode as [Hnp Hro]. simpl in Hnp, Hro.
  split_and!; try done; try lia.
  - intros ->. by apply zero_check in Hop.
  - intros ->. by apply zero_check in Hop.
  - intros Hne. apply Hlim. by apply bool_decide_false.
Qed.

(** The effect and the guards of [decrease_balance_internal]. *)
Lemma decrease_spec w delta op now w' :
  wf w → 0 ≤ delta → decrease_balance_internal w delta op now = Ok w' →
  let borrowed := borrowed_by w delta in
  let da := fdiv (withdrawn_by w delta) (Bank.asset_share_value (bank w)) in
  let dl := fdiv borrowed (Bank.liability_share_value (bank w)) in
  let cfg := Bank.config (bank w) in
  ∃ e, w' = effect (i64_as_u64 now) e (- da) dl w ∧
    0 ≤ e ≤ Bank.emissions_remaining (bank w) ∧
    0 < Bank.asset_share_value (bank w) ∧
    0 ≤ dl ∧ 0 ≤ da ≤ Balance.asset_shares (balance w) ∧
    (op = WithdrawOnly → borrowed < ZERO_AMOUNT_THRESHOLD) ∧
    (op = BorrowOnly → withdrawn_by w delta < ZERO_AMOUNT_THRESHOLD) ∧
    BankConfig.operational_state cfg ≠ Paused ∧
    (BankConfig.operational_state cfg = ReduceOnly → borrowed ≤ ZERO_AMOUNT_THRESHOLD) ∧
    (op ≠ BypassBorrowLimit → 0 < dl → BankConfig.is_borrow_limit_active cfg = true →
       fmul (Bank.total_liability_shares (bank w) + dl) (Bank.liability_share_value (bank w))
         < from_num (BankConfig.borrow_limit cfg)) ∧
    fmul (Bank.total_liability_shares (bank w')) (Bank.liability_share_value (bank w'))
      ≤ fmul (Bank.total_asset_shares (bank w')) (Bank.asset_share_value (bank w')).
Proof.
  intros Hwf Hd H borrowed da dl cfg. unfold decrease_balance_internal in H.
  apply bind_ok in H as (w1 & Hc & H).
  apply claim_emissions_spec in Hc as (e & He & ->); [|done|apply i64_as_u64_range].
  exists e. destruct w as [b k]. destruct Hwf as [[Ha Hl Hem Hs] Hk Hca Hcl].
  unfold borrowed_by, withdrawn_by, holdings, effect in *. simpl in *.
  pose proof (Bank.wf_asv _ Hk) as Hasv. pose proof (Bank.wf_lsv_pos _ Hk) as Hlsv.
  rewrite !Z.add_0_r in H.
  apply bind_ok in H as (c & Hcur & H).
  apply Bank.get_asset_amount_nn in Hcur as [-> Hcur]; [|simpl; lia..]. simpl in H, Hcur.
  apply bind_ok in H as ([d i] & Hsp & H). apply split_delta_ok in Hsp as [-> ->].
  fold borrowed in H.
  apply bind_ok in H as (u1 & Hop & H). apply bind_ok in H as (u2 & Hmode & H).
  apply bind_ok in H as (sa & Hsa & H). apply bind_ok in H as (neg & Hneg & H).
  apply bind_ok in H as (b1 & Hb1 & H).
  apply bind_ok in H as (k1 & Hk1 & H). apply bind_ok in H as (sl & Hsl & H).
  apply bind_ok in H as (b2 & Hb2 & H).
  apply bind_ok in H as (k2 & Hk2 & H). apply bind_ok in H as (u3 & Hut & H).
  injection H as <-.
  apply Bank.get_asset_shares_nn in Hsa as (Hapos & -> & _); [|lia|done].
  simpl in Hapos, Hneg. fold da in Hneg. apply op_neg_ok in Hneg as ->.
  pose proof (shares_of_part (Balance.asset_shares b) _ delta Ha Hapos Hd) as Hda. fold da in Hda.
  apply Balance.balance_assets_changed in Hb1 as ->.
  pose proof (Bank.wf_assets _ Hk). pose proof (Bank.wf_liabs _ Hk).
  apply Bank.change_asset_shares_ok in Hk1 as [-> _]; [|simpl; lia..]. simpl in *.
  assert (0 ≤ borrowed) by (unfold borrowed; lia).
  apply Bank.get_liability_shares_nn in Hsl as (_ & -> & Hdl); [|done|simpl; lia].
  simpl in Hdl, Hb2, Hk2. fold dl in Hdl, Hb2, Hk2.
  apply Balance.balance_liabs_changed in Hb2 as ->.
  apply Bank.change_liability_shares_ok in Hk2 as [-> Hlim]; [|simpl; lia..]. simpl in *.
  apply Bank.assert_mode_tolerant_ok in Hmode as [Hnp Hro]. simpl in Hnp, Hro.
  apply Bank.check_utilization_ratio_ok in Hut; [|simpl; lia..]. simpl in Hut.
  split_and!; try done; try lia.
  - intros ->. by apply zero_check in Hop.
  - intros ->. by apply zero_check in Hop.
  - intros Hne. apply Hlim. by apply bool_decide_false.
Qed.

(** Rounding an amount down or up to whole tokens and keeping the rest. *)
Lemma floor_u64 a f n :
  0 ≤ a → checked_floor a = Some f → checked_to_u64 f = Some n → f = from_num n ∧ n = a / SCALE.
Proof.
  intros Ha Hf Hn. apply floor_some in Hf as ->. pose proof SCALE_pos.
  pose proof (Z.div_pos a SCALE Ha ltac:(done)).
  apply to_u64_some in Hn as [-> _]. rewrite Z.div_mul by lia. done.
Qed.
Lemma ceil_u64 a f n :
  0 ≤ a → checked_ceil a = Some f → checked_to_u64 f = Some n →
  f = from_num n ∧ n = - (- a / SCALE).
Proof.
  intros Ha Hf Hn. apply ceil_some in Hf as ->. pose proof SCALE_pos.
  pose proof (ceil_bounds a).
  apply to_u64_some in Hn as [-> _]. rewrite Z.div_mul by lia. done.
Qed.

(** Paying in never changes the share value, whatever the state. *)
Lemma increase_asv w delta op now w' :
  increase_balance_internal w delta op now = Ok w' →
  Bank.asset_share_value (bank w') = Bank.asset_share_value (bank w).
Proof.
  assert (∀ k x b k', Bank.change_asset_shares k x b = Ok k' →
            Bank.asset_share_value k' = Bank.asset_share_value k) as Ha.
  { unfold Bank.change_asset_shares. intros k x b k' H. inv_res. destruct (_ && _); by inv_res. }
  assert (∀ k x b k', Bank.change_liability_shares k x b = Ok k' →
            Bank.asset_share_value k' = Bank.asset_share_value k) as Hl.
  { unfold Bank.change_liability_shares. intros k x b k' H. inv_res. destruct (_ && _); by inv_res. }
  assert (∀ w t w', claim_emissions w t = Ok w' →
            Bank.asset_share_value (bank w') = Bank.asset_share_value (bank w)) as Hc.
  { unfold claim_emissions. intros x t x' H. inv_res. destruct v; by inv_res. }
  unfold increase_balance_internal. intros H. apply bind_ok in H as (w1 & H1 & H).
  apply Hc in H1 as <-. inv_res. simpl.
  repeat match goal with
  | E : Bank.change_asset_shares _ _ _ = Ok _ |- _ => apply Ha in E
  | E : Bank.change_liability_shares _ _ _ = Ok _ |- _ => apply Hl in E
  end. congruence.
Qed.

Lemma close_ok b b' :
  Balance.close b = Ok b' → b' = Balance.empty_deactivated ∧ Balance.emissions_outstanding b < ONE.
Proof. unfold Balance.close. intros H. inv_res. bool_prop. done. Qed.

Lemma withdraw_all_spec w now n w' :
  wf w → withdraw_all w now = Ok (n, w') →
  let k := bank w in
  let amount := holdings w in
  ∃ e, 0 ≤ e ≤ Bank.emissions_remaining k ∧
    Balance.emissions_outstanding (balance w) + e < ONE ∧
    ZERO_AMOUNT_THRESHOLD < amount ∧ debt w < ZERO_AMOUNT_THRESHOLD ∧
    n = amount / SCALE ∧
    BankConfig.operational_state (Bank.config k) ≠ Paused ∧
    balance w' = Balance.empty_deactivated ∧
    bank w' =
      Bank.with_collected_insurance_fees_outstanding
        (amount - from_num n + Bank.collected_insurance_fees_outstanding k)
        (Bank.with_total_asset_shares
           (Bank.total_asset_shares k - Balance.asset_shares (balance w))
           (Bank.with_emissions_remaining (Bank.emissions_remaining k - e) k)) ∧
    fmul (Bank.total_liability_shares (bank w')) (Bank.liability_share_value (bank w'))
      ≤ fmul (Bank.total_asset_shares (bank w')) (Bank.asset_share_value (bank w')).
Proof.
  intros Hwf H k0 amount. unfold withdraw_all in H.
  apply bind_ok in H as (w1 & Hc & H).
  apply claim_emissions_spec in Hc as (e & He & ->); [|done|apply i64_as_u64_range].
  exists e. subst k0 amount. destruct w as [b k]. destruct Hwf as [[Ha Hl Hem Hs] Hk Hca Hcl].
  unfold debt, holdings, effect in *. simpl in *.
  pose proof (Bank.wf_asv _ Hk) as Hasv. pose proof (Bank.wf_lsv_pos _ Hk) as Hlsv.
  pose proof (Bank.wf_liabs _ Hk).
  rewrite !Z.add_0_r in H. inv_res.
  apply Bank.get_asset_amount_nn in E0 as [-> Hamt]; [|simpl; lia..]. simpl in *.
  apply Bank.get_liability_amount_nn in E1 as [-> _]; [|simpl; lia..]. simpl in *.
  apply is_zero_tol_ok, eq_sym in E3. apply close_ok in E5 as [-> Hout]. simpl in Hout.
  apply op_neg_ok in E6 as ->. apply Bank.assert_operational_mode_ok in E as [Hnp _].
  apply Bank.change_asset_shares_ok in E7 as [-> _]; [|simpl; lia..]. simpl in *.
  apply Bank.check_utilization_ratio_ok in E8; [|simpl; lia..]. simpl in *.
  pose proof (floor_u64 _ _ _ Hamt E9 E12) as [-> Hn].
  apply sub_some in E10 as [-> _]. apply add_some in E11 as [-> _].
  unfold is_positive_with_tolerance in E2. bool_prop.
  split_and!; try done; lia.
Qed.

Lemma repay_all_spec w now n w' :
  wf w → repay_all w now = Ok (n, w') →
  let k := bank w in
  let amount := debt w in
  ∃ e, 0 ≤ e ≤ Bank.emissions_remaining k ∧
    Balance.emissions_outstanding (balance w) + e < ONE ∧
    ZERO_AMOUNT_THRESHOLD < amount ∧ holdings w < ZERO_AMOUNT_THRESHOLD ∧
    n = - (- amount / SCALE) ∧
    BankConfig.operational_state (Bank.config k) ≠ Paused ∧
    balance w' = Balance.empty_deactivated ∧
    bank w' =
      Bank.with_collected_insurance_fees_outstanding
        (from_num n - amount + Bank.collected_insurance_fees_outstanding k)
        (Bank.with_total_liability_shares
           (Bank.total_liability_shares k - Balance.liability_shares (balance w))
           (Bank.with_emissions_remaining (Bank.emissions_remaining k - e) k)).
Proof.
  intros Hwf H k0 amount. unfold repay_all in H.
  apply bind_ok in H as (w1 & Hc & H).
  apply claim_emissions_spec in Hc as (e & He & ->); [|done|apply i64_as_u64_range].
  exists e. subst k0 amount. destruct w as [b k]. destruct Hwf as [[Ha Hl Hem Hs] Hk Hca Hcl].
  unfold debt, holdings, effect in *. simpl in *.
  pose proof (Bank.wf_asv _ Hk) as Hasv. pose proof (Bank.wf_lsv_pos _ Hk) as Hlsv.
  rewrite !Z.add_0_r in H. inv_res.
  apply Bank.get_liability_amount_nn in E0 as [-> Hamt]; [|simpl; lia..]. simpl in *.
  apply Bank.get_asset_amount_nn in E1 as [-> _]; [|simpl; lia..]. simpl in *.
  apply is_zero_tol_ok, eq_sym in E3. apply close_ok in E5 as [-> Hout]. simpl in Hout.
  apply op_neg_ok in E6 as ->. apply Bank.assert_operational_mode_ok in E as [Hnp _].
  apply Bank.change_liability_shares_ok in E7 as [-> _]; [|simpl; lia..]. simpl in *.
  pose proof (ceil_u64 _ _ _ Hamt E8 E11) as [-> Hn].
  apply sub_some in E9 as [-> _]. apply add_some in E10 as [-> _].
  unfold is_positive_with_tolerance in E2. bool_prop.
  split_and!; try done; lia.
Qed.

Lemma close_balance_spec w now w' :
  wf w → close_balance w now = Ok w' →
  ∃ e, 0 ≤ e ≤ Bank.emissions_remaining (bank w) ∧
    Balance.emissions_outstanding (balance w) + e < ONE ∧
    debt w < ZERO_AMOUNT_THRESHOLD ∧ holdings w < ZERO_AMOUNT_THRESHOLD ∧
    balance w' = Balance.empty_deactivated ∧
    bank w' = Bank.with_emissions_remaining (Bank.emissions_remaining (bank w) - e) (bank w).
Proof.
  intros Hwf H. unfold close_balance in H.
  apply bind_ok in H as (w1 & Hc & H).
  apply claim_emissions_spec in Hc as (e & He & ->); [|done|apply i64_as_u64_range].
  exists e. destruct w as [b k]. destruct Hwf as [[Ha Hl Hem Hs] Hk Hca Hcl].
  unfold debt, holdings, effect in *. simpl in *.
  pose proof (Bank.wf_asv _ Hk) as Hasv. pose proof (Bank.wf_lsv_pos _ Hk) as Hlsv.
  rewrite !Z.add_0_r in H. inv_res.
  apply Bank.get_liability_amount_nn in E as [-> _]; [|simpl; lia..]. simpl in *.
  apply Bank.get_asset_amount_nn in E0 as [-> _]; [|simpl; lia..]. simpl in *.
  apply is_zero_tol_ok, eq_sym in E1. apply is_zero_tol_ok, eq_sym in E3.
  apply close_ok in E5 as [-> Hout]. simpl in Hout. bool_prop.
  split_and!; try done; lia.
Qed.

Lemma settle_spec w now n w' :
  wf w → settle_emissions_and_get_transfer_amount w now = Ok (n, w') →
  ∃ e, 0 ≤ e ≤ Bank.emissions_remaining (bank w) ∧
    let total := Balance.emissions_outstanding (balance w) + e in
    n = total / SCALE ∧ is_u64 n ∧
    w' = mkWrapper (Balance.with_emissions_outstanding (total - from_num n)
                      (balance (effect (i64_as_u64 now) e 0 0 w)))
           (bank (effect (i64_as_u64 now) e 0 0 w)).
Proof.
  intros Hwf H. unfold settle_emissions_and_get_transfer_amount in H.
  apply bind_ok in H as (w1 & Hc & H).
  apply claim_emissions_spec in Hc as (e & He & ->); [|done|apply i64_as_u64_range].
  exists e. split; [done|]. pose proof (Balance.wf_emissions _ (wf_balance _ Hwf)).
  apply bind_ok in H as (f & Hf & H). apply bind_ok in H as (r & Hr & H).
  apply bind_ok in H as (n' & Hn & H). injection H as <- <-.
  apply math_ok in Hf, Hr, Hn. simpl in Hf, Hr, Hn.
  set (total := Balance.emissions_outstanding (balance w) + e) in *.
  assert (0 ≤ total) as Ht by (unfold total; lia).
  pose proof (floor_u64 _ _ _ Ht Hf Hn) as [-> Hdiv].
  apply sub_some in Hr as [-> _]. pose proof SCALE_pos.
  pose proof (Z.div_pos total SCALE Ht ltac:(done)).
  apply to_u64_some in Hn as (_ & ? & _). done.
Qed.
End Lemmas.

(** *** All operations on a position *)
Inductive BalanceOp : Set :=
| Increase (amount : I80F48) (t : BalanceIncreaseType)
| Decrease (amount : I80F48) (t : BalanceDecreaseType)
| WithdrawAll | RepayAll | CloseBalance | ClaimEmissions | SettleEmissions.

Definition op_amount_ok (op : BalanceOp) : Prop :=
  match op with Increase a _ | Decrease a _ => 0 ≤ a | _ => True end.

Definition run {F : FixedOps} (op : BalanceOp) (w : BankAccountWrapper) (now : Z)
    : MarginfiResult BankAccountWrapper :=
  match op with
  | Increase a t => increase_balance_internal w a t now
  | Decrease a t => decrease_balance_internal w a t now
  | WithdrawAll => let? '(_, w) := withdraw_all w now in Ok w
  | RepayAll => let? '(_, w) := repay_all w now in Ok w
  | CloseBalance => close_balance w now
  | ClaimEmissions => claim_emissions w (i64_as_u64 now)
  | SettleEmissions => let? '(_, w) := settle_emissions_and_get_transfer_amount w now in Ok w
  end.

(** The shares of everybody else. *)
Definition others_assets (w : BankAccountWrapper) : Z :=
  Bank.total_asset_shares (bank w) - Balance.asset_shares (balance w).
Definition others_liabs (w : BankAccountWrapper) : Z :=
  Bank.total_liability_shares (bank w) - Balance.liability_shares (balance w).

(** What an operation leaves alone in the bank. *)
Definition bank_frame (k k' : Bank) : Prop :=
  k' = Bank.with_total_asset_shares (Bank.total_asset_shares k')
        (Bank.with_total_liability_shares (Bank.total_liability_shares k')
        (Bank.with_collected_insurance_fees_outstanding
           (Bank.collected_insurance_fees_outstanding k')
        (Bank.with_emissions_remaining (Bank.emissions_remaining k') k))).

(** The two ways an operation ends. *)
Inductive op_result (now : Z) (w w' : BankAccountWrapper) : Prop :=
| op_open (e da dl r : Z) :
    0 ≤ e ≤ Bank.emissions_remaining (bank w) →
    0 ≤ r ≤ Balance.emissions_outstanding (balance w) + e →
    0 ≤ Balance.asset_shares (balance w) + da →
    0 ≤ Balance.liability_shares (balance w) + dl →
    (Balance.asset_shares (balance w) + da < EMPTY_BALANCE_THRESHOLD ∨
     Balance.liability_shares (balance w) + dl < EMPTY_BALANCE_THRESHOLD) →
    bank w' = bank (effect now e da dl w) →
    balance w' = Balance.with_emissions_outstanding r (balance (effect now e da dl w)) →
    op_result now w w'
| op_closed (e fees : Z) (all_assets all_liabs : bool) :
    0 ≤ e ≤ Bank.emissions_remaining (bank w) → 0 ≤ fees →
    (all_assets = false → holdings w < ZERO_AMOUNT_THRESHOLD) →
    (all_liabs = false → debt w < ZERO_AMOUNT_THRESHOLD) →
    balance w' = Balance.empty_deactivated →
    bank w' =
      Bank.with_collected_insurance_fees_outstanding
        (fees + Bank.collected_insurance_fees_outstanding (bank w))
      (Bank.with_total_asset_shares
        (Bank.total_asset_shares (bank w) -
           if all_assets then Balance.asset_shares (balance w) else 0)
      (Bank.with_total_liability_shares
        (Bank.total_liability_shares (bank w) -
           if all_liabs then Balance.liability_shares (balance w) else 0)
      (Bank.with_emissions_remaining (Bank.emissions_remaining (bank w) - e) (bank w)))) →
    op_result now w w'.

Section OpLemmas.
Context {F : FixedOps} {L : FixedLaws F}.

(** Growing one side only happens after the other side is used up. *)
Lemma one_side_kept s o v v' x :
  0 ≤ s → 0 ≤ o → 0 < v → 0 < v' → 0 ≤ x →
  s < EMPTY_BALANCE_THRESHOLD ∨ o < EMPTY_BALANCE_THRESHOLD →
  s + - fdiv (Z.min (fmul s v) x) v < EMPTY_BALANCE_THRESHOLD ∨
  o + fdiv (Z.max (x - fmul s v) 0) v' < EMPTY_BALANCE_THRESHOLD.
Proof.
  intros Hs Ho Hv Hv' Hx Hone.
  pose proof (shares_of_part s v x Hs Hv Hx) as Hp.
  destruct (decide (x ≤ fmul s v)).
  - rewrite (Z.max_r (x - fmul s v)), fdiv_0_l by lia. lia.
  - left. rewrite Z.min_l by lia. pose proof (full_part_dust s v Hs Hv). lia.
Qed.

Lemma run_result op w now w' :
  wf w → op_amount_ok op → run op w now = Ok w' → op_result (i64_as_u64 now) w w'.
Proof.
  intros Hwf Hok H. pose proof Hwf as [[Ha Hl Hem Hs] Hk Hca Hcl].
  pose proof (Bank.wf_lsv_pos _ Hk) as Hlsv.
  destruct op as [a t|a t| | | | |]; simpl in H, Hok.
  - apply increase_spec in H as (e & -> & He & Hasv & Hda & Hdl & _); [|done..].
    eapply (op_open _ _ _ e _ _ (Balance.emissions_outstanding (balance w) + e)); simpl;
      try done; try lia.
    unfold repaid_by, deposited_by, debt.
    destruct (one_side_kept _ (Balance.asset_shares (balance w)) _ (Bank.asset_share_value (bank w)) a Hl Ha Hlsv Hasv Hok);
      [tauto|by right|by left].
  - apply decrease_spec in H as (e & -> & He & Hasv & Hdl & Hda & _); [|done..].
    eapply (op_open _ _ _ e _ _ (Balance.emissions_outstanding (balance w) + e)); simpl;
      try done; try lia.
    unfold withdrawn_by, borrowed_by, holdings.
    by apply (one_side_kept _ (Balance.liability_shares (balance w))).
  - apply bind_ok in H as ([n w1] & H & H'). injection H' as <-.
    apply withdraw_all_spec in H as (e & He & Hem' & Hh & Hd & Hn & _ & Hb & Hbk & _); [|done].
    pose proof (floor_bounds (holdings w)).
    eapply (op_closed _ _ _ e (holdings w - from_num n) true false); try done.
    + unfold from_num. rewrite Hn. lia.
    + rewrite Hbk. rewrite Z.sub_0_r. by destruct (bank w).
  - apply bind_ok in H as ([n w1] & H & H'). injection H' as <-.
    apply repay_all_spec in H as (e & He & Hem' & Hh & Hd & Hn & _ & Hb & Hbk); [|done].
    pose proof (ceil_bounds (debt w)).
    eapply (op_closed _ _ _ e (from_num n - debt w) false true); try done.
    + unfold from_num. rewrite Hn. lia.
    + rewrite Hbk. rewrite Z.sub_0_r. by destruct (bank w).
  - apply close_balance_spec in H as (e & He & Hem' & Hd & Hh & Hb & Hbk); [|done].
    eapply (op_closed _ _ _ e 0 false false); try done.
    rewrite Hbk, !Z.sub_0_r. by destruct (bank w).
  - apply claim_emissions_spec in H as (e & He & ->); [|done|apply i64_as_u64_range].
    eapply (op_open _ _ _ e 0 0 (Balance.emissions_outstanding (balance w) + e));
      rewrite ?Z.add_0_r; try done; lia.
  - apply bind_ok in H as ([n w1] & H & H'). injection H' as <-.
    apply settle_spec in H as (e & He & Hn & Hnu & ->); [|done].
    pose proof (floor_bounds (Balance.emissions_outstanding (balance w) + e)).
    eapply (op_open _ _ _ e 0 0 (Balance.emissions_outstanding (balance w) + e - from_num n));
      rewrite ?Z.add_0_r; try done; try lia.
    unfold from_num. rewrite Hn. split; [lia|].
    pose proof (Z.div_pos (Balance.emissions_outstanding (balance w) + e) SCALE ltac:(lia) SCALE_pos).
    pose proof SCALE_pos. nia.
Qed.

Lemma op_result_wf now w w' : wf w → op_result now w w' → wf w'.
Proof.
  intros [[Ha Hl Hem Hs] Hk Hca Hcl] Hr.
  destruct Hr as [e da dl r He Hr' Ha' Hl' Hone Hb Hbal|e fees aa al He Hf Hh Hd Hbal Hb].
  - split; rewrite ?Hb, ?Hbal; simpl; [split; simpl; lia| |lia..].
    destruct Hk; split; simpl; lia.
  - split; rewrite ?Hb, ?Hbal; simpl; [apply Balance.empty_wf| | |].
    + destruct Hk; split; simpl; try lia; [destruct aa|destruct al]; lia.
    + change ZERO with 0. destruct aa; lia.
    + change ZERO with 0. destruct al; lia.
Qed.

Lemma op_result_conserves now w w' :
  wf w → op_result now w w' →
  others_assets w ≤ others_assets w' ∧ others_liabs w ≤ others_liabs w' ∧
  (Balance.active (balance w') = true →
     others_assets w' = others_assets w ∧ others_liabs w' = others_liabs w ∧
     Balance.bank_pk (balance w') = Balance.bank_pk (balance w)) ∧
  fmul (others_assets w' - others_assets w) (Bank.asset_share_value (bank w))
    < ZERO_AMOUNT_THRESHOLD ∧
  fmul (others_liabs w' - others_liabs w) (Bank.liability_share_value (bank w))
    < ZERO_AMOUNT_THRESHOLD ∧
  bank_frame (bank w) (bank w') ∧
  Bank.emissions_remaining (bank w') ≤ Bank.emissions_remaining (bank w) ∧
  Bank.emissions_remaining (bank w') + Balance.emissions_outstanding (balance w')
    ≤ Bank.emissions_remaining (bank w) + Balance.emissions_outstanding (balance w).
Proof.
  intros [[Ha Hl Hem Hs] Hk Hca Hcl] Hr.
  assert (0 < ZERO_AMOUNT_THRESHOLD) by (vm_compute; done).
  unfold others_assets, others_liabs.
  destruct Hr as [e da dl r He Hr' Ha' Hl' Hone Hb Hbal|e fees aa al He Hf Hh Hd Hbal Hb];
    rewrite ?Hb, ?Hbal; simpl.
  - replace (Bank.total_asset_shares (bank w) + da - (Balance.asset_shares (balance w) + da) -
      (Bank.total_asset_shares (bank w) - Balance.asset_shares (balance w))) with 0 by lia.
    replace (Bank.total_liability_shares (bank w) + dl - (Balance.liability_shares (balance w) + dl) -
      (Bank.total_liability_shares (bank w) - Balance.liability_shares (balance w))) with 0 by lia.
    rewrite !fmul_0_l. split_and!; try done; lia.
  - change ZERO with 0. split_and!; try done; try (destruct aa, al; lia).
    + destruct aa; [rewrite Z.sub_0_r; apply Z.le_lt_trans with 0; [|done];
        match goal with |- fmul ?x _ ≤ _ => replace x with 0 by lia end; done|].
      specialize (Hh eq_refl). unfold holdings in Hh.
      match goal with |- fmul ?x _ < _ => replace x with (Balance.asset_shares (balance w)) by lia end.
      done.
    + destruct al; [rewrite Z.sub_0_r; apply Z.le_lt_trans with 0; [|done];
        match goal with |- fmul ?x _ ≤ _ => replace x with 0 by lia end; done|].
      specialize (Hd eq_refl). unfold debt in Hd.
      match goal with |- fmul ?x _ < _ => replace x with (Balance.liability_shares (balance w)) by lia end.
      done.
Qed.
End OpLemmas.

Section Theorems.
Context {F : FixedOps} {L : FixedLaws F}.

(** Every operation on a position (deposits, repayments,
    withdrawals, borrows, the full and closing variants, and the emissions
    operations) keeps it well formed: its shares and emissions stay
    non-negative, it stays on one side only (so reading its side never
    panics), the bank stays well formed, and the bank's totals still cover
    the position. *)
Theorem balance_ops_keep_wf op w now w' :
  wf w → op_amount_ok op → run op w now = Ok w' → wf w'.
Proof.
  intros Hwf Hok H. by eapply op_result_wf, run_result.
Qed.

(** C23: every operation changes the totals of the bank
    by what it changes the position: the shares of all other users together
    never shrink, and as long as the position stays open they do not change
    at all; closing a position can only leave behind shares worth less than
    0.0001 token.  Share values, limits, flags and vaults of the bank are
    untouched, and no operation creates emissions. *)
Theorem balance_ops_conserve_shares op w now w' :
  wf w → op_amount_ok op → run op w now = Ok w' →
  others_assets w ≤ others_assets w' ∧ others_liabs w ≤ others_liabs w' ∧
  (Balance.active (balance w') = true →
     others_assets w' = others_assets w ∧ others_liabs w' = others_liabs w ∧
     Balance.bank_pk (balance w') = Balance.bank_pk (balance w)) ∧
  fmul (others_assets w' - others_assets w) (Bank.asset_share_value (bank w))
    < ZERO_AMOUNT_THRESHOLD ∧
  fmul (others_liabs w' - others_liabs w) (Bank.liability_share_value (bank w))
    < ZERO_AMOUNT_THRESHOLD ∧
  bank_frame (bank w) (bank w') ∧
  Bank.emissions_remaining (bank w') ≤ Bank.emissions_remaining (bank w) ∧
  Bank.emissions_remaining (bank w') + Balance.emissions_outstanding (balance w')
    ≤ Bank.emissions_remaining (bank w) + Balance.emissions_outstanding (balance w).
Proof.
  intros Hwf Hok H. by eapply op_result_conserves, run_result.
Qed.

(** What adding or taking shares does to the value of a side. *)
Lemma value_add s d v x :
  0 ≤ s → 0 < v → 0 ≤ x → d = fdiv x v →
  x - v / SCALE - 1 ≤ fmul (s + d) v - fmul s v ≤ x + 1.
Proof.
  intros Hs Hv Hx ->. pose proof (fdiv_nonneg x v Hx Hv).
  pose proof (fmul_fdiv_le x v Hx Hv). pose proof (fmul_fdiv_ge x v Hx Hv).
  unfold fmul in *. pose proof SCALE_pos.
  pose proof (div_bounds ((s + fdiv x v) * v) SCALE ltac:(lia)).
  pose proof (div_bounds (s * v) SCALE ltac:(lia)).
  pose proof (div_bounds (fdiv x v * v) SCALE ltac:(lia)). nia.
Qed.
Lemma value_sub s d v x :
  0 < v → 0 ≤ x → d = fdiv x v →
  x - v / SCALE - 1 ≤ fmul s v - fmul (s + - d) v ≤ x + 1.
Proof.
  intros Hv Hx ->. pose proof (fdiv_nonneg x v Hx Hv).
  pose proof (fmul_fdiv_le x v Hx Hv). pose proof (fmul_fdiv_ge x v Hx Hv).
  unfold fmul in *. pose proof SCALE_pos.
  pose proof (div_bounds ((s + - fdiv x v) * v) SCALE ltac:(lia)).
  pose proof (div_bounds (s * v) SCALE ltac:(lia)).
  pose proof (div_bounds (fdiv x v * v) SCALE ltac:(lia)). nia.
Qed.

(** The bounds of the two sides. *)
Lemma increase_parts w delta op now w' :
  wf w → 0 ≤ delta → increase_balance_internal w delta op now = Ok w' →
  let asv := Bank.asset_share_value (bank w) in
  let lsv := Bank.liability_share_value (bank w) in
  repaid_by w delta + deposited_by w delta = delta ∧
  repaid_by w delta - lsv / SCALE - 1 ≤ debt w - debt w' ≤ repaid_by w delta + 1 ∧
  deposited_by w delta - asv / SCALE - 1 ≤ holdings w' - holdings w
    ≤ deposited_by w delta + 1.
Proof.
  intros Hwf Hd H asv lsv. pose proof Hwf as [[Ha Hl Hem Hs] Hk Hca Hcl].
  pose proof (Bank.wf_lsv_pos _ Hk) as Hlsv.
  apply increase_spec in H as (e & -> & He & Hasv & Hda & Hdl & _); [|done..].
  assert (0 ≤ debt w) by (apply fmul_nonneg; lia).
  assert (0 ≤ repaid_by w delta ∧ 0 ≤ deposited_by w delta) as [Hr Hdp]
    by (unfold repaid_by, deposited_by; lia).
  destruct (value_sub (Balance.liability_shares (balance w)) _ lsv _ Hlsv Hr eq_refl).
  destruct (value_add (Balance.asset_shares (balance w)) _ asv _ Ha Hasv Hdp eq_refl).
  repeat split; try assumption; unfold repaid_by, deposited_by in *; lia.
Qed.
Lemma decrease_parts w delta op now w' :
  wf w → 0 ≤ delta → decrease_balance_internal w delta op now = Ok w' →
  let asv := Bank.asset_share_value (bank w) in
  let lsv := Bank.liability_share_value (bank w) in
  withdrawn_by w delta + borrowed_by w delta = delta ∧
  withdrawn_by w delta - asv / SCALE - 1 ≤ holdings w - holdings w'
    ≤ withdrawn_by w delta + 1 ∧
  borrowed_by w delta - lsv / SCALE - 1 ≤ debt w' - debt w ≤ borrowed_by w delta + 1.
Proof.
  intros Hwf Hd H asv lsv. pose proof Hwf as [[Ha Hl Hem Hs] Hk Hca Hcl].
  pose proof (Bank.wf_lsv_pos _ Hk) as Hlsv.
  apply decrease_spec in H as (e & -> & He & Hasv & Hdl & Hda & _&_&_&_&_& Hut); [|done..].
  assert (0 ≤ holdings w) by (apply fmul_nonneg; lia).
  assert (0 ≤ withdrawn_by w delta ∧ 0 ≤ borrowed_by w delta) as [Hw Hb]
    by (unfold withdrawn_by, borrowed_by; lia).
  destruct (value_sub (Balance.asset_shares (balance w)) _ asv _ Hasv Hw eq_refl).
  destruct (value_add (Balance.liability_shares (balance w)) _ lsv _ Hl Hlsv Hb eq_refl).
  repeat split; try assumption; unfold withdrawn_by, borrowed_by in *; lia.
Qed.

(** Paying [delta] into a position repays its debt first
    and deposits what is left: the debt falls by the repaid part and the
    holdings grow by the deposited part, which add up to [delta], each up to
    the value of one unit of a share and one unit. *)
Theorem increase_moves_value w delta op now w' :
  wf w → 0 ≤ delta → increase_balance_internal w delta op now = Ok w' →
  let asv := Bank.asset_share_value (bank w) in
  let lsv := Bank.liability_share_value (bank w) in
  repaid_by w delta + deposited_by w delta = delta ∧
  (repaid_by w delta < debt w → deposited_by w delta = 0) ∧
  repaid_by w delta - lsv / SCALE - 1 ≤ debt w - debt w' ≤ repaid_by w delta + 1 ∧
  deposited_by w delta - asv / SCALE - 1 ≤ holdings w' - holdings w
    ≤ deposited_by w delta + 1.
Proof.
  intros Hwf Hd H asv lsv. pose proof (increase_parts _ _ _ _ _ Hwf Hd H) as (? & ? & ?).
  subst asv lsv. split_and!; try lia. unfold repaid_by, deposited_by in *. lia.
Qed.

(** Taking [delta] out of a position uses up its deposit
    first and borrows what is missing: the holdings fall by the withdrawn
    part and the debt grows by the borrowed part, which add up to [delta],
    each up to the value of one unit of a share and one unit; and afterwards
    the bank's deposits still cover its debts. *)
Theorem decrease_moves_value w delta op now w' :
  wf w → 0 ≤ delta → decrease_balance_internal w delta op now = Ok w' →
  let asv := Bank.asset_share_value (bank w) in
  let lsv := Bank.liability_share_value (bank w) in
  withdrawn_by w delta + borrowed_by w delta = delta ∧
  (withdrawn_by w delta < holdings w → borrowed_by w delta = 0) ∧
  withdrawn_by w delta - asv / SCALE - 1 ≤ holdings w - holdings w'
    ≤ withdrawn_by w delta + 1 ∧
  borrowed_by w delta - lsv / SCALE - 1 ≤ debt w' - debt w ≤ borrowed_by w delta + 1 ∧
  fmul (Bank.total_liability_shares (bank w')) (Bank.liability_share_value (bank w'))
    ≤ fmul (Bank.total_asset_shares (bank w')) (Bank.asset_share_value (bank w')).
Proof.
  intros Hwf Hd H asv lsv. pose proof (decrease_parts _ _ _ _ _ Hwf Hd H) as (? & ? & ?).
  apply decrease_spec in H as (e & -> & _ & _ & _ & _ & _ & _ & _ & _ & _ & Hut); [|done..].
  subst asv lsv. split_and!; try lia; try done. unfold withdrawn_by, borrowed_by in *. lia.
Qed.

(** A repayment never deposits and a withdrawal never
    borrows 0.0001 token or more; no operation succeeds on a paused bank; on
    a reduce-only bank nobody's deposit or debt grows by more than 0.0001
    token; and the deposit and borrow limits hold after every operation that
    is not part of a liquidation. *)
Theorem operation_modes_enforced w delta now w' :
  wf w → 0 ≤ delta →
  let cfg := Bank.config (bank w) in
  let state := BankConfig.operational_state cfg in
  (∀ op, increase_balance_internal w delta op now = Ok w' →
     state ≠ Paused ∧
     (op = RepayOnly → deposited_by w delta < ZERO_AMOUNT_THRESHOLD) ∧
     (state = ReduceOnly → deposited_by w delta ≤ ZERO_AMOUNT_THRESHOLD) ∧
     (op ≠ BypassDepositLimit → BankConfig.is_deposit_limit_active cfg = true →
      Balance.asset_shares (balance w) < Balance.asset_shares (balance w') →
      fmul (Bank.total_asset_shares (bank w')) (Bank.asset_share_value (bank w'))
        < from_num (BankConfig.deposit_limit cfg))) ∧
  (∀ op, decrease_balance_internal w delta op now = Ok w' →
     state ≠ Paused ∧
     (op = WithdrawOnly → borrowed_by w delta < ZERO_AMOUNT_THRESHOLD) ∧
     (state = ReduceOnly → borrowed_by w delta ≤ ZERO_AMOUNT_THRESHOLD) ∧
     (op ≠ BypassBorrowLimit → BankConfig.is_borrow_limit_active cfg = true →
      Balance.liability_shares (balance w) < Balance.liability_shares (balance w') →
      fmul (Bank.total_liability_shares (bank w')) (Bank.liability_share_value (bank w'))
        < from_num (BankConfig.borrow_limit cfg))).
Proof.
  intros Hwf Hd cfg state. split; intros op H.
  - apply increase_spec in H as (e & -> & He & Hasv & Hda & Hdl & Hro & _ & Hp & Hred & Hlim);
      [|done..].
    split_and!; try done. simpl. intros Hop Hact Hgrow. apply Hlim; [done|lia|done].
  - apply decrease_spec in H as (e & -> & He & Hasv & Hdl & Hda & Hwo & _ & Hp & Hred & Hlim & _);
      [|done..].
    split_and!; try done. simpl. intros Hop Hact Hgrow. apply Hlim; [done|lia|done].
Qed.

(** Withdrawing everything pays out the whole tokens
    of the holdings, repaying everything charges the debt rounded up to whole
    tokens; the fraction (less than one token) goes to the insurance fees
    either way, so nothing is lost; the slot is freed. *)
Theorem close_out_rounds_for_bank w now n w' :
  wf w →
  let fees k := Bank.collected_insurance_fees_outstanding k in
  (withdraw_all w now = Ok (n, w') →
     from_num n ≤ holdings w < from_num n + ONE ∧
     from_num n + (fees (bank w') - fees (bank w)) = holdings w ∧
     Bank.total_asset_shares (bank w') =
       Bank.total_asset_shares (bank w) - Balance.asset_shares (balance w) ∧
     balance w' = Balance.empty_deactivated) ∧
  (repay_all w now = Ok (n, w') →
     debt w ≤ from_num n < debt w + ONE ∧
     from_num n = debt w + (fees (bank w') - fees (bank w)) ∧
     Bank.total_liability_shares (bank w') =
       Bank.total_liability_shares (bank w) - Balance.liability_shares (balance w) ∧
     balance w' = Balance.empty_deactivated).
Proof.
  intros Hwf fees. change ONE with SCALE. split; intros H.
  - apply withdraw_all_spec in H as (e & He & _ & _ & _ & Hn & _ & Hb & Hbk & _); [|done].
    pose proof (floor_bounds (holdings w)). unfold fees. rewrite Hbk. simpl.
    unfold from_num. rewrite Hn. split_and!; (done || lia).
  - apply repay_all_spec in H as (e & He & _ & _ & _ & Hn & _ & Hb & Hbk); [|done].
    pose proof (ceil_bounds (debt w)). unfold fees. rewrite Hbk. simpl.
    unfold from_num. rewrite Hn. split_and!; (done || lia).
Qed.
End Theorems.

(** *** Slots *)
Lemma is_position_true k b :
  LendingAccount.is_position k b = true ↔ Balance.active b = true ∧ Balance.bank_pk b = k.
Proof. unfold LendingAccount.is_position. rewrite andb_true_iff, Z.eqb_eq. done. Qed.

Lemma find_ok k bk l i w :
  find k bk l = Ok (i, w) →
  l !! i = Some (balance w) ∧ Balance.active (balance w) = true ∧
  Balance.bank_pk (balance w) = k ∧ bank w = bk.
Proof.
  unfold find. intros H. inv_res.
  apply position_Some in E as (x & Hx & Hp & _). det_ok.
  apply is_position_true in Hp as [? ?]. done.
Qed.

Lemma find_or_create_ok k bk l now i l' w :
  LendingAccount.wf l → find_or_create k bk l now = Ok (i, l', w) →
  LendingAccount.wf l' ∧ l' !! i = Some (balance w) ∧ bank w = bk ∧
  Balance.active (balance w) = true ∧ Balance.bank_pk (balance w) = k ∧
  ((l' = l ∧ l !! i = Some (balance w)) ∨
   ((∀ j b, l !! j = Some b → LendingAccount.is_position k b = false) ∧
    balance w = Balance.opened k (i64_as_u64 now) ∧
    l' = <[i := balance w]> l ∧ ∃ b, l !! i = Some b ∧ Balance.active b = false)).
Proof.
  intros Hwf H. unfold find_or_create in H.
  destruct (position (LendingAccount.is_position k) l) as [j|] eqn:Hpos.
  - apply bind_ok in H as (b & Hb & H). injection H as <- <- <-. apply ok_or_ok in Hb.
    apply position_Some in Hpos as (x & Hx & Hp & _). det_ok.
    apply is_position_true in Hp as [? ?]. simpl. auto 10.
  - apply bind_ok in H as (j & Hj & H). injection H as <- <- <-. apply ok_or_ok in Hj.
    apply position_Some in Hj as (x & Hx & Hp & _). apply negb_true_iff in Hp.
    pose proof (proj1 (position_None _ _) Hpos) as Hnone. simpl.
    split_and!; try done.
    + eapply LendingAccount.wf_insert; [done|exact Hx|apply Balance.opened_wf|].
      simpl. intros _ c b Hc Hac Hk.
      exfalso. specialize (Hnone c b Hc).
      rewrite (proj2 (is_position_true k b) (conj Hac Hk)) in Hnone. done.
    + apply list_lookup_insert_eq. by eapply lookup_lt_Some.
    + right. eauto 10.
Qed.

(** Writing an updated or closed position back keeps the account well formed. *)
Lemma write_back_wf l i b w :
  LendingAccount.wf l → l !! i = Some b → Balance.active b = true → Balance.wf (balance w) →
  (Balance.active (balance w) = true → Balance.bank_pk (balance w) = Balance.bank_pk b) →
  LendingAccount.wf (write_back i w l).
Proof.
  intros Hwf Hi Hact Hb Hpk. eapply LendingAccount.wf_insert; [done..|].
  intros Ha j c Hj Hc Heq. rewrite (Hpk Ha) in Heq.
  by eapply (LendingAccount.wf_unique _ Hwf).
Qed.

(** Looking up a position never opens a second one for the
    same bank: an existing position is returned as it is; otherwise a fresh,
    empty one is opened in the first free slot, and only if all sixteen slots
    are taken is the operation refused.  The account stays well formed and no
    other slot changes. *)
Theorem find_or_create_spec k bk l now :
  LendingAccount.wf l →
  (∀ i l' w, find_or_create k bk l now = Ok (i, l', w) →
     LendingAccount.wf l' ∧ l' !! i = Some (balance w) ∧ bank w = bk ∧
     Balance.active (balance w) = true ∧ Balance.bank_pk (balance w) = k ∧
     (∀ j, j ≠ i → l' !! j = l !! j) ∧
     find k bk l' = Ok (i, w)) ∧
  (find_or_create k bk l now = Err LendingAccountBalanceSlotsFull ↔
     ∀ i b, l !! i = Some b → Balance.active b = true ∧ Balance.bank_pk b ≠ k) ∧
  find_or_create k bk l now ≠ Panic.
Proof.
  intros Hwf. split; [|split].
  - intros i l' w H. pose proof (find_or_create_ok _ _ _ _ _ _ _ Hwf H) as (Hwf' & Hi & Hb & Ha & Hpk & Hor).
    split_and!; try done.
    + intros j Hj. destruct Hor as [[-> _]|(_ & _ & -> & _)]; [done|].
      by apply list_lookup_insert_ne.
    + unfold find. destruct (position (LendingAccount.is_position k) l') as [j|] eqn:Hpos.
      * simpl. apply position_Some in Hpos as (x & Hx & Hp & _).
        apply is_position_true in Hp as [Hax Hkx].
        assert (j = i) as -> by (eapply (LendingAccount.wf_unique _ Hwf'); eauto; congruence).
        rewrite Hi. simpl. by destruct w; simpl in *; subst.
      * exfalso. rewrite position_None in Hpos. specialize (Hpos i _ Hi).
        by rewrite (proj2 (is_position_true k (balance w))) in Hpos.
  - unfold find_or_create.
    destruct (position (LendingAccount.is_position k) l) as [j|] eqn:Hpos.
    + apply position_Some in Hpos as (x & Hx & Hp & _). rewrite Hx. simpl. split; [done|].
      intros Hall. apply is_position_true in Hp as [? ?]. by destruct (Hall _ _ Hx).
    + rewrite position_None in Hpos. unfold LendingAccount.get_first_empty_balance.
      destruct (position (λ b, negb (Balance.active b)) l) as [j|] eqn:Hfree; simpl.
      * split; [done|]. intros Hall. apply position_Some in Hfree as (x & Hx & Hp & _).
        destruct (Hall _ _ Hx) as [Hact _]. by rewrite Hact in Hp.
      * split; [|done]. intros _ i b Hi. rewrite position_None in Hfree.
        specialize (Hfree i b Hi). apply negb_false_iff in Hfree. split; [done|].
        intros Hk. specialize (Hpos i b Hi). by rewrite (proj2 (is_position_true k b)) in Hpos.
  - unfold find_or_create.
    destruct (position (LendingAccount.is_position k) l) as [j|] eqn:Hpos.
    + apply position_Some in Hpos as (x & Hx & _). by rewrite Hx.
    + by destruct (LendingAccount.get_first_empty_balance l).
Qed.

Section EmissionTheorems.
Context {F : FixedOps} {L : FixedLaws F}.

(** A lender's position earns, for the time since its
    last update, its holdings in whole tokens times the emissions rate per
    token and year, capped by what the bank has left; the earned amount moves
    from the bank's remaining emissions to the position, and nothing else
    but the time stamp changes. *)
Theorem claim_emissions_formula w now w' :
  wf w → is_u64 now → claim_emissions w now = Ok w' →
  Balance.get_side (balance w) = Ok (Some Assets) →
  Bank.get_flag (bank w) EMISSIONS_FLAG_LENDING_ACTIVE = true →
  MIN_EMISSIONS_START_TIME ≤ Balance.last_update (balance w) →
  let period := now - Balance.last_update (balance w) in
  let tokens := fdiv (holdings w) (from_num (10 ^ Bank.mint_decimals (bank w))) in
  let earned := fmul (fmul (from_num period) tokens / 31536000)
                  (from_num (Bank.emissions_rate (bank w))) in
  let e := Z.min earned (Bank.emissions_remaining (bank w)) in
  0 ≤ period ∧ 0 ≤ e ∧
  Balance.emissions_outstanding (balance w') =
    Balance.emissions_outstanding (balance w) + e ∧
  Bank.emissions_remaining (bank w') = Bank.emissions_remaining (bank w) - e ∧
  Balance.last_update (balance w') = now ∧
  Balance.asset_shares (balance w') = Balance.asset_shares (balance w) ∧
  Balance.liability_shares (balance w') = Balance.liability_shares (balance w).
Proof.
  intros Hwf Hnow H Hside Hflag Hmin period tokens earned e.
  pose proof Hwf as [[Ha Hl Hem Hs] Hk _ _].
  pose proof (Bank.wf_emissions_remaining _ Hk). pose proof (Bank.wf_emissions_rate _ Hk).
  pose proof SCALE_pos.
  unfold claim_emissions, emissions_base in H. rewrite Hside, Hflag in H.
  apply bind_ok in H as (base & Hbase & H). apply bind_ok in Hbase as (s & Hs' & Hbase).
  injection Hs' as <-. apply bind_ok in Hbase as (amt & Hamt & Hbase). injection Hbase as <-.
  apply Bank.get_asset_amount_nn in Hamt as [-> Hamt]; [|done|apply (Bank.wf_asv _ Hk)].
  rewrite (proj2 (Z.ltb_ge _ _)) in H by done.
  apply bind_ok in H as (w1 & Hc & H). injection H as <-.
  apply bind_ok in Hc as (p & Hp & Hc). apply math_ok, u64_checked_some in Hp as [-> [Hp _]].
  apply bind_ok in Hc as (em & Hem' & Hc).
  apply calc_emissions_nn in Hem' as [-> He]; [|unfold from_num; nia|done|unfold from_num; nia].
  apply bind_ok in Hc as (o & Ho & Hc). apply math_ok, add_some in Ho as [-> _].
  apply bind_ok in Hc as (r & Hr & Hc). apply math_ok, sub_some in Hr as [-> _].
  injection Hc as <-. simpl.
  unfold e, earned, tokens, period, holdings. split_and!; try done; lia.
Qed.

(** Settling pays out the whole tokens of the
    position's outstanding emissions and keeps the fraction: what was
    outstanding plus what has just been earned is exactly what is paid plus
    what is still outstanding. *)
Theorem settle_emissions_pays_whole_tokens w now n w' :
  wf w → settle_emissions_and_get_transfer_amount w now = Ok (n, w') →
  is_u64 n ∧ 0 ≤ Balance.emissions_outstanding (balance w') < ONE ∧
  from_num n + Balance.emissions_outstanding (balance w') + Bank.emissions_remaining (bank w') =
    Balance.emissions_outstanding (balance w) + Bank.emissions_remaining (bank w).
Proof.
  intros Hwf H. apply settle_spec in H as (e & He & Hn & Hu & ->); [|done].
  pose proof (floor_bounds (Balance.emissions_outstanding (balance w) + e)).
  change ONE with SCALE. unfold effect. simpl. unfold from_num. rewrite Hn.
  split_and!; try done; try lia.
  rewrite <- Hn. apply Hu.
Qed.
End EmissionTheorems.

(** ** Examples

    A lender of 10 tokens in the example bank, with emissions running; a
    borrower of 5. *)
Definition demo_bank : Bank :=
  Bank.with_flags 3 (Bank.with_emissions_rate 1000000
    (Bank.with_emissions_remaining (from_num 777) Bank.demo_accrued)).
Definition demo_lender : BankAccountWrapper :=
  mkWrapper (Balance.mkBalance true 600 (from_num 10000000) 0 0 1700000000) demo_bank.
Definition demo_borrower : BankAccountWrapper :=
  mkWrapper (Balance.mkBalance true 600 0 (from_num 5000000) 0 1700000000) demo_bank.
Definition demo_now : Z := 1700003600.
(** The same lender where no emissions run: a position with a whole token of
    unsettled emissions cannot be closed. *)
Definition demo_plain_lender : BankAccountWrapper := mkWrapper (balance demo_lender) Bank.demo_accrued.

Lemma demo_lender_wf : wf demo_lender.
Proof. split; [split|split| |]; vm_compute; try discriminate; by right. Qed.
Lemma demo_plain_lender_wf : wf demo_plain_lender.
Proof. split; [split|split| |]; vm_compute; try discriminate; by right. Qed.
Lemma demo_borrower_wf : wf demo_borrower.
Proof. split; [split|split| |]; vm_compute; try discriminate; by left. Qed.

Definition demo_run (op : BalanceOp) (w : BankAccountWrapper) : BankAccountWrapper :=
  ok_value w (run op w demo_now).

Lemma balance_ops_keep_wf_witness :
  wf (demo_run (Increase (from_num 7000000) IncAny) demo_borrower).
Proof.
  apply (balance_ops_keep_wf (F := i80f48) (Increase (from_num 7000000) IncAny) demo_borrower demo_now).
  - apply demo_borrower_wf.
  - vm_compute. discriminate.
  - vm_compute. reflexivity.
Defined.

Lemma balance_ops_conserve_shares_witness :
  let w := demo_plain_lender in
  let w' := demo_run WithdrawAll demo_plain_lender in
  others_assets w ≤ others_assets w' ∧ others_liabs w ≤ others_liabs w' ∧
  (Balance.active (balance w') = true →
     others_assets w' = others_assets w ∧ others_liabs w' = others_liabs w ∧
     Balance.bank_pk (balance w') = Balance.bank_pk (balance w)) ∧
  fmul (others_assets w' - others_assets w) (Bank.asset_share_value (bank w))
    < ZERO_AMOUNT_THRESHOLD ∧
  fmul (others_liabs w' - others_liabs w) (Bank.liability_share_value (bank w))
    < ZERO_AMOUNT_THRESHOLD ∧
  bank_frame (bank w) (bank w') ∧
  Bank.emissions_remaining (bank w') ≤ Bank.emissions_remaining (bank w) ∧
  Bank.emissions_remaining (bank w') + Balance.emissions_outstanding (balance w')
    ≤ Bank.emissions_remaining (bank w) + Balance.emissions_outstanding (balance w).
Proof.
  apply (balance_ops_conserve_shares (F := i80f48) WithdrawAll demo_plain_lender demo_now).
  - apply demo_plain_lender_wf.
  - done.
  - vm_compute. reflexivity.
Defined.

Lemma increase_moves_value_witness :
  let w := demo_borrower in
  let d := from_num 7000000 in
  let w' := demo_run (Increase d IncAny) w in
  repaid_by w d + deposited_by w d = d ∧
  (repaid_by w d < debt w → deposited_by w d = 0) ∧
  repaid_by w d - Bank.liability_share_value (bank w) / SCALE - 1 ≤ debt w - debt w'
    ≤ repaid_by w d + 1 ∧
  deposited_by w d - Bank.asset_share_value (bank w) / SCALE - 1 ≤ holdings w' - holdings w
    ≤ deposited_by w d + 1.
Proof.
  apply (increase_moves_value (F := i80f48) demo_borrower (from_num 7000000) IncAny demo_now).
  - apply demo_borrower_wf.
  - vm_compute. discriminate.
  - vm_compute. reflexivity.
Defined.

Lemma decrease_moves_value_witness :
  let w := demo_lender in
  let d := from_num 12000000 in
  let w' := demo_run (Decrease d DecAny) w in
  withdrawn_by w d + borrowed_by w d = d ∧
  (withdrawn_by w d < holdings w → borrowed_by w d = 0) ∧
  withdrawn_by w d - Bank.asset_share_value (bank w) / SCALE - 1 ≤ holdings w - holdings w'
    ≤ withdrawn_by w d + 1 ∧
  borrowed_by w d - Bank.liability_share_value (bank w) / SCALE - 1 ≤ debt w' - debt w
    ≤ borrowed_by w d + 1 ∧
  fmul (Bank.total_liability_shares (bank w')) (Bank.liability_share_value (bank w'))
    ≤ fmul (Bank.total_asset_shares (bank w')) (Bank.asset_share_value (bank w')).
Proof.
  apply (decrease_moves_value (F := i80f48) demo_lender (from_num 12000000) DecAny demo_now).
  - apply demo_lender_wf.
  - vm_compute. discriminate.
  - vm_compute. reflexivity.
Defined.

Lemma operation_modes_enforced_witness :
  let w := demo_borrower in
  let d := from_num 3000000 in
  Operational ≠ Paused ∧
  (RepayOnly = RepayOnly → deposited_by w d < ZERO_AMOUNT_THRESHOLD) ∧
  (Operational = ReduceOnly → deposited_by w d ≤ ZERO_AMOUNT_THRESHOLD) ∧
  (RepayOnly ≠ BypassDepositLimit →
   BankConfig.is_deposit_limit_active (Bank.config (bank w)) = true →
   Balance.asset_shares (balance w)
     < Balance.asset_shares (balance (demo_run (Increase d RepayOnly) w)) →
   fmul (Bank.total_asset_shares (bank (demo_run (Increase d RepayOnly) w)))
       (Bank.asset_share_value (bank (demo_run (Increase d RepayOnly) w)))
     < from_num (BankConfig.deposit_limit (Bank.config (bank w)))).
Proof.
  refine (proj1 (operation_modes_enforced (F := i80f48) demo_borrower (from_num 3000000) demo_now
                   (demo_run (Increase (from_num 3000000) RepayOnly) demo_borrower) _ _) RepayOnly _).
  - apply demo_borrower_wf.
  - vm_compute. discriminate.
  - vm_compute. reflexivity.
Defined.

Definition demo_withdrawn : Z * BankAccountWrapper :=
  ok_value (0, demo_plain_lender) (withdraw_all demo_plain_lender demo_now).
Lemma close_out_rounds_for_bank_witness :
  let n := fst demo_withdrawn in
  let w' := snd demo_withdrawn in
  let fees k := Bank.collected_insurance_fees_outstanding k in
  from_num n ≤ holdings demo_plain_lender < from_num n + ONE ∧
  from_num n + (fees (bank w') - fees (bank demo_plain_lender)) = holdings demo_plain_lender ∧
  Bank.total_asset_shares (bank w') =
    Bank.total_asset_shares (bank demo_plain_lender) - Balance.asset_shares (balance demo_plain_lender) ∧
  balance w' = Balance.empty_deactivated.
Proof.
  refine (proj1 (close_out_rounds_for_bank (F := i80f48) demo_plain_lender demo_now
                   (fst demo_withdrawn) (snd demo_withdrawn) _) _).
  - apply demo_plain_lender_wf.
  - vm_compute. reflexivity.
Defined.

Lemma find_or_create_spec_witness :
  find_or_create 600 demo_bank LendingAccount.zeroed demo_now ≠ Panic.
Proof. refine (proj2 (proj2 (find_or_create_spec _ _ _ _ LendingAccount.zeroed_wf))). Defined.

Lemma claim_emissions_formula_witness :
  let w := demo_lender in
  let w' := ok_value w (claim_emissions w demo_now) in
  let period := demo_now - Balance.last_update (balance w) in
  let tokens := fdiv (holdings w) (from_num (10 ^ Bank.mint_decimals (bank w))) in
  let earned := fmul (fmul (from_num period) tokens / 31536000)
                  (from_num (Bank.emissions_rate (bank w))) in
  let e := Z.min earned (Bank.emissions_remaining (bank w)) in
  0 ≤ period ∧ 0 ≤ e ∧
  Balance.emissions_outstanding (balance w') = Balance.emissions_outstanding (balance w) + e ∧
  Bank.emissions_remaining (bank w') = Bank.emissions_remaining (bank w) - e ∧
  Balance.last_update (balance w') = demo_now ∧
  Balance.asset_shares (balance w') = Balance.asset_shares (balance w) ∧
  Balance.liability_shares (balance w') = Balance.liability_shares (balance w).
Proof.
  apply (claim_emissions_formula (F := i80f48) demo_lender demo_now).
  - apply demo_lender_wf.
  - vm_compute. split; discriminate.
  - vm_compute. reflexivity.
  - vm_compute. reflexivity.
  - vm_compute. reflexivity.
  - vm_compute. discriminate.
Defined.

Definition demo_settled : Z * BankAccountWrapper :=
  ok_value (0, demo_lender) (settle_emissions_and_get_transfer_amount demo_lender demo_now).
Lemma settle_emissions_pays_whole_tokens_witness :
  let n := fst demo_settled in
  let w' := snd demo_settled in
  is_u64 n ∧ 0 ≤ Balance.emissions_outstanding (balance w') < ONE ∧
  from_num n + Balance.emissions_outstanding (balance w') + Bank.emissions_remaining (bank w') =
    Balance.emissions_outstanding (balance demo_lender) + Bank.emissions_remaining (bank demo_lender).
Proof.
  apply (settle_emissions_pays_whole_tokens (F := i80f48) demo_lender demo_now).
  - apply demo_lender_wf.
  - vm_compute. reflexivity.
Defined.
End BankAccountWrapper.
