(* ===== verification/Risk.v ===== *)
(** * The risk engine

    [BankAccountWithPriceFeed] and [RiskEngine] ([state/marginfi_account.rs]):
    the weighted value of an account's deposits and debts, and the checks the
    instructions make of it.

    The accounts of an instruction's remaining accounts are [AccountInfo]s; the
    banks they refer to are read from a store [banks] of bank accounts.  The
    code reads a bank again each time it values a position; within one check
    nothing changes it, so the model reads it once, when the position is
    loaded. *)
From S2P Require Import Prelude Errors Fixed Constants Utils GroupState InterestRate BankState Price Account BankAccount.

Notation BankStore := (gmap Z Bank) (only parsing).

Module BankAccountWithPriceFeed.
Record BankAccountWithPriceFeed := mkBA {
  bank : Bank;
  price_feed : MarginfiResult OraclePriceFeedAdapter.OraclePriceFeedAdapter;
  balance : Balance
}.

Section Ops.
Context {F : FixedOps} {O : OracleSdk}.

(** One position: its bank account, then its oracle account. *)
Definition load_one (banks : BankStore) (clock : Clock) (b : Balance) (bank_ai oracle_ai : AccountInfo)
    : MarginfiResult BankAccountWithPriceFeed :=
  let? _ := check (Balance.bank_pk b =? ai_key bank_ai) InvalidBankAccount in
  let? k := ok_or (banks !! ai_key bank_ai) AccountNotInitialized in
  match OraclePriceFeedAdapter.try_from_bank_config (Bank.config k) [oracle_ai] clock with
  | Panic => Panic
  | price_adapter => Ok (mkBA k price_adapter b)
  end.

(** The positions in order, two remaining accounts each. *)
Fixpoint load_all (banks : BankStore) (clock : Clock) (bs : list Balance) (ais : list AccountInfo)
    : MarginfiResult (list BankAccountWithPriceFeed) :=
  match bs with
  | [] => Ok []
  | b :: bs =>
      match ais with
      | bank_ai :: oracle_ai :: ais =>
          let? a := load_one banks clock b bank_ai oracle_ai in
          let? l := load_all banks clock bs ais in
          Ok (a :: l)
      | _ => Panic
      end
  end.

Definition load (banks : BankStore) (clock : Clock) (l : LendingAccount)
    (remaining_ais : list AccountInfo) : MarginfiResult (list BankAccountWithPriceFeed) :=
  let active_balances := LendingAccount.active_balances l in
  let? _ := check (Z.of_nat (length active_balances) * 2 <=? Z.of_nat (length remaining_ais))
              MissingPythOrBankAccount in
  load_all banks clock active_balances remaining_ais.

(** Every oracle error is reported as a stale oracle. *)
Definition try_get_price_feed (a : BankAccountWithPriceFeed)
    : MarginfiResult OraclePriceFeedAdapter.OraclePriceFeedAdapter :=
  match price_feed a with
  | Ok f => Ok f
  | Err _ => Err StaleOracle
  | Panic => Panic
  end.

Definition calc_weighted_assets (a : BankAccountWithPriceFeed) (requirement_type : RequirementType)
    : MarginfiResult I80F48 :=
  let k := bank a in
  match BankConfig.risk_tier (Bank.config k) with
  | Collateral =>
      match try_get_price_feed a, requirement_type with
      | Err _, Initial => Ok ZERO
      | feed, _ =>
          let? f := feed in
          let asset_weight := BankConfig.get_weight (Bank.config k) requirement_type Assets in
          let? lower_price := OraclePriceFeedAdapter.get_price_of_type f
                                (get_oracle_price_type requirement_type) (Some Low) in
          let? asset_weight :=
            match requirement_type with
            | Initial =>
                let? d := Bank.maybe_get_asset_weight_init_discount k lower_price in
                match d with
                | Some discount => math (checked_mul asset_weight discount)
                | None => Ok asset_weight
                end
            | _ => Ok asset_weight
            end in
          let? amount := Bank.get_asset_amount k (Balance.asset_shares (balance a)) in
          calc_value amount lower_price (Bank.mint_decimals k) (Some asset_weight)
      end
  | Isolated => Ok ZERO
  end.

Definition calc_weighted_liabs (a : BankAccountWithPriceFeed) (requirement_type : RequirementType)
    : MarginfiResult I80F48 :=
  let k := bank a in
  let? f := try_get_price_feed a in
  let liability_weight := BankConfig.get_weight (Bank.config k) requirement_type Liabilities in
  let? higher_price := OraclePriceFeedAdapter.get_price_of_type f
                         (get_oracle_price_type requirement_type) (Some High) in
  let? amount := Bank.get_liability_amount k (Balance.liability_shares (balance a)) in
  calc_value amount higher_price (Bank.mint_decimals k) (Some liability_weight).

Definition calc_weighted_assets_and_liabilities_values (a : BankAccountWithPriceFeed)
    (requirement_type : RequirementType) : MarginfiResult (I80F48 * I80F48) :=
  let? side := Balance.get_side (balance a) in
  match side with
  | Some Assets => let? v := calc_weighted_assets a requirement_type in Ok (v, ZERO)
  | Some Liabilities => let? v := calc_weighted_liabs a requirement_type in Ok (ZERO, v)
  | None => Ok (ZERO, ZERO)
  end.

Definition is_empty (a : BankAccountWithPriceFeed) (side : BalanceSide) : bool :=
  Balance.is_empty (balance a) side.
End Ops.
End BankAccountWithPriceFeed.
Notation BankAccountWithPriceFeed := BankAccountWithPriceFeed.BankAccountWithPriceFeed (only parsing).

Module RiskEngine.
Import BankAccountWithPriceFeed.
Record RiskEngine := mkRiskEngine {
  marginfi_account : MarginfiAccount;
  bank_accounts_with_price : list BankAccountWithPriceFeed
}.

Section Ops.
Context {F : FixedOps} {O : OracleSdk}.

Definition new_no_flashloan_check (banks : BankStore) (clock : Clock) (m : MarginfiAccount)
    (remaining_ais : list AccountInfo) : MarginfiResult RiskEngine :=
  let? bs := load banks clock (MarginfiAccount.lending_account m) remaining_ais in
  Ok (mkRiskEngine m bs).

Definition new (banks : BankStore) (clock : Clock) (m : MarginfiAccount)
    (remaining_ais : list AccountInfo) : MarginfiResult RiskEngine :=
  let? _ := check (negb (MarginfiAccount.get_flag m IN_FLASHLOAN_FLAG)) AccountInFlashloan in
  new_no_flashloan_check banks clock m remaining_ais.

(** The loop of [get_account_health_components], from running totals. *)
Fixpoint sum_components (requirement_type : RequirementType) (l : list BankAccountWithPriceFeed)
    (total_assets total_liabilities : I80F48) : MarginfiResult (I80F48 * I80F48) :=
  match l with
  | [] => Ok (total_assets, total_liabilities)
  | a :: l =>
      let? '(assets, liabilities) :=
        calc_weighted_assets_and_liabilities_values a requirement_type in
      let? total_assets := math (checked_add total_assets assets) in
      let? total_liabilities := math (checked_add total_liabilities liabilities) in
      sum_components requirement_type l total_assets total_liabilities
  end.

(** [RiskRequirementType::to_weight_type] is the identity on the three
    requirements. *)
Definition get_account_health_components (e : RiskEngine) (requirement_type : RequirementType)
    : MarginfiResult (I80F48 * I80F48) :=
  sum_components requirement_type (bank_accounts_with_price e) ZERO ZERO.

Definition get_account_health (e : RiskEngine) (requirement_type : RequirementType)
    : MarginfiResult I80F48 :=
  let? '(assets, liabs) := get_account_health_components e requirement_type in
  math (checked_sub assets liabs).

Definition balances_with_liabilities (l : list BankAccountWithPriceFeed)
    : list BankAccountWithPriceFeed :=
  filter (λ a, is_empty a Liabilities = false) l.
Definition is_isolated (a : BankAccountWithPriceFeed) : bool :=
  bool_decide (BankConfig.risk_tier (Bank.config (bank a)) = Isolated).

Definition check_account_risk_tiers (e : RiskEngine) : MarginfiResult unit :=
  let with_liabs := balances_with_liabilities (bank_accounts_with_price e) in
  let n_balances_with_liablities := length with_liabs in
  let is_in_isolated_risk_tier := existsb is_isolated with_liabs in
  check (negb is_in_isolated_risk_tier || Nat.eqb n_balances_with_liablities 1)
    IsolatedAccountIllegalState.

Definition check_account_health (e : RiskEngine) (requirement_type : RequirementType)
    : MarginfiResult unit :=
  let? '(assets, liabs) := get_account_health_components e requirement_type in
  let? _ := check (geb assets liabs) RiskEngineInitRejected in
  check_account_risk_tiers e.

Definition check_account_init_health (banks : BankStore) (clock : Clock) (m : MarginfiAccount)
    (remaining_ais : list AccountInfo) : MarginfiResult unit :=
  if MarginfiAccount.get_flag m IN_FLASHLOAN_FLAG then Ok tt
  else
    let? e := new_no_flashloan_check banks clock m remaining_ais in
    check_account_health e Initial.

(** [iter().find(|a| a.balance.bank_pk == *bank_pk)] *)
Definition find_bank (bank_pk : Pubkey) (l : list BankAccountWithPriceFeed)
    : option BankAccountWithPriceFeed :=
  i ← position (λ a, Balance.bank_pk (balance a) =? bank_pk) l; l !! i.

Definition check_pre_liquidation_condition_and_get_account_health (e : RiskEngine)
    (bank_pk : Pubkey) : MarginfiResult I80F48 :=
  let? _ := check (negb (MarginfiAccount.get_flag (marginfi_account e) IN_FLASHLOAN_FLAG))
              AccountInFlashloan in
  let? a := ok_or (find_bank bank_pk (bank_accounts_with_price e)) LendingAccountBalanceNotFound in
  let? _ := check (negb (is_empty a Liabilities)) IllegalLiquidation in
  let? _ := check (is_empty a Assets) IllegalLiquidation in
  let? '(assets, liabs) := get_account_health_components e Maintenance in
  let? account_health := math (checked_sub assets liabs) in
  let? _ := check (account_health <=? ZERO) IllegalLiquidation in
  Ok account_health.

Definition check_post_liquidation_condition_and_get_account_health (e : RiskEngine)
    (bank_pk : Pubkey) (pre_liquidation_health : I80F48) : MarginfiResult I80F48 :=
  let? _ := check (negb (MarginfiAccount.get_flag (marginfi_account e) IN_FLASHLOAN_FLAG))
              AccountInFlashloan in
  let? a := unwrap (find_bank bank_pk (bank_accounts_with_price e)) in
  let? _ := check (negb (is_empty a Liabilities)) IllegalLiquidation in
  let? _ := check (is_empty a Assets) IllegalLiquidation in
  let? '(assets, liabs) := get_account_health_components e Maintenance in
  let? account_health := math (checked_sub assets liabs) in
  let? _ := check (account_health <=? ZERO) IllegalLiquidation in
  let? _ := check (pre_liquidation_health <? account_health) IllegalLiquidation in
  Ok account_health.

Definition check_account_bankrupt (e : RiskEngine) : MarginfiResult unit :=
  let? '(total_assets, total_liabilities) := get_account_health_components e Equity in
  let? _ := check (negb (MarginfiAccount.get_flag (marginfi_account e) IN_FLASHLOAN_FLAG))
              AccountInFlashloan in
  let? _ := check (total_assets <? total_liabilities) AccountNotBankrupt in
  check ((total_assets <? BANKRUPT_THRESHOLD) && (ZERO_AMOUNT_THRESHOLD <? total_liabilities))
    AccountNotBankrupt.
End Ops.

(** ** Correctness *)
Section Lemmas.
Context {F : FixedOps} {L : FixedLaws F} {O : OracleSdk}.

(** The values the positions have under a requirement. *)
Definition values (req : RequirementType) (l : list BankAccountWithPriceFeed)
    (vals : list (Z * Z)) : Prop :=
  Forall2 (λ a v, calc_weighted_assets_and_liabilities_values a req = Ok v) l vals.

Lemma sum_components_ok req l A B A' B' :
  sum_components req l A B = Ok (A', B') →
  ∃ vals, values req l vals ∧ A' = A + sumZ fst vals ∧ B' = B + sumZ snd vals.
Proof.
  revert A B; induction l as [|a l IH]; intros A B H; simpl in H.
  - injection H as <- <-. exists []. split; [constructor|simpl; lia].
  - apply bind_ok in H as ([x y] & Hv & H). apply bind_ok in H as (s & Hs & H).
    apply math_ok, add_some in Hs as [-> _]. apply bind_ok in H as (t & Ht & H).
    apply math_ok, add_some in Ht as [-> _].
    apply IH in H as (vals & Hvals & -> & ->).
    exists ((x, y) :: vals). split; [by constructor|]. simpl. lia.
Qed.

Lemma health_components_ok e req A B :
  get_account_health_components e req = Ok (A, B) →
  ∃ vals, values req (bank_accounts_with_price e) vals ∧ A = sumZ fst vals ∧ B = sumZ snd vals.
Proof. apply sum_components_ok. Qed.

Lemma find_bank_ok k l a :
  find_bank k l = Some a → a ∈ l ∧ Balance.bank_pk (balance a) = k.
Proof.
  unfold find_bank. intros H. apply bind_Some in H as (i & Hi & Ha).
  apply position_Some in Hi as (x & Hx & Hp & _). det_ok. bool_prop.
  split; [|done]. by eapply list_elem_of_lookup_2.
Qed.

Lemma load_all_ok banks clock bs ais l :
  load_all banks clock bs ais = Ok l →
  map balance l = bs ∧ ∀ a, a ∈ l → banks !! Balance.bank_pk (balance a) = Some (bank a).
Proof.
  revert ais l; induction bs as [|b bs IH]; intros ais l H; simpl in H.
  { injection H as <-. split; [done|]. intros a []%elem_of_nil. }
  destruct ais as [|x [|y ais]]; [done..|].
  apply bind_ok in H as (a & Ha & H). apply bind_ok in H as (l' & Hl & H). injection H as <-.
  apply IH in Hl as [Hmap Hin].
  unfold load_one in Ha. apply bind_ok in Ha as (u & Hpk & Ha). apply check_ok in Hpk.
  apply bind_ok in Ha as (k & Hk & Ha). apply ok_or_ok in Hk. bool_prop.
  assert (balance a = b ∧ bank a = k) as [Hb Hbk]
    by (destruct (OraclePriceFeedAdapter.try_from_bank_config _ _ _); by simplify_eq/=).
  simpl. rewrite Hmap, Hb. split; [done|].
  intros a' [->|Hin']%elem_of_cons; [|by apply Hin]. by rewrite Hb, Hpk, Hbk.
Qed.

Lemma discount_range k price d :
  Bank.wf k → 0 ≤ price → 0 ≤ BankConfig.total_asset_value_init_limit (Bank.config k) →
  Bank.maybe_get_asset_weight_init_discount k price = Ok (Some d) → 0 ≤ d ≤ ONE.
Proof.
  intros Hwf Hp Hl H. unfold Bank.maybe_get_asset_weight_init_discount in H.
  destruct (BankConfig.usd_init_limit_active _); [|done].
  apply bind_ok in H as (t & Ht & H). apply Bank.get_asset_amount_nn in Ht as [-> Ht]; [|apply Hwf..].
  apply bind_ok in H as (v & Hv & H). apply calc_value_nn in Hv as [-> Hv]; [|done..].
  destruct (_ <? _) eqn:E; [|done]. bool_prop.
  apply bind_ok in H as (q & Hq & H). injection H as <-. apply math_ok in Hq.
  assert (0 ≤ from_num (BankConfig.total_asset_value_init_limit (Bank.config k)))
    by (unfold from_num; pose proof SCALE_pos; nia).
  apply div_some in Hq as (? & -> & _); [|done..].
  split; [by apply fdiv_nonneg|apply fdiv_le_ONE; lia].
Qed.
End Lemmas.

(** What the comparison of requirements needs of a position: a valid bank and
    balance, and a feed whose biased prices are non-negative and the same
    for both price types. *)
Record steady {F : FixedOps} {O : OracleSdk} (a : BankAccountWithPriceFeed) : Prop := {
  steady_bank : Bank.wf (bank a);
  steady_config : BankConfig.valid (Bank.config (bank a));
  steady_limit : 0 ≤ BankConfig.total_asset_value_init_limit (Bank.config (bank a));
  steady_balance : Balance.wf (balance a);
  steady_price f b : price_feed a = Ok f →
    OraclePriceFeedAdapter.get_price_of_type f TimeWeighted (Some b) =
    OraclePriceFeedAdapter.get_price_of_type f RealTime (Some b);
  steady_nonneg f b p : price_feed a = Ok f →
    OraclePriceFeedAdapter.get_price_of_type f RealTime (Some b) = Ok p → 0 ≤ p
}.

Section Requirements.
Context {F : FixedOps} {L : FixedLaws F} {O : OracleSdk}.

Lemma weighted_assets_mono a v v' :
  steady a → calc_weighted_assets a Initial = Ok v → calc_weighted_assets a Maintenance = Ok v' →
  v ≤ v'.
Proof.
  intros [Hk Hc Hlim Hb Hst Hnn] Hi Hm. unfold calc_weighted_assets, try_get_price_feed in *.
  destruct Hc as (Hw & Hwm & _).
  destruct (BankConfig.risk_tier _); [|by injection Hi as <-; injection Hm as <-].
  destruct (price_feed a) as [f|e|]; [|done..]. simpl in Hi, Hm.
  apply bind_ok in Hm as (p & Hp & Hm). apply bind_ok in Hm as (amt & Hamt & Hm).
  rewrite (Hst f Low eq_refl), Hp in Hi. simpl in Hi.
  pose proof (Hnn f Low p eq_refl Hp) as Hp0.
  apply bind_ok in Hi as (w & Hw' & Hi). rewrite Hamt in Hi. simpl in Hi.
  apply Bank.get_asset_amount_nn in Hamt as [-> Hamt]; [|apply Hb|apply Hk].
  assert (0 ≤ w ≤ BankConfig.asset_weight_init (Bank.config (bank a))) as Hwr.
  { apply bind_ok in Hw' as (d & Hd & Hw'). destruct d as [d|].
    - apply discount_range in Hd; [|done..]. apply math_ok, mul_some in Hw' as [-> _]; [|lia..].
      split; [apply fmul_nonneg; lia|apply fmul_le_l; lia].
    - injection Hw' as <-. lia. }
  apply calc_value_nn in Hi as [-> _]; [|done|done|intros x [= <-]; lia].
  apply calc_value_nn in Hm as [-> _]; [|done|done|intros x [= <-]; lia].
  apply fdiv_mono'. apply fmul_mono; [|lia]. split; [apply fmul_nonneg; lia|].
  apply fmul_mono; lia.
Qed.

Lemma weighted_liabs_mono a v v' :
  steady a → calc_weighted_liabs a Initial = Ok v → calc_weighted_liabs a Maintenance = Ok v' →
  v' ≤ v.
Proof.
  intros [Hk Hc Hlim Hb Hst Hnn] Hi Hm. unfold calc_weighted_liabs, try_get_price_feed in *.
  destruct Hc as (_ & _ & Hw & _). unfold ONE, SCALE in Hw.
  destruct (price_feed a) as [f|e|]; [|done..]. simpl in Hi, Hm.
  apply bind_ok in Hm as (p & Hp & Hm). apply bind_ok in Hm as (amt & Hamt & Hm).
  rewrite (Hst f High eq_refl), Hp in Hi. simpl in Hi.
  pose proof (Hnn f High p eq_refl Hp) as Hp0. rewrite Hamt in Hi. simpl in Hi.
  pose proof (Bank.wf_lsv_pos _ Hk).
  apply Bank.get_liability_amount_nn in Hamt as [-> Hamt]; [|apply Hb|lia].
  apply calc_value_nn in Hi as [-> _]; [|done|done|intros x [= <-]; lia].
  apply calc_value_nn in Hm as [-> _]; [|done|done|intros x [= <-]; lia].
  apply fdiv_mono'. apply fmul_mono; [|lia]. split; [apply fmul_nonneg; lia|].
  apply fmul_mono; lia.
Qed.

Lemma weighted_values_mono a v v' :
  steady a → calc_weighted_assets_and_liabilities_values a Initial = Ok v →
  calc_weighted_assets_and_liabilities_values a Maintenance = Ok v' →
  fst v ≤ fst v' ∧ snd v' ≤ snd v.
Proof.
  intros Hs Hi Hm. unfold calc_weighted_assets_and_liabilities_values in *.
  apply bind_ok in Hi as (s & Hsd & Hi). rewrite Hsd in Hm. simpl in Hm.
  destruct s as [[]|].
  - apply bind_ok in Hi as (x & Hx & Hi). apply bind_ok in Hm as (y & Hy & Hm).
    injection Hi as <-. injection Hm as <-. split; [by eapply weighted_assets_mono|done].
  - apply bind_ok in Hi as (x & Hx & Hi). apply bind_ok in Hm as (y & Hy & Hm).
    injection Hi as <-. injection Hm as <-. split; [done|by eapply weighted_liabs_mono].
  - by injection Hi as <-; injection Hm as <-.
Qed.

Lemma values_mono l vi vm :
  Forall steady l → values Initial l vi → values Maintenance l vm →
  sumZ fst vi ≤ sumZ fst vm ∧ sumZ snd vm ≤ sumZ snd vi.
Proof.
  intros Hs Hi. revert vm Hs. induction Hi as [|a v l vi Hv Hi IH]; intros vm Hs Hm.
  - inversion Hm; subst. done.
  - inversion Hm as [|? v' ? vm' Hv' Hm']; subst. inversion Hs; subst.
    destruct (IH vm' ltac:(done) Hm').
    destruct (weighted_values_mono a v v') as [? ?]; [done..|].
    unfold sumZ in *. simpl. lia.
Qed.

(** C28: an account that meets the initial
    requirement is not liquidatable at the same prices: every deposit counts
    at least as much and every debt at most as much towards the maintenance
    requirement, so the maintenance health is not negative.  (The weights are
    those of validated configurations, the collateral discount included.) *)
Theorem init_health_implies_maintenance e A B A' B' :
  Forall steady (bank_accounts_with_price e) →
  get_account_health_components e Initial = Ok (A, B) →
  get_account_health_components e Maintenance = Ok (A', B') →
  A ≤ A' ∧ B' ≤ B ∧
  (check_account_health e Initial = Ok tt → 0 ≤ A' - B').
Proof.
  intros Hs Hi Hm.
  pose proof (health_components_ok _ _ _ _ Hi) as (vi & Hvi & -> & ->).
  pose proof (health_components_ok _ _ _ _ Hm) as (vm & Hvm & -> & ->).
  destruct (values_mono _ _ _ Hs Hvi Hvm). split_and!; [done..|].
  intros Hc. unfold check_account_health in Hc. rewrite Hi in Hc. simpl in Hc.
  apply bind_ok in Hc as (u & Hu & _). apply check_ok in Hu. bool_prop. lia.
Qed.

(** Outside a flashloan the health check only passes
    when every position could be loaded with its own bank and a feed, the
    weighted deposits cover the weighted debts, and an account that owes to
    an isolated bank owes to no other; inside a flashloan it always passes. *)
Theorem init_health_check_sound banks clock m ais :
  (MarginfiAccount.get_flag m IN_FLASHLOAN_FLAG = true →
     check_account_init_health banks clock m ais = Ok tt) ∧
  (MarginfiAccount.get_flag m IN_FLASHLOAN_FLAG = false →
   check_account_init_health banks clock m ais = Ok tt →
   ∃ es vals,
     load banks clock (MarginfiAccount.lending_account m) ais = Ok es ∧
     map balance es = LendingAccount.active_balances (MarginfiAccount.lending_account m) ∧
     (∀ a, a ∈ es → banks !! Balance.bank_pk (balance a) = Some (bank a)) ∧
     values Initial es vals ∧ sumZ snd vals ≤ sumZ fst vals ∧
     (∀ a, a ∈ balances_with_liabilities es → is_isolated a = true →
        balances_with_liabilities es = [a])).
Proof.
  unfold check_account_init_health. split; intros Hf; rewrite Hf; [done|]. intros H.
  apply bind_ok in H as (e & He & H). apply bind_ok in He as (es & Hload & He).
  injection He as <-.
  apply bind_ok in H as ([A B] & Hc & H). apply bind_ok in H as (u & Hu & H).
  apply check_ok in Hu. bool_prop.
  apply health_components_ok in Hc as (vals & Hvals & -> & ->). simpl in *.
  exists es, vals. split; [done|].
  pose proof Hload as Hl. unfold load in Hl. apply bind_ok in Hl as (u' & _ & Hl).
  apply load_all_ok in Hl as [Hmap Hbanks]. split_and!; try done.
  intros a Ha Hiso. unfold check_account_risk_tiers in H. apply check_ok in H. simpl in H.
  assert (existsb is_isolated (balances_with_liabilities es) = true) as Hex.
  { apply existsb_exists. exists a. split; [by apply list_elem_of_In|done]. }
  rewrite Hex in H. simpl in H. apply Nat.eqb_eq in H.
  destruct (balances_with_liabilities es) as [|x [|]]; [done| |done].
  by apply list_elem_of_singleton in Ha as ->.
Qed.

Lemma post_check_improves e bank_pk h0 h :
  check_post_liquidation_condition_and_get_account_health e bank_pk h0 = Ok h → h0 < h.
Proof.
  intros Hp. unfold check_post_liquidation_condition_and_get_account_health in Hp.
  apply bind_ok in Hp as (? & _ & Hp). apply bind_ok in Hp as (? & _ & Hp).
  apply bind_ok in Hp as (? & _ & Hp). apply bind_ok in Hp as (? & _ & Hp).
  apply bind_ok in Hp as ([A B] & _ & Hp). apply bind_ok in Hp as (hl & _ & Hp).
  apply bind_ok in Hp as (? & _ & Hp). apply bind_ok in Hp as (? & Hlt & Hp).
  apply check_ok in Hlt. injection Hp as <-. bool_prop. done.
Qed.

(** What the two liquidation checks have in common. *)
Lemma liquidation_check_parts e bank_pk h0 h :
  (check_pre_liquidation_condition_and_get_account_health e bank_pk = Ok h ∨
   check_post_liquidation_condition_and_get_account_health e bank_pk h0 = Ok h) →
  ∃ a A B, MarginfiAccount.get_flag (marginfi_account e) IN_FLASHLOAN_FLAG = false ∧
    find_bank bank_pk (bank_accounts_with_price e) = Some a ∧
    is_empty a Liabilities = false ∧ is_empty a Assets = true ∧
    get_account_health_components e Maintenance = Ok (A, B) ∧ h = A - B ∧ h ≤ 0.
Proof.
  intros [H|H];
    [unfold check_pre_liquidation_condition_and_get_account_health in H
    |unfold check_post_liquidation_condition_and_get_account_health in H];
    apply bind_ok in H as (? & Hf & H); apply bind_ok in H as (a & Hfind & H);
    apply bind_ok in H as (? & Hl & H); apply bind_ok in H as (? & Ha & H);
    apply bind_ok in H as ([A B] & Hc & H); apply bind_ok in H as (hl & Hx & H);
    apply bind_ok in H as (? & Hle & H);
    try (apply bind_ok in H as (? & _ & H));
    injection H as <-; exists a, A, B;
    first [apply ok_or_ok in Hfind | apply unwrap_ok in Hfind];
    apply check_ok in Hf, Hl, Ha, Hle; apply math_ok, sub_some in Hx as [-> _];
    bool_prop; split_and!; done.
Qed.

(** An account can only be liquidated outside
    a flashloan when its maintenance health is not positive and it owes to the
    given bank without also holding deposits there; a liquidation only passes
    when it left some of that debt, strictly improved the health and did not
    bring it above the maintenance requirement. *)
Theorem liquidation_checks_bound_health e bank_pk h0 h :
  (check_pre_liquidation_condition_and_get_account_health e bank_pk = Ok h ∨
   check_post_liquidation_condition_and_get_account_health e bank_pk h0 = Ok h) →
  MarginfiAccount.get_flag (marginfi_account e) IN_FLASHLOAN_FLAG = false ∧
  (∃ a, a ∈ bank_accounts_with_price e ∧ Balance.bank_pk (balance a) = bank_pk ∧
     EMPTY_BALANCE_THRESHOLD ≤ Balance.liability_shares (balance a) ∧
     Balance.asset_shares (balance a) < EMPTY_BALANCE_THRESHOLD) ∧
  (∃ vals, values Maintenance (bank_accounts_with_price e) vals ∧
     h = sumZ fst vals - sumZ snd vals) ∧
  h ≤ 0 ∧
  (check_post_liquidation_condition_and_get_account_health e bank_pk h0 = Ok h → h0 < h).
Proof.
  intros H. destruct (liquidation_check_parts _ _ _ _ H)
    as (a & A & B & Hf & Hfind & Hl & Ha & Hc & -> & Hle).
  pose proof (post_check_improves e bank_pk h0 (A - B)) as Hpost.
  apply find_bank_ok in Hfind as [Hin Hpk].
  apply health_components_ok in Hc as (vals & Hvals & -> & ->).
  unfold is_empty, Balance.is_empty in Hl, Ha. bool_prop.
  split_and!; eauto 10.
Qed.

Lemma check_account_bankrupt_ok e u :
  check_account_bankrupt e = Ok u →
  ∃ A B, get_account_health_components e Equity = Ok (A, B) ∧
    MarginfiAccount.get_flag (marginfi_account e) IN_FLASHLOAN_FLAG = false ∧
    A < B ∧ A < BANKRUPT_THRESHOLD ∧ ZERO_AMOUNT_THRESHOLD < B.
Proof.
  unfold check_account_bankrupt. intros H. apply bind_ok in H as ([A B] & Hc & H).
  apply bind_ok in H as (? & Hf & H). apply bind_ok in H as (? & Hlt & H).
  apply check_ok in Hf, Hlt, H. bool_prop. by exists A, B.
Qed.

(** An account counts as bankrupt exactly when, unweighted
    and outside a flashloan, its deposits are worth less than its debts and
    less than 0.1 USD, and its debts more than 0.0001 USD. *)
Theorem bankruptcy_check_spec e A B :
  get_account_health_components e Equity = Ok (A, B) →
  (check_account_bankrupt e = Ok tt ↔
     MarginfiAccount.get_flag (marginfi_account e) IN_FLASHLOAN_FLAG = false ∧
     A < B ∧ A < BANKRUPT_THRESHOLD ∧ ZERO_AMOUNT_THRESHOLD < B) ∧
  ∃ vals, values Equity (bank_accounts_with_price e) vals ∧ A = sumZ fst vals ∧ B = sumZ snd vals.
Proof.
  intros Hc. split; [|by apply health_components_ok]. split.
  - intros (A' & B' & Hc' & ?)%check_account_bankrupt_ok. rewrite Hc in Hc'. by injection Hc' as <- <-.
  - intros (Hf & H1 & H2 & H3). unfold check_account_bankrupt. rewrite Hc. simpl. rewrite Hf. simpl.
    rewrite !(proj2 (Z.ltb_lt _ _)) by done. done.
Qed.

End Requirements.

(** ** Examples

    An account with 100 tokens deposited in one bank and a debt in another,
    both quoted at 1.00 +- 0.01 USD. *)
#[local] Existing Instance demo_oracle_sdk.

Definition demo_deposit : BankAccountWithPriceFeed :=
  mkBA Bank.demo_bank (Ok (OraclePriceFeedAdapter.APythLegacy demo_feed))
    (Balance.mkBalance true 600 (from_num 100000000) 0 0 0).
Definition demo_debt (tokens : Z) : BankAccountWithPriceFeed :=
  mkBA Bank.demo_bank (Ok (OraclePriceFeedAdapter.APythLegacy demo_feed))
    (Balance.mkBalance true 610 0 (from_num (tokens * 1000000)) 0 0).
Definition demo_lending_account (tokens : Z) : LendingAccount :=
  balance demo_deposit :: balance (demo_debt tokens) :: replicate 14 Balance.empty_deactivated.
Definition demo_account (tokens : Z) : MarginfiAccount :=
  MarginfiAccount.mkMarginfiAccount 1 70 (demo_lending_account tokens) 0.
Definition demo_engine (tokens : Z) : RiskEngine :=
  mkRiskEngine (demo_account tokens) [demo_deposit; demo_debt tokens].
Definition demo_components (tokens : Z) (req : RequirementType) : Z * Z :=
  ok_value (0, 0) (get_account_health_components (demo_engine tokens) req).

Lemma demo_feed_steady k b :
  Bank.wf k → BankConfig.valid (Bank.config k) →
  0 ≤ BankConfig.total_asset_value_init_limit (Bank.config k) → Balance.wf b →
  steady (mkBA k (Ok (OraclePriceFeedAdapter.APythLegacy demo_feed)) b).
Proof.
  intros ????. split; simpl; try done.
  - intros f [] [= <-]; vm_compute; reflexivity.
  - intros f [] p [= <-]; vm_compute; intros [= <-]; discriminate.
Qed.

Lemma demo_engine_steady : Forall steady (bank_accounts_with_price (demo_engine 30)).
Proof.
  assert (BankConfig.valid Bank.demo_config) by (by apply (BankConfig.validate_ok _ tt)).
  apply Forall_cons_2; [|apply Forall_cons_2; [|apply Forall_nil_2]];
    (apply demo_feed_steady; [apply Bank.demo_bank_wf|done|done|]);
    split; vm_compute; try discriminate; [by right|by left].
Qed.

Lemma init_health_implies_maintenance_witness :
  let i := demo_components 30 Initial in
  let m := demo_components 30 Maintenance in
  fst i ≤ fst m ∧ snd m ≤ snd i ∧
  (check_account_health (demo_engine 30) Initial = Ok tt → 0 ≤ fst m - snd m).
Proof.
  apply (init_health_implies_maintenance (F := i80f48) (demo_engine 30)).
  - apply demo_engine_steady.
  - vm_compute. reflexivity.
  - vm_compute. reflexivity.
Defined.

Definition demo_banks : gmap Z Bank := <[600 := Bank.demo_bank]> (<[610 := Bank.demo_bank]> ∅).
Definition demo_remaining : list AccountInfo :=
  [mkAccountInfo 600 1 []; demo_pyth_ai; mkAccountInfo 610 1 []; demo_pyth_ai].

Lemma init_health_check_sound_witness :
  ∃ es vals,
    load demo_banks demo_clock (demo_lending_account 30) demo_remaining = Ok es ∧
    map balance es = LendingAccount.active_balances (demo_lending_account 30) ∧
    (∀ a, a ∈ es → demo_banks !! Balance.bank_pk (balance a) = Some (bank a)) ∧
    values Initial es vals ∧ sumZ snd vals ≤ sumZ fst vals ∧
    (∀ a, a ∈ balances_with_liabilities es → is_isolated a = true →
       balances_with_liabilities es = [a]).
Proof.
  apply (proj2 (init_health_check_sound (F := i80f48) demo_banks demo_clock (demo_account 30)
                  demo_remaining)).
  - reflexivity.
  - vm_compute. reflexivity.
Defined.

Lemma liquidation_checks_bound_health_witness :
  let e := demo_engine 95 in
  let h := ok_value 0 (check_pre_liquidation_condition_and_get_account_health e 610) in
  MarginfiAccount.get_flag (marginfi_account e) IN_FLASHLOAN_FLAG = false ∧
  (∃ a, a ∈ bank_accounts_with_price e ∧ Balance.bank_pk (balance a) = 610 ∧
     EMPTY_BALANCE_THRESHOLD ≤ Balance.liability_shares (balance a) ∧
     Balance.asset_shares (balance a) < EMPTY_BALANCE_THRESHOLD) ∧
  (∃ vals, values Maintenance (bank_accounts_with_price e) vals ∧
     h = sumZ fst vals - sumZ snd vals) ∧
  h ≤ 0 ∧
  (check_post_liquidation_condition_and_get_account_health e 610 (h - 1) = Ok h → h - 1 < h).
Proof.
  intros e h. apply (liquidation_checks_bound_health (F := i80f48) e 610 (h - 1) h).
  left. vm_compute. reflexivity.
Defined.

Definition demo_bankrupt : RiskEngine :=
  mkRiskEngine (demo_account 30) [demo_debt 30].
Lemma bankruptcy_check_spec_witness :
  (check_account_bankrupt demo_bankrupt = Ok tt ↔
     MarginfiAccount.get_flag (marginfi_account demo_bankrupt) IN_FLASHLOAN_FLAG = false ∧
     0 < 8623267386507600 ∧ 0 < BANKRUPT_THRESHOLD ∧ ZERO_AMOUNT_THRESHOLD < 8623267386507600) ∧
  ∃ vals, values Equity (bank_accounts_with_price demo_bankrupt) vals ∧
    0 = sumZ fst vals ∧ 8623267386507600 = sumZ snd vals.
Proof.
  apply (bankruptcy_check_spec (F := i80f48) demo_bankrupt 0 (8623267386507600)).
  vm_compute. reflexivity.
Defined.

End RiskEngine.
