(* ===== verification/World.v ===== *)
(** * The program's accounts

    An instruction reads and writes accounts.  [World] is the state of all the
    accounts the program owns (banks, user accounts, groups, the fee state) and
    of the token accounts and mints it moves tokens between.  An instruction is
    a function from a world to a new one or an error; an error or a panic
    aborts the transaction and leaves the world as it was.

    Program-derived addresses, the instructions sysvar and the system program
    belong to the runtime: they are the class [Runtime].  An Anchor constraint
    is a [check] with Anchor's error; the accounts of an instruction are the
    fields of a record named after the [#[derive(Accounts)]] structure.  An
    [AccountLoader] of an account that does not exist fails with
    [AccountNotInitialized]. *)
From S2P Require Import Prelude Errors Fixed Constants Utils GroupState InterestRate BankState Price Account BankAccount Risk.

(** An instruction of the current transaction, as the sysvar shows it. *)
Record Instruction := mkInstruction {
  ix_program_id : Pubkey; ix_data : list Z; ix_accounts : list Pubkey
}.

Class Runtime := {
  program_id : Pubkey;                         (* crate::id() *)
  (* Pubkey::create_program_address([seed, keys.., [bump]], program_id) *)
  create_program_address : Seed → list Pubkey → Z → option Pubkey;
  (* Pubkey::find_program_address([seed, keys..], program_id) *)
  find_program_address : Seed → list Pubkey → Pubkey * Z;
  (* Pubkey::find_program_address([group, mint, bank_seed.to_le_bytes()], program_id) *)
  find_bank_address : Pubkey → Pubkey → Z → Pubkey * Z;
  (* get_associated_token_address_with_program_id(wallet, mint, token_program) *)
  associated_token_address : Pubkey → Pubkey → Pubkey → Pubkey;
  (* instruction::LendingAccountEndFlashloan::DISCRIMINATOR *)
  end_flashloan_discriminator : list Z;
  (* system_program::transfer(from, to, lamports) *)
  system_transfer : Pubkey → Pubkey → Z → gmap Z Z → MarginfiResult (gmap Z Z)
}.

Section WorldDefs.
Context {T : TokenSdk}.

Record World := mkWorld {
  banks : gmap Z Bank;
  accounts : gmap Z MarginfiAccount;
  groups : gmap Z MarginfiGroup;
  fee_state : option FeeState;
  tokens : gmap Z TokenAccount;
  mints : gmap Z Mint;
  lamports : gmap Z Z
}.

Definition set_bank (k : Pubkey) (b : Bank) (w : World) : World :=
  mkWorld (<[k := b]> (banks w)) (accounts w) (groups w) (fee_state w) (tokens w) (mints w) (lamports w).
Definition set_account (k : Pubkey) (m : MarginfiAccount) (w : World) : World :=
  mkWorld (banks w) (<[k := m]> (accounts w)) (groups w) (fee_state w) (tokens w) (mints w) (lamports w).
Definition close_account_at (k : Pubkey) (w : World) : World :=
  mkWorld (banks w) (delete k (accounts w)) (groups w) (fee_state w) (tokens w) (mints w) (lamports w).
Definition set_group (k : Pubkey) (g : MarginfiGroup) (w : World) : World :=
  mkWorld (banks w) (accounts w) (<[k := g]> (groups w)) (fee_state w) (tokens w) (mints w) (lamports w).
Definition set_fee_state (f : FeeState) (w : World) : World :=
  mkWorld (banks w) (accounts w) (groups w) (Some f) (tokens w) (mints w) (lamports w).
Definition set_tokens (ts : gmap Z TokenAccount) (w : World) : World :=
  mkWorld (banks w) (accounts w) (groups w) (fee_state w) ts (mints w) (lamports w).
Definition set_lamports (ls : gmap Z Z) (w : World) : World :=
  mkWorld (banks w) (accounts w) (groups w) (fee_state w) (tokens w) (mints w) ls.

(** [AccountLoader::load] *)
Definition load_bank (w : World) (k : Pubkey) : MarginfiResult Bank :=
  ok_or (banks w !! k) AccountNotInitialized.
Definition load_account (w : World) (k : Pubkey) : MarginfiResult MarginfiAccount :=
  ok_or (accounts w !! k) AccountNotInitialized.
Definition load_group (w : World) (k : Pubkey) : MarginfiResult MarginfiGroup :=
  ok_or (groups w !! k) AccountNotInitialized.
Definition load_fee_state (w : World) : MarginfiResult FeeState :=
  ok_or (fee_state w) AccountNotInitialized.
Definition load_token (w : World) (k : Pubkey) : MarginfiResult TokenAccount :=
  ok_or (tokens w !! k) AccountNotInitialized.

(** [Interface<TokenInterface>] *)
Definition check_token_program (p : Pubkey) : MarginfiResult unit :=
  check ((p =? token_id) || (p =? token_2022_id)) InvalidProgramId.

Section Constraints.
Context {R : Runtime}.

(** [seeds = [SEED, keys..], bump = bump] *)
Definition check_pda (seed : Seed) (keys : list Pubkey) (bump : Z) (k : Pubkey) : MarginfiResult unit :=
  check (bool_decide (create_program_address seed keys bump = Some k)) ConstraintSeeds.
(** [seeds = [SEED, keys..], bump] *)
Definition check_canonical_pda (seed : Seed) (keys : list Pubkey) (k : Pubkey) : MarginfiResult unit :=
  check (fst (find_program_address seed keys) =? k) ConstraintSeeds.
End Constraints.

(** The constraints the instructions of a user's account share: the account
    belongs to the group, the signer is its authority, and the bank belongs
    to the group. *)
Definition check_account (w : World) (group account : Pubkey) : MarginfiResult MarginfiAccount :=
  let? m := load_account w account in
  let? _ := check (MarginfiAccount.group m =? group) ConstraintRaw in
  Ok m.
Definition check_authority (m : MarginfiAccount) (signer : Pubkey) : MarginfiResult unit :=
  check (signer =? MarginfiAccount.authority m) ConstraintAddress.
Definition check_bank (w : World) (group bank : Pubkey) : MarginfiResult Bank :=
  let? k := load_bank w bank in
  let? _ := check (Bank.group k =? group) ConstraintRaw in
  Ok k.

(** [check!(!marginfi_account.get_flag(DISABLED_FLAG), AccountDisabled)] *)
Definition check_enabled (m : MarginfiAccount) : MarginfiResult unit :=
  check (negb (MarginfiAccount.get_flag m DISABLED_FLAG)) AccountDisabled.

Section Steps.
Context {F : FixedOps}.

(** [bank_loader.load_mut()?.accrue_interest(now, &*group_loader.load()?)?] *)
Definition accrue (w : World) (bank group : Pubkey) (now : Z) : MarginfiResult World :=
  let? k := load_bank w bank in
  let? g := load_group w group in
  let? k := Bank.accrue_interest k now g in
  Ok (set_bank bank k w).

(** [BankAccountWrapper::find] or [find_or_create] on a bank and an account,
    an operation on the wrapper, and the end of the mutable borrows. *)
Definition with_position {A} (create : bool) (w : World) (account bank : Pubkey) (now : Z)
    (f : BankAccountWrapper.BankAccountWrapper →
         MarginfiResult (A * BankAccountWrapper.BankAccountWrapper))
    : MarginfiResult (A * World) :=
  let? m := load_account w account in
  let? k := load_bank w bank in
  let l := MarginfiAccount.lending_account m in
  let? '(i, l, ba) :=
    if create then BankAccountWrapper.find_or_create bank k l now
    else let? '(i, ba) := BankAccountWrapper.find bank k l in Ok (i, l, ba) in
  let? '(a, ba) := f ba in
  let m := MarginfiAccount.with_lending_account (BankAccountWrapper.write_back i ba l) m in
  Ok (a, set_account account m (set_bank bank (BankAccountWrapper.bank ba) w)).

(** An operation that returns no value. *)
Definition no_value (r : MarginfiResult BankAccountWrapper.BankAccountWrapper)
    : MarginfiResult (unit * BankAccountWrapper.BankAccountWrapper) :=
  let? ba := r in Ok (tt, ba).
End Steps.
End WorldDefs.
Arguments World {T}.

(** ** The invariant of the books *)

(** The shares of a bank an account holds on a side. *)
Definition position_shares (side : BalanceSide) (bank : Pubkey) (b : Balance) : Z :=
  if LendingAccount.is_position bank b
  then match side with Assets => Balance.asset_shares b | Liabilities => Balance.liability_shares b end
  else 0.
Definition account_shares (side : BalanceSide) (bank : Pubkey) (m : MarginfiAccount) : Z :=
  sumZ (position_shares side bank) (MarginfiAccount.lending_account m).
(** ... and all accounts together. *)
Definition all_shares (side : BalanceSide) (bank : Pubkey) (ms : gmap Z MarginfiAccount) : Z :=
  map_sum (account_shares side bank) ms.
Definition bank_total (side : BalanceSide) (b : Bank) : Z :=
  match side with Assets => Bank.total_asset_shares b | Liabilities => Bank.total_liability_shares b end.

(** Every bank and account is well formed, every position refers to an
    existing bank, and the totals of every bank cover the positions in it. *)
Record books_balance {T : TokenSdk} (w : World) : Prop := {
  books_banks k b : banks w !! k = Some b → Bank.wf b;
  books_accounts a m : accounts w !! a = Some m → LendingAccount.wf (MarginfiAccount.lending_account m);
  books_positions a m i b : accounts w !! a = Some m →
    MarginfiAccount.lending_account m !! i = Some b → Balance.active b = true →
    is_Some (banks w !! Balance.bank_pk b);
  books_totals side k b : banks w !! k = Some b →
    all_shares side k (accounts w) ≤ bank_total side b
}.

Section SharesLemmas.
Lemma position_shares_inactive side k b : Balance.active b = false → position_shares side k b = 0.
Proof. intros H. unfold position_shares, LendingAccount.is_position. by rewrite H. Qed.

Lemma position_shares_other side k b :
  (Balance.active b = true → Balance.bank_pk b ≠ k) → position_shares side k b = 0.
Proof.
  intros H. unfold position_shares.
  destruct (LendingAccount.is_position k b) eqn:E; [|done].
  apply BankAccountWrapper.is_position_true in E as [? ?]. naive_solver.
Qed.

Lemma position_shares_nonneg side k b : Balance.wf b → 0 ≤ position_shares side k b.
Proof. intros [? ? _ _]. unfold position_shares. destruct (LendingAccount.is_position k b), side; lia. Qed.

Lemma account_shares_nonneg side k m :
  LendingAccount.wf (MarginfiAccount.lending_account m) → 0 ≤ account_shares side k m.
Proof.
  intros [_ Hwf _]. apply sumZ_nonneg. intros b Hb.
  apply list_elem_of_lookup in Hb as [i Hi]. eapply position_shares_nonneg, Hwf, Hi.
Qed.

Lemma all_shares_insert_new side k ms a m :
  ms !! a = None → all_shares side k (<[a := m]> ms) = account_shares side k m + all_shares side k ms.
Proof. apply map_sum_insert_new. Qed.

Lemma all_shares_delete side k ms a m :
  ms !! a = Some m → all_shares side k ms = account_shares side k m + all_shares side k (delete a ms).
Proof. apply map_sum_delete. Qed.

Lemma all_shares_update side k ms a m m' :
  ms !! a = Some m →
  all_shares side k (<[a := m']> ms) =
    all_shares side k ms - account_shares side k m + account_shares side k m'.
Proof. apply map_sum_update. Qed.

Lemma all_shares_zero side k ms :
  (∀ a m, ms !! a = Some m → account_shares side k m = 0) → all_shares side k ms = 0.
Proof. apply map_sum_zero. Qed.

Lemma all_shares_ge side k ms a m :
  (∀ a m, ms !! a = Some m → LendingAccount.wf (MarginfiAccount.lending_account m)) →
  ms !! a = Some m → account_shares side k m ≤ all_shares side k ms.
Proof. intros H. apply map_sum_ge. intros a' m' Ha. eapply account_shares_nonneg, H, Ha. Qed.

Lemma account_shares_ge side k m i b :
  LendingAccount.wf (MarginfiAccount.lending_account m) →
  MarginfiAccount.lending_account m !! i = Some b →
  position_shares side k b ≤ account_shares side k m.
Proof.
  intros [_ Hwf _] Hi. eapply sumZ_elem_le; [|exact Hi].
  intros c Hc. apply list_elem_of_lookup in Hc as [j Hj]. eapply position_shares_nonneg, Hwf, Hj.
Qed.

Lemma account_shares_insert side k m i b b' :
  MarginfiAccount.lending_account m !! i = Some b →
  account_shares side k (MarginfiAccount.with_lending_account
                           (<[i := b']> (MarginfiAccount.lending_account m)) m) =
  account_shares side k m - position_shares side k b + position_shares side k b'.
Proof. intros H. unfold account_shares. simpl. by apply sumZ_insert. Qed.
End SharesLemmas.

(** What an operation on a wrapped position must do to keep the books. *)
Record position_step (w w' : BankAccountWrapper.BankAccountWrapper) : Prop := {
  step_wf : BankAccountWrapper.wf w';
  step_assets : BankAccountWrapper.others_assets w ≤ BankAccountWrapper.others_assets w';
  step_liabs : BankAccountWrapper.others_liabs w ≤ BankAccountWrapper.others_liabs w';
  step_frame : BankAccountWrapper.bank_frame (BankAccountWrapper.bank w) (BankAccountWrapper.bank w');
  step_slot : Balance.active (BankAccountWrapper.balance w) = true →
    (Balance.active (BankAccountWrapper.balance w') = true ∧
     Balance.bank_pk (BankAccountWrapper.balance w') = Balance.bank_pk (BankAccountWrapper.balance w)) ∨
    BankAccountWrapper.balance w' = Balance.empty_deactivated
}.

Definition keeps_books {A} (f : BankAccountWrapper.BankAccountWrapper →
    MarginfiResult (A * BankAccountWrapper.BankAccountWrapper)) : Prop :=
  ∀ w a w', BankAccountWrapper.wf w → f w = Ok (a, w') → position_step w w'.

(** What a position is worth: its deposit less its debt. *)
Definition net (w : BankAccountWrapper.BankAccountWrapper) : Z :=
  BankAccountWrapper.holdings w - BankAccountWrapper.debt w.
Definition worth {T : TokenSdk} (w : World) (account bank : Pubkey) : Z :=
  match accounts w !! account, banks w !! bank with
  | Some m, Some b =>
      fmul (account_shares Assets bank m) (Bank.asset_share_value b) -
      fmul (account_shares Liabilities bank m) (Bank.liability_share_value b)
  | _, _ => 0
  end.

(** The most a position loses to rounding when shares are computed: the value
    of one unit of either share, and a unit of each product. *)
Definition rounding (k : Bank) : Z :=
  Bank.asset_share_value k / SCALE + Bank.liability_share_value k / SCALE + 2.

Section BooksLemmas.
Context {F : FixedOps} {L : FixedLaws F} {T : TokenSdk}.

Lemma op_result_step now w w' :
  BankAccountWrapper.wf w → BankAccountWrapper.op_result now w w' → position_step w w'.
Proof.
  intros Hwf Hr.
  pose proof (BankAccountWrapper.op_result_conserves _ _ _ Hwf Hr) as (? & ? & _ & _ & _ & ? & _).
  split; [by eapply BankAccountWrapper.op_result_wf|done..|].
  intros Ha. destruct Hr as [? ? ? ? _ _ _ _ _ _ ->|]; [left|right]; done.
Qed.

Lemma run_keeps_books op now :
  BankAccountWrapper.op_amount_ok op → keeps_books (λ w, no_value (BankAccountWrapper.run op w now)).
Proof.
  intros Hok w a w' Hwf H. unfold no_value in H. apply bind_ok in H as (w1 & H & Hr).
  injection Hr as <- <-. eapply op_result_step; [done|]. by eapply BankAccountWrapper.run_result.
Qed.

Lemma load_bank_ok w k b : load_bank w k = Ok b ↔ banks w !! k = Some b.
Proof. apply ok_or_ok. Qed.
Lemma load_account_ok w k m : load_account w k = Ok m ↔ accounts w !! k = Some m.
Proof. apply ok_or_ok. Qed.

(** Replacing a bank by one with at least its totals keeps the books. *)
Lemma set_bank_books w k b b' :
  books_balance w → banks w !! k = Some b → Bank.wf b' →
  (∀ side, bank_total side b ≤ bank_total side b') → books_balance (set_bank k b' w).
Proof.
  intros [Hb Ha Hp Ht] Hk Hwf Htot. split; simpl.
  - intros j c [[<- <-]|[_ Hj]]%lookup_insert_Some; eauto.
  - done.
  - intros a m i c Hm Hi Hact. apply lookup_insert_is_Some'. right. eauto.
  - intros side j c [[<- <-]|[_ Hj]]%lookup_insert_Some; [|eauto].
    pose proof (Ht side _ _ Hk). pose proof (Htot side). lia.
Qed.

(** Changing an account without touching its positions. *)
Lemma set_account_books w a m m' :
  books_balance w → accounts w !! a = Some m →
  MarginfiAccount.lending_account m' = MarginfiAccount.lending_account m →
  books_balance (set_account a m' w).
Proof.
  intros [Hb Ha Hp Ht] Hm Heq. split; simpl.
  - done.
  - intros j c [[<- <-]|[_ Hj]]%lookup_insert_Some; [rewrite Heq|]; eauto.
  - intros j c i b [[<- <-]|[_ Hj]]%lookup_insert_Some; [rewrite Heq|]; eauto.
  - intros side k b Hk. rewrite (all_shares_update _ _ _ _ _ _ Hm).
    unfold account_shares at 2. rewrite Heq. fold (account_shares side k m).
    pose proof (Ht side k b Hk). lia.
Qed.

Lemma accrual_totals k k' side : Bank.accrual_frame k k' → bank_total side k = bank_total side k'.
Proof. intros ->. by destruct side. Qed.

Lemma accrue_interest_frame b now g b' :
  Bank.wf b → Bank.accrue_interest b now g = Ok b' →
  Bank.wf b' ∧ Bank.accrual_frame b b' ∧ Bank.last_update b' = now.
Proof.
  intros Hwf H.
  destruct (Bank.accrue_interest_cases _ _ _ _ Hwf H)
    as [Ht [[-> ->] | [[Hlt ->] | (Hlt & ch & Hch & HA & HL & Hfr & Hl & Ha & Hli & Hg & Hi & Hp)]]].
  - split_and!; [done|by destruct b|done].
  - destruct Hwf. split_and!; [by split|done|done].
  - split; [|done]. apply InterestRateCalc.changes_monotone in Hch as (?&?&?&?&?&_);
      [|pose proof (Bank.wf_lsv_pos _ Hwf); solve [done | apply (Bank.wf_asv b Hwf) | lia]..].
    destruct Hwf. rewrite Hfr. split; simpl; lia.
Qed.

Lemma accrue_ok w bank group now w' :
  books_balance w → accrue w bank group now = Ok w' →
  ∃ b b', banks w !! bank = Some b ∧ w' = set_bank bank b' w ∧ Bank.wf b' ∧
    Bank.accrual_frame b b' ∧ Bank.last_update b' = now ∧ books_balance w'.
Proof.
  intros Hbk H. unfold accrue in H. apply bind_ok in H as (b & Hb & H). apply load_bank_ok in Hb.
  apply bind_ok in H as (g & _ & H). apply bind_ok in H as (b' & Hac & H). injection H as <-.
  apply accrue_interest_frame in Hac as (Hwf & Hfr & Hl); [|by eapply books_banks].
  exists b, b'. split_and!; try done. eapply set_bank_books; try done.
  intros side. by rewrite (accrual_totals _ _ side Hfr).
Qed.

(** Storing an updated position, from the account as it was looked up. *)
Lemma store_position_books w a m k bk l i w0 w1 :
  books_balance w → accounts w !! a = Some m → banks w !! k = Some bk →
  LendingAccount.wf l → l !! i = Some (BankAccountWrapper.balance w0) →
  (∀ side j, account_shares side j (MarginfiAccount.with_lending_account l m)
             = account_shares side j m) →
  (∀ j b, l !! j = Some b → Balance.active b = true → is_Some (banks w !! Balance.bank_pk b)) →
  Balance.active (BankAccountWrapper.balance w0) = true →
  Balance.bank_pk (BankAccountWrapper.balance w0) = k → BankAccountWrapper.bank w0 = bk →
  position_step w0 w1 →
  books_balance
    (set_account a (MarginfiAccount.with_lending_account (BankAccountWrapper.write_back i w1 l) m)
       (set_bank k (BankAccountWrapper.bank w1) w)).
Proof.
  intros [Hb Ha Hp Ht] Hm Hk Hl Hi Hsame Hex Hact Hpk Hbk [Hwf Hoa Hol _ Hslot].
  assert (Hpk' : Balance.active (BankAccountWrapper.balance w1) = true →
    Balance.bank_pk (BankAccountWrapper.balance w1) = Balance.bank_pk (BankAccountWrapper.balance w0))
    by (destruct (Hslot Hact) as [[_ ?]| ->]; done).
  destruct w0 as [b0 k0], w1 as [b1 k1]; simpl in *. subst.
  assert (Hmove : ∀ side j,
    account_shares side j (MarginfiAccount.with_lending_account (<[i := b1]> l) m) =
    account_shares side j m - position_shares side j b0 + position_shares side j b1).
  { intros side j. rewrite <- Hsame.
    by apply (account_shares_insert side j (MarginfiAccount.with_lending_account l m)). }
  split; simpl.
  - intros j c [[<- <-]|[_ Hj]]%lookup_insert_Some; [apply (BankAccountWrapper.wf_bank _ Hwf)|eauto].
  - intros j c [[<- <-]|[_ Hj]]%lookup_insert_Some; [|eauto]. simpl.
    eapply (BankAccountWrapper.write_back_wf l i b0 (BankAccountWrapper.mkWrapper b1 k1)); try done.
    apply (BankAccountWrapper.wf_balance _ Hwf).
  - intros j c i' b [[<- <-]|[_ Hj]]%lookup_insert_Some Hi' Hac; apply lookup_insert_is_Some'.
    + apply list_lookup_insert_Some in Hi' as [(_ & <- & _)|[_ Hi']]; [left; symmetry; auto|right; eauto].
    + right. eauto.
  - intros side j c Hj. rewrite (all_shares_update _ _ _ _ _ _ Hm), Hmove.
    apply lookup_insert_Some in Hj as [[<- <-]|[Hne Hj]].
    + pose proof (Ht side _ _ Hk) as Htot.
      assert (position_shares side (Balance.bank_pk b0) b0
              = match side with Assets => Balance.asset_shares b0 | _ => Balance.liability_shares b0 end)
        as -> by (unfold position_shares; by rewrite (proj2 (BankAccountWrapper.is_position_true _ _))).
      destruct Hwf as [[? ? _ _] _ _ _]. unfold BankAccountWrapper.others_assets,
        BankAccountWrapper.others_liabs in *. unfold position_shares. simpl in *.
      destruct (LendingAccount.is_position _ b1), side; simpl in *; lia.
    + rewrite !(position_shares_other side j) by (try done; naive_solver).
      pose proof (Ht side j c Hj). lia.
Qed.

(** The wrapper handed to an operation covers its position. *)
Lemma wrapper_wf w a m k bk l i w0 :
  books_balance w → accounts w !! a = Some m → banks w !! k = Some bk →
  LendingAccount.wf l → l !! i = Some (BankAccountWrapper.balance w0) →
  (∀ side j, account_shares side j (MarginfiAccount.with_lending_account l m)
             = account_shares side j m) →
  Balance.active (BankAccountWrapper.balance w0) = true →
  Balance.bank_pk (BankAccountWrapper.balance w0) = k → BankAccountWrapper.bank w0 = bk →
  BankAccountWrapper.wf w0.
Proof.
  intros [Hb Ha Hp Ht] Hm Hk Hl Hi Hsame Hact Hpk Hbk.
  assert (Hcov : ∀ side, position_shares side k (BankAccountWrapper.balance w0) ≤ bank_total side bk).
  { intros side.
    pose proof (account_shares_ge side k (MarginfiAccount.with_lending_account l m) i _ Hl Hi) as H1.
    rewrite Hsame in H1. pose proof (all_shares_ge side k _ a m Ha Hm).
    pose proof (Ht side k bk Hk). lia. }
  assert (Hps : ∀ side, position_shares side k (BankAccountWrapper.balance w0) =
    match side with
    | Assets => Balance.asset_shares (BankAccountWrapper.balance w0)
    | Liabilities => Balance.liability_shares (BankAccountWrapper.balance w0)
    end).
  { intros side. unfold position_shares.
    by rewrite (proj2 (BankAccountWrapper.is_position_true _ _) (conj Hact Hpk)). }
  pose proof (Hcov Assets) as H1. pose proof (Hcov Liabilities) as H2.
  rewrite Hps in H1, H2. simpl in H1, H2. subst bk.
  split; [by eapply LendingAccount.wf_balances|by eapply Hb|done|done].
Qed.

Lemma with_position_ok {A} create w a k now
    (f : BankAccountWrapper.BankAccountWrapper → MarginfiResult (A * BankAccountWrapper.BankAccountWrapper))
    x w' :
  books_balance w → with_position create w a k now f = Ok (x, w') →
  ∃ m bk l i w0 w1,
    accounts w !! a = Some m ∧ banks w !! k = Some bk ∧
    f w0 = Ok (x, w1) ∧ BankAccountWrapper.wf w0 ∧
    BankAccountWrapper.bank w0 = bk ∧
    Balance.active (BankAccountWrapper.balance w0) = true ∧
    Balance.bank_pk (BankAccountWrapper.balance w0) = k ∧
    w' = set_account a (MarginfiAccount.with_lending_account (BankAccountWrapper.write_back i w1 l) m)
           (set_bank k (BankAccountWrapper.bank w1) w) ∧
    (position_step w0 w1 → books_balance w') ∧
    (create = false → l = MarginfiAccount.lending_account m) ∧
    l !! i = Some (BankAccountWrapper.balance w0) ∧ LendingAccount.wf l ∧
    (∀ side j, account_shares side j (MarginfiAccount.with_lending_account l m)
               = account_shares side j m).
Proof.
  intros Hbooks H. unfold with_position in H.
  apply bind_ok in H as (m & Hm & H). apply load_account_ok in Hm.
  apply bind_ok in H as (bk & Hk & H). apply load_bank_ok in Hk.
  apply bind_ok in H as ([[i l] w0] & Hfind & H).
  apply bind_ok in H as ([x' w1] & Hf & H). injection H as <- <-.
  pose proof (books_accounts _ Hbooks a m Hm) as Hl0.
  assert (LendingAccount.wf l ∧ l !! i = Some (BankAccountWrapper.balance w0) ∧
          BankAccountWrapper.bank w0 = bk ∧
          Balance.active (BankAccountWrapper.balance w0) = true ∧
          Balance.bank_pk (BankAccountWrapper.balance w0) = k ∧
          (∀ side j, account_shares side j (MarginfiAccount.with_lending_account l m)
                     = account_shares side j m) ∧
          (∀ j b, l !! j = Some b → Balance.active b = true → is_Some (banks w !! Balance.bank_pk b)) ∧
          (create = false → l = MarginfiAccount.lending_account m))
    as (Hl & Hi & Hbk & Hact & Hpk & Hsame & Hex & Hcr).
  { destruct create.
    - apply BankAccountWrapper.find_or_create_ok in Hfind as (? & Hi & ? & ? & ? & Hor); [|done].
      split_and!; try done.
      + intros side j. destruct Hor as [[-> _]|(_ & Ho & -> & b & Hb & Hin)]; [done|].
        rewrite (account_shares_insert _ _ _ _ _ _ Hb), position_shares_inactive by done.
        rewrite Ho. unfold position_shares, LendingAccount.is_position, Balance.opened. simpl.
        change ZERO with 0. destruct (k =? j), side; lia.
      + intros j b Hj Hac. destruct Hor as [[-> _]|(_ & Ho & -> & c & Hc & Hin)].
        * by eapply (books_positions _ Hbooks).
        * apply list_lookup_insert_Some in Hj as [(_ & <- & _)|[_ Hj]].
          { rewrite Ho. simpl. by eexists. }
          { by eapply (books_positions _ Hbooks). }
    - apply bind_ok in Hfind as ([i' w0'] & Hfind & Hr). injection Hr as <- <- <-.
      apply BankAccountWrapper.find_ok in Hfind as (? & ? & ? & ?).
      split_and!; try done. intros j b Hj Hac. by eapply (books_positions _ Hbooks). }
  exists m, bk, l, i, w0, w1. split_and!; try done.
  - by eapply (wrapper_wf w a m k bk l i w0).
  - intros Hstep. by eapply (store_position_books w a m k bk l i w0 w1).
Qed.

(** The books are kept by every operation on a position that keeps its own. *)
Lemma with_position_books {A} create w a k now
    (f : BankAccountWrapper.BankAccountWrapper → MarginfiResult (A * BankAccountWrapper.BankAccountWrapper))
    x w' :
  books_balance w → keeps_books f → with_position create w a k now f = Ok (x, w') → books_balance w'.
Proof.
  intros Hb Hf H. apply with_position_ok in H as (m & bk & l & i & w0 & w1 & _ & _ & Hr & Hwf & _ & _ & _ & _ & Hbooks & _);
    [|done]. apply Hbooks. by eapply Hf.
Qed.

Lemma set_tokens_books w ts : books_balance w → books_balance (set_tokens ts w).
Proof. intros [? ? ? ?]. by split. Qed.

Lemma from_num_nonneg n : 0 ≤ n → 0 ≤ from_num n.
Proof. unfold from_num. pose proof SCALE_pos. nia. Qed.

(** A step that runs one operation and returns something besides. *)
Lemma op_keeps_books {A} (f : BankAccountWrapper.BankAccountWrapper →
    MarginfiResult (A * BankAccountWrapper.BankAccountWrapper)) now :
  (∀ w a w', f w = Ok (a, w') → ∃ op, BankAccountWrapper.op_amount_ok op ∧
                                      BankAccountWrapper.run op w now = Ok w') →
  keeps_books f.
Proof.
  intros Hf w a w' Hwf H. destruct (Hf _ _ _ H) as (op & Hok & Hrun).
  eapply op_result_step; [done|]. by eapply BankAccountWrapper.run_result.
Qed.


(** The bank before and after, whatever the state. *)
Lemma with_position_bank {A} create w a k now
    (f : BankAccountWrapper.BankAccountWrapper → MarginfiResult (A * BankAccountWrapper.BankAccountWrapper))
    x w' :
  with_position create w a k now f = Ok (x, w') →
  ∃ w0 w1, f w0 = Ok (x, w1) ∧ banks w !! k = Some (BankAccountWrapper.bank w0) ∧
    banks w' !! k = Some (BankAccountWrapper.bank w1).
Proof.
  unfold with_position. intros H.
  apply bind_ok in H as (m & _ & H). apply bind_ok in H as (bk & Hk & H). apply load_bank_ok in Hk.
  apply bind_ok in H as ([[i l] w0] & Hfind & H).
  apply bind_ok in H as ([x' w1] & Hf & H). injection H as <- <-.
  exists w0, w1. split_and!; [done| |simpl; apply lookup_insert_eq]. rewrite Hk. f_equal.
  destruct create.
  - unfold BankAccountWrapper.find_or_create in Hfind.
    destruct (position _ _); inv_res; done.
  - apply bind_ok in Hfind as ([j w2] & Hfind & Hr). injection Hr as <- <- <-.
    by apply BankAccountWrapper.find_ok in Hfind as (_ & _ & _ & ->).
Qed.

(** *** What a position is worth *)
Lemma account_shares_at side k m i b :
  LendingAccount.wf (MarginfiAccount.lending_account m) →
  MarginfiAccount.lending_account m !! i = Some b →
  Balance.active b = true → Balance.bank_pk b = k →
  account_shares side k m =
    match side with Assets => Balance.asset_shares b | Liabilities => Balance.liability_shares b end.
Proof.
  intros [_ _ Hu] Hi Hac Hk. unfold account_shares.
  rewrite (sumZ_single _ _ i b Hi).
  - unfold position_shares. by rewrite (proj2 (BankAccountWrapper.is_position_true _ _)).
  - intros j c Hj Hne. apply position_shares_other. intros Hc Hck. apply Hne. subst k.
    by eapply Hu.
Qed.

(** *** What success means, handler by handler *)
Lemma check_account_ok w g a m :
  check_account w g a = Ok m → accounts w !! a = Some m ∧ MarginfiAccount.group m = g.
Proof.
  unfold check_account. intros H. apply bind_ok in H as (m' & Hm & H). apply load_account_ok in Hm.
  apply bind_ok in H as (u & Hu & H). apply check_ok in Hu. bool_prop. by injection H as <-.
Qed.
Lemma check_bank_ok w g a k :
  check_bank w g a = Ok k → banks w !! a = Some k ∧ Bank.group k = g.
Proof.
  unfold check_bank. intros H. apply bind_ok in H as (m' & Hm & H). apply load_bank_ok in Hm.
  apply bind_ok in H as (u & Hu & H). apply check_ok in Hu. bool_prop. by injection H as <-.
Qed.
Lemma check_authority_ok m s u : check_authority m s = Ok u → s = MarginfiAccount.authority m.
Proof. unfold check_authority. intros H%check_ok. by bool_prop. Qed.
Lemma check_enabled_ok m u : check_enabled m = Ok u → MarginfiAccount.get_flag m DISABLED_FLAG = false.
Proof. unfold check_enabled. intros H%check_ok. by bool_prop. Qed.

(** Storing a position changes no other position's worth. *)
Lemma store_worth_other w a m k bk l i w0 w1 a' k' :
  accounts w !! a = Some m → banks w !! k = Some bk → BankAccountWrapper.bank w0 = bk →
  l !! i = Some (BankAccountWrapper.balance w0) →
  Balance.active (BankAccountWrapper.balance w0) = true →
  Balance.bank_pk (BankAccountWrapper.balance w0) = k →
  (∀ side j, account_shares side j (MarginfiAccount.with_lending_account l m)
             = account_shares side j m) →
  position_step w0 w1 → a' ≠ a ∨ k' ≠ k →
  worth (set_account a (MarginfiAccount.with_lending_account (BankAccountWrapper.write_back i w1 l) m)
          (set_bank k (BankAccountWrapper.bank w1) w)) a' k' = worth w a' k'.
Proof.
  intros Hm Hk Hbk Hi Hact Hpk Hsame Hstep Hne. unfold worth. simpl.
  assert (∀ side, k' ≠ k → account_shares side k' (MarginfiAccount.with_lending_account
            (BankAccountWrapper.write_back i w1 l) m) = account_shares side k' m) as Hshares.
  { intros side Hk'. rewrite <- Hsame.
    transitivity (account_shares side k' (MarginfiAccount.with_lending_account
      (<[i := BankAccountWrapper.balance w1]> (MarginfiAccount.lending_account
        (MarginfiAccount.with_lending_account l m))) (MarginfiAccount.with_lending_account l m))); [done|].
    rewrite (account_shares_insert side k' (MarginfiAccount.with_lending_account l m) i _ _ Hi),
      !position_shares_other; [lia| |intros _; congruence].
    intros Ha. destruct (step_slot _ _ Hstep Hact) as [[_ Hp]|He]; [congruence|by rewrite He in Ha]. }
  destruct (decide (a' = a)) as [->|Ha'].
  - destruct Hne as [?|Hk']; [done|]. rewrite lookup_insert_eq, lookup_insert_ne, Hm by done.
    by rewrite !Hshares.
  - rewrite (lookup_insert_ne _ a) by done. destruct (accounts w !! a') as [m'|]; [|done].
    destruct (decide (k' = k)) as [->|Hk'].
    + rewrite lookup_insert_eq, Hk, (step_frame _ _ Hstep), Hbk. done.
    + by rewrite lookup_insert_ne.
Qed.

Lemma with_position_worth {A} create w a k now
    (f : BankAccountWrapper.BankAccountWrapper → MarginfiResult (A * BankAccountWrapper.BankAccountWrapper))
    x w' :
  books_balance w → with_position create w a k now f = Ok (x, w') →
  ∃ w0 w1, f w0 = Ok (x, w1) ∧ BankAccountWrapper.wf w0 ∧
    banks w !! k = Some (BankAccountWrapper.bank w0) ∧ worth w a k = net w0 ∧
    (position_step w0 w1 → books_balance w' ∧ worth w' a k = net w1 ∧
       banks w' !! k = Some (BankAccountWrapper.bank w1) ∧
       ∀ a' k', a' ≠ a ∨ k' ≠ k → worth w' a' k' = worth w a' k').
Proof.
  intros Hb H. apply with_position_ok in H
    as (m & bk & l & i & w0 & w1 & Hm & Hk & Hf & Hwf & Hbk & Hact & Hpk & -> & Hbooks & _ & Hi & Hl & Hsame);
    [|done].
  exists w0, w1. split_and!; [done|done|by rewrite Hbk| |].
  - unfold worth. rewrite Hm, Hk, <- Hbk, <- !Hsame.
    by rewrite !(account_shares_at _ _ (MarginfiAccount.with_lending_account l m) i _ Hl Hi).
  - intros Hstep. pose proof (Hbooks Hstep) as Hb'. split; [done|]. simpl.
    rewrite lookup_insert_eq. split_and!; [|done|].
    2: { intros a' k' Hne. apply (store_worth_other w a m k bk l i w0 w1); done. }
    unfold worth. simpl. rewrite !lookup_insert_eq. unfold net, BankAccountWrapper.holdings, BankAccountWrapper.debt.
    pose proof (books_accounts _ Hb' a _ (lookup_insert_eq _ _ _)) as Hl'. simpl in Hl'.
    assert (BankAccountWrapper.write_back i w1 l !! i = Some (BankAccountWrapper.balance w1)) as Hi'
      by (apply list_lookup_insert_eq; by eapply lookup_lt_Some).
    destruct (step_slot _ _ Hstep Hact) as [[Ha' Hpk']|He].
    + rewrite !(account_shares_at _ _ _ i (BankAccountWrapper.balance w1)) by (simpl; congruence || done).
      done.
    + assert (∀ side, account_shares side k
        (MarginfiAccount.with_lending_account (BankAccountWrapper.write_back i w1 l) m) = 0) as Hz.
      { intros side. apply sumZ_zero. simpl. intros j c Hj. apply position_shares_other.
        intros Hc Hck. unfold BankAccountWrapper.write_back in Hj.
        apply list_lookup_insert_Some in Hj as [(_ & <- & _)|[Hne Hj]]; [by rewrite He in Hc|].
        apply Hne. eapply (LendingAccount.wf_unique _ Hl); try done. congruence. }
      rewrite !Hz, He. simpl. change ZERO with 0. by rewrite !fmul_0_l.
Qed.

(** Only the account and the bank named change, and of the account only the
    positions. *)
Lemma with_position_frame {A} create w a k now
    (f : BankAccountWrapper.BankAccountWrapper → MarginfiResult (A * BankAccountWrapper.BankAccountWrapper))
    x w' :
  with_position create w a k now f = Ok (x, w') →
  ∃ m l b', accounts w !! a = Some m ∧
    w' = set_account a (MarginfiAccount.with_lending_account l m) (set_bank k b' w).
Proof.
  unfold with_position. intros H.
  apply bind_ok in H as (m & Hm & H). apply load_account_ok in Hm.
  apply bind_ok in H as (bk & Hk & H). apply bind_ok in H as ([[i l] w0] & Hfind & H).
  apply bind_ok in H as ([x' w1] & Hf & H). injection H as <- <-. eauto.
Qed.

(** One operation on a position, seen from the world: the worth of that
    position moves as the operation says, nothing else moves. *)
Record moved (w w' : World) (a k : Pubkey) (b b' : Bank) (P : Bank → Bank → Z → Prop) : Prop := {
  moved_bank : banks w !! k = Some b;
  moved_bank' : banks w' !! k = Some b';
  moved_frame : BankAccountWrapper.bank_frame b b';
  moved_books : books_balance w';
  moved_worth : P b b' (worth w' a k - worth w a k);
  moved_others a' k' : a' ≠ a ∨ k' ≠ k → worth w' a' k' = worth w a' k';
  moved_other_banks j : j ≠ k → banks w' !! j = banks w !! j;
  moved_tokens : tokens w' = tokens w
}.
Lemma with_position_moves {A} create w a k now
    (f : BankAccountWrapper.BankAccountWrapper → MarginfiResult (A * BankAccountWrapper.BankAccountWrapper))
    x w' (P : Bank → Bank → Z → Prop) :
  books_balance w → with_position create w a k now f = Ok (x, w') →
  (∀ ba x ba', BankAccountWrapper.wf ba → f ba = Ok (x, ba') →
     position_step ba ba' ∧
     P (BankAccountWrapper.bank ba) (BankAccountWrapper.bank ba') (net ba' - net ba)) →
  ∃ b b', moved w w' a k b b' P.
Proof.
  intros Hb H HP. pose proof (with_position_frame _ _ _ _ _ _ _ _ H) as (m & l & k' & _ & Hw').
  apply with_position_worth in H as (w0 & w1 & Hf & Hwf & Hk & Hn & Hstep); [|done].
  destruct (HP _ _ _ Hwf Hf) as [Hps Hnet]. destruct (Hstep Hps) as (Hb' & Hn' & Hk' & Ho).
  do 2 eexists. split; try done.
  - apply (step_frame _ _ Hps).
  - by rewrite Hn, Hn'.
  - intros j Hj. rewrite Hw'. simpl. by rewrite lookup_insert_ne.
  - by rewrite Hw'.
Qed.

Lemma rounding_frame b b' : BankAccountWrapper.bank_frame b b' → rounding b' = rounding b.
Proof. by intros ->. Qed.

(** What the balance operations do to the worth of the position. *)
Lemma rounding_nonneg k : Bank.wf k → 2 ≤ rounding k.
Proof.
  intros Hk. pose proof (Bank.wf_asv _ Hk). pose proof (Bank.wf_lsv_pos _ Hk). unfold rounding.
  pose proof (Z.div_pos (Bank.asset_share_value k) SCALE ltac:(done) SCALE_pos).
  pose proof (Z.div_pos (Bank.liability_share_value k) SCALE ltac:(lia) SCALE_pos). lia.
Qed.
Lemma increase_net w delta op now w' :
  BankAccountWrapper.wf w → 0 ≤ delta →
  BankAccountWrapper.increase_balance_internal w delta op now = Ok w' →
  delta - rounding (BankAccountWrapper.bank w) ≤ net w' - net w ≤ delta + 2.
Proof.
  intros Hwf Hd H. pose proof (BankAccountWrapper.increase_parts _ _ _ _ _ Hwf Hd H) as (? & ? & ?).
  unfold net, rounding. lia.
Qed.
Lemma decrease_net w delta op now w' :
  BankAccountWrapper.wf w → 0 ≤ delta →
  BankAccountWrapper.decrease_balance_internal w delta op now = Ok w' →
  delta - rounding (BankAccountWrapper.bank w) ≤ net w - net w' ≤ delta + 2.
Proof.
  intros Hwf Hd H. pose proof (BankAccountWrapper.decrease_parts _ _ _ _ _ Hwf Hd H) as (? & ? & ?).
  unfold net, rounding. lia.
Qed.
Lemma closed_net w : BankAccountWrapper.balance w = Balance.empty_deactivated → net w = 0.
Proof.
  intros H. unfold net, BankAccountWrapper.holdings, BankAccountWrapper.debt. rewrite H. simpl.
  change ZERO with 0. by rewrite !fmul_0_l.
Qed.
End BooksLemmas.

Ltac constraints :=
  repeat match goal with
  | H : check_account _ _ _ = Ok _ |- _ => apply check_account_ok in H as [? ?]
  | H : check_bank _ _ _ = Ok _ |- _ => apply check_bank_ok in H as [? ?]
  | H : check_authority _ _ = Ok _ |- _ => apply check_authority_ok in H
  | H : check_enabled _ = Ok _ |- _ => apply check_enabled_ok in H
  | H : load_account _ _ = Ok _ |- _ => apply load_account_ok in H
  | H : load_bank _ _ = Ok _ |- _ => apply load_bank_ok in H
  | H : load_group _ _ = Ok _ |- _ => apply ok_or_ok in H
  | H : load_token _ _ = Ok _ |- _ => apply ok_or_ok in H
  | H : load_fee_state _ = Ok _ |- _ => apply ok_or_ok in H
  end.

(** ** A world for the examples

    Two banks of group 1, with keys 600 and 610; user 70's account 800 has 100
    tokens deposited in the first and a debt in the second, user 85's account
    850 has 100 tokens deposited in the second. *)
#[local] Existing Instance demo_token_sdk.

Definition demo_runtime : Runtime := {|
  program_id := 1000;
  create_program_address s keys bump :=
    k ← head keys;
    if (k <? 0) || negb (k mod 10 =? 0) then None else
    match s with
    | LIQUIDITY_VAULT_SEED => Some (k + 1)
    | INSURANCE_VAULT_SEED => Some (k + 2)
    | FEE_VAULT_SEED => Some (k + 3)
    | LIQUIDITY_VAULT_AUTHORITY_SEED => Some (k + 4)
    | INSURANCE_VAULT_AUTHORITY_SEED => Some (k + 5)
    | FEE_VAULT_AUTHORITY_SEED => Some (k + 6)
    | EMISSIONS_AUTH_SEED => Some (k + 7)
    | EMISSIONS_TOKEN_ACCOUNT_SEED => Some (k + 8)
    | _ => Some (k + 9)
    end;
  find_program_address s keys :=
    if negb (default 0 (head keys) mod 10 =? 0) then (0, 0) else
    match s, keys with
    | FEE_STATE_SEED, _ => (2000, 255)
    | LIQUIDITY_VAULT_SEED, k :: _ => (k + 1, 255)
    | INSURANCE_VAULT_SEED, k :: _ => (k + 2, 255)
    | FEE_VAULT_SEED, k :: _ => (k + 3, 255)
    | LIQUIDITY_VAULT_AUTHORITY_SEED, k :: _ => (k + 4, 255)
    | INSURANCE_VAULT_AUTHORITY_SEED, k :: _ => (k + 5, 255)
    | FEE_VAULT_AUTHORITY_SEED, k :: _ => (k + 6, 255)
    | EMISSIONS_AUTH_SEED, k :: _ => (k + 7, 255)
    | EMISSIONS_TOKEN_ACCOUNT_SEED, k :: _ => (k + 8, 255)
    | _, _ => (0, 0)
    end;
  find_bank_address group mint seed := (10000 * group + 100 * mint + seed, 255);
  associated_token_address wallet mint _ := wallet + mint;
  end_flashloan_discriminator := [105; 124; 201; 106; 153; 2; 8; 156];
  system_transfer from to n ls :=
    if n <=? default 0 (ls !! from)
    then Ok (<[to := default 0 (ls !! to) + n]> (<[from := default 0 (ls !! from) - n]> ls))
    else Err (ECpi 1)
|}.

Definition demo_bank_of (key : Z) : Bank :=
  Bank.with_total_asset_shares (from_num 200000000)
    (Bank.with_total_liability_shares (from_num 100000000)
       (Bank.new 1 Bank.demo_config 500 6 (key + 1) (key + 2) (key + 3) 0 255 255 255 255 255 255)).
Definition demo_liquidator : MarginfiAccount :=
  MarginfiAccount.mkMarginfiAccount 1 85
    (Balance.mkBalance true 610 (from_num 100000000) 0 0 0 :: replicate 15 Balance.empty_deactivated) 0.
Definition demo_world (debt : Z) : World := {|
  banks := <[600 := demo_bank_of 600]> (<[610 := demo_bank_of 610]> ∅);
  accounts := <[800 := RiskEngine.demo_account debt]> (<[850 := demo_liquidator]> ∅);
  groups := <[1 := MarginfiGroup.with_admin 5 MarginfiGroup.zeroed]> ∅;
  fee_state := Some (mkFeeState 2000 7 8 5 255 0 0);
  tokens := <[601 := mkTokenAccount 500 604 60000000]> (<[611 := mkTokenAccount 500 614 60000000]>
    (<[612 := mkTokenAccount 500 615 60000000]> (<[801 := mkTokenAccount 500 70 1000000000]> ∅)));
  mints := ∅; lamports := ∅
|}.

Lemma demo_bank_of_wf key : Bank.wf (demo_bank_of key).
Proof. split; vm_compute; discriminate. Qed.

(** An account with one or two positions. *)
Lemma demo_account_wf b :
  Balance.wf b → LendingAccount.wf (b :: replicate 15 Balance.empty_deactivated).
Proof.
  intros Hb. apply (LendingAccount.wf_insert LendingAccount.zeroed 0 Balance.empty_deactivated b);
    [apply LendingAccount.zeroed_wf|done|done|].
  intros _ j c [-> _]%lookup_replicate. done.
Qed.
Lemma demo_account_wf' b b' :
  Balance.wf b → Balance.wf b' → Balance.bank_pk b ≠ Balance.bank_pk b' →
  LendingAccount.wf (b :: b' :: replicate 14 Balance.empty_deactivated).
Proof.
  intros Hb Hb' Hne.
  apply (LendingAccount.wf_insert (b :: replicate 15 Balance.empty_deactivated) 1
           Balance.empty_deactivated b'); [by apply demo_account_wf|done|done|].
  intros _ [|j] c; simpl; [intros [= <-] _ ?; done|].
  intros [-> _]%(lookup_replicate 15). done.
Qed.

Lemma lookup_two {A} (i j : Z) (x y : A) k v :
  (<[i := x]> (<[j := y]> ∅) : gmap Z A) !! k = Some v → (k = i ∧ v = x) ∨ (k = j ∧ v = y).
Proof. intros [[<- <-]|[_ [[<- <-]|[_ [=]]]%lookup_insert_Some]]%lookup_insert_Some; auto. Qed.

Lemma demo_world_books debt : 0 ≤ debt ≤ 100 → books_balance (demo_world debt).
Proof.
  intros Hd.
  assert (0 ≤ from_num (debt * 1000000) ≤ from_num 100000000) as Hdebt
    by (unfold from_num; pose proof SCALE_pos; nia).
  assert (LendingAccount.wf (RiskEngine.demo_lending_account debt)) as H1.
  { apply demo_account_wf'; [split|split|]; try (simpl; done || lia); [by right|by left]. }
  assert (LendingAccount.wf (MarginfiAccount.lending_account demo_liquidator)) as H2.
  { apply demo_account_wf. split; try (vm_compute; discriminate). by right. }
  split.
  - intros k b [[-> ->]|[-> ->]]%lookup_two; apply demo_bank_of_wf.
  - intros a m [[-> ->]|[-> ->]]%lookup_two; done.
  - intros a m i b [[-> ->]|[-> ->]]%lookup_two Hi Ha.
    + destruct i as [|[|i]]; simpl in Hi; [injection Hi as <-; by eexists..|].
      apply (lookup_replicate 14) in Hi as [-> _]. done.
    + destruct i as [|i]; simpl in Hi; [injection Hi as <-; by eexists|].
      apply (lookup_replicate 15) in Hi as [-> _]. done.
  - intros side k b Hk. simpl. rewrite all_shares_insert_new by done.
    rewrite all_shares_insert_new by done. unfold all_shares, map_sum. rewrite map_fold_empty.
    apply lookup_two in Hk as [[-> ->]|[-> ->]];
      unfold account_shares; simpl; unfold sumZ; simpl; unfold position_shares; simpl;
      destruct side; simpl; unfold from_num in *; lia.
Qed.
