(* ===== verification/UserIx.v ===== *)
(** * Instructions of a user's account

    [programs/marginfi/src/instructions/marginfi_account/]: opening and closing
    an account, deposits, repayments, withdrawals, borrows, emissions,
    flashloans and the transfer of an account's authority.  (Liquidation is in
    LiquidateIx.v.)  Each handler is preceded by the constraints of its
    accounts structure.  [signer] and [authority] fields are keys that signed
    the transaction. *)
From S2P Require Import Prelude Errors Fixed Constants Utils GroupState InterestRate BankState Price Account BankAccount Risk World.

(** [LendingAccountDeposit] and [LendingAccountRepay] have the same fields. *)
Record LendingAccountDeposit := {
  d_marginfi_group : Pubkey; d_marginfi_account : Pubkey; d_signer : Pubkey; d_bank : Pubkey;
  d_signer_token_account : Pubkey; d_bank_liquidity_vault : Pubkey; d_token_program : Pubkey;
  d_remaining : list AccountInfo
}.
(** [LendingAccountWithdraw] and [LendingAccountBorrow] have the same fields. *)
Record LendingAccountWithdraw := {
  wd_marginfi_group : Pubkey; wd_marginfi_account : Pubkey; wd_signer : Pubkey; wd_bank : Pubkey;
  wd_destination_token_account : Pubkey; wd_bank_liquidity_vault_authority : Pubkey;
  wd_bank_liquidity_vault : Pubkey; wd_token_program : Pubkey; wd_remaining : list AccountInfo
}.
Record LendingAccountCloseBalance := {
  cb_marginfi_group : Pubkey; cb_marginfi_account : Pubkey; cb_signer : Pubkey; cb_bank : Pubkey
}.
Record LendingAccountWithdrawEmissions := {
  we_marginfi_group : Pubkey; we_marginfi_account : Pubkey; we_signer : Pubkey; we_bank : Pubkey;
  we_emissions_mint : Pubkey; we_emissions_auth : Pubkey; we_emissions_vault : Pubkey;
  we_destination_account : Pubkey; we_token_program : Pubkey
}.

Section UserInstructions.
Context {F : FixedOps} {T : TokenSdk} {O : OracleSdk} {R : Runtime}.

(** The constraints of the deposit and repay structures. *)
Definition deposit_constraints (w : World) (c : LendingAccountDeposit)
    : MarginfiResult (MarginfiAccount * Bank) :=
  let? _ := load_group w (d_marginfi_group c) in
  let? m := check_account w (d_marginfi_group c) (d_marginfi_account c) in
  let? _ := check_authority m (d_signer c) in
  let? k := check_bank w (d_marginfi_group c) (d_bank c) in
  let? _ := check_pda LIQUIDITY_VAULT_SEED [d_bank c] (Bank.liquidity_vault_bump k)
              (d_bank_liquidity_vault c) in
  let? _ := check_token_program (d_token_program c) in
  Ok (m, k).

(** The constraints of the withdraw and borrow structures. *)
Definition withdraw_constraints (w : World) (c : LendingAccountWithdraw)
    : MarginfiResult (MarginfiAccount * Bank) :=
  let? _ := load_group w (wd_marginfi_group c) in
  let? m := check_account w (wd_marginfi_group c) (wd_marginfi_account c) in
  let? _ := check_authority m (wd_signer c) in
  let? k := check_bank w (wd_marginfi_group c) (wd_bank c) in
  let? _ := load_token w (wd_destination_token_account c) in
  let? _ := check_pda LIQUIDITY_VAULT_AUTHORITY_SEED [wd_bank c]
              (Bank.liquidity_vault_authority_bump k) (wd_bank_liquidity_vault_authority c) in
  let? _ := check_pda LIQUIDITY_VAULT_SEED [wd_bank c] (Bank.liquidity_vault_bump k)
              (wd_bank_liquidity_vault c) in
  let? _ := load_token w (wd_bank_liquidity_vault c) in
  let? _ := check_token_program (wd_token_program c) in
  Ok (m, k).

(** [bank_account.deposit_spl_transfer(..)]: the bank's own transfer. *)
Definition transfer_in (w : World) (bank : Pubkey) (amount : Z) (from to authority : Pubkey)
    (maybe_mint : option Mint) (program : Pubkey) : MarginfiResult World :=
  let? k := load_bank w bank in
  let? ts := Bank.deposit_spl_transfer k amount from to authority maybe_mint program (tokens w) in
  Ok (set_tokens ts w).
(** [bank_account.withdraw_spl_transfer(..)] *)
Definition transfer_out (w : World) (bank : Pubkey) (amount : Z) (from to authority : Pubkey)
    (maybe_mint : option Mint) (program : Pubkey) : MarginfiResult World :=
  let? k := load_bank w bank in
  let? ts := Bank.withdraw_spl_transfer k amount from to authority maybe_mint program (tokens w) in
  Ok (set_tokens ts w).

(** The operations the handlers run on the wrapped position, with the amount
    to transfer. *)
Definition repay_step (repay_all : bool) (amount : Z) (clock : Clock)
    (ba : BankAccountWrapper.BankAccountWrapper)
    : MarginfiResult (Z * BankAccountWrapper.BankAccountWrapper) :=
  if repay_all then BankAccountWrapper.repay_all ba (unix_timestamp clock)
  else
    let? ba := BankAccountWrapper.repay ba (from_num amount) (unix_timestamp clock) in
    Ok (amount, ba).

Definition withdraw_step (withdraw_all : bool) (maybe_bank_mint : option Mint) (amount : Z)
    (clock : Clock) (ba : BankAccountWrapper.BankAccountWrapper)
    : MarginfiResult (Z * BankAccountWrapper.BankAccountWrapper) :=
  if withdraw_all then BankAccountWrapper.withdraw_all ba (unix_timestamp clock)
  else
    let? amount_pre_fee := pre_fee_amount maybe_bank_mint amount (epoch clock) in
    let? ba := BankAccountWrapper.withdraw ba (from_num amount_pre_fee) (unix_timestamp clock) in
    Ok (amount_pre_fee, ba).

(** The bodies of the handlers, on the account and the bank of their context, and
    the instructions: the constraints, then the body. *)
Definition deposit_handler (w : World) (clock : Clock) (c : LendingAccountDeposit)
    (amount : Z) (m : MarginfiAccount) (k : Bank) : MarginfiResult World :=
  let? '(maybe_bank_mint, _) :=
    maybe_take_bank_mint (mints w) (d_remaining c) (Bank.mint k) (d_token_program c) in
  let? _ := check_enabled m in
  let? w := accrue w (d_bank c) (d_marginfi_group c) (unix_timestamp clock) in
  let? '(_, w) := with_position true w (d_marginfi_account c) (d_bank c) (unix_timestamp clock)
    (λ ba, no_value (BankAccountWrapper.deposit ba (from_num amount) (unix_timestamp clock))) in
  let? amount_pre_fee := pre_fee_amount maybe_bank_mint amount (epoch clock) in
  transfer_in w (d_bank c) amount_pre_fee (d_signer_token_account c) (d_bank_liquidity_vault c)
    (d_signer c) maybe_bank_mint (d_token_program c).
Definition lending_account_deposit (w : World) (clock : Clock) (c : LendingAccountDeposit)
    (amount : Z) : MarginfiResult World :=
  let? '(m, k) := deposit_constraints w c in
  deposit_handler w clock c amount m k.

Definition repay_handler (w : World) (clock : Clock) (c : LendingAccountDeposit)
    (amount : Z) (repay_all : option bool) (m : MarginfiAccount) (k : Bank) : MarginfiResult World :=
  let? '(maybe_bank_mint, _) :=
    maybe_take_bank_mint (mints w) (d_remaining c) (Bank.mint k) (d_token_program c) in
  let repay_all := default false repay_all in
  let? _ := check_enabled m in
  let? w := accrue w (d_bank c) (d_marginfi_group c) (unix_timestamp clock) in
  let? '(repay_amount_post_fee, w) :=
    with_position false w (d_marginfi_account c) (d_bank c) (unix_timestamp clock)
      (repay_step repay_all amount clock) in
  let? repay_amount_pre_fee := pre_fee_amount maybe_bank_mint repay_amount_post_fee (epoch clock) in
  transfer_in w (d_bank c) repay_amount_pre_fee (d_signer_token_account c)
    (d_bank_liquidity_vault c) (d_signer c) maybe_bank_mint (d_token_program c).
Definition lending_account_repay (w : World) (clock : Clock) (c : LendingAccountDeposit)
    (amount : Z) (repay_all : option bool) : MarginfiResult World :=
  let? '(m, k) := deposit_constraints w c in
  repay_handler w clock c amount repay_all m k.

Definition withdraw_handler (w : World) (clock : Clock) (c : LendingAccountWithdraw)
    (amount : Z) (withdraw_all : option bool) (m : MarginfiAccount) (k : Bank) : MarginfiResult World :=
  let withdraw_all := default false withdraw_all in
  let? _ := check_enabled m in
  let? '(maybe_bank_mint, remaining) :=
    maybe_take_bank_mint (mints w) (wd_remaining c) (Bank.mint k) (wd_token_program c) in
  let? w := accrue w (wd_bank c) (wd_marginfi_group c) (unix_timestamp clock) in
  let? '(amount_pre_fee, w) :=
    with_position false w (wd_marginfi_account c) (wd_bank c) (unix_timestamp clock)
      (withdraw_step withdraw_all maybe_bank_mint amount clock) in
  let? w := transfer_out w (wd_bank c) amount_pre_fee (wd_bank_liquidity_vault c)
              (wd_destination_token_account c) (wd_bank_liquidity_vault_authority c)
              maybe_bank_mint (wd_token_program c) in
  let? m := load_account w (wd_marginfi_account c) in
  let? _ := RiskEngine.check_account_init_health (banks w) clock m remaining in
  Ok w.
Definition lending_account_withdraw (w : World) (clock : Clock) (c : LendingAccountWithdraw)
    (amount : Z) (withdraw_all : option bool) : MarginfiResult World :=
  let? '(m, k) := withdraw_constraints w c in
  withdraw_handler w clock c amount withdraw_all m k.

(** The origination fee of a borrow, and its whole tokens. *)
Definition origination_fee_of (k : Bank) (amount_pre_fee : Z) : MarginfiResult (I80F48 * Z) :=
  let origination_fee_rate := InterestRateConfig.protocol_origination_fee
                                (BankConfig.interest_rate_config (Bank.config k)) in
  if origination_fee_rate =? 0 then Ok (ZERO, 0)
  else
    let? origination_fee := math (checked_mul (from_num amount_pre_fee) origination_fee_rate) in
    let? origination_fee_u64 := math (checked_to_u64 origination_fee) in
    Ok (origination_fee, origination_fee_u64).

(** The last block of [lending_account_borrow]: the fee is split between the
    program and the group. *)
Definition collect_origination_fee (k : Bank) (origination_fee program_fee_rate : I80F48)
    : MarginfiResult Bank :=
  if origination_fee =? 0 then Ok k
  else
    let bank_fees := Bank.collected_group_fees_outstanding k in
    if program_fee_rate =? 0 then
      Ok (Bank.with_collected_group_fees_outstanding (saturating_add bank_fees origination_fee) k)
    else
      let? program_fee_amount := math (checked_mul origination_fee program_fee_rate) in
      let bank_fees_after :=
        saturating_add bank_fees (saturating_sub origination_fee program_fee_amount) in
      let program_fees_before := Bank.collected_program_fees_outstanding k in
      let k := Bank.with_collected_program_fees_outstanding
                 (saturating_add program_fees_before program_fee_amount) k in
      Ok (Bank.with_collected_group_fees_outstanding bank_fees_after k).

(** The user borrows the amount plus the fee and receives the amount. *)
Definition borrow_step (maybe_bank_mint : option Mint) (amount : Z) (clock : Clock)
    (ba : BankAccountWrapper.BankAccountWrapper)
    : MarginfiResult ((Z * (I80F48 * Z)) * BankAccountWrapper.BankAccountWrapper) :=
  let? amount_pre_fee := pre_fee_amount maybe_bank_mint amount (epoch clock) in
  let? fee := origination_fee_of (BankAccountWrapper.bank ba) amount_pre_fee in
  let? borrowed := op_add (from_num amount_pre_fee) (fst fee) in
  let? ba := BankAccountWrapper.borrow ba borrowed (unix_timestamp clock) in
  Ok ((amount_pre_fee, fee), ba).

Definition borrow_handler (w : World) (clock : Clock) (c : LendingAccountWithdraw)
    (amount : Z) (m : MarginfiAccount) (k : Bank) : MarginfiResult World :=
  let? '(maybe_bank_mint, remaining) :=
    maybe_take_bank_mint (mints w) (wd_remaining c) (Bank.mint k) (wd_token_program c) in
  let? group := load_group w (wd_marginfi_group c) in
  let program_fee_rate := program_fee_rate (MarginfiGroup.fee_state_cache group) in
  let? _ := check_enabled m in
  let? w := accrue w (wd_bank c) (wd_marginfi_group c) (unix_timestamp clock) in
  let? '((amount_pre_fee, (origination_fee, origination_fee_u64)), w) :=
    with_position true w (wd_marginfi_account c) (wd_bank c) (unix_timestamp clock)
      (borrow_step maybe_bank_mint amount clock) in
  let? w := transfer_out w (wd_bank c) amount_pre_fee (wd_bank_liquidity_vault c)
              (wd_destination_token_account c) (wd_bank_liquidity_vault_authority c)
              maybe_bank_mint (wd_token_program c) in
  let? _ := unwrap (u64_checked_add amount_pre_fee origination_fee_u64) in
  let? k := load_bank w (wd_bank c) in
  let? k := collect_origination_fee k origination_fee program_fee_rate in
  let w := set_bank (wd_bank c) k w in
  let? m := load_account w (wd_marginfi_account c) in
  let? _ := RiskEngine.check_account_init_health (banks w) clock m remaining in
  Ok w.
Definition lending_account_borrow (w : World) (clock : Clock) (c : LendingAccountWithdraw)
    (amount : Z) : MarginfiResult World :=
  let? '(m, k) := withdraw_constraints w c in
  borrow_handler w clock c amount m k.

Definition lending_account_close_balance (w : World) (clock : Clock) (c : LendingAccountCloseBalance)
    : MarginfiResult World :=
  let? _ := load_group w (cb_marginfi_group c) in
  let? m := check_account w (cb_marginfi_group c) (cb_marginfi_account c) in
  let? _ := check_authority m (cb_signer c) in
  let? _ := check_bank w (cb_marginfi_group c) (cb_bank c) in
  let? _ := check_enabled m in
  let? w := accrue w (cb_bank c) (cb_marginfi_group c) (unix_timestamp clock) in
  let? '(_, w) := with_position false w (cb_marginfi_account c) (cb_bank c) (unix_timestamp clock)
    (λ ba, no_value (BankAccountWrapper.close_balance ba (unix_timestamp clock))) in
  Ok w.

Definition lending_account_withdraw_emissions (w : World) (clock : Clock)
    (c : LendingAccountWithdrawEmissions) : MarginfiResult World :=
  let? _ := load_group w (we_marginfi_group c) in
  let? m := check_account w (we_marginfi_group c) (we_marginfi_account c) in
  let? _ := check_authority m (we_signer c) in
  let? k := check_bank w (we_marginfi_group c) (we_bank c) in
  let? _ := check (we_emissions_mint c =? Bank.emissions_mint k) ConstraintAddress in
  let? _ := ok_or (mints w !! we_emissions_mint c) AccountNotInitialized in
  let? _ := check_canonical_pda EMISSIONS_AUTH_SEED [we_bank c; we_emissions_mint c]
              (we_emissions_auth c) in
  let? _ := check_canonical_pda EMISSIONS_TOKEN_ACCOUNT_SEED [we_bank c; we_emissions_mint c]
              (we_emissions_vault c) in
  let? _ := load_token w (we_emissions_vault c) in
  let? _ := load_token w (we_destination_account c) in
  let? _ := check_token_program (we_token_program c) in
  let? _ := check_enabled m in
  let? '(emissions_settle_amount, w) :=
    with_position false w (we_marginfi_account c) (we_bank c) (unix_timestamp clock)
      (λ ba, BankAccountWrapper.settle_emissions_and_get_transfer_amount ba (unix_timestamp clock)) in
  if 0 <? emissions_settle_amount then
    let? ts := spl_transfer (mkTransfer emissions_settle_amount (we_emissions_vault c)
                 (we_destination_account c) (we_emissions_auth c) (Some (we_emissions_mint c))
                 (we_token_program c)) (tokens w) in
    Ok (set_tokens ts w)
  else Ok w.

(** [unix_timestamp.try_into().unwrap()] *)
Definition lending_account_settle_emissions (w : World) (clock : Clock)
    (marginfi_account bank : Pubkey) : MarginfiResult World :=
  let? m := load_account w marginfi_account in
  let? k := load_bank w bank in
  let? _ := check (MarginfiAccount.group m =? Bank.group k) ConstraintRaw in
  let? '(_, w) := with_position false w marginfi_account bank (unix_timestamp clock)
    (λ ba, let? now := unwrap (u64_checked (unix_timestamp clock)) in
           no_value (BankAccountWrapper.claim_emissions ba now)) in
  Ok w.

(** [init] refuses an account that exists. *)
Definition initialize_account (w : World) (marginfi_group marginfi_account authority : Pubkey)
    : MarginfiResult World :=
  let? _ := load_group w marginfi_group in
  let? _ := check (negb (bool_decide (is_Some (accounts w !! marginfi_account)))) AccountAlreadyInUse in
  Ok (set_account marginfi_account
        (MarginfiAccount.initialize MarginfiAccount.zeroed marginfi_group authority) w).

Definition close_account (w : World) (marginfi_account authority : Pubkey) : MarginfiResult World :=
  let? m := load_account w marginfi_account in
  let? _ := check_authority m authority in
  let? can := MarginfiAccount.can_be_closed m in
  let? _ := check can IllegalAction in
  Ok (close_account_at marginfi_account w).

Definition set_account_transfer_authority (w : World)
    (marginfi_account marginfi_group signer new_authority : Pubkey) : MarginfiResult World :=
  let? m := load_account w marginfi_account in
  let? _ := check (marginfi_group =? MarginfiAccount.group m) ConstraintAddress in
  let? _ := check_authority m signer in
  let? m := MarginfiAccount.set_new_account_authority_checked m new_authority in
  Ok (set_account marginfi_account m w).

(** ** Flashloans *)
(** What the runtime tells the instruction about its transaction: its
    instructions, the index of the current one, and whether the handler runs
    at the transaction's level (not called by another program). *)
Record TxContext := {
  tx_instructions : list Instruction; tx_current : Z; tx_top_level : bool
}.

(** [load_instruction_at_checked] *)
Definition instruction_at (tx : TxContext) (i : Z) : MarginfiResult Instruction :=
  if i <? 0 then Err EInvalidArgument
  else ok_or (tx_instructions tx !! Z.to_nat i) EInvalidArgument.

Definition END_FL_IX_MARGINFI_ACCOUNT_AI_IDX : nat := 0.

Definition check_flashloan_can_start (m : MarginfiAccount) (marginfi_account : Pubkey)
    (tx : TxContext) (end_fl_idx : Z) : MarginfiResult unit :=
  let? _ := check_enabled m in
  let current_ix_idx := tx_current tx in
  let? _ := check (current_ix_idx <? end_fl_idx) IllegalFlashloan in
  let? current_ix := instruction_at tx current_ix_idx in
  let? _ := check (tx_top_level tx) IllegalFlashloan in
  let? _ := check (ix_program_id current_ix =? program_id) IllegalFlashloan in
  let? end_fl_ix := instruction_at tx end_fl_idx in
  let? _ := rust_assert (8 <=? Z.of_nat (length (ix_data end_fl_ix))) in
  let? _ := check (bool_decide (take 8 (ix_data end_fl_ix) = end_flashloan_discriminator))
              IllegalFlashloan in
  let? _ := check (ix_program_id end_fl_ix =? program_id) IllegalFlashloan in
  let? end_fl_marginfi_account :=
    ok_or (ix_accounts end_fl_ix !! END_FL_IX_MARGINFI_ACCOUNT_AI_IDX) IllegalFlashloan in
  let? _ := check (end_fl_marginfi_account =? marginfi_account) IllegalFlashloan in
  let? _ := check_enabled m in
  check (negb (MarginfiAccount.get_flag m IN_FLASHLOAN_FLAG)) IllegalFlashloan.

Definition lending_account_start_flashloan (w : World) (tx : TxContext)
    (marginfi_account signer : Pubkey) (end_index : Z) : MarginfiResult World :=
  let? m := load_account w marginfi_account in
  let? _ := check_authority m signer in
  let? _ := check_flashloan_can_start m marginfi_account tx end_index in
  Ok (set_account marginfi_account (MarginfiAccount.set_flag m IN_FLASHLOAN_FLAG) w).

Definition lending_account_end_flashloan (w : World) (clock : Clock) (tx : TxContext)
    (marginfi_account signer : Pubkey) (remaining : list AccountInfo) : MarginfiResult World :=
  let? m := load_account w marginfi_account in
  let? _ := check_authority m signer in
  let? _ := check (tx_top_level tx) IllegalFlashloan in
  let m := MarginfiAccount.unset_flag m IN_FLASHLOAN_FLAG in
  let? _ := RiskEngine.check_account_init_health (banks w) clock m remaining in
  Ok (set_account marginfi_account m w).
End UserInstructions.

(** ** The books *)
Section UserBooks.
Context {F : FixedOps} {L : FixedLaws F} {T : TokenSdk} {O : OracleSdk} {R : Runtime}.

Lemma pre_fee_amount_u64 m amount e p :
  is_u64 amount → pre_fee_amount m amount e = Ok p → is_u64 p.
Proof.
  intros Hu H. unfold pre_fee_amount, calculate_pre_fee_spl_deposit_amount in H.
  destruct m as [m|]; [|by injection H as <-].
  destruct (mint_owner m =? token_id); [by injection H as <-|].
  destruct (mint_fee_config m) as [cfg|]; [|by injection H as <-].
  apply unwrap_ok in H. unfold calculate_pre_fee_amount in H.
  destruct (_ =? 0); [by injection H as <-|]. destruct (amount =? 0); [injection H as <-; done|].
  destruct (_ =? ONE_IN_BASIS_POINTS); [by apply u64_checked_some in H as [-> ?]|].
  repeat (apply bind_Some in H as (? & _ & H)).
  destruct (_ <=? _); by apply u64_checked_some in H as [-> ?].
Qed.

Lemma is_u64_as_i64 n : is_u64 n → i64_as_u64 n = n.
Proof. intros [? ?]. apply Z.mod_small. unfold U64_MAX in *. lia. Qed.

Lemma claim_keeps_books n :
  is_u64 n → keeps_books (λ ba, no_value (BankAccountWrapper.claim_emissions ba n)).
Proof.
  intros Hn. rewrite <- (is_u64_as_i64 n Hn).
  apply (run_keeps_books BankAccountWrapper.ClaimEmissions n I).
Qed.

Lemma origination_fee_nonneg k p fee n :
  origination_fee_of k p = Ok (fee, n) → 0 ≤ fee ∧ 0 ≤ n ∧ n = fee / SCALE.
Proof.
  unfold origination_fee_of. destruct (_ =? 0); [by intros [= <- <-]|].
  intros H. apply bind_ok in H as (x & _ & H). apply bind_ok in H as (y & Hy & H).
  injection H as <- <-. apply math_ok, to_u64_some in Hy as (-> & [? _] & ?). done.
Qed.

Lemma deposit_step_keeps amount clock :
  is_u64 amount →
  keeps_books (λ ba, no_value (BankAccountWrapper.deposit ba (from_num amount) (unix_timestamp clock))).
Proof.
  intros [Hu _]. apply (run_keeps_books (BankAccountWrapper.Increase (from_num amount) IncAny)).
  by apply from_num_nonneg.
Qed.
Lemma repay_step_keeps all amount clock : is_u64 amount → keeps_books (repay_step all amount clock).
Proof.
  intros [Hu _]. apply (op_keeps_books _ (unix_timestamp clock)). intros w a w' H.
  unfold repay_step in H. destruct all.
  - exists BankAccountWrapper.RepayAll. split; [done|]. simpl. by rewrite H.
  - apply bind_ok in H as (w1 & H & Hr). injection Hr as <- <-.
    exists (BankAccountWrapper.Increase (from_num amount) RepayOnly).
    split; [by apply from_num_nonneg|done].
Qed.
Lemma withdraw_step_keeps all mint amount clock :
  is_u64 amount → keeps_books (withdraw_step all mint amount clock).
Proof.
  intros Hu. apply (op_keeps_books _ (unix_timestamp clock)). intros w a w' H.
  unfold withdraw_step in H. destruct all.
  - exists BankAccountWrapper.WithdrawAll. split; [done|]. simpl. by rewrite H.
  - apply bind_ok in H as (p & Hp & H). apply bind_ok in H as (w1 & H & Hr). injection Hr as <- <-.
    exists (BankAccountWrapper.Decrease (from_num p) WithdrawOnly).
    split; [|done]. apply from_num_nonneg. by eapply pre_fee_amount_u64 in Hp as [? _].
Qed.
Lemma borrow_step_keeps mint amount clock :
  is_u64 amount → keeps_books (borrow_step mint amount clock).
Proof.
  intros Hu. apply (op_keeps_books _ (unix_timestamp clock)). intros w a w' H.
  unfold borrow_step in H. apply bind_ok in H as (p & Hp & H). apply bind_ok in H as ([fee n] & Hf & H).
  apply bind_ok in H as (b & Hb & H). apply bind_ok in H as (w1 & H & Hr). injection Hr as <- <-.
  apply op_add_ok in Hb as ->.
  exists (BankAccountWrapper.Decrease (from_num p + fee) DecAny). split; [|done].
  apply origination_fee_nonneg in Hf as [? _].
  eapply pre_fee_amount_u64 in Hp as [? _]; [|done].
  pose proof (from_num_nonneg p ltac:(done)). simpl. lia.
Qed.
Lemma settle_step_keeps clock :
  keeps_books (λ ba, BankAccountWrapper.settle_emissions_and_get_transfer_amount ba (unix_timestamp clock)).
Proof.
  apply (op_keeps_books _ (unix_timestamp clock)). intros w a w' H.
  exists BankAccountWrapper.SettleEmissions. split; [done|]. simpl. by rewrite H.
Qed.

(** The transfers only touch token accounts. *)
Lemma transfer_in_ok w bank amount from to auth mint prog w' :
  transfer_in w bank amount from to auth mint prog = Ok w' →
  ∃ k ts, banks w !! bank = Some k ∧ to = Bank.liquidity_vault k ∧
    spl_transfer (mkTransfer amount from to auth (mint_key <$> mint) prog) (tokens w) = Ok ts ∧
    w' = set_tokens ts w.
Proof.
  unfold transfer_in, Bank.deposit_spl_transfer. intros H.
  apply bind_ok in H as (k & Hk & H). apply load_bank_ok in Hk.
  apply bind_ok in H as (ts & Hts & H). injection H as <-.
  apply bind_ok in Hts as (u & Hu & Hts). apply check_ok in Hu. bool_prop. eauto 10.
Qed.
Lemma transfer_out_ok w bank amount from to auth mint prog w' :
  transfer_out w bank amount from to auth mint prog = Ok w' →
  ∃ ts, spl_transfer (mkTransfer amount from to auth (mint_key <$> mint) prog) (tokens w) = Ok ts ∧
    w' = set_tokens ts w.
Proof.
  unfold transfer_out, Bank.withdraw_spl_transfer. intros H.
  apply bind_ok in H as (k & Hk & H). apply bind_ok in H as (ts & Hts & H). injection H as <-. eauto.
Qed.

(** The account and the bank an instruction names, of one group, and the
    account's authority as the signer. *)
Record entitled (w : World) (group account signer bank : Pubkey) (m : MarginfiAccount) (k : Bank) : Prop := {
  ent_account : accounts w !! account = Some m;
  ent_bank : banks w !! bank = Some k;
  ent_account_group : MarginfiAccount.group m = group;
  ent_bank_group : Bank.group k = group;
  ent_signer : signer = MarginfiAccount.authority m;
  ent_enabled : MarginfiAccount.get_flag m DISABLED_FLAG = false
}.

Lemma deposit_ok w clock c amount w' :
  lending_account_deposit w clock c amount = Ok w' →
  ∃ m k mint w1 w2 pre,
    entitled w (d_marginfi_group c) (d_marginfi_account c) (d_signer c) (d_bank c) m k ∧
    accrue w (d_bank c) (d_marginfi_group c) (unix_timestamp clock) = Ok w1 ∧
    with_position true w1 (d_marginfi_account c) (d_bank c) (unix_timestamp clock)
      (λ ba, no_value (BankAccountWrapper.deposit ba (from_num amount) (unix_timestamp clock)))
      = Ok (tt, w2) ∧
    pre_fee_amount mint amount (epoch clock) = Ok pre ∧
    transfer_in w2 (d_bank c) pre (d_signer_token_account c) (d_bank_liquidity_vault c)
      (d_signer c) mint (d_token_program c) = Ok w'.
Proof.
  unfold lending_account_deposit, deposit_handler, deposit_constraints. intros H. inv_res.
  constraints.
  do 6 eexists. split_and!; [|done..]. by split.
Qed.

Lemma repay_ok w clock c amount all w' :
  lending_account_repay w clock c amount all = Ok w' →
  ∃ m k mint w1 w2 post pre,
    entitled w (d_marginfi_group c) (d_marginfi_account c) (d_signer c) (d_bank c) m k ∧
    accrue w (d_bank c) (d_marginfi_group c) (unix_timestamp clock) = Ok w1 ∧
    with_position false w1 (d_marginfi_account c) (d_bank c) (unix_timestamp clock)
      (repay_step (default false all) amount clock) = Ok (post, w2) ∧
    pre_fee_amount mint post (epoch clock) = Ok pre ∧
    transfer_in w2 (d_bank c) pre (d_signer_token_account c) (d_bank_liquidity_vault c)
      (d_signer c) mint (d_token_program c) = Ok w'.
Proof.
  unfold lending_account_repay, repay_handler, deposit_constraints. intros H. inv_res.
  constraints.
  do 7 eexists. split_and!; [|done..]. by split.
Qed.

Lemma withdraw_ok w clock c amount all w' :
  lending_account_withdraw w clock c amount all = Ok w' →
  ∃ m k mint rest w1 w2 n m',
    entitled w (wd_marginfi_group c) (wd_marginfi_account c) (wd_signer c) (wd_bank c) m k ∧
    accrue w (wd_bank c) (wd_marginfi_group c) (unix_timestamp clock) = Ok w1 ∧
    with_position false w1 (wd_marginfi_account c) (wd_bank c) (unix_timestamp clock)
      (withdraw_step (default false all) mint amount clock) = Ok (n, w2) ∧
    transfer_out w2 (wd_bank c) n (wd_bank_liquidity_vault c) (wd_destination_token_account c)
      (wd_bank_liquidity_vault_authority c) mint (wd_token_program c) = Ok w' ∧
    accounts w' !! wd_marginfi_account c = Some m' ∧
    RiskEngine.check_account_init_health (banks w') clock m' rest = Ok tt.
Proof.
  unfold lending_account_withdraw, withdraw_handler, withdraw_constraints. intros H. inv_res.
  constraints.
  do 8 eexists. split_and!; [|done..]. by split.
Qed.

Lemma borrow_ok w clock c amount w' :
  lending_account_borrow w clock c amount = Ok w' →
  ∃ m k mint rest g w1 w2 w3 n fee fee_u64 k3 k4 m',
    entitled w (wd_marginfi_group c) (wd_marginfi_account c) (wd_signer c) (wd_bank c) m k ∧
    groups w !! wd_marginfi_group c = Some g ∧
    accrue w (wd_bank c) (wd_marginfi_group c) (unix_timestamp clock) = Ok w1 ∧
    with_position true w1 (wd_marginfi_account c) (wd_bank c) (unix_timestamp clock)
      (borrow_step mint amount clock) = Ok ((n, (fee, fee_u64)), w2) ∧
    transfer_out w2 (wd_bank c) n (wd_bank_liquidity_vault c) (wd_destination_token_account c)
      (wd_bank_liquidity_vault_authority c) mint (wd_token_program c) = Ok w3 ∧
    banks w3 !! wd_bank c = Some k3 ∧
    collect_origination_fee k3 fee (program_fee_rate (MarginfiGroup.fee_state_cache g)) = Ok k4 ∧
    w' = set_bank (wd_bank c) k4 w3 ∧
    accounts w' !! wd_marginfi_account c = Some m' ∧
    RiskEngine.check_account_init_health (banks w') clock m' rest = Ok tt.
Proof.
  unfold lending_account_borrow, borrow_handler, withdraw_constraints. intros H. inv_res.
  constraints.
  do 14 eexists. split_and!; [|done..]. by split.
Qed.

Lemma close_balance_ok w clock c w' :
  lending_account_close_balance w clock c = Ok w' →
  ∃ m k w1,
    entitled w (cb_marginfi_group c) (cb_marginfi_account c) (cb_signer c) (cb_bank c) m k ∧
    accrue w (cb_bank c) (cb_marginfi_group c) (unix_timestamp clock) = Ok w1 ∧
    with_position false w1 (cb_marginfi_account c) (cb_bank c) (unix_timestamp clock)
      (λ ba, no_value (BankAccountWrapper.close_balance ba (unix_timestamp clock))) = Ok (tt, w').
Proof.
  unfold lending_account_close_balance. intros H. inv_res.
  constraints.
  do 3 eexists. split_and!; [|done..]. by split.
Qed.

Lemma withdraw_emissions_ok w clock c w' :
  lending_account_withdraw_emissions w clock c = Ok w' →
  ∃ m k n w1,
    entitled w (we_marginfi_group c) (we_marginfi_account c) (we_signer c) (we_bank c) m k ∧
    with_position false w (we_marginfi_account c) (we_bank c) (unix_timestamp clock)
      (λ ba, BankAccountWrapper.settle_emissions_and_get_transfer_amount ba (unix_timestamp clock))
      = Ok (n, w1) ∧
    we_emissions_mint c = Bank.emissions_mint k ∧
    ∃ ts, w' = set_tokens ts w1 ∧
      (if 0 <? n then
         spl_transfer (mkTransfer n (we_emissions_vault c) (we_destination_account c)
           (we_emissions_auth c) (Some (we_emissions_mint c)) (we_token_program c)) (tokens w1) = Ok ts
       else ts = tokens w1).
Proof.
  unfold lending_account_withdraw_emissions. intros H.
  apply bind_ok in H as (g & Hg & H). apply bind_ok in H as (m & Hm & H).
  apply bind_ok in H as (u1 & Ha & H). apply bind_ok in H as (k & Hk & H).
  apply bind_ok in H as (u2 & Hmint & H). apply check_ok in Hmint. bool_prop.
  do 6 (apply bind_ok in H as (? & _ & H)).
  apply bind_ok in H as (u3 & Hen & H). apply bind_ok in H as ([n w1] & Hp & H).
  constraints.
  exists m, k, n, w1. split_and!; [by split|done|done|].
  destruct (0 <? n).
  - apply bind_ok in H as (ts & Hts & H). injection H as <-. by exists ts.
  - injection H as <-. exists (tokens w1). split; [by destruct w1|done].
Qed.

Lemma repay_all_u64 ba now n ba' : BankAccountWrapper.repay_all ba now = Ok (n, ba') → is_u64 n.
Proof.
  unfold BankAccountWrapper.repay_all. intros H. inv_res.
  match goal with H : checked_to_u64 _ = Some _ |- _ => by apply to_u64_some in H as (_ & ? & _) end.
Qed.

(** The deposit as a step that also returns the credited amount. *)
Definition deposit_step (amount : Z) (clock : Clock) (ba : BankAccountWrapper.BankAccountWrapper)
    : MarginfiResult (Z * BankAccountWrapper.BankAccountWrapper) :=
  let? ba := BankAccountWrapper.deposit ba (from_num amount) (unix_timestamp clock) in
  Ok (amount, ba).
Lemma with_position_deposit create w a k now amount clock w' :
  with_position create w a k now
    (λ ba, no_value (BankAccountWrapper.deposit ba (from_num amount) (unix_timestamp clock)))
    = Ok (tt, w') →
  with_position create w a k now (deposit_step amount clock) = Ok (amount, w').
Proof.
  unfold with_position. intros H.
  apply bind_ok in H as (m & -> & H). simpl. apply bind_ok in H as (b & -> & H). simpl.
  apply bind_ok in H as ([[i l] w0] & -> & H). simpl. apply bind_ok in H as ([x w1] & Hf & H).
  unfold no_value in Hf. apply bind_ok in Hf as (w2 & Hf & Hr). injection Hr as <- <-.
  unfold deposit_step. rewrite Hf. simpl. by injection H as <-.
Qed.
Lemma deposit_step_net amount clock ba n ba' :
  is_u64 amount → BankAccountWrapper.wf ba → deposit_step amount clock ba = Ok (n, ba') →
  is_u64 n ∧ position_step ba ba' ∧
  from_num n - rounding (BankAccountWrapper.bank ba) - ZERO_AMOUNT_THRESHOLD - ONE
    ≤ net ba' - net ba ≤ from_num n + 2.
Proof.
  intros Hu Hwf H. apply bind_ok in H as (w1 & H & Hr). injection Hr as <- <-.
  assert (0 < ZERO_AMOUNT_THRESHOLD ∧ 2 ≤ ONE) as [? ?] by (vm_compute; done).
  pose proof (from_num_nonneg amount (proj1 Hu)).
  pose proof (increase_net _ _ _ _ _ Hwf ltac:(done) H).
  split_and!; [done| |lia..].
  eapply (deposit_step_keeps amount clock Hu); [done|]. by rewrite H.
Qed.

Lemma end_flashloan_ok w clock tx acc signer rest w' :
  lending_account_end_flashloan w clock tx acc signer rest = Ok w' →
  ∃ m, accounts w !! acc = Some m ∧ signer = MarginfiAccount.authority m ∧ tx_top_level tx = true ∧
    let m' := MarginfiAccount.unset_flag m IN_FLASHLOAN_FLAG in
    RiskEngine.check_account_init_health (banks w) clock m' rest = Ok tt ∧
    w' = set_account acc m' w.
Proof.
  unfold lending_account_end_flashloan. intros H. inv_res. constraints. eauto 10.
Qed.

(** *** What the steps do to the worth of a position *)
Lemma withdraw_step_net all mint amount clock ba n ba' :
  is_u64 amount → BankAccountWrapper.wf ba →
  withdraw_step all mint amount clock ba = Ok (n, ba') →
  0 ≤ n ∧
  from_num n - rounding (BankAccountWrapper.bank ba) - ZERO_AMOUNT_THRESHOLD ≤ net ba - net ba'
    ≤ from_num n + ONE.
Proof.
  intros Hu Hwf H. pose proof (rounding_nonneg _ (BankAccountWrapper.wf_bank _ Hwf)).
  assert (0 < ZERO_AMOUNT_THRESHOLD ∧ 2 ≤ ONE) as [? ?] by (vm_compute; done).
  unfold withdraw_step in H. destruct all.
  - apply BankAccountWrapper.withdraw_all_spec in H as (e & _ & _ & Hpos & Hdebt & Hn & _ & Hb & _);
      [|done].
    rewrite (closed_net ba' Hb). unfold net.
    assert (0 ≤ BankAccountWrapper.debt ba).
    { destruct Hwf as [[_ ? _ _] Hk _ _]. pose proof (Bank.wf_lsv_pos _ Hk).
      apply fmul_nonneg; lia. }
    pose proof (floor_bounds (BankAccountWrapper.holdings ba)). pose proof SCALE_pos.
    unfold from_num. rewrite Hn. change ONE with SCALE in *.
    split; [apply Z.div_pos; lia|]. lia.
  - apply bind_ok in H as (p & Hp & H). apply bind_ok in H as (w1 & H & Hr). injection Hr as <- <-.
    apply pre_fee_amount_u64 in Hp as [? _]; [|done]. split; [done|].
    pose proof (from_num_nonneg p ltac:(done)).
    pose proof (decrease_net _ _ _ _ _ Hwf ltac:(done) H). lia.
Qed.
Lemma repay_step_net all amount clock ba n ba' :
  is_u64 amount → BankAccountWrapper.wf ba →
  repay_step all amount clock ba = Ok (n, ba') →
  is_u64 n ∧
  from_num n - rounding (BankAccountWrapper.bank ba) - ZERO_AMOUNT_THRESHOLD - ONE
    ≤ net ba' - net ba ≤ from_num n + 2.
Proof.
  intros Hu Hwf H. pose proof (rounding_nonneg _ (BankAccountWrapper.wf_bank _ Hwf)).
  assert (0 < ZERO_AMOUNT_THRESHOLD ∧ 2 ≤ ONE) as [? ?] by (vm_compute; done).
  unfold repay_step in H. destruct all.
  - pose proof (repay_all_u64 _ _ _ _ H) as Hn64.
    apply BankAccountWrapper.repay_all_spec in H as (e & _ & _ & Hpos & Hhold & Hn & _ & Hb & _);
      [|done].
    rewrite (closed_net ba' Hb). unfold net.
    assert (0 ≤ BankAccountWrapper.holdings ba).
    { destruct Hwf as [[? _ _ _] Hk _ _]. pose proof (Bank.wf_asv _ Hk). by apply fmul_nonneg. }
    pose proof (ceil_bounds (BankAccountWrapper.debt ba)). pose proof SCALE_pos.
    split; [done|]. unfold from_num. rewrite Hn. change ONE with SCALE in *. lia.
  - apply bind_ok in H as (w1 & H & Hr). injection Hr as <- <-. split; [done|].
    destruct Hu as [Hu _]. pose proof (from_num_nonneg amount Hu).
    pose proof (increase_net _ _ _ _ _ Hwf ltac:(done) H). lia.
Qed.

Lemma borrow_step_net mint amount clock ba n fee fee_u64 ba' :
  is_u64 amount → BankAccountWrapper.wf ba →
  borrow_step mint amount clock ba = Ok ((n, (fee, fee_u64)), ba') →
  is_u64 n ∧ origination_fee_of (BankAccountWrapper.bank ba) n = Ok (fee, fee_u64) ∧ 0 ≤ fee ∧
  from_num n + fee - rounding (BankAccountWrapper.bank ba) ≤ net ba - net ba'
    ≤ from_num n + fee + 2.
Proof.
  intros Hu Hwf H. unfold borrow_step in H.
  apply bind_ok in H as (p & Hp & H). apply bind_ok in H as ([fee' n'] & Hf & H).
  apply bind_ok in H as (b & Hb & H). apply bind_ok in H as (w1 & H & Hr). simpl in *.
  injection Hr as <- <- <- <-.
  pose proof (pre_fee_amount_u64 _ _ _ _ Hu Hp) as Hpu.
  pose proof (origination_fee_nonneg _ _ _ _ Hf) as (Hfee & _).
  apply op_add_ok in Hb as ->. pose proof (from_num_nonneg p (proj1 Hpu)).
  assert (0 ≤ from_num p + fee') as Hpos by lia.
  pose proof (decrease_net _ _ _ _ _ Hwf Hpos H). done.
Qed.

Lemma origination_fee_exact k n fee u :
  let rate := InterestRateConfig.protocol_origination_fee
                (BankConfig.interest_rate_config (Bank.config k)) in
  0 ≤ rate → 0 ≤ n → origination_fee_of k n = Ok (fee, u) → fee = fmul (from_num n) rate.
Proof.
  intros rate Hr Hn H. unfold origination_fee_of in H. fold rate in H.
  destruct (rate =? 0) eqn:E; bool_prop.
  - injection H as <- _. by rewrite E, fmul_0_r.
  - apply bind_ok in H as (x & Hx & H). apply bind_ok in H as (y & _ & H). injection H as <- _.
    by apply math_ok, mul_some in Hx as [-> _]; [|apply from_num_nonneg|].
Qed.

Lemma saturating_fits a b : is_i80f48 (a + b) → saturating_add a b = a + b.
Proof. intros [? ?]. rewrite saturating_add_spec. unfold I80F48_MIN, I80F48_MAX in *. lia. Qed.
Lemma saturating_sub_fits a b : is_i80f48 (a - b) → saturating_sub a b = a - b.
Proof. intros [? ?]. rewrite saturating_sub_spec. unfold I80F48_MIN, I80F48_MAX in *. lia. Qed.

(** The whole fee of a borrow is booked. *)
Lemma collect_origination_fee_ok k fee rate k' :
  0 ≤ fee → 0 ≤ rate ≤ ONE → Bank.wf k →
  is_i80f48 (Bank.collected_group_fees_outstanding k + fee) →
  is_i80f48 (Bank.collected_program_fees_outstanding k + fee) → is_i80f48 fee →
  collect_origination_fee k fee rate = Ok k' →
  Bank.collected_program_fees_outstanding k'
    = Bank.collected_program_fees_outstanding k + fmul fee rate ∧
  Bank.collected_group_fees_outstanding k' + Bank.collected_program_fees_outstanding k'
    = Bank.collected_group_fees_outstanding k + Bank.collected_program_fees_outstanding k + fee.
Proof.
  intros Hfee Hrate Hk Hg Hp Hi H. unfold collect_origination_fee in H.
  pose proof (fmul_nonneg fee rate Hfee (proj1 Hrate)).
  pose proof (fmul_le_l fee rate Hfee Hrate).
  pose proof (Bank.wf_group_fees _ Hk). pose proof (Bank.wf_program_fees _ Hk).
  destruct (fee =? 0) eqn:E0; bool_prop.
  { injection H as <-. subst fee. rewrite fmul_0_l. lia. }
  destruct (rate =? 0) eqn:E1; bool_prop.
  { injection H as <-. simpl. rewrite E1, fmul_0_r, saturating_fits by done. lia. }
  apply bind_ok in H as (p & Hpr & H). injection H as <-. simpl.
  apply math_ok, mul_some in Hpr as [-> _]; [|lia..].
  unfold is_i80f48, I80F48_MIN, I80F48_MAX in *.
  rewrite (saturating_sub_fits fee), !saturating_fits
    by (unfold is_i80f48, I80F48_MIN, I80F48_MAX; lia). lia.
Qed.
(** Only the fee accounts change. *)
Lemma collect_origination_fee_frame k fee rate k' :
  collect_origination_fee k fee rate = Ok k' →
  ∃ gf pf, k' = Bank.with_collected_group_fees_outstanding gf
                  (Bank.with_collected_program_fees_outstanding pf k).
Proof.
  unfold collect_origination_fee. intros H.
  destruct (fee =? 0).
  { injection H as <-. exists (Bank.collected_group_fees_outstanding k),
      (Bank.collected_program_fees_outstanding k). by destruct k. }
  destruct (rate =? 0).
  { injection H as <-. eexists _, (Bank.collected_program_fees_outstanding k). by destruct k. }
  apply bind_ok in H as (p & _ & H). injection H as <-. by do 2 eexists.
Qed.

Lemma transfer_out_tokens {TL : TokenLaws T} w bank n from to auth mint prog w' :
  from ≠ to → transfer_out w bank n from to auth mint prog = Ok w' →
  token_amount (tokens w') from = token_amount (tokens w) from - n ∧ ∃ ts, w' = set_tokens ts w.
Proof.
  intros Hne H. apply transfer_out_ok in H as (ts & Hts & ->).
  apply spl_transfer_spec in Hts as (_ & _ & _ & Hm & _). simpl in Hm.
  destruct (Hm Hne) as [? _]. split; [done|by eexists].
Qed.

Lemma accrue_frame w bank group now w' :
  accrue w bank group now = Ok w' → ∃ k, w' = set_bank bank k w.
Proof. unfold accrue. intros H. inv_res. by eexists. Qed.
(** A deposit and a repayment are both an inflow: a step that credits [n]
    tokens, and a transfer into the vault. *)
Lemma inflow_parts w clock c amount w' :
  is_u64 amount →
  (lending_account_deposit w clock c amount = Ok w' ∨
   ∃ all, lending_account_repay w clock c amount all = Ok w') →
  ∃ create step mint w1 w2 n pre,
    (∀ ba n ba', BankAccountWrapper.wf ba → step ba = Ok (n, ba') → is_u64 n ∧ position_step ba ba' ∧
       from_num n - rounding (BankAccountWrapper.bank ba) - ZERO_AMOUNT_THRESHOLD - ONE
         ≤ net ba' - net ba ≤ from_num n + 2) ∧
    accrue w (d_bank c) (d_marginfi_group c) (unix_timestamp clock) = Ok w1 ∧
    with_position create w1 (d_marginfi_account c) (d_bank c) (unix_timestamp clock) step = Ok (n, w2) ∧
    pre_fee_amount mint n (epoch clock) = Ok pre ∧
    transfer_in w2 (d_bank c) pre (d_signer_token_account c) (d_bank_liquidity_vault c)
      (d_signer c) mint (d_token_program c) = Ok w'.
Proof.
  intros Hu [H|[all H]].
  - apply deposit_ok in H as (m & k & mint & w1 & w2 & pre & _ & Hac & Hp & Hpre & Ht).
    exists true, (deposit_step amount clock), mint, w1, w2, amount, pre.
    split_and!; [|done|by apply with_position_deposit|done..].
    intros. by eapply deposit_step_net.
  - apply repay_ok in H as (m & k & mint & w1 & w2 & n & pre & _ & Hac & Hp & Hpre & Ht).
    exists false, (repay_step (default false all) amount clock), mint, w1, w2, n, pre.
    split_and!; [|done..]. intros ba n' ba' Hwf Hs.
    pose proof (repay_step_net _ _ _ _ _ _ Hu Hwf Hs) as [? ?].
    split_and!; [done| |lia..]. by apply (repay_step_keeps _ _ _ Hu) in Hs.
Qed.
End UserBooks.

Section UserTheorems.
Context {F : FixedOps} {L : FixedLaws F} {T : TokenSdk} {TL : TokenLaws T} {O : OracleSdk} {R : Runtime}.

(** C9: what a withdrawal takes out of the liquidity vault
    is taken off the worth of the user's position in the bank (after interest
    is accrued): at most the rounding of the shares, and the debt of less than
    0.0001 token that closing a position forgives, is missing; and no more
    than one token is charged in excess. *)
Theorem withdrawals_are_charged w clock c amount all w' :
  books_balance w → is_u64 amount → wd_bank_liquidity_vault c ≠ wd_destination_token_account c →
  lending_account_withdraw w clock c amount all = Ok w' →
  ∃ n w1 k, accrue w (wd_bank c) (wd_marginfi_group c) (unix_timestamp clock) = Ok w1 ∧
    banks w1 !! wd_bank c = Some k ∧
    token_amount (tokens w') (wd_bank_liquidity_vault c)
      = token_amount (tokens w) (wd_bank_liquidity_vault c) - n ∧
    let charged := worth w1 (wd_marginfi_account c) (wd_bank c)
                   - worth w' (wd_marginfi_account c) (wd_bank c) in
    from_num n - rounding k - ZERO_AMOUNT_THRESHOLD ≤ charged ≤ from_num n + ONE ∧
    books_balance w'.
Proof.
  intros Hb Hu Hne H.
  apply withdraw_ok in H as (m & k0 & mint & rest & w1 & w2 & n & m' & _ & Hac & Hp & Ht & _ & _).
  pose proof (accrue_ok _ _ _ _ _ Hb Hac) as (_ & _ & _ & _ & _ & _ & _ & Hb1).
  pose proof (accrue_frame _ _ _ _ _ Hac) as (k1 & Hw1).
  pose proof (with_position_frame _ _ _ _ _ _ _ _ Hp) as (? & ? & ? & _ & Hw2).
  pose proof (with_position_worth _ _ _ _ _ _ _ _ Hb1 Hp) as (p0 & p1 & Hf & Hwf & Hbk & Hn0 & Hstep).
  destruct Hstep as (Hb2 & Hn1 & _); [by eapply withdraw_step_keeps|].
  pose proof (withdraw_step_net _ _ _ _ _ _ _ Hu Hwf Hf) as [? ?].
  apply transfer_out_tokens in Ht as (Htok & ts & ->); [|done].
  exists n, w1, (BankAccountWrapper.bank p0). split_and!; [done|done| |].
  - rewrite Htok, Hw2, Hw1. done.
  - change (worth (set_tokens ts w2)) with (worth w2). rewrite Hn0, Hn1.
    split; [lia|by apply set_tokens_books].
Qed.

(** C10: a borrow pays out [n] tokens and charges the position
    [n] and the bank's origination fee on them (up to the rounding of the
    shares), and the whole fee is booked: the program's share of it at the
    group's rate, the rest to the group. *)
Theorem borrows_are_charged w clock c amount w' :
  books_balance w → is_u64 amount → wd_bank_liquidity_vault c ≠ wd_destination_token_account c →
  lending_account_borrow w clock c amount = Ok w' →
  ∃ n fee w1 k k' g, accrue w (wd_bank c) (wd_marginfi_group c) (unix_timestamp clock) = Ok w1 ∧
    banks w1 !! wd_bank c = Some k ∧ banks w' !! wd_bank c = Some k' ∧
    groups w !! wd_marginfi_group c = Some g ∧
    let rate := InterestRateConfig.protocol_origination_fee
                  (BankConfig.interest_rate_config (Bank.config k)) in
    let program_rate := program_fee_rate (MarginfiGroup.fee_state_cache g) in
    let charged := worth w1 (wd_marginfi_account c) (wd_bank c)
                   - worth w' (wd_marginfi_account c) (wd_bank c) in
    token_amount (tokens w') (wd_bank_liquidity_vault c)
      = token_amount (tokens w) (wd_bank_liquidity_vault c) - n ∧
    from_num n + fee - rounding k ≤ charged ≤ from_num n + fee + 2 ∧
    (0 ≤ rate → fee = fmul (from_num n) rate) ∧
    (0 ≤ program_rate ≤ ONE →
     is_i80f48 (Bank.collected_group_fees_outstanding k + fee) →
     is_i80f48 (Bank.collected_program_fees_outstanding k + fee) → is_i80f48 fee →
     Bank.collected_program_fees_outstanding k'
       = Bank.collected_program_fees_outstanding k + fmul fee program_rate ∧
     Bank.collected_group_fees_outstanding k' + Bank.collected_program_fees_outstanding k'
       = Bank.collected_group_fees_outstanding k + Bank.collected_program_fees_outstanding k + fee).
Proof.
  intros Hb Hu Hne H. apply borrow_ok in H
    as (m & k0 & mint & rest & g & w1 & w2 & w3 & n & fee & fee_u64 & k3 & k4 & m' & _ & Hg & Hac & Hp
        & Ht & Hk3 & Hcol & Hw' & _ & _).
  pose proof (accrue_ok _ _ _ _ _ Hb Hac) as (_ & _ & _ & _ & _ & _ & _ & Hb1).
  pose proof (accrue_frame _ _ _ _ _ Hac) as (k1 & Hw1).
  pose proof (with_position_frame _ _ _ _ _ _ _ _ Hp) as (? & ? & ? & _ & Hw2).
  pose proof (with_position_worth _ _ _ _ _ _ _ _ Hb1 Hp) as (p0 & p1 & Hf & Hwf & Hbk & Hn0 & Hstep).
  assert (position_step p0 p1) as Hps by (by eapply borrow_step_keeps).
  destruct (Hstep Hps) as (Hb2 & Hn1 & Hk2 & _).
  pose proof (borrow_step_net _ _ _ _ _ _ _ _ Hu Hwf Hf) as (Hnu & Hfo & Hfee & Hcharge).
  apply transfer_out_tokens in Ht as (Htok & ts & ->); [|done].
  simpl in Hk3. rewrite Hk2 in Hk3. injection Hk3 as <-.
  assert (worth w' (wd_marginfi_account c) (wd_bank c) = net p1) as Hn'.
  { rewrite <- Hn1, Hw'. apply collect_origination_fee_frame in Hcol as (gf & pf & ->).
    unfold worth. simpl. rewrite lookup_insert_eq, Hk2. by destruct (accounts w2 !! _). }
  exists n, fee, w1, (BankAccountWrapper.bank p0), k4, g.
  split_and!; [done|done|by rewrite Hw'; simpl; apply lookup_insert_eq|done|].
  rewrite Hn', Hn0. split_and!; [|lia..| |].
  - rewrite Hw'. simpl in *. by rewrite Htok, Hw2, Hw1.
  - intros Hr. by eapply origination_fee_exact; [|apply Hnu|].
  - intros Hr Hig Hip Hif. pose proof (step_frame _ _ Hps) as Hfr.
    pose proof (BankAccountWrapper.wf_bank _ (step_wf _ _ Hps)) as Hwk.
    rewrite Hfr in Hcol, Hwk. by apply collect_origination_fee_ok in Hcol.
Qed.


End UserTheorems.

(** ** Examples *)
#[local] Existing Instance demo_token_sdk.
#[local] Existing Instance demo_oracle_sdk.
#[local] Existing Instance demo_runtime.

Definition demo_outflow (bank : Z) : LendingAccountWithdraw := {|
  wd_marginfi_group := 1; wd_marginfi_account := 800; wd_signer := 70; wd_bank := bank;
  wd_destination_token_account := 801; wd_bank_liquidity_vault_authority := bank + 4;
  wd_bank_liquidity_vault := bank + 1; wd_token_program := token_id;
  wd_remaining := RiskEngine.demo_remaining |}.
Definition demo_inflow (bank : Z) : LendingAccountDeposit := {|
  d_marginfi_group := 1; d_marginfi_account := 800; d_signer := 70; d_bank := bank;
  d_signer_token_account := 801; d_bank_liquidity_vault := bank + 1; d_token_program := token_id;
  d_remaining := [] |}.
Definition demo_withdraw : MarginfiResult World :=
  lending_account_withdraw (demo_world 10) demo_clock (demo_outflow 600) 1000000 None.
Definition demo_borrow : MarginfiResult World :=
  lending_account_borrow (demo_world 10) demo_clock (demo_outflow 610) 1000000.
Definition demo_repay : MarginfiResult World :=
  lending_account_repay (demo_world 30) demo_clock (demo_inflow 610) 0 (Some true).

Lemma demo_outflow_amount a b n : a = b - n → a = 59000000 → b = 60000000 → n = 1000000.
Proof. lia. Qed.

Lemma withdrawals_are_charged_witness :
  let w' := ok_value (demo_world 10) demo_withdraw in
  ∃ n, token_amount (tokens w') 601 = 60000000 - n ∧ n = 1000000 ∧ books_balance w'.
Proof.
  intros w'.
  destruct (withdrawals_are_charged (F := i80f48) (demo_world 10) demo_clock (demo_outflow 600)
              1000000 None w') as (n & w1 & k & _ & _ & Htok & _ & Hb).
  - apply demo_world_books. lia.
  - unfold is_u64, U64_MAX. lia.
  - discriminate.
  - apply ok_value_ok. vm_compute. reflexivity.
  - exists n. split_and!; [exact Htok| |exact Hb].
    apply (demo_outflow_amount _ _ _ Htok); vm_compute; reflexivity.
Defined.

Lemma borrows_are_charged_witness :
  let w' := ok_value (demo_world 10) demo_borrow in
  ∃ n, token_amount (tokens w') 611 = 60000000 - n ∧ n = 1000000.
Proof.
  intros w'.
  destruct (borrows_are_charged (F := i80f48) (demo_world 10) demo_clock (demo_outflow 610)
              1000000 w') as (n & fee & w1 & k & k' & g & _ & _ & _ & _ & Htok & _).
  - apply demo_world_books. lia.
  - unfold is_u64, U64_MAX. lia.
  - discriminate.
  - apply ok_value_ok. vm_compute. reflexivity.
  - exists n. split; [exact Htok|].
    apply (demo_outflow_amount _ _ _ Htok); vm_compute; reflexivity.
Defined.


