(* ===== verification/LiquidateIx.v ===== *)
(** * Liquidation

    [programs/marginfi/src/instructions/marginfi_account/liquidate.rs]: a
    liquidator takes over an amount of an unhealthy account's collateral and
    pays part of its debt at a discount. *)
From S2P Require Import Prelude Errors Fixed Constants Utils GroupState InterestRate BankState Price Account BankAccount Risk World.

Record LendingAccountLiquidate := {
  lq_marginfi_group : Pubkey; lq_asset_bank : Pubkey; lq_liab_bank : Pubkey;
  lq_liquidator_marginfi_account : Pubkey; lq_signer : Pubkey; lq_liquidatee_marginfi_account : Pubkey;
  lq_bank_liquidity_vault_authority : Pubkey; lq_bank_liquidity_vault : Pubkey;
  lq_bank_insurance_vault : Pubkey; lq_token_program : Pubkey; lq_remaining : list AccountInfo
}.

(** [&l[n..]] and [&l[a..b]]: out of range panics. *)
Definition slice_from {A} (l : list A) (n : Z) : MarginfiResult (list A) :=
  if (0 <=? n) && (n <=? Z.of_nat (length l)) then Ok (drop (Z.to_nat n) l) else Panic.
Definition slice {A} (l : list A) (a b : Z) : MarginfiResult (list A) :=
  if (0 <=? a) && (a <=? b) && (b <=? Z.of_nat (length l))
  then Ok (take (Z.to_nat (b - a)) (drop (Z.to_nat a) l)) else Panic.
(** [a - b] on [usize] *)
Definition usize_sub (a b : Z) : MarginfiResult Z := if b <=? a then Ok (a - b) else Panic.

Section Liquidate.
Context {F : FixedOps} {T : TokenSdk} {O : OracleSdk} {R : Runtime}.

Definition final_discount : I80F48 := ONE - (LIQUIDATION_INSURANCE_FEE + LIQUIDATION_LIQUIDATOR_FEE).
Definition liquidator_discount : I80F48 := ONE - LIQUIDATION_LIQUIDATOR_FEE.

(** The amount of the liability the liquidator pays, and the amount the
    liquidatee receives. *)
Definition liquidation_amounts (asset_amount asset_price : I80F48) (asset_decimals : Z)
    (liab_price : I80F48) (liab_decimals : Z) : MarginfiResult (I80F48 * I80F48) :=
  let? v := calc_value asset_amount asset_price asset_decimals (Some liquidator_discount) in
  let? liab_amount_liquidator := calc_amount v liab_price liab_decimals in
  let? v := calc_value asset_amount asset_price asset_decimals (Some final_discount) in
  let? liab_amount_final := calc_amount v liab_price liab_decimals in
  Ok (liab_amount_liquidator, liab_amount_final).

(** The price of a bank's token from the oracle account it is given. *)
Definition realtime_price (k : Bank) (oracle_ais : list AccountInfo) (clock : Clock) (bias : PriceBias)
    : MarginfiResult I80F48 :=
  let? pf := OraclePriceFeedAdapter.try_from_bank_config (Bank.config k) oracle_ais clock in
  OraclePriceFeedAdapter.get_price_of_type pf RealTime (Some bias).

(** An operation between two readings of the position's amount. *)
Definition with_amounts (amount_of : BankAccountWrapper.BankAccountWrapper → MarginfiResult I80F48)
    (f : BankAccountWrapper.BankAccountWrapper → MarginfiResult BankAccountWrapper.BankAccountWrapper)
    (ba : BankAccountWrapper.BankAccountWrapper)
    : MarginfiResult ((I80F48 * I80F48) * BankAccountWrapper.BankAccountWrapper) :=
  let? pre_balance := amount_of ba in
  let? ba := f ba in
  let? post_balance := amount_of ba in
  Ok ((pre_balance, post_balance), ba).
Definition liability_amount (ba : BankAccountWrapper.BankAccountWrapper) : MarginfiResult I80F48 :=
  Bank.get_liability_amount (BankAccountWrapper.bank ba)
    (Balance.liability_shares (BankAccountWrapper.balance ba)).
Definition asset_amount_of (ba : BankAccountWrapper.BankAccountWrapper) : MarginfiResult I80F48 :=
  Bank.get_asset_amount (BankAccountWrapper.bank ba)
    (Balance.asset_shares (BankAccountWrapper.balance ba)).

Definition liquidate_constraints (w : World) (c : LendingAccountLiquidate)
    : MarginfiResult (MarginfiAccount * MarginfiAccount * Bank) :=
  let? _ := load_group w (lq_marginfi_group c) in
  let? _ := check_bank w (lq_marginfi_group c) (lq_asset_bank c) in
  let? liab_bank := check_bank w (lq_marginfi_group c) (lq_liab_bank c) in
  let? liquidator := check_account w (lq_marginfi_group c) (lq_liquidator_marginfi_account c) in
  let? _ := check_authority liquidator (lq_signer c) in
  let? liquidatee := check_account w (lq_marginfi_group c) (lq_liquidatee_marginfi_account c) in
  let? _ := check_pda LIQUIDITY_VAULT_AUTHORITY_SEED [lq_liab_bank c]
              (Bank.liquidity_vault_authority_bump liab_bank) (lq_bank_liquidity_vault_authority c) in
  let? _ := check_pda LIQUIDITY_VAULT_SEED [lq_liab_bank c]
              (Bank.liquidity_vault_bump liab_bank) (lq_bank_liquidity_vault c) in
  let? _ := load_token w (lq_bank_liquidity_vault c) in
  let? _ := check_pda INSURANCE_VAULT_SEED [lq_liab_bank c]
              (Bank.insurance_vault_bump liab_bank) (lq_bank_insurance_vault c) in
  let? _ := check_token_program (lq_token_program c) in
  Ok (liquidator, liquidatee, liab_bank).

(** The first three changes of positions: the liquidator pays, and the
    collateral changes hands.  The liquidatee's withdrawal reports every error
    as an illegal liquidation. *)
Definition exchange_collateral (w : World) (now : Z) (c : LendingAccountLiquidate)
    (asset_amount liab_amount_liquidator : I80F48) : MarginfiResult World :=
  let? '(_, w) := with_position true w (lq_liquidator_marginfi_account c) (lq_liab_bank c) now
    (with_amounts liability_amount (λ ba,
       BankAccountWrapper.decrease_balance_in_liquidation ba liab_amount_liquidator now)) in
  let? '(_, w) := with_position false w (lq_liquidatee_marginfi_account c) (lq_asset_bank c) now
    (with_amounts asset_amount_of (λ ba,
       map_err (λ _, EMarginfi IllegalLiquidation) (BankAccountWrapper.withdraw ba asset_amount now))) in
  let? '(_, w) := with_position true w (lq_liquidator_marginfi_account c) (lq_asset_bank c) now
    (with_amounts asset_amount_of (λ ba,
       BankAccountWrapper.increase_balance_in_liquidation ba asset_amount now)) in
  Ok w.

(** The fourth: the liquidatee receives the payment of its debt. *)
Definition repay_liquidatee (w : World) (now : Z) (c : LendingAccountLiquidate)
    (liab_amount_final : I80F48) : MarginfiResult World :=
  let? '(_, w) := with_position true w (lq_liquidatee_marginfi_account c) (lq_liab_bank c) now
    (with_amounts liability_amount (λ ba,
       BankAccountWrapper.increase_balance ba liab_amount_final now)) in
  Ok w.

(** The insurance fee: its whole tokens go to the insurance vault, its
    fraction to the fees outstanding. *)
Definition collect_insurance_fee (w : World) (c : LendingAccountLiquidate)
    (maybe_liab_bank_mint : option Mint) (insurance_fee_to_transfer : Z) (insurance_fee_dust : I80F48)
    : MarginfiResult World :=
  let? k := load_bank w (lq_liab_bank c) in
  let? ts := Bank.withdraw_spl_transfer k insurance_fee_to_transfer (lq_bank_liquidity_vault c)
               (lq_bank_insurance_vault c) (lq_bank_liquidity_vault_authority c)
               maybe_liab_bank_mint (lq_token_program c) (tokens w) in
  let? fees := math (checked_add (Bank.collected_insurance_fees_outstanding k) insurance_fee_dust) in
  Ok (set_tokens ts (set_bank (lq_liab_bank c)
        (Bank.with_collected_insurance_fees_outstanding fees k) w)).

(** ** [lending_account_liquidate] *)
Definition liquidate_handler (w : World) (clock : Clock) (c : LendingAccountLiquidate)
    (asset_amount : Z) (liquidatee : MarginfiAccount) (liab_bank : Bank) : MarginfiResult World :=
  let now := unix_timestamp clock in
  let? _ := check (0 <? asset_amount) IllegalLiquidation in
  let? _ := check (negb (lq_asset_bank c =? lq_liab_bank c)) IllegalLiquidation in
  (* both accounts are borrowed mutably at once *)
  let? _ := check (negb (lq_liquidator_marginfi_account c =? lq_liquidatee_marginfi_account c))
              AccountBorrowFailed in
  let? '(maybe_liab_bank_mint, remaining) :=
    maybe_take_bank_mint (mints w) (lq_remaining c) (Bank.mint liab_bank) (lq_token_program c) in
  let? w := accrue w (lq_asset_bank c) (lq_marginfi_group c) now in
  let? w := accrue w (lq_liab_bank c) (lq_marginfi_group c) now in
  let remaining_len := Z.of_nat (length remaining) in
  let init_liquidatee_remaining_len := MarginfiAccount.get_remaining_accounts_len liquidatee in
  let? liquidatee_starting_pos := usize_sub remaining_len init_liquidatee_remaining_len in
  let? liquidatee_remaining := slice_from remaining liquidatee_starting_pos in
  let? e := RiskEngine.new (banks w) clock liquidatee liquidatee_remaining in
  let? pre_liquidation_health :=
    RiskEngine.check_pre_liquidation_condition_and_get_account_health e (lq_liab_bank c) in
  let? asset_bank := load_bank w (lq_asset_bank c) in
  let? oracle_ais := slice remaining 0 1 in
  let? asset_price := realtime_price asset_bank oracle_ais clock Low in
  let? liab_bank := load_bank w (lq_liab_bank c) in
  let? oracle_ais := slice remaining 1 2 in
  let? liab_price := realtime_price liab_bank oracle_ais clock High in
  let? '(liab_amount_liquidator, liab_amount_final) :=
    liquidation_amounts (from_num asset_amount) asset_price (Bank.mint_decimals asset_bank)
      liab_price (Bank.mint_decimals liab_bank) in
  let? insurance_fund_fee := op_sub liab_amount_liquidator liab_amount_final in
  let? _ := rust_assert (ZERO <=? insurance_fund_fee) in
  let? w := exchange_collateral w now c (from_num asset_amount) liab_amount_liquidator in
  let? insurance_fee_to_transfer := math (checked_to_u64 insurance_fund_fee) in
  let? w := repay_liquidatee w now c liab_amount_final in
  let? w := collect_insurance_fee w c maybe_liab_bank_mint insurance_fee_to_transfer
              (fx_frac insurance_fund_fee) in
  let? liquidator := load_account w (lq_liquidator_marginfi_account c) in
  let? liquidatee := load_account w (lq_liquidatee_marginfi_account c) in
  let? liquidatee_starting_pos := usize_sub remaining_len init_liquidatee_remaining_len in
  let? liquidator_starting_pos :=
    usize_sub liquidatee_starting_pos (MarginfiAccount.get_remaining_accounts_len liquidator) in
  let? liquidatee_remaining := slice_from remaining liquidatee_starting_pos in
  let? liquidator_remaining := slice remaining liquidator_starting_pos liquidatee_starting_pos in
  let? e := RiskEngine.new (banks w) clock liquidatee liquidatee_remaining in
  let? post_liquidation_health :=
    RiskEngine.check_post_liquidation_condition_and_get_account_health e (lq_liab_bank c)
      pre_liquidation_health in
  let? _ := RiskEngine.check_account_init_health (banks w) clock liquidator liquidator_remaining in
  Ok w.
(** The instruction: the constraints, then the handler. *)
Definition lending_account_liquidate (w : World) (clock : Clock) (c : LendingAccountLiquidate)
    (asset_amount : Z) : MarginfiResult World :=
  let? '(_, liquidatee, liab_bank) := liquidate_constraints w c in
  liquidate_handler w clock c asset_amount liquidatee liab_bank.
End Liquidate.

(** ** Lemmas *)

(** The oracles report no negative price.  A feed's confidence interval is
    compared with a fraction of its price, so with a multiplication that rounds
    down the program checks this itself. *)
Class PricesNonneg {F : FixedOps} (O : OracleSdk) : Prop :=
  prices_nonneg k ais clock bias p : realtime_price (O := O) k ais clock bias = Ok p → 0 ≤ p.

#[export] Instance i80f48_prices_nonneg (O : OracleSdk) : PricesNonneg (F := i80f48) O.
Proof.
  intros k ais clock bias p H. unfold realtime_price in H. apply bind_ok in H as (pf & _ & H).
  destruct (get_price_of_type_shape pf RealTime) as (mp & mci & Heq & Hcap). rewrite Heq in H.
  apply bind_ok in H as (p0 & Hp0 & H).
  assert (∃ i, mci = Ok i ∧ (p = p0 - i ∨ p = p0 + i)) as (i & Hi & Hp)
    by (destruct bias; apply apply_bias_spec in H as (i & ? & ?); eauto).
  destruct (Hcap _ _ Hp0 Hi) as (conf & Hc). pose proof (cap_confidence_ok _ _ _ Hc) as (? & _ & Hpos & _).
  destruct (decide (0 ≤ p0)) as [Hge|Hlt].
  { pose proof (Hpos Hge). pose proof (five_percent p0 Hge). lia. }
  exfalso. unfold cap_confidence in Hc. apply bind_ok in Hc as (m & Hm & Hc).
  apply bind_ok in Hc as (u & Hu & _). apply rust_assert_ok in Hu.
  apply math_ok in Hm. simpl in Hm. apply fits_some in Hm as [-> _].
  rewrite Z.shiftr_div_pow2 in Hu by done.
  assert (p0 * MAX_CONF_INTERVAL / 2 ^ 48 < 0) as Hneg.
  { apply Z.div_lt_upper_bound; [done|]. assert (0 < MAX_CONF_INTERVAL) by (vm_compute; done). nia. }
  apply Z.leb_le in Hu. exact (Z.lt_irrefl _ (Z.le_lt_trans _ _ _ Hu Hneg)).
Qed.

Section LiquidateLemmas.
Context {F : FixedOps} {L : FixedLaws F} {T : TokenSdk} {O : OracleSdk} {R : Runtime}.

Lemma with_amounts_ok g f ba x ba' : with_amounts g f ba = Ok (x, ba') → f ba = Ok ba'.
Proof.
  unfold with_amounts. intros H. apply bind_ok in H as (p & _ & H).
  apply bind_ok in H as (b & Hb & H). apply bind_ok in H as (q & _ & H). by injection H as <- <-.
Qed.

(** What an increase or a decrease by [delta] does to the worth; neither
    touches the fees. *)
Definition grows (delta : Z) (b b' : Bank) (d : Z) : Prop :=
  delta - rounding b ≤ d ≤ delta + 2 ∧
  Bank.collected_insurance_fees_outstanding b' = Bank.collected_insurance_fees_outstanding b.
Definition shrinks (delta : Z) (b b' : Bank) (d : Z) : Prop := grows delta b b' (- d).

Lemma run_step op now ba ba' :
  BankAccountWrapper.op_amount_ok op → BankAccountWrapper.wf ba →
  BankAccountWrapper.run op ba now = Ok ba' → position_step ba ba'.
Proof.
  intros Hok Hwf H. eapply op_result_step; [done|]. by eapply BankAccountWrapper.run_result.
Qed.

Lemma liquidation_increase g delta op now ba x ba' :
  0 ≤ delta → BankAccountWrapper.wf ba →
  with_amounts g (λ ba, BankAccountWrapper.increase_balance_internal ba delta op now) ba = Ok (x, ba') →
  position_step ba ba' ∧ grows delta (BankAccountWrapper.bank ba) (BankAccountWrapper.bank ba') (net ba' - net ba).
Proof.
  intros Hd Hwf H%with_amounts_ok. unfold grows. split_and!; try by eapply increase_net.
  - by eapply (run_step (BankAccountWrapper.Increase delta op)).
  - by apply BankAccountWrapper.increase_spec in H as (e & -> & _).
Qed.
Lemma liquidation_decrease g delta op now (f : BankAccountWrapper.BankAccountWrapper → _) ba x ba' :
  0 ≤ delta → BankAccountWrapper.wf ba →
  (∀ ba ba', f ba = Ok ba' → BankAccountWrapper.decrease_balance_internal ba delta op now = Ok ba') →
  with_amounts g f ba = Ok (x, ba') →
  position_step ba ba' ∧ shrinks delta (BankAccountWrapper.bank ba) (BankAccountWrapper.bank ba') (net ba' - net ba).
Proof.
  intros Hd Hwf Hf H%with_amounts_ok%Hf. split.
  - by eapply (run_step (BankAccountWrapper.Decrease delta op)).
  - pose proof (decrease_net _ _ _ _ _ Hwf Hd H). unfold shrinks, grows. split; [lia|].
    by apply BankAccountWrapper.decrease_spec in H as (e & -> & _).
Qed.

Lemma exchange_collateral_ok w now c q ll w' :
  books_balance w → 0 ≤ q → 0 ≤ ll → exchange_collateral w now c q ll = Ok w' →
  ∃ w1 w2 b1 b1' b2 b2' b3 b3',
    moved w w1 (lq_liquidator_marginfi_account c) (lq_liab_bank c) b1 b1' (shrinks ll) ∧
    moved w1 w2 (lq_liquidatee_marginfi_account c) (lq_asset_bank c) b2 b2' (shrinks q) ∧
    moved w2 w' (lq_liquidator_marginfi_account c) (lq_asset_bank c) b3 b3' (grows q).
Proof.
  intros Hb Hq Hll H. unfold exchange_collateral in H.
  apply bind_ok in H as ([x1 w1] & H1 & H). apply bind_ok in H as ([x2 w2] & H2 & H).
  apply bind_ok in H as ([x3 w3] & H3 & H). injection H as <-.
  apply (with_position_moves _ _ _ _ _ _ _ _ (shrinks ll)) in H1 as (b1 & b1' & H1); [|done|].
  2: { intros ba x ba' Hwf Hf. eapply (liquidation_decrease _ ll); [done..|idtac|exact Hf].
       intros ? ? Hw. exact Hw. }
  apply (with_position_moves _ _ _ _ _ _ _ _ (shrinks q)) in H2 as (b2 & b2' & H2);
    [|by eapply moved_books|].
  2: { intros ba x ba' Hwf Hf. eapply (liquidation_decrease _ q); [done..|idtac|exact Hf].
       intros ? ? Hw. apply map_err_ok in Hw. exact Hw. }
  apply (with_position_moves _ _ _ _ _ _ _ _ (grows q)) in H3 as (b3 & b3' & H3);
    [|by eapply moved_books|intros ba x ba' Hwf Hf; by eapply (liquidation_increase _ q)].
  eauto 15.
Qed.

Lemma repay_liquidatee_ok w now c lf w' :
  books_balance w → 0 ≤ lf → repay_liquidatee w now c lf = Ok w' →
  ∃ b b', moved w w' (lq_liquidatee_marginfi_account c) (lq_liab_bank c) b b' (grows lf).
Proof.
  intros Hb Hlf H. unfold repay_liquidatee in H. apply bind_ok in H as ([x w1] & H1 & H).
  injection H as <-.
  apply (with_position_moves _ _ _ _ _ _ _ _ (grows lf)) in H1 as (b & b' & H1); [by exists b, b'|done|].
  intros ba y ba' Hwf Hf. by eapply (liquidation_increase _ lf).
Qed.

Lemma calc_amount_decimals v p d q : calc_amount v p d = Ok q → 0 ≤ d.
Proof. unfold calc_amount. intros H. inv_res. apply EXP_10_I80F48_lookup in E as [? _]. lia. Qed.

Lemma liquidation_amounts_ok q pa da pl dl ll lf :
  0 ≤ q → 0 ≤ pa → 0 ≤ pl → liquidation_amounts q pa da pl dl = Ok (ll, lf) →
  0 < pl ∧ 0 ≤ lf ≤ ll ∧
  ll = fdiv (fmul (value_of q pa da (Some liquidator_discount)) (from_num (10 ^ dl))) pl ∧
  lf = fdiv (fmul (value_of q pa da (Some final_discount)) (from_num (10 ^ dl))) pl.
Proof.
  intros Hq Hpa Hpl H. unfold liquidation_amounts in H.
  apply bind_ok in H as (v1 & H1 & H). apply bind_ok in H as (a1 & Ha1 & H).
  apply bind_ok in H as (v2 & H2 & H). apply bind_ok in H as (a2 & Ha2 & H). injection H as <- <-.
  assert (0 ≤ final_discount ≤ liquidator_discount) as Hdisc by (vm_compute; split; discriminate).
  apply calc_value_nn in H1 as [-> Hv1]; [|done|done|intros x [= <-]; lia].
  apply calc_value_nn in H2 as [-> Hv2]; [|done|done|intros x [= <-]; lia].
  pose proof (calc_amount_decimals _ _ _ _ Ha1) as Hdl.
  apply calc_amount_nn in Ha1 as (Hp & H1 & ->); [|done..].
  apply calc_amount_nn in Ha2 as (_ & H2 & ->); [|done..].
  split_and!; try done. apply fdiv_mono; [|done].
  apply fmul_mono; [split; [done|]|pose proof (exp10_SCALE_pos dl Hdl); lia].
  unfold value_of. apply fdiv_mono'. apply fmul_mono; [|lia].
  split; [apply fmul_nonneg; lia|apply fmul_mono; lia].
Qed.

Lemma liquidation_decimals q pa da pl dl ll lf :
  liquidation_amounts q pa da pl dl = Ok (ll, lf) → q ≠ 0 → 0 ≤ da ∧ 0 ≤ dl.
Proof.
  unfold liquidation_amounts. intros H Hq.
  apply bind_ok in H as (v1 & H1 & H). apply bind_ok in H as (a1 & Ha1 & _).
  split; [|by eapply calc_amount_decimals]. unfold calc_value in H1.
  destruct (q =? ZERO) eqn:E; [by apply Z.eqb_eq in E|]. apply bind_ok in H1 as (s & Hs & _).
  apply EXP_10_I80F48_lookup in Hs as [? _]. lia.
Qed.
Lemma accrue_tokens w bank group now w' : accrue w bank group now = Ok w' → tokens w' = tokens w.
Proof. unfold accrue. intros H. by inv_res. Qed.

Lemma collect_insurance_fee_ok w c mint n dust w' :
  collect_insurance_fee w c mint n dust = Ok w' →
  ∃ k ts, banks w !! lq_liab_bank c = Some k ∧
    spl_transfer (mkTransfer n (lq_bank_liquidity_vault c) (lq_bank_insurance_vault c)
      (lq_bank_liquidity_vault_authority c) (mint_key <$> mint) (lq_token_program c)) (tokens w) = Ok ts ∧
    w' = set_tokens ts (set_bank (lq_liab_bank c)
           (Bank.with_collected_insurance_fees_outstanding
              (Bank.collected_insurance_fees_outstanding k + dust) k) w).
Proof.
  unfold collect_insurance_fee, Bank.withdraw_spl_transfer. intros H.
  apply bind_ok in H as (k & Hk & H). apply load_bank_ok in Hk.
  apply bind_ok in H as (ts & Hts & H). apply bind_ok in H as (f & Hf & H). injection H as <-.
  apply math_ok, add_some in Hf as [-> _]. eauto.
Qed.

(** What the constraints establish: both accounts and both banks are of the
    group, and the signer is the liquidator's authority. *)
Lemma liquidate_constraints_ok w c m1 m2 k :
  liquidate_constraints w c = Ok (m1, m2, k) →
  accounts w !! lq_liquidator_marginfi_account c = Some m1 ∧
  accounts w !! lq_liquidatee_marginfi_account c = Some m2 ∧ banks w !! lq_liab_bank c = Some k ∧
  MarginfiAccount.group m1 = lq_marginfi_group c ∧ MarginfiAccount.group m2 = lq_marginfi_group c ∧
  Bank.group k = lq_marginfi_group c ∧ lq_signer c = MarginfiAccount.authority m1 ∧
  ∃ ka, banks w !! lq_asset_bank c = Some ka ∧ Bank.group ka = lq_marginfi_group c.
Proof. unfold liquidate_constraints. intros H. inv_res. constraints. split_and!; eauto. Qed.

(** The steps of a liquidation that succeeds. *)
Record liquidation (w : World) (clock : Clock) (c : LendingAccountLiquidate) (q : Z) (w' w1 : World)
    (m_lr m_le : MarginfiAccount) (ka kl : Bank) (pa pl ll lf : I80F48) (e0 e1 : RiskEngine.RiskEngine)
    (pre post : I80F48) : Prop := {
  liq_liquidator : accounts w !! lq_liquidator_marginfi_account c = Some m_lr;
  liq_liquidatee : accounts w !! lq_liquidatee_marginfi_account c = Some m_le;
  liq_signer : lq_signer c = MarginfiAccount.authority m_lr;
  liq_groups : MarginfiAccount.group m_lr = lq_marginfi_group c ∧
               MarginfiAccount.group m_le = lq_marginfi_group c;
  liq_amount : 0 < q;
  liq_banks : lq_asset_bank c ≠ lq_liab_bank c;
  liq_accounts : lq_liquidator_marginfi_account c ≠ lq_liquidatee_marginfi_account c;
  liq_accrued : ∃ w0, accrue w (lq_asset_bank c) (lq_marginfi_group c) (unix_timestamp clock) = Ok w0 ∧
    accrue w0 (lq_liab_bank c) (lq_marginfi_group c) (unix_timestamp clock) = Ok w1;
  liq_pre : ∃ rest, RiskEngine.new (banks w1) clock m_le rest = Ok e0;
  liq_pre_check :
    RiskEngine.check_pre_liquidation_condition_and_get_account_health e0 (lq_liab_bank c) = Ok pre;
  liq_asset_bank : banks w1 !! lq_asset_bank c = Some ka;
  liq_liab_bank : banks w1 !! lq_liab_bank c = Some kl;
  liq_prices : ∃ oa ol, realtime_price ka oa clock Low = Ok pa ∧ realtime_price kl ol clock High = Ok pl;
  liq_amounts : liquidation_amounts (from_num q) pa (Bank.mint_decimals ka) pl (Bank.mint_decimals kl)
                = Ok (ll, lf);
  liq_moves : ∃ w2 w3 mint n, exchange_collateral w1 (unix_timestamp clock) c (from_num q) ll = Ok w2 ∧
    n = (ll - lf) / SCALE ∧ is_u64 n ∧
    repay_liquidatee w2 (unix_timestamp clock) c lf = Ok w3 ∧
    collect_insurance_fee w3 c mint n ((ll - lf) mod SCALE) = Ok w';
  liq_post : ∃ m_le' rest, accounts w' !! lq_liquidatee_marginfi_account c = Some m_le' ∧
    RiskEngine.new (banks w') clock m_le' rest = Ok e1;
  liq_post_check :
    RiskEngine.check_post_liquidation_condition_and_get_account_health e1 (lq_liab_bank c) pre = Ok post;
  liq_liquidator_health : ∃ m_lr' rest, accounts w' !! lq_liquidator_marginfi_account c = Some m_lr' ∧
    RiskEngine.check_account_init_health (banks w') clock m_lr' rest = Ok tt
}.

Lemma liquidate_ok w clock c q w' :
  lending_account_liquidate w clock c q = Ok w' →
  ∃ w1 m_lr m_le ka kl pa pl ll lf e0 e1 pre post,
    liquidation w clock c q w' w1 m_lr m_le ka kl pa pl ll lf e0 e1 pre post.
Proof.
  unfold lending_account_liquidate, liquidate_handler. intros H.
  apply bind_ok in H as ([[m1 m2] k0] & Hc & H).
  apply liquidate_constraints_ok in Hc as (? & ? & _ & ? & ? & _ & ? & _).
  apply bind_ok in H as (? & Hq & H). apply bind_ok in H as (? & Hne & H).
  apply bind_ok in H as (? & Hne' & H). apply check_ok in Hq, Hne, Hne'. bool_prop.
  apply bind_ok in H as ([mint rest] & _ & H). apply bind_ok in H as (w0 & Hw0 & H).
  apply bind_ok in H as (w1 & Hw1 & H). apply bind_ok in H as (pos & Hpos & H).
  apply bind_ok in H as (r1 & _ & H). apply bind_ok in H as (e0 & He0 & H).
  apply bind_ok in H as (pre & Hpre & H). apply bind_ok in H as (ka & Hka & H).
  apply bind_ok in H as (oa & _ & H). apply bind_ok in H as (pa & Hpa & H).
  apply bind_ok in H as (kl & Hkl & H). apply bind_ok in H as (ol & _ & H).
  apply bind_ok in H as (pl & Hpl & H). apply bind_ok in H as ([ll lf] & Ham & H).
  apply bind_ok in H as (fee & Hfee & H). apply op_sub_ok in Hfee as ->.
  apply bind_ok in H as (? & _ & H). apply bind_ok in H as (w2 & Hw2 & H).
  apply bind_ok in H as (n & Hn & H). apply math_ok, to_u64_some in Hn as (-> & Hn & _).
  apply bind_ok in H as (w3 & Hw3 & H). apply bind_ok in H as (w4 & Hw4 & H).
  rewrite fx_frac_spec in Hw4.
  apply bind_ok in H as (m1' & Hm1 & H). apply bind_ok in H as (m2' & Hm2 & H).
  do 4 (apply bind_ok in H as (? & _ & H)).
  apply bind_ok in H as (e1 & He1 & H). apply bind_ok in H as (post & Hpost & H).
  apply bind_ok in H as ([] & Hinit & H). injection H as <-. constraints.
  do 13 eexists. split; eauto 10.
Qed.

Lemma collect_fee_worth w c mint n dust w' a k :
  collect_insurance_fee w c mint n dust = Ok w' → worth w' a k = worth w a k.
Proof.
  intros (b & ts & Hb & _ & ->)%collect_insurance_fee_ok. unfold worth. simpl.
  destruct (accounts w !! a); [|done]. destruct (decide (k = lq_liab_bank c)) as [->|].
  - by rewrite lookup_insert_eq, Hb.
  - by rewrite lookup_insert_ne.
Qed.

(** The five movements put together. *)
Lemma liquidation_worth w1 now c q ll lf w2 w3 ka kl :
  books_balance w1 → 0 ≤ q → 0 ≤ ll → 0 ≤ lf → lq_asset_bank c ≠ lq_liab_bank c →
  lq_liquidator_marginfi_account c ≠ lq_liquidatee_marginfi_account c →
  banks w1 !! lq_asset_bank c = Some ka → banks w1 !! lq_liab_bank c = Some kl →
  exchange_collateral w1 now c q ll = Ok w2 → repay_liquidatee w2 now c lf = Ok w3 →
  let d a k := worth w3 a k - worth w1 a k in
  let lr := lq_liquidator_marginfi_account c in
  let le := lq_liquidatee_marginfi_account c in
  ll - rounding kl ≤ - d lr (lq_liab_bank c) ≤ ll + 2 ∧
  q - rounding ka ≤ - d le (lq_asset_bank c) ≤ q + 2 ∧
  q - rounding ka ≤ d lr (lq_asset_bank c) ≤ q + 2 ∧
  lf - rounding kl ≤ d le (lq_liab_bank c) ≤ lf + 2 ∧
  (∀ a k, (a ≠ lr ∧ a ≠ le) ∨ (k ≠ lq_asset_bank c ∧ k ≠ lq_liab_bank c) → d a k = 0) ∧
  books_balance w3 ∧ tokens w3 = tokens w1 ∧
  ∃ b3, banks w3 !! lq_liab_bank c = Some b3 ∧
    Bank.collected_insurance_fees_outstanding b3 = Bank.collected_insurance_fees_outstanding kl.
Proof.
  intros Hb Hq Hll Hlf Hne Hne' Hka Hkl H1 H2.
  apply exchange_collateral_ok in H1
    as (wa & wb & b1 & b1' & b2 & b2' & b3 & b3' & H1 & H3 & H4); [|done..].
  apply repay_liquidatee_ok in H2 as (b4 & b4' & H5); [|by eapply moved_books|done].
  destruct H1 as [E1 E1' F1 B1 W1 O1 J1 T1], H3 as [E2 E2' F2 B2 W2 O2 J2 T2],
    H4 as [E3 E3' F3 B3 W3 O3 J3 T3], H5 as [E4 E4' F4 B4 W4 O4 J4 T4].
  rewrite Hkl in E1. injection E1 as <-.
  rewrite J1, Hka in E2 by done. injection E2 as <-.
  rewrite E2' in E3. injection E3 as <-.
  rewrite J3, J2, E1' in E4 by done. injection E4 as <-.
  intros d lr le. subst d. simpl.
  unfold shrinks, grows in *. rewrite (rounding_frame _ _ F1) in W4.
  rewrite (rounding_frame _ _ F2) in W3.
  rewrite (O4 lr (lq_liab_bank c)), (O3 lr (lq_liab_bank c)), (O2 lr (lq_liab_bank c)) by auto.
  rewrite (O4 le (lq_asset_bank c)), (O3 le (lq_asset_bank c)), <- (O1 le (lq_asset_bank c)) by auto.
  rewrite (O4 lr (lq_asset_bank c)), <- (O1 lr (lq_asset_bank c)), <- (O2 lr (lq_asset_bank c)) by auto.
  rewrite <- (O1 le (lq_liab_bank c)), <- (O2 le (lq_liab_bank c)), <- (O3 le (lq_liab_bank c)) by auto.
  subst lr le. destruct W1, W2, W3, W4. split_and!; try lia; try done.
  - intros a k Ha. rewrite O4, O3, O2, O1 by naive_solver. lia.
  - congruence.
  - exists b4'. split; [done|congruence].
Qed.
End LiquidateLemmas.

Section LiquidateTheorems.
Context {F : FixedOps} {L : FixedLaws F} {T : TokenSdk} {TL : TokenLaws T} {O : OracleSdk} {R : Runtime}.

(** The amounts in exact arithmetic: the liability moved is worth no more, at
    its price, than the discounted collateral at its. *)
Lemma liquidation_amount_value q d pa da pl dl :
  0 ≤ q → 0 ≤ d → 0 ≤ pa → 0 < pl → 0 ≤ da → 0 ≤ dl →
  fdiv (fmul (value_of q pa da (Some d)) (from_num (10 ^ dl))) pl * pl * (ONE * 10 ^ da)
    ≤ q * d * pa * 10 ^ dl.
Proof.
  intros Hq Hd Hpa Hpl Hda Hdl. unfold value_of. change ONE with SCALE. pose proof SCALE_pos as HS.
  pose proof (Z.pow_pos_nonneg 10 da ltac:(lia) Hda) as Hta.
  pose proof (Z.pow_pos_nonneg 10 dl ltac:(lia) Hdl) as Htl.
  set (x := fmul q d). set (y := fmul x pa). set (v := fdiv y (from_num (10 ^ da))).
  assert (x * SCALE ≤ q * d) as H1 by (pose proof (div_bounds (q * d) SCALE HS); unfold x, fmul; lia).
  assert (y * SCALE ≤ x * pa) as H2 by (pose proof (div_bounds (x * pa) SCALE HS); unfold y, fmul; lia).
  assert (v * 10 ^ da ≤ y) as H3.
  { unfold v, fdiv, from_num. rewrite Z.div_mul_cancel_r by lia.
    pose proof (div_bounds y (10 ^ da) Hta). lia. }
  assert (fmul v (from_num (10 ^ dl)) = v * 10 ^ dl) as ->
    by (unfold fmul, from_num; rewrite Z.mul_assoc; by apply Z.div_mul; lia).
  assert (fdiv (v * 10 ^ dl) pl * pl ≤ v * 10 ^ dl * SCALE) as H4
    by (pose proof (div_bounds (v * 10 ^ dl * SCALE) pl Hpl); unfold fdiv; lia).
  set (z := fdiv (v * 10 ^ dl) pl) in *. clearbody x y v z. clear Hta.
  assert (v * 10 ^ da * (SCALE * SCALE) ≤ q * d * pa) as H5.
  { transitivity (y * (SCALE * SCALE)); [nia|]. transitivity (x * pa * SCALE); [nia|]. nia. }
  pose proof (Z.pow_nonneg 10 da ltac:(lia)).
  transitivity (v * 10 ^ dl * SCALE * (SCALE * 10 ^ da));
    [apply Z.mul_le_mono_nonneg_r; [apply Z.mul_nonneg_nonneg; lia|done]|].
  replace (v * 10 ^ dl * SCALE * (SCALE * 10 ^ da)) with (v * 10 ^ da * (SCALE * SCALE) * 10 ^ dl) by ring.
  apply Z.mul_le_mono_nonneg_r; [lia|done].
Qed.


End LiquidateTheorems.

(** ** Example

    Account 800 has 100 tokens of collateral and owes 95; the liquidator takes
    over ten of its tokens. *)
#[local] Existing Instance demo_token_sdk.
#[local] Existing Instance demo_oracle_sdk.
#[local] Existing Instance demo_runtime.

Definition demo_liquidate : LendingAccountLiquidate := {|
  lq_marginfi_group := 1; lq_asset_bank := 600; lq_liab_bank := 610;
  lq_liquidator_marginfi_account := 850; lq_signer := 85; lq_liquidatee_marginfi_account := 800;
  lq_bank_liquidity_vault_authority := 614; lq_bank_liquidity_vault := 611;
  lq_bank_insurance_vault := 612; lq_token_program := token_id;
  lq_remaining := [demo_pyth_ai; demo_pyth_ai;
                   mkAccountInfo 610 1 []; demo_pyth_ai; mkAccountInfo 600 1 []; demo_pyth_ai]
                  ++ RiskEngine.demo_remaining |}.
Definition demo_liquidation : MarginfiResult World :=
  lending_account_liquidate (demo_world 95) demo_clock demo_liquidate 10000000.
Definition demo_liquidated : World := ok_value (demo_world 95) demo_liquidation.


