(* ===== verification/BankruptcyIx.v ===== *)
(** * Bankruptcy

    [programs/marginfi/src/instructions/marginfi_group/handle_bankruptcy.rs]:
    the debt of an account without deposits is covered by the insurance vault
    as far as it goes; the depositors lose the rest. *)
From S2P Require Import Prelude Errors Fixed Constants Utils GroupState InterestRate BankState Price Account BankAccount Risk World.

Record LendingPoolHandleBankruptcy := {
  hb_marginfi_group : Pubkey; hb_signer : Pubkey; hb_bank : Pubkey; hb_marginfi_account : Pubkey;
  hb_liquidity_vault : Pubkey; hb_insurance_vault : Pubkey; hb_insurance_vault_authority : Pubkey;
  hb_token_program : Pubkey; hb_remaining : list AccountInfo
}.

Section HandleBankruptcy.
Context {F : FixedOps} {T : TokenSdk} {O : OracleSdk} {R : Runtime}.

Definition bankruptcy_constraints (w : World) (c : LendingPoolHandleBankruptcy)
    : MarginfiResult (MarginfiGroup * Bank * MarginfiAccount * TokenAccount) :=
  let? g := load_group w (hb_marginfi_group c) in
  let? k := check_bank w (hb_marginfi_group c) (hb_bank c) in
  let? m := check_account w (hb_marginfi_group c) (hb_marginfi_account c) in
  let? _ := check_pda LIQUIDITY_VAULT_SEED [hb_bank c] (Bank.liquidity_vault_bump k)
              (hb_liquidity_vault c) in
  let? _ := check_pda INSURANCE_VAULT_SEED [hb_bank c] (Bank.insurance_vault_bump k)
              (hb_insurance_vault c) in
  let? insurance := load_token w (hb_insurance_vault c) in
  let? _ := check_pda INSURANCE_VAULT_AUTHORITY_SEED [hb_bank c]
              (Bank.insurance_vault_authority_bump k) (hb_insurance_vault_authority c) in
  let? _ := check_token_program (hb_token_program c) in
  Ok (g, k, m, insurance).

(** The part of the debt the insurance vault pays and the part the depositors
    lose. *)
Definition split_bad_debt (maybe_bank_mint : option Mint) (insurance_amount epoch : Z)
    (bad_debt : I80F48) : MarginfiResult (I80F48 * I80F48) :=
  let? available_insurance_fund :=
    match maybe_bank_mint with
    | Some m => calculate_post_fee_spl_deposit_amount m insurance_amount epoch
    | None => Ok insurance_amount
    end in
  let covered_by_insurance := Z.min bad_debt (from_num available_insurance_fund) in
  let? d := op_sub bad_debt covered_by_insurance in
  let socialized_loss := Z.max d ZERO in
  Ok (covered_by_insurance, socialized_loss).

Definition bankruptcy_handler (w : World) (clock : Clock)
    (c : LendingPoolHandleBankruptcy) (g : MarginfiGroup) (k : Bank) (m : MarginfiAccount)
    (insurance : TokenAccount) : MarginfiResult World :=
  let? '(maybe_bank_mint, remaining) :=
    maybe_take_bank_mint (mints w) (hb_remaining c) (Bank.mint k) (hb_token_program c) in
  let? _ := if negb (Bank.get_flag k PERMISSIONLESS_BAD_DEBT_SETTLEMENT_FLAG)
            then check (hb_signer c =? MarginfiGroup.admin g) Unauthorized else Ok tt in
  let? e := RiskEngine.new (banks w) clock m remaining in
  let? _ := RiskEngine.check_account_bankrupt e in
  let? w := accrue w (hb_bank c) (hb_marginfi_group c) (unix_timestamp clock) in
  let? k := load_bank w (hb_bank c) in
  let l := MarginfiAccount.lending_account m in
  let? lending_account_balance :=
    ok_or (i ← position (LendingAccount.is_position (hb_bank c)) l; l !! i)
      LendingAccountBalanceNotFound in
  let? bad_debt := Bank.get_liability_amount k (Balance.liability_shares lending_account_balance) in
  let? _ := check (ZERO_AMOUNT_THRESHOLD <? bad_debt) BalanceNotBadDebt in
  let? '(covered_by_insurance, socialized_loss) :=
    split_bad_debt maybe_bank_mint (ta_amount insurance) (epoch clock) bad_debt in
  let? covered_ceil := math (checked_ceil covered_by_insurance) in
  let? covered_by_insurance_rounded_up := math (checked_to_u64 covered_ceil) in
  let? insurance_coverage_deposit_pre_fee :=
    pre_fee_amount maybe_bank_mint covered_by_insurance_rounded_up (epoch clock) in
  let? ts := Bank.withdraw_spl_transfer k insurance_coverage_deposit_pre_fee (hb_insurance_vault c)
               (hb_liquidity_vault c) (hb_insurance_vault_authority c) maybe_bank_mint
               (hb_token_program c) (tokens w) in
  let? k := Bank.socialize_loss k socialized_loss in
  let w := set_tokens ts (set_bank (hb_bank c) k w) in
  let? '(_, w) :=
    with_position true w (hb_marginfi_account c) (hb_bank c) (unix_timestamp clock)
      (λ ba, no_value (BankAccountWrapper.repay ba bad_debt (unix_timestamp clock))) in
  let? m := load_account w (hb_marginfi_account c) in
  Ok (set_account (hb_marginfi_account c) (MarginfiAccount.set_flag m DISABLED_FLAG) w).
(** The instruction: the constraints, then the handler. *)
Definition lending_pool_handle_bankruptcy (w : World) (clock : Clock)
    (c : LendingPoolHandleBankruptcy) : MarginfiResult World :=
  let? '(g, k, m, insurance) := bankruptcy_constraints w c in
  bankruptcy_handler w clock c g k m insurance.
End HandleBankruptcy.

(** ** Lemmas *)
Section BankruptcyLemmas.
Context {F : FixedOps} {L : FixedLaws F} {T : TokenSdk} {O : OracleSdk} {R : Runtime}.

Lemma split_bad_debt_ok mint amount ep bad covered lost :
  0 ≤ bad → split_bad_debt mint amount ep bad = Ok (covered, lost) →
  covered + lost = bad ∧ 0 ≤ lost ∧ covered ≤ bad ∧
  ∃ available, (mint = None → available = amount) ∧ covered = Z.min bad (from_num available).
Proof.
  unfold split_bad_debt, ZERO. intros Hb H. apply bind_ok in H as (a & Ha & H).
  apply bind_ok in H as (d & Hd & H). injection H as <- <-. apply op_sub_ok in Hd as ->.
  split_and!; [lia..|]. exists a. split; [|done]. intros ->. by injection Ha as <-.
Qed.

(** What is paid for a covered amount: whole tokens, rounded up. *)
Lemma covered_rounded_up covered x n :
  checked_ceil covered = Some x → checked_to_u64 x = Some n →
  is_u64 n ∧ from_num n - SCALE < covered ≤ from_num n.
Proof.
  intros Hx Hn. apply ceil_some in Hx as ->. apply to_u64_some in Hn as (-> & ? & _).
  split; [done|]. pose proof (ceil_bounds covered). unfold from_num.
  rewrite Z.div_mul by (pose proof SCALE_pos; lia). lia.
Qed.

(** The steps of a bankruptcy that is settled. *)
Record bankruptcy (w : World) (clock : Clock) (c : LendingPoolHandleBankruptcy) (w' w1 w3 : World)
    (g : MarginfiGroup) (m m' : MarginfiAccount) (k0 k1 k2 : Bank) (bad covered lost : I80F48)
    (mint : option Mint) (n pre : Z) (ts : TokenStore) : Prop := {
  bk_group : groups w !! hb_marginfi_group c = Some g;
  bk_bank : banks w !! hb_bank c = Some k0;
  bk_account : accounts w !! hb_marginfi_account c = Some m;
  bk_groups : Bank.group k0 = hb_marginfi_group c ∧ MarginfiAccount.group m = hb_marginfi_group c;
  bk_signer : Bank.get_flag k0 PERMISSIONLESS_BAD_DEBT_SETTLEMENT_FLAG = true ∨
              hb_signer c = MarginfiGroup.admin g;
  bk_bankrupt : ∃ rest e, RiskEngine.new (banks w) clock m rest = Ok e ∧
    RiskEngine.check_account_bankrupt e = Ok tt;
  bk_accrued : accrue w (hb_bank c) (hb_marginfi_group c) (unix_timestamp clock) = Ok w1;
  bk_bank1 : banks w1 !! hb_bank c = Some k1;
  bk_debt : ∃ b, b ∈ MarginfiAccount.lending_account m ∧ LendingAccount.is_position (hb_bank c) b = true ∧
    Bank.get_liability_amount k1 (Balance.liability_shares b) = Ok bad;
  bk_bad : ZERO_AMOUNT_THRESHOLD < bad;
  bk_split : ∃ insurance, tokens w !! hb_insurance_vault c = Some insurance ∧
    split_bad_debt mint (ta_amount insurance) (epoch clock) bad = Ok (covered, lost);
  bk_rounded : ∃ x, checked_ceil covered = Some x ∧ checked_to_u64 x = Some n;
  bk_pre : pre_fee_amount mint n (epoch clock) = Ok pre;
  bk_transfer : spl_transfer (mkTransfer pre (hb_insurance_vault c) (hb_liquidity_vault c)
    (hb_insurance_vault_authority c) (mint_key <$> mint) (hb_token_program c)) (tokens w1) = Ok ts;
  bk_socialized : Bank.socialize_loss k1 lost = Ok k2;
  bk_repaid : with_position true (set_tokens ts (set_bank (hb_bank c) k2 w1)) (hb_marginfi_account c)
    (hb_bank c) (unix_timestamp clock)
    (λ ba, no_value (BankAccountWrapper.repay ba bad (unix_timestamp clock))) = Ok (tt, w3);
  bk_account' : accounts w3 !! hb_marginfi_account c = Some m';
  bk_final : w' = set_account (hb_marginfi_account c) (MarginfiAccount.set_flag m' DISABLED_FLAG) w3
}.

Lemma bankruptcy_constraints_ok w c g k m t :
  bankruptcy_constraints w c = Ok (g, k, m, t) →
  groups w !! hb_marginfi_group c = Some g ∧ banks w !! hb_bank c = Some k ∧
  Bank.group k = hb_marginfi_group c ∧ accounts w !! hb_marginfi_account c = Some m ∧
  MarginfiAccount.group m = hb_marginfi_group c ∧ tokens w !! hb_insurance_vault c = Some t.
Proof.
  unfold bankruptcy_constraints. intros H. inv_res. constraints. by split_and!.
Qed.

Lemma handle_bankruptcy_ok w clock c w' :
  lending_pool_handle_bankruptcy w clock c = Ok w' →
  ∃ w1 w3 g m m' k0 k1 k2 bad covered lost mint n pre ts,
    bankruptcy w clock c w' w1 w3 g m m' k0 k1 k2 bad covered lost mint n pre ts.
Proof.
  unfold lending_pool_handle_bankruptcy, bankruptcy_handler. intros H.
  apply bind_ok in H as ([[[g k0] m] ins] & Hc & H).
  apply bankruptcy_constraints_ok in Hc as (? & ? & ? & ? & ? & ?).
  apply bind_ok in H as ([mint rest] & _ & H). apply bind_ok in H as (u & Hs & H).
  assert (Bank.get_flag k0 PERMISSIONLESS_BAD_DEBT_SETTLEMENT_FLAG = true ∨
          hb_signer c = MarginfiGroup.admin g) as Hsigner.
  { destruct (Bank.get_flag k0 _); [by left|right]. apply check_ok in Hs. by bool_prop. }
  apply bind_ok in H as (e & He & H). apply bind_ok in H as ([] & Hb & H).
  apply bind_ok in H as (w1 & Hw1 & H). apply bind_ok in H as (k1 & Hk1 & H).
  apply bind_ok in H as (b & Hpos & H). apply ok_or_ok in Hpos.
  apply bind_Some in Hpos as (i & Hi & Hli). apply position_Some in Hi as (b' & Hb' & Hp & _).
  rewrite Hli in Hb'. injection Hb' as <-.
  apply bind_ok in H as (bad & Hbad & H). apply bind_ok in H as (? & Hthr & H).
  apply check_ok in Hthr. bool_prop.
  apply bind_ok in H as ([covered lost] & Hsp & H). apply bind_ok in H as (up & Hx & H).
  apply bind_ok in H as (n & Hn & H). apply math_ok in Hx, Hn. apply bind_ok in H as (pre & Hpre & H).
  apply bind_ok in H as (ts & Hts & H). apply bind_ok in H as (k2 & Hk2 & H).
  apply bind_ok in H as ([[] w3] & Hw3 & H). apply bind_ok in H as (m' & Hm' & H).
  injection H as <-. constraints.
  do 15 eexists. split; eauto 10 using list_elem_of_lookup_2.
Qed.

(** The final share value of the bank is the one the socialized loss left. *)
Lemma bankruptcy_final_bank w clock c w' w1 w3 g m m' k0 k1 k2 bad covered lost mint n pre ts k' :
  bankruptcy w clock c w' w1 w3 g m m' k0 k1 k2 bad covered lost mint n pre ts →
  banks w' !! hb_bank c = Some k' → Bank.asset_share_value k' = Bank.asset_share_value k2.
Proof.
  intros H Hk'. pose proof (bk_repaid _ _ _ _ _ _ _ _ _ _ _ _ _ _ _ _ _ _ _ H) as Hp.
  apply with_position_bank in Hp as (w0 & wx & Hf & Hb & Hb').
  rewrite (bk_final _ _ _ _ _ _ _ _ _ _ _ _ _ _ _ _ _ _ _ H) in Hk'. simpl in Hk', Hb.
  rewrite Hb' in Hk'. injection Hk' as <-. rewrite lookup_insert_eq in Hb. injection Hb as ->.
  unfold no_value in Hf. apply bind_ok in Hf as (wy & Hf & Hr). injection Hr as <-.
  by eapply BankAccountWrapper.increase_asv.
Qed.

(** Socializing a loss that leaves a share value keeps the books, and so does
    the credit of the bad debt. *)
Lemma socialized_books w j k1 k2 lost ts :
  books_balance w → banks w !! j = Some k1 → Bank.socialize_loss k1 lost = Ok k2 →
  0 ≤ Bank.asset_share_value k2 → books_balance (set_tokens ts (set_bank j k2 w)).
Proof.
  intros Hb Hk1 Hsoc Hasv. pose proof (Bank.socialize_loss_frame _ _ _ Hsoc) as Hfr.
  assert (Bank.wf k2) as Hwf2.
  { pose proof (books_banks _ Hb _ _ Hk1) as []. rewrite Hfr. split; simpl; done. }
  apply set_tokens_books. eapply set_bank_books; try done. intros side. rewrite Hfr. by destruct side.
Qed.
Lemma bad_debt_keeps_books bad now :
  0 ≤ bad → keeps_books (λ ba, no_value (BankAccountWrapper.repay ba bad now)).
Proof.
  intros Hpos ba [] ba' Hwf Hf. unfold no_value in Hf. apply bind_ok in Hf as (wy & Hf & Hr).
  injection Hr as <-. eapply op_result_step; [done|].
  by eapply (BankAccountWrapper.run_result (BankAccountWrapper.Increase bad RepayOnly)).
Qed.

(** When the deposits cover the loss, the books are kept and the position is
    credited with the bad debt. *)
Lemma bankruptcy_books w clock c w' w1 w3 g m m' k0 k1 k2 bad covered lost mint n pre ts :
  books_balance w →
  bankruptcy w clock c w' w1 w3 g m m' k0 k1 k2 bad covered lost mint n pre ts →
  0 ≤ Bank.asset_share_value k2 →
  books_balance w' ∧
  let before := set_bank (hb_bank c) k2 w1 in
  bad - rounding k2 ≤ worth w' (hb_marginfi_account c) (hb_bank c)
                      - worth before (hb_marginfi_account c) (hb_bank c) ≤ bad + 2.
Proof.
  intros Hb H Hasv. destruct H as [_ _ _ _ _ _ Hac Hk1 _ Hbad _ _ _ _ Hsoc Hp Hm' ->].
  pose proof (accrue_ok _ _ _ _ _ Hb Hac) as (_ & _ & _ & _ & _ & _ & _ & Hb1).
  pose proof (socialized_books _ _ _ _ _ ts Hb1 Hk1 Hsoc Hasv) as Hb2.
  assert (0 ≤ bad) as Hpos by (assert (0 < ZERO_AMOUNT_THRESHOLD) by (vm_compute; done); lia).
  apply (with_position_moves _ _ _ _ _ _ _ _
    (λ k _ d, bad - rounding k ≤ d ≤ bad + 2)) in Hp as (kx & ky & Hmv); [|done|].
  - split; [eapply set_account_books; [by eapply moved_books|done|done]|].
    pose proof (moved_bank _ _ _ _ _ _ _ Hmv) as Hkx. simpl in Hkx.
    rewrite lookup_insert_eq in Hkx. injection Hkx as <-.
    pose proof (moved_worth _ _ _ _ _ _ _ Hmv) as Hw. simpl.
    assert (∀ a k, worth (set_account (hb_marginfi_account c)
      (MarginfiAccount.set_flag m' DISABLED_FLAG) w3) a k = worth w3 a k) as ->; [|done].
    intros a k. unfold worth. simpl. destruct (decide (a = hb_marginfi_account c)) as [->|].
    + by rewrite lookup_insert_eq, Hm'.
    + by rewrite lookup_insert_ne.
  - intros ba x ba' Hwf Hf. split; [by eapply bad_debt_keeps_books|].
    destruct x. unfold no_value in Hf. apply bind_ok in Hf as (wy & Hf & Hr).
    injection Hr as <-. by eapply increase_net.
Qed.
End BankruptcyLemmas.

Section BankruptcyTheorems.
Context {F : FixedOps} {L : FixedLaws F} {T : TokenSdk} {TL : TokenLaws T} {O : OracleSdk} {R : Runtime}.

End BankruptcyTheorems.

(** ** Example

    An account whose only position is a debt of 70 tokens in bank 610; the
    insurance vault holds 60. *)
#[local] Existing Instance demo_token_sdk.
#[local] Existing Instance demo_oracle_sdk.
#[local] Existing Instance demo_runtime.

Definition demo_debtor : MarginfiAccount :=
  MarginfiAccount.mkMarginfiAccount 1 70
    (Balance.mkBalance true 610 0 (from_num 70000000) 0 0 :: replicate 15 Balance.empty_deactivated) 0.
Definition demo_bankrupt_world : World := set_account 800 demo_debtor (demo_world 70).
Definition demo_handle : LendingPoolHandleBankruptcy := {|
  hb_marginfi_group := 1; hb_signer := 5; hb_bank := 610; hb_marginfi_account := 800;
  hb_liquidity_vault := 611; hb_insurance_vault := 612; hb_insurance_vault_authority := 615;
  hb_token_program := token_id; hb_remaining := [mkAccountInfo 610 1 []; demo_pyth_ai] |}.
Definition demo_handled : World :=
  ok_value demo_bankrupt_world (lending_pool_handle_bankruptcy demo_bankrupt_world demo_clock demo_handle).

Lemma demo_bankrupt_world_books : books_balance demo_bankrupt_world.
Proof.
  destruct (demo_world_books 70 ltac:(lia)) as [Hb Ha Hp Ht].
  assert (LendingAccount.wf (MarginfiAccount.lending_account demo_debtor)) as Hwf.
  { apply demo_account_wf. split; try (vm_compute; discriminate). by left. }
  split.
  - exact Hb.
  - intros a m Hm.
    change (accounts demo_bankrupt_world) with (<[800 := demo_debtor]> (accounts (demo_world 70))) in Hm.
    apply lookup_insert_Some in Hm as [[<- <-]|[_ Hm]]; [done|by eapply Ha].
  - intros a m i b Hm Hi Hact.
    change (accounts demo_bankrupt_world) with (<[800 := demo_debtor]> (accounts (demo_world 70))) in Hm.
    apply lookup_insert_Some in Hm as [[<- <-]|[_ Hm]]; [|by eapply Hp].
    destruct i as [|i]; simpl in Hi; [injection Hi as <-; by eexists|].
    apply (lookup_replicate 15) in Hi as [-> _]. done.
  - intros side k b Hk. apply lookup_two in Hk as [[-> ->]|[-> ->]]; destruct side; vm_compute; discriminate.
Qed.

