(* ===== verification/GroupIx.v ===== *)
(** * Instructions of a group's admin and of the protocol

    [programs/marginfi/src/instructions/marginfi_group/]: groups, banks, fees,
    emissions and the global fee state.  (Bankruptcies are in
    BankruptcyIx.v.)  [admin] and [signer] fields are keys that signed the
    transaction. *)
From S2P Require Import Prelude Errors Fixed Constants Utils GroupState InterestRate BankState Price Account BankAccount Risk World.

(** [LendingPoolAddBank]; the version with a seed has the same fields. *)
Record LendingPoolAddBank := {
  ab_marginfi_group : Pubkey; ab_admin : Pubkey; ab_fee_payer : Pubkey; ab_fee_state : Pubkey;
  ab_global_fee_wallet : Pubkey; ab_bank_mint : Pubkey; ab_bank : Pubkey;
  ab_liquidity_vault_authority : Pubkey; ab_liquidity_vault : Pubkey;
  ab_insurance_vault_authority : Pubkey; ab_insurance_vault : Pubkey;
  ab_fee_vault_authority : Pubkey; ab_fee_vault : Pubkey; ab_token_program : Pubkey;
  ab_remaining : list AccountInfo
}.
Record LendingPoolCollectBankFees := {
  cf_marginfi_group : Pubkey; cf_bank : Pubkey; cf_liquidity_vault_authority : Pubkey;
  cf_liquidity_vault : Pubkey; cf_insurance_vault : Pubkey; cf_fee_vault : Pubkey;
  cf_fee_state : Pubkey; cf_fee_ata : Pubkey; cf_token_program : Pubkey; cf_remaining : list AccountInfo
}.
(** [LendingPoolWithdrawFees] and [LendingPoolWithdrawInsurance]: [wf_vault] is
    the fee vault of the one and the insurance vault of the other. *)
Record LendingPoolWithdrawFees := {
  wf_marginfi_group : Pubkey; wf_bank : Pubkey; wf_admin : Pubkey; wf_vault : Pubkey;
  wf_vault_authority : Pubkey; wf_dst_token_account : Pubkey; wf_token_program : Pubkey;
  wf_remaining : list AccountInfo
}.
(** [LendingPoolSetupEmissions]; the update has no [se_emissions_auth]. *)
Record LendingPoolSetupEmissions := {
  se_marginfi_group : Pubkey; se_admin : Pubkey; se_bank : Pubkey; se_emissions_mint : Pubkey;
  se_emissions_auth : Pubkey; se_emissions_token_account : Pubkey;
  se_emissions_funding_account : Pubkey; se_token_program : Pubkey
}.

Section GroupInstructions.
Context {F : FixedOps} {T : TokenSdk} {O : OracleSdk} {R : Runtime}.

(** [address = marginfi_group.load()?.admin] on the admin's signature. *)
Definition check_admin (w : World) (group admin : Pubkey) : MarginfiResult MarginfiGroup :=
  let? g := load_group w group in
  let? _ := check (admin =? MarginfiGroup.admin g) ConstraintAddress in
  Ok g.
(** [seeds = [FEE_STATE_SEED], bump] *)
Definition check_fee_state (w : World) (k : Pubkey) : MarginfiResult FeeState :=
  let? fs := load_fee_state w in
  let? _ := check_canonical_pda FEE_STATE_SEED [] k in
  Ok fs.
(** [init]: refuses an address that is in use. *)
Definition check_new {A} (m : gmap Z A) (k : Pubkey) : MarginfiResult unit :=
  check (negb (bool_decide (is_Some (m !! k)))) AccountAlreadyInUse.
(** [init, token::mint = .., token::authority = .., seeds = [seed, ..], bump]:
    creates an empty token account and yields its bump. *)
Definition init_token (seed : Seed) (keys : list Pubkey) (k mint authority : Pubkey) (w : World)
    : MarginfiResult (Z * World) :=
  let? _ := check_canonical_pda seed keys k in
  let? _ := check_new (tokens w) k in
  Ok (snd (find_program_address seed keys),
      set_tokens (<[k := mkTokenAccount mint authority 0]> (tokens w)) w).

(** ** Groups *)
Definition initialize_group (w : World) (marginfi_group admin fee_state : Pubkey) : MarginfiResult World :=
  let? _ := check_new (groups w) marginfi_group in
  let? fs := check_fee_state w fee_state in
  let g := MarginfiGroup.set_initial_configuration MarginfiGroup.zeroed admin in
  Ok (set_group marginfi_group (MarginfiGroup.with_cache (cache_of_fee_state fs) g) w).

Definition configure (w : World) (marginfi_group admin : Pubkey) (config : MarginfiGroup.GroupConfig)
    : MarginfiResult World :=
  let? g := check_admin w marginfi_group admin in
  let? g := MarginfiGroup.configure g config in
  Ok (set_group marginfi_group g w).

(** ** Flags of accounts *)
Definition CONFIGURABLE_FLAGS : Z := FLASHLOAN_ENABLED_FLAG + TRANSFER_AUTHORITY_ALLOWED_FLAG.
Definition flag_can_be_set (flag : Z) : bool := Z.land flag (u64_not CONFIGURABLE_FLAGS) =? 0.

Definition set_account_flag (w : World) (marginfi_group marginfi_account admin : Pubkey) (flag : Z)
    : MarginfiResult World :=
  let? m := load_account w marginfi_account in
  let? _ := check (marginfi_group =? MarginfiAccount.group m) ConstraintAddress in
  let? _ := check_admin w marginfi_group admin in
  let? _ := check (flag_can_be_set flag) IllegalFlag in
  Ok (set_account marginfi_account (MarginfiAccount.set_flag m flag) w).
Definition unset_account_flag (w : World) (marginfi_group marginfi_account admin : Pubkey) (flag : Z)
    : MarginfiResult World :=
  let? m := load_account w marginfi_account in
  let? _ := check (marginfi_group =? MarginfiAccount.group m) ConstraintAddress in
  let? _ := check_admin w marginfi_group admin in
  let? _ := check (flag_can_be_set flag) IllegalFlag in
  Ok (set_account marginfi_account (MarginfiAccount.unset_flag m flag) w).

(** ** The global fee state *)
(** On mainnet only the program's multisig may pay for it:
    [3HGdGLrnK9DsnHi1mCrUMLGfQHcu6xUrXhMY14GYjqvM]. *)
Definition FEE_STATE_PAYER : Pubkey :=
  0x21e255965092111161b26fb9b2c73c5c1b6c8c2941d00683367cb41290cea076.

Definition initialize_fee_state (w : World) (payer fee_state_key admin_key fee_wallet : Pubkey)
    (bank_init_flat_sol_fee : Z) (program_fee_fixed program_fee_rate : I80F48) : MarginfiResult World :=
  let? _ := check_canonical_pda FEE_STATE_SEED [] fee_state_key in
  let? _ := check (negb (bool_decide (is_Some (fee_state w)))) AccountAlreadyInUse in
  let? _ := rust_assert (payer =? FEE_STATE_PAYER) in
  Ok (set_fee_state (mkFeeState fee_state_key admin_key fee_wallet bank_init_flat_sol_fee
        (snd (find_program_address FEE_STATE_SEED [])) program_fee_fixed program_fee_rate) w).

Definition edit_fee_state (w : World) (global_fee_admin_key fee_state_key fee_wallet : Pubkey)
    (bank_init_flat_sol_fee : Z) (program_fee_fixed program_fee_rate : I80F48) : MarginfiResult World :=
  let? fs := check_fee_state w fee_state_key in
  let? _ := check (global_fee_admin fs =? global_fee_admin_key) ConstraintHasOne in
  Ok (set_fee_state (mkFeeState (fs_key fs) (global_fee_admin fs) fee_wallet bank_init_flat_sol_fee
        (bump_seed fs) program_fee_fixed program_fee_rate) w).

Definition config_group_fee (w : World) (marginfi_group global_fee_admin_key fee_state_key : Pubkey)
    (flag : Z) : MarginfiResult World :=
  let? g := load_group w marginfi_group in
  let? fs := check_fee_state w fee_state_key in
  let? _ := check (global_fee_admin fs =? global_fee_admin_key) ConstraintHasOne in
  let? g := MarginfiGroup.set_flags g flag in
  Ok (set_group marginfi_group g w).

Definition propagate_fee (w : World) (fee_state_key marginfi_group : Pubkey) : MarginfiResult World :=
  let? fs := check_fee_state w fee_state_key in
  let? g := load_group w marginfi_group in
  Ok (set_group marginfi_group (MarginfiGroup.with_cache (cache_of_fee_state fs) g) w).

(** ** Banks *)
(** The vaults of a new bank: their bumps, and the world with the empty token
    accounts. *)
Definition create_vaults (w : World) (c : LendingPoolAddBank)
    : MarginfiResult (Z * Z * Z * Z * Z * Z * World) :=
  let bank := ab_bank c in
  let? _ := check_canonical_pda LIQUIDITY_VAULT_AUTHORITY_SEED [bank] (ab_liquidity_vault_authority c) in
  let? '(liquidity_vault_bump, w) := init_token LIQUIDITY_VAULT_SEED [bank] (ab_liquidity_vault c)
                                       (ab_bank_mint c) (ab_liquidity_vault_authority c) w in
  let? _ := check_canonical_pda INSURANCE_VAULT_AUTHORITY_SEED [bank] (ab_insurance_vault_authority c) in
  let? '(insurance_vault_bump, w) := init_token INSURANCE_VAULT_SEED [bank] (ab_insurance_vault c)
                                       (ab_bank_mint c) (ab_insurance_vault_authority c) w in
  let? _ := check_canonical_pda FEE_VAULT_AUTHORITY_SEED [bank] (ab_fee_vault_authority c) in
  let? '(fee_vault_bump, w) := init_token FEE_VAULT_SEED [bank] (ab_fee_vault c)
                                 (ab_bank_mint c) (ab_fee_vault_authority c) w in
  let bump seed := snd (find_program_address seed [bank]) in
  Ok (liquidity_vault_bump, bump LIQUIDITY_VAULT_AUTHORITY_SEED, insurance_vault_bump,
      bump INSURANCE_VAULT_AUTHORITY_SEED, fee_vault_bump, bump FEE_VAULT_AUTHORITY_SEED, w).

(** The body of the handler, on the fee state and the mint of its context and
    the bumps of the vaults and of their authorities. *)
Definition add_bank_handler (w : World) (clock : Clock) (c : LendingPoolAddBank)
    (bank_config : BankConfig) (fs : FeeState) (bank_mint : Mint)
    (liquidity_vault_bump liquidity_vault_authority_bump insurance_vault_bump
     insurance_vault_authority_bump fee_vault_bump fee_vault_authority_bump : Z) : MarginfiResult World :=
  let? ls :=
    if 0 <? bank_init_flat_sol_fee fs then
      system_transfer (ab_fee_payer c) (ab_global_fee_wallet c) (bank_init_flat_sol_fee fs) (lamports w)
    else Ok (lamports w) in
  let bank := Bank.new (ab_marginfi_group c) bank_config (ab_bank_mint c) (mint_dec bank_mint)
    (ab_liquidity_vault c) (ab_insurance_vault c) (ab_fee_vault c) (unix_timestamp clock)
    liquidity_vault_bump liquidity_vault_authority_bump insurance_vault_bump
    insurance_vault_authority_bump fee_vault_bump fee_vault_authority_bump in
  let? _ := BankConfig.validate (Bank.config bank) in
  let? _ := OraclePriceFeedAdapter.validate_bank_config (Bank.config bank) (ab_remaining c) in
  Ok (set_lamports ls (set_bank (ab_bank c) bank w)).

(** What both ways of adding a bank do: [bank_address_ok] is the constraint on
    the bank's address. *)
Definition add_bank (w : World) (clock : Clock) (c : LendingPoolAddBank)
    (bank_config : BankConfig.BankConfigCompact) (bank_address_ok : MarginfiResult unit)
    : MarginfiResult World :=
  let bank_config := BankConfig.of_compact bank_config in
  let? _ := check_admin w (ab_marginfi_group c) (ab_admin c) in
  let? fs := check_fee_state w (ab_fee_state c) in
  let? _ := check (fs_global_fee_wallet fs =? ab_global_fee_wallet c) ConstraintHasOne in
  let? bank_mint := ok_or (mints w !! ab_bank_mint c) AccountNotInitialized in
  let? _ := bank_address_ok in
  let? _ := check_new (banks w) (ab_bank c) in
  let? '(liquidity_vault_bump, liquidity_vault_authority_bump, insurance_vault_bump,
         insurance_vault_authority_bump, fee_vault_bump, fee_vault_authority_bump, w) :=
    create_vaults w c in
  let? _ := check_token_program (ab_token_program c) in
  add_bank_handler w clock c bank_config fs bank_mint liquidity_vault_bump liquidity_vault_authority_bump
    insurance_vault_bump insurance_vault_authority_bump fee_vault_bump fee_vault_authority_bump.

Definition lending_pool_add_bank (w : World) (clock : Clock) (c : LendingPoolAddBank)
    (bank_config : BankConfig.BankConfigCompact) : MarginfiResult World :=
  add_bank w clock c bank_config (Ok tt).
Definition lending_pool_add_bank_with_seed (w : World) (clock : Clock) (c : LendingPoolAddBank)
    (bank_config : BankConfig.BankConfigCompact) (bank_seed : Z) : MarginfiResult World :=
  add_bank w clock c bank_config
    (check (fst (find_bank_address (ab_marginfi_group c) (ab_bank_mint c) bank_seed) =? ab_bank c)
       ConstraintSeeds).

Definition lending_pool_configure_bank (w : World) (marginfi_group admin bank : Pubkey)
    (bank_config : BankConfig.BankConfigOpt) (remaining : list AccountInfo) : MarginfiResult World :=
  let? _ := check_admin w marginfi_group admin in
  let? k := check_bank w marginfi_group bank in
  let? k := Bank.configure k bank_config in
  let? _ := match BankConfig.o_oracle bank_config with
            | Some _ => OraclePriceFeedAdapter.validate_bank_config (Bank.config k) remaining
            | None => Ok tt
            end in
  Ok (set_bank bank k w).

Definition lending_pool_accrue_bank_interest (w : World) (clock : Clock) (marginfi_group bank : Pubkey)
    : MarginfiResult World :=
  let? _ := load_group w marginfi_group in
  let? _ := check_bank w marginfi_group bank in
  accrue w bank marginfi_group (unix_timestamp clock).

(** *** Emissions *)
(** [transfer_checked] of a pre-fee amount from the admin's funding account. *)
Definition fund_emissions (w : World) (clock : Clock) (c : LendingPoolSetupEmissions) (mint : Mint)
    (amount : Z) : MarginfiResult World :=
  let? amount_pre_fee := calculate_pre_fee_spl_deposit_amount mint amount (epoch clock) in
  let? ts := spl_transfer (mkTransfer amount_pre_fee (se_emissions_funding_account c)
               (se_emissions_token_account c) (se_admin c) (Some (se_emissions_mint c))
               (se_token_program c)) (tokens w) in
  Ok (set_tokens ts w).

Definition lending_pool_setup_emissions (w : World) (clock : Clock) (c : LendingPoolSetupEmissions)
    (emissions_flags emissions_rate total_emissions : Z) : MarginfiResult World :=
  let? _ := check_admin w (se_marginfi_group c) (se_admin c) in
  let? k := check_bank w (se_marginfi_group c) (se_bank c) in
  let? mint := ok_or (mints w !! se_emissions_mint c) AccountNotInitialized in
  let? _ := check_canonical_pda EMISSIONS_AUTH_SEED [se_bank c; se_emissions_mint c]
              (se_emissions_auth c) in
  let? '(_, w) := init_token EMISSIONS_TOKEN_ACCOUNT_SEED [se_bank c; se_emissions_mint c]
                    (se_emissions_token_account c) (se_emissions_mint c) (se_emissions_auth c) w in
  let? _ := check_token_program (se_token_program c) in
  let? _ := check (Bank.emissions_mint k =? default_pubkey) EmissionsAlreadySetup in
  let k := Bank.with_emissions_mint (se_emissions_mint c) k in
  let? k := Bank.override_emissions_flag k emissions_flags in
  let k := Bank.with_emissions_rate emissions_rate k in
  let k := Bank.with_emissions_remaining (from_num total_emissions) k in
  fund_emissions (set_bank (se_bank c) k w) clock c mint total_emissions.

Definition lending_pool_update_emissions_parameters (w : World) (clock : Clock)
    (c : LendingPoolSetupEmissions) (emissions_flags emissions_rate additional_emissions : option Z)
    : MarginfiResult World :=
  let? _ := check_admin w (se_marginfi_group c) (se_admin c) in
  let? k := check_bank w (se_marginfi_group c) (se_bank c) in
  let? mint := ok_or (mints w !! se_emissions_mint c) AccountNotInitialized in
  let? _ := check_canonical_pda EMISSIONS_TOKEN_ACCOUNT_SEED [se_bank c; se_emissions_mint c]
              (se_emissions_token_account c) in
  let? _ := load_token w (se_emissions_token_account c) in
  let? _ := check_token_program (se_token_program c) in
  let? _ := check (negb (Bank.emissions_mint k =? default_pubkey)) EmissionsUpdateError in
  let? _ := check (Bank.emissions_mint k =? se_emissions_mint c) EmissionsUpdateError in
  let k := match emissions_flags with Some flags => Bank.with_flags flags k | None => k end in
  let k := match emissions_rate with Some rate => Bank.with_emissions_rate rate k | None => k end in
  match additional_emissions with
  | Some n =>
      let? remaining := math (checked_add (Bank.emissions_remaining k) (from_num n)) in
      fund_emissions (set_bank (se_bank c) (Bank.with_emissions_remaining remaining k) w) clock c mint n
  | None => Ok (set_bank (se_bank c) k w)
  end.

(** ** Fees *)
(** The part of an outstanding fee the available liquidity pays, in whole
    tokens, and what stays outstanding. *)
Definition fee_payment (outstanding available_liquidity : I80F48) : MarginfiResult (I80F48 * I80F48) :=
  let transfer_amount := fx_int (Z.min outstanding available_liquidity) in
  let? left := math (checked_sub outstanding transfer_amount) in
  Ok (fx_int transfer_amount, left).

(** [bank.withdraw_spl_transfer(amount.checked_to_num()?, ..)] out of the
    liquidity vault. *)
Definition pay_from_liquidity (k : Bank) (c : LendingPoolCollectBankFees) (amount : I80F48) (to : Pubkey)
    (maybe_bank_mint : option Mint) (ts : TokenStore) : MarginfiResult TokenStore :=
  let? n := math (checked_to_u64 amount) in
  Bank.withdraw_spl_transfer k n (cf_liquidity_vault c) to (cf_liquidity_vault_authority c)
    maybe_bank_mint (cf_token_program c) ts.

Definition collect_fees_constraints (w : World) (c : LendingPoolCollectBankFees)
    : MarginfiResult (Bank * TokenAccount * FeeState) :=
  let? _ := load_group w (cf_marginfi_group c) in
  let? k := check_bank w (cf_marginfi_group c) (cf_bank c) in
  let? _ := check_pda LIQUIDITY_VAULT_AUTHORITY_SEED [cf_bank c]
              (Bank.liquidity_vault_authority_bump k) (cf_liquidity_vault_authority c) in
  let? _ := check_pda LIQUIDITY_VAULT_SEED [cf_bank c] (Bank.liquidity_vault_bump k)
              (cf_liquidity_vault c) in
  let? liquidity := load_token w (cf_liquidity_vault c) in
  let? _ := check_pda INSURANCE_VAULT_SEED [cf_bank c] (Bank.insurance_vault_bump k)
              (cf_insurance_vault c) in
  let? _ := check_pda FEE_VAULT_SEED [cf_bank c] (Bank.fee_vault_bump k) (cf_fee_vault c) in
  let? fs := check_fee_state w (cf_fee_state c) in
  let? _ := load_token w (cf_fee_ata c) in
  let? _ := check_token_program (cf_token_program c) in
  Ok (k, liquidity, fs).

Definition lending_pool_collect_bank_fees (w : World) (c : LendingPoolCollectBankFees)
    : MarginfiResult World :=
  let? '(k, liquidity, fs) := collect_fees_constraints w c in
  let ata_expected :=
    associated_token_address (fs_global_fee_wallet fs) (Bank.mint k) (cf_token_program c) in
  let? _ := check (cf_fee_ata c =? ata_expected) InvalidFeeAta in
  let? '(maybe_bank_mint, _) :=
    maybe_take_bank_mint (mints w) (cf_remaining c) (Bank.mint k) (cf_token_program c) in
  let available_liquidity := from_num (ta_amount liquidity) in
  let? '(insurance_fee, new_insurance) :=
    fee_payment (Bank.collected_insurance_fees_outstanding k) available_liquidity in
  let k := Bank.with_collected_insurance_fees_outstanding new_insurance k in
  let? available_liquidity := math (checked_sub available_liquidity insurance_fee) in
  let? '(group_fee, new_group) :=
    fee_payment (Bank.collected_group_fees_outstanding k) available_liquidity in
  let? available_liquidity := math (checked_sub available_liquidity group_fee) in
  let? _ := rust_assert (geb available_liquidity ZERO) in
  let k := Bank.with_collected_group_fees_outstanding new_group k in
  let? ts := pay_from_liquidity k c group_fee (cf_fee_vault c) maybe_bank_mint (tokens w) in
  let? ts := pay_from_liquidity k c insurance_fee (cf_insurance_vault c) maybe_bank_mint ts in
  let? '(program_fee, new_program) :=
    fee_payment (Bank.collected_program_fees_outstanding k) available_liquidity in
  let? available_liquidity := math (checked_sub available_liquidity program_fee) in
  let? _ := rust_assert (geb available_liquidity ZERO) in
  let k := Bank.with_collected_program_fees_outstanding new_program k in
  let? ts := pay_from_liquidity k c program_fee (cf_fee_ata c) maybe_bank_mint ts in
  Ok (set_tokens ts (set_bank (cf_bank c) k w)).

(** The admin's withdrawals from the fee and the insurance vaults. *)
Definition withdraw_from_vault (vault_seed authority_seed : Seed)
    (vault_bump authority_bump : Bank → Z) (w : World) (c : LendingPoolWithdrawFees) (amount : Z)
    : MarginfiResult World :=
  let? _ := load_group w (wf_marginfi_group c) in
  let? k := check_bank w (wf_marginfi_group c) (wf_bank c) in
  let? _ := check_admin w (wf_marginfi_group c) (wf_admin c) in
  let? _ := check_pda vault_seed [wf_bank c] (vault_bump k) (wf_vault c) in
  let? _ := check_pda authority_seed [wf_bank c] (authority_bump k) (wf_vault_authority c) in
  let? _ := check_token_program (wf_token_program c) in
  let? '(maybe_bank_mint, _) :=
    maybe_take_bank_mint (mints w) (wf_remaining c) (Bank.mint k) (wf_token_program c) in
  let? ts := Bank.withdraw_spl_transfer k amount (wf_vault c) (wf_dst_token_account c)
               (wf_vault_authority c) maybe_bank_mint (wf_token_program c) (tokens w) in
  Ok (set_tokens ts w).
Definition lending_pool_withdraw_fees : World → LendingPoolWithdrawFees → Z → MarginfiResult World :=
  withdraw_from_vault FEE_VAULT_SEED FEE_VAULT_AUTHORITY_SEED Bank.fee_vault_bump
    Bank.fee_vault_authority_bump.
Definition lending_pool_withdraw_insurance : World → LendingPoolWithdrawFees → Z → MarginfiResult World :=
  withdraw_from_vault INSURANCE_VAULT_SEED INSURANCE_VAULT_AUTHORITY_SEED Bank.insurance_vault_bump
    Bank.insurance_vault_authority_bump.
End GroupInstructions.

(** ** Lemmas *)
Section GroupLemmas.
Context {F : FixedOps} {L : FixedLaws F} {T : TokenSdk} {O : OracleSdk} {R : Runtime}.

Lemma check_admin_ok w g a gr :
  check_admin w g a = Ok gr → groups w !! g = Some gr ∧ a = MarginfiGroup.admin gr.
Proof. unfold check_admin. intros H. inv_res. constraints. by bool_prop. Qed.
Lemma check_fee_state_ok w k fs : check_fee_state w k = Ok fs → fee_state w = Some fs.
Proof. unfold check_fee_state. intros H. inv_res. by constraints. Qed.
Lemma check_new_ok {A} (m : gmap Z A) k u : check_new m k = Ok u → m !! k = None.
Proof.
  unfold check_new. intros H%check_ok. apply negb_true_iff, bool_decide_eq_false in H.
  by apply eq_None_not_Some.
Qed.
Lemma init_token_ok seed keys k mint auth w b w' :
  init_token seed keys k mint auth w = Ok (b, w') →
  k = fst (find_program_address seed keys) ∧ b = snd (find_program_address seed keys) ∧
  tokens w !! k = None ∧ w' = set_tokens (<[k := mkTokenAccount mint auth 0]> (tokens w)) w.
Proof.
  unfold init_token, check_canonical_pda. intros H. apply bind_ok in H as (u & Hk & H).
  apply check_ok in Hk. apply bind_ok in H as (u' & Hn & H). apply check_new_ok in Hn.
  injection H as <- <-. by bool_prop.
Qed.

(** What does not touch banks and accounts keeps the books. *)
Lemma books_ext w w' :
  books_balance w → banks w' = banks w → accounts w' = accounts w → books_balance w'.
Proof. intros [Hb Ha Hp Ht] Eb Ea. split; rewrite ?Eb, ?Ea; eauto. Qed.

(** Adding a bank nobody has a position in. *)
Lemma new_bank_books w k b :
  books_balance w → banks w !! k = None → Bank.wf b → books_balance (set_bank k b w).
Proof.
  intros [Hb Ha Hp Ht] Hk Hwf. split; simpl.
  - intros j c [[<- <-]|[_ Hj]]%lookup_insert_Some; eauto.
  - done.
  - intros a m i c Hm Hi Hact. apply lookup_insert_is_Some'. right. eauto.
  - intros side j c [[<- <-]|[_ Hj]]%lookup_insert_Some; [|eauto].
    rewrite all_shares_zero; [destruct Hwf, side; done|].
    intros a m Hm. apply sumZ_zero. intros i p Hi. apply position_shares_other.
    intros Hact Heq. destruct (Hp _ _ _ _ Hm Hi Hact) as [? Hs]. congruence.
Qed.

Lemma configure_bank_ok b o b' :
  Bank.configure b o = Ok b' →
  BankConfig.valid (Bank.config b') ∧
  ∃ f, b' = Bank.with_flags f (Bank.with_config (Bank.configure_fields (Bank.config b) o) b).
Proof.
  unfold Bank.configure, Bank.update_flag. intros H. apply bind_ok in H as (b1 & Hb & H).
  apply bind_ok in H as (u & Hv & H). injection H as <-. apply BankConfig.validate_ok in Hv.
  split; [done|]. destruct (BankConfig.o_permissionless_bad_debt_settlement o) as [f|].
  - apply bind_ok in Hb as (u' & _ & Hb). destruct f; injection Hb as <-; by eexists.
  - injection Hb as <-. exists (Bank.flags b). by destruct b.
Qed.

(** Replacing a bank by one with the same totals. *)
Lemma same_totals_books w k b b' :
  books_balance w → banks w !! k = Some b → Bank.wf b' →
  Bank.total_asset_shares b' = Bank.total_asset_shares b →
  Bank.total_liability_shares b' = Bank.total_liability_shares b → books_balance (set_bank k b' w).
Proof.
  intros Hb Hk Hwf Ha Hl. eapply set_bank_books; try done. intros []; simpl; lia.
Qed.

Lemma fee_payment_ok out avail paid left :
  0 ≤ out → 0 ≤ avail → fee_payment out avail = Ok (paid, left) →
  paid = Z.min out avail / SCALE * SCALE ∧ left = out - paid ∧ 0 ≤ paid ≤ out ∧ paid ≤ avail.
Proof.
  intros Ho Ha H. unfold fee_payment in H. apply bind_ok in H as (l & Hl & H).
  injection H as <- <-. apply math_ok, sub_some in Hl as [-> _].
  rewrite !fx_int_spec. pose proof SCALE_pos.
  pose proof (floor_bounds (Z.min out avail)).
  pose proof (Z.div_pos (Z.min out avail) SCALE ltac:(lia) ltac:(done)).
  rewrite Z.div_mul by lia. split_and!; try done; nia.
Qed.
End GroupLemmas.

Section AddBank.
Context {F : FixedOps} {L : FixedLaws F} {T : TokenSdk} {O : OracleSdk} {R : Runtime}.

(** The three vaults are new, at their canonical addresses, and empty. *)
Record vaults_created (w w' : World) (c : LendingPoolAddBank) (b1 b2 b3 b4 b5 b6 : Z) : Prop := {
  vc_liquidity : find_program_address LIQUIDITY_VAULT_SEED [ab_bank c] = (ab_liquidity_vault c, b1);
  vc_insurance : find_program_address INSURANCE_VAULT_SEED [ab_bank c] = (ab_insurance_vault c, b3);
  vc_fee : find_program_address FEE_VAULT_SEED [ab_bank c] = (ab_fee_vault c, b5);
  vc_liquidity_auth :
    find_program_address LIQUIDITY_VAULT_AUTHORITY_SEED [ab_bank c] = (ab_liquidity_vault_authority c, b2);
  vc_insurance_auth :
    find_program_address INSURANCE_VAULT_AUTHORITY_SEED [ab_bank c] = (ab_insurance_vault_authority c, b4);
  vc_fee_auth :
    find_program_address FEE_VAULT_AUTHORITY_SEED [ab_bank c] = (ab_fee_vault_authority c, b6);
  vc_tokens : ∀ v a, (v, a) ∈ [(ab_liquidity_vault c, ab_liquidity_vault_authority c);
      (ab_insurance_vault c, ab_insurance_vault_authority c); (ab_fee_vault c, ab_fee_vault_authority c)] →
    tokens w !! v = None ∧ tokens w' !! v = Some (mkTokenAccount (ab_bank_mint c) a 0);
  vc_frame : ∃ ts, w' = set_tokens ts w;
  vc_others v : is_Some (tokens w !! v) → tokens w' !! v = tokens w !! v
}.

Lemma canonical_pda seed keys k u :
  check_canonical_pda seed keys k = Ok u →
  find_program_address seed keys = (k, snd (find_program_address seed keys)).
Proof.
  unfold check_canonical_pda. intros H%check_ok. bool_prop. subst k.
  by destruct (find_program_address seed keys).
Qed.

Lemma create_vaults_ok w c b1 b2 b3 b4 b5 b6 w' :
  create_vaults w c = Ok (b1, b2, b3, b4, b5, b6, w') → vaults_created w w' c b1 b2 b3 b4 b5 b6.
Proof.
  unfold create_vaults. intros H.
  apply bind_ok in H as (u1 & H1 & H). apply bind_ok in H as ([x1 w1] & I1 & H).
  apply bind_ok in H as (u2 & H2 & H). apply bind_ok in H as ([x2 w2] & I2 & H).
  apply bind_ok in H as (u3 & H3 & H). apply bind_ok in H as ([x3 w3] & I3 & H).
  injection H as <- <- <- <- <- <- <-.
  apply canonical_pda in H1, H2, H3.
  apply init_token_ok in I1 as (K1 & -> & N1 & ->). apply init_token_ok in I2 as (K2 & -> & N2 & ->).
  apply init_token_ok in I3 as (K3 & -> & N3 & ->). simpl in *.
  apply lookup_insert_None in N2 as [N2 D12]. apply lookup_insert_None in N3 as [N3 D23].
  apply lookup_insert_None in N3 as [N3 D13].
  split; try done.
  - rewrite K1. apply surjective_pairing.
  - rewrite K2. apply surjective_pairing.
  - rewrite K3. apply surjective_pairing.
  - intros v a Hin. simpl. rewrite !elem_of_cons in Hin.
    destruct Hin as [[= -> ->]|[[= -> ->]|[[= -> ->]|Hin]]]; [..|by apply elem_of_nil in Hin].
    + split; [done|]. rewrite 2!lookup_insert_ne by done. apply lookup_insert_eq.
    + split; [done|]. rewrite lookup_insert_ne by done. apply lookup_insert_eq.
    + split; [done|]. apply lookup_insert_eq.
  - by eexists.
  - intros v [a Ha]. simpl. by rewrite !lookup_insert_ne by congruence.
Qed.

Lemma add_bank_ok w clock c cfg ok w' :
  add_bank w clock c cfg ok = Ok w' →
  ∃ g fs mint b1 b2 b3 b4 b5 b6 w1 ls,
    groups w !! ab_marginfi_group c = Some g ∧ ab_admin c = MarginfiGroup.admin g ∧
    fee_state w = Some fs ∧ fs_global_fee_wallet fs = ab_global_fee_wallet c ∧
    mints w !! ab_bank_mint c = Some mint ∧ banks w !! ab_bank c = None ∧
    vaults_created w w1 c b1 b2 b3 b4 b5 b6 ∧
    (0 < bank_init_flat_sol_fee fs → system_transfer (ab_fee_payer c) (ab_global_fee_wallet c)
       (bank_init_flat_sol_fee fs) (lamports w) = Ok ls) ∧
    let b := Bank.new (ab_marginfi_group c) (BankConfig.of_compact cfg) (ab_bank_mint c) (mint_dec mint)
      (ab_liquidity_vault c) (ab_insurance_vault c) (ab_fee_vault c) (unix_timestamp clock)
      b1 b2 b3 b4 b5 b6 in
    BankConfig.valid (Bank.config b) ∧ w' = set_lamports ls (set_bank (ab_bank c) b w1).
Proof.
  unfold add_bank, add_bank_handler. intros H.
  apply bind_ok in H as (g & Hg & H). apply check_admin_ok in Hg as [Hg Ha].
  apply bind_ok in H as (fs & Hfs & H). apply check_fee_state_ok in Hfs.
  apply bind_ok in H as (? & Hw & H). apply check_ok in Hw. bool_prop.
  apply bind_ok in H as (mint & Hm & H). apply ok_or_ok in Hm.
  apply bind_ok in H as (? & _ & H). apply bind_ok in H as (? & Hn & H). apply check_new_ok in Hn.
  apply bind_ok in H as ([[[[[[b1 b2] b3] b4] b5] b6] w1] & Hv & H). apply create_vaults_ok in Hv.
  apply bind_ok in H as (? & _ & H). apply bind_ok in H as (ls & Hls & H).
  apply bind_ok in H as (? & Hval & H). apply BankConfig.validate_ok in Hval.
  apply bind_ok in H as (? & _ & H). injection H as <-.
  destruct (vc_frame _ _ _ _ _ _ _ _ _ Hv) as [ts Hts].
  exists g, fs, mint, b1, b2, b3, b4, b5, b6, w1, ls. split_and!; try done.
  intros Hpos. rewrite (proj2 (Z.ltb_lt _ _) Hpos), Hts in Hls. done.
Qed.

Lemma new_bank_wf g c m d v1 v2 v3 t b1 b2 b3 b4 b5 b6 :
  Bank.wf (Bank.new g c m d v1 v2 v3 t b1 b2 b3 b4 b5 b6).
Proof. split; simpl; vm_compute; discriminate. Qed.

(** Only the group's admin adds a bank, at an address not
    in use; it starts with a valid configuration, shares worth one token, no
    deposits, debts, fees or emissions, and three new, empty vaults at the
    canonical addresses whose bumps it stores; the flat fee, if any, is paid to
    the global fee wallet; and the books stay balanced. *)
Theorem add_bank_starts_sound w clock c cfg bank_address_ok w' :
  add_bank w clock c cfg bank_address_ok = Ok w' →
  ∃ g fs b, groups w !! ab_marginfi_group c = Some g ∧ ab_admin c = MarginfiGroup.admin g ∧
    banks w !! ab_bank c = None ∧ banks w' = <[ab_bank c := b]> (banks w) ∧
    Bank.group b = ab_marginfi_group c ∧ Bank.config b = BankConfig.of_compact cfg ∧
    BankConfig.valid (Bank.config b) ∧
    Bank.asset_share_value b = ONE ∧ Bank.liability_share_value b = ONE ∧
    Bank.total_asset_shares b = 0 ∧ Bank.total_liability_shares b = 0 ∧
    (∀ v, v ∈ [Bank.liquidity_vault b; Bank.insurance_vault b; Bank.fee_vault b] →
       tokens w !! v = None ∧ token_amount (tokens w') v = 0) ∧
    find_program_address LIQUIDITY_VAULT_SEED [ab_bank c]
      = (Bank.liquidity_vault b, Bank.liquidity_vault_bump b) ∧
    find_program_address INSURANCE_VAULT_SEED [ab_bank c]
      = (Bank.insurance_vault b, Bank.insurance_vault_bump b) ∧
    find_program_address FEE_VAULT_SEED [ab_bank c] = (Bank.fee_vault b, Bank.fee_vault_bump b) ∧
    fee_state w = Some fs ∧
    (0 < bank_init_flat_sol_fee fs →
     system_transfer (ab_fee_payer c) (fs_global_fee_wallet fs) (bank_init_flat_sol_fee fs) (lamports w)
       = Ok (lamports w')) ∧
    (books_balance w → books_balance w').
Proof.
  intros (g & fs & mint & b1 & b2 & b3 & b4 & b5 & b6 & w1 & ls & Hg & Ha & Hfs & Hw & Hm & Hn & Hv
          & Hls & Hval & ->)%add_bank_ok.
  destruct Hv as [V1 V2 V3 V4 V5 V6 Vt [ts ->] _].
  exists g, fs. eexists. split_and!; try done.
  - simpl. intros v Hin. rewrite !elem_of_cons in Hin.
    assert (∃ a, tokens w !! v = None ∧ ts !! v = Some (mkTokenAccount (ab_bank_mint c) a 0)) as (a & Hno & Hts).
    { destruct Hin as [->|[->|[->|Hin]]]; [..|by apply elem_of_nil in Hin]; eexists;
        apply Vt; rewrite !elem_of_cons; auto. }
    unfold token_amount. by rewrite Hts.
  - intros Hpos. rewrite Hw. by apply Hls.
  - intros Hb. apply (books_ext (set_bank (ab_bank c) (Bank.new (ab_marginfi_group c)
      (BankConfig.of_compact cfg) (ab_bank_mint c) (mint_dec mint) (ab_liquidity_vault c)
      (ab_insurance_vault c) (ab_fee_vault c) (unix_timestamp clock) b1 b2 b3 b4 b5 b6) w)); [|done..].
    apply new_bank_books; [done..|apply new_bank_wf].
Qed.
End AddBank.

(** ** Fees and emissions *)
Section Fees.
Context {F : FixedOps} {L : FixedLaws F} {T : TokenSdk} {O : OracleSdk} {R : Runtime}.

Lemma collect_fees_constraints_ok w c k t fs :
  collect_fees_constraints w c = Ok (k, t, fs) →
  banks w !! cf_bank c = Some k ∧ Bank.group k = cf_marginfi_group c ∧
  tokens w !! cf_liquidity_vault c = Some t ∧ fee_state w = Some fs.
Proof.
  unfold collect_fees_constraints. intros H. inv_res. constraints. split_and!; try done.
  by eapply check_fee_state_ok.
Qed.

(** The three payments of a collection that succeeds. *)
Record collection (w : World) (c : LendingPoolCollectBankFees) (w' : World) (k k' : Bank) (vault : TokenAccount)
    (fs : FeeState) (pi pg pp : I80F48) (ts1 ts2 ts3 : TokenStore) (mint : option Mint) : Prop := {
  cl_bank : banks w !! cf_bank c = Some k;
  cl_vault : tokens w !! cf_liquidity_vault c = Some vault;
  cl_fee_state : fee_state w = Some fs;
  cl_ata : cf_fee_ata c = associated_token_address (fs_global_fee_wallet fs) (Bank.mint k)
                            (cf_token_program c);
  cl_insurance : fee_payment (Bank.collected_insurance_fees_outstanding k) (from_num (ta_amount vault))
                 = Ok (pi, Bank.collected_insurance_fees_outstanding k');
  cl_group : fee_payment (Bank.collected_group_fees_outstanding k) (from_num (ta_amount vault) - pi)
             = Ok (pg, Bank.collected_group_fees_outstanding k');
  cl_program : fee_payment (Bank.collected_program_fees_outstanding k)
                 (from_num (ta_amount vault) - pi - pg)
               = Ok (pp, Bank.collected_program_fees_outstanding k');
  cl_pay_group : pay_from_liquidity k c pg (cf_fee_vault c) mint (tokens w) = Ok ts1;
  cl_pay_insurance : pay_from_liquidity k c pi (cf_insurance_vault c) mint ts1 = Ok ts2;
  cl_pay_program : pay_from_liquidity k c pp (cf_fee_ata c) mint ts2 = Ok ts3;
  cl_frame : k' = Bank.with_collected_program_fees_outstanding (Bank.collected_program_fees_outstanding k')
    (Bank.with_collected_group_fees_outstanding (Bank.collected_group_fees_outstanding k')
    (Bank.with_collected_insurance_fees_outstanding (Bank.collected_insurance_fees_outstanding k') k));
  cl_final : w' = set_tokens ts3 (set_bank (cf_bank c) k' w)
}.

Lemma collect_bank_fees_ok w c w' :
  lending_pool_collect_bank_fees w c = Ok w' →
  ∃ k k' vault fs pi pg pp ts1 ts2 ts3 mint, collection w c w' k k' vault fs pi pg pp ts1 ts2 ts3 mint.
Proof.
  unfold lending_pool_collect_bank_fees. intros H.
  apply bind_ok in H as ([[k t] fs] & Hc & H).
  apply collect_fees_constraints_ok in Hc as (Hk & _ & Ht & Hfs).
  apply bind_ok in H as (? & Hata & H). apply check_ok in Hata. bool_prop.
  apply bind_ok in H as ([mint rest] & _ & H).
  apply bind_ok in H as ([pi ni] & Hi & H). apply bind_ok in H as (a1 & Ha1 & H).
  apply math_ok, sub_some in Ha1 as [-> _].
  apply bind_ok in H as ([pg ng] & Hg & H). apply bind_ok in H as (a2 & Ha2 & H).
  apply math_ok, sub_some in Ha2 as [-> _].
  apply bind_ok in H as (? & _ & H). apply bind_ok in H as (ts1 & H1 & H).
  apply bind_ok in H as (ts2 & H2 & H). apply bind_ok in H as ([pp np] & Hp & H).
  apply bind_ok in H as (a3 & _ & H). apply bind_ok in H as (? & _ & H).
  apply bind_ok in H as (ts3 & H3 & H). injection H as <-.
  do 11 eexists. split; try done; [exact Hi|exact Hg|exact Hp|reflexivity].
Qed.

Lemma pay_from_liquidity_ok {TL : TokenLaws T} k c amount to mint ts ts' :
  cf_liquidity_vault c ≠ to → pay_from_liquidity k c amount to mint ts = Ok ts' →
  token_amount ts' (cf_liquidity_vault c) = token_amount ts (cf_liquidity_vault c) - amount / SCALE.
Proof.
  unfold pay_from_liquidity, Bank.withdraw_spl_transfer. intros Hne H.
  apply bind_ok in H as (n & Hn & H). apply math_ok, to_u64_some in Hn as (-> & _ & _).
  apply spl_transfer_spec in H as (_ & _ & _ & Hm & _). simpl in Hm. by destruct (Hm Hne).
Qed.

Lemma collection_wf w c w' k k' vault fs pi pg pp ts1 ts2 ts3 mint :
  Bank.wf k → 0 ≤ ta_amount vault →
  collection w c w' k k' vault fs pi pg pp ts1 ts2 ts3 mint →
  Bank.wf k' ∧
  (pi = Z.min (Bank.collected_insurance_fees_outstanding k) (from_num (ta_amount vault)) / SCALE * SCALE ∧
   Bank.collected_insurance_fees_outstanding k' = Bank.collected_insurance_fees_outstanding k - pi ∧ 0 ≤ pi) ∧
  (pg = Z.min (Bank.collected_group_fees_outstanding k) (from_num (ta_amount vault) - pi) / SCALE * SCALE ∧
   Bank.collected_group_fees_outstanding k' = Bank.collected_group_fees_outstanding k - pg ∧ 0 ≤ pg) ∧
  (pp = Z.min (Bank.collected_program_fees_outstanding k) (from_num (ta_amount vault) - pi - pg)
          / SCALE * SCALE ∧
   Bank.collected_program_fees_outstanding k' = Bank.collected_program_fees_outstanding k - pp ∧ 0 ≤ pp) ∧
  pi + pg + pp ≤ from_num (ta_amount vault).
Proof.
  intros Hk Hv [_ _ _ _ Hi Hg Hp _ _ _ Hfr _].
  pose proof (from_num_nonneg _ Hv). destruct Hk.
  apply fee_payment_ok in Hi as (? & ? & ? & ?); [|done..].
  apply fee_payment_ok in Hg as (? & ? & ? & ?); [|done|lia].
  apply fee_payment_ok in Hp as (? & ? & ? & ?); [|done|lia].
  split_and!; try done; try lia.
  rewrite Hfr. split; simpl; try done; lia.
Qed.
End Fees.

Section GroupTheorems.
Context {F : FixedOps} {L : FixedLaws F} {T : TokenSdk} {TL : TokenLaws T} {O : OracleSdk} {R : Runtime}.

(** Collecting fees pays the insurance fund
    first, then the group, then the program, each the whole tokens of what is
    outstanding and still in the vault; what is paid is no longer outstanding,
    and the liquidity vault loses exactly the three payments.  The program's
    part goes to the associated token account of the global fee wallet. *)
Theorem collect_fees_pays_what_is_there w c w' :
  books_balance w → 0 ≤ token_amount (tokens w) (cf_liquidity_vault c) →
  cf_liquidity_vault c ≠ cf_fee_vault c → cf_liquidity_vault c ≠ cf_insurance_vault c →
  cf_liquidity_vault c ≠ cf_fee_ata c →
  lending_pool_collect_bank_fees w c = Ok w' →
  let vault := token_amount (tokens w) (cf_liquidity_vault c) in
  ∃ k k' fs ni ng np, banks w !! cf_bank c = Some k ∧ banks w' !! cf_bank c = Some k' ∧
    fee_state w = Some fs ∧
    cf_fee_ata c = associated_token_address (fs_global_fee_wallet fs) (Bank.mint k) (cf_token_program c) ∧
    ni = Z.min (Bank.collected_insurance_fees_outstanding k) (from_num vault) / SCALE ∧
    ng = Z.min (Bank.collected_group_fees_outstanding k) (from_num (vault - ni)) / SCALE ∧
    np = Z.min (Bank.collected_program_fees_outstanding k) (from_num (vault - ni - ng)) / SCALE ∧
    0 ≤ ni ∧ 0 ≤ ng ∧ 0 ≤ np ∧ ni + ng + np ≤ vault ∧
    Bank.collected_insurance_fees_outstanding k' = Bank.collected_insurance_fees_outstanding k - from_num ni ∧
    Bank.collected_group_fees_outstanding k' = Bank.collected_group_fees_outstanding k - from_num ng ∧
    Bank.collected_program_fees_outstanding k' = Bank.collected_program_fees_outstanding k - from_num np ∧
    token_amount (tokens w') (cf_liquidity_vault c) = vault - ni - ng - np ∧
    books_balance w'.
Proof.
  intros Hb Hpos D1 D2 D3 (k & k' & t & fs & pi & pg & pp & ts1 & ts2 & ts3 & mint & H)%collect_bank_fees_ok vault.
  assert (ta_amount t = vault) as Ht
    by (unfold vault, token_amount; by rewrite (cl_vault _ _ _ _ _ _ _ _ _ _ _ _ _ _ H)).
  pose proof (books_banks _ Hb _ _ (cl_bank _ _ _ _ _ _ _ _ _ _ _ _ _ _ H)) as Hk.
  destruct (collection_wf _ _ _ _ _ _ _ _ _ _ _ _ _ _ Hk ltac:(by rewrite Ht) H)
    as (Hk' & (Ei & Li & Pi) & (Eg & Lg & Pg) & (Ep & Lp & Pp) & Hsum).
  rewrite Ht in *. destruct H as [Hbank _ Hfs Hata _ _ _ H1 H2 H3 Hfr ->].
  apply pay_from_liquidity_ok in H1; [|done]. apply pay_from_liquidity_ok in H2; [|done].
  apply pay_from_liquidity_ok in H3; [|done]. pose proof SCALE_pos.
  exists k, k', fs, (pi / SCALE), (pg / SCALE), (pp / SCALE).
  assert (∀ x, x / SCALE * SCALE / SCALE = x / SCALE) as Hid by (intros; by apply Z.div_mul; lia).
  assert (from_num (pi / SCALE) = pi ∧ from_num (pg / SCALE) = pg ∧ from_num (pp / SCALE) = pp)
    as (Fi & Fg & Fp) by (unfold from_num; rewrite Ei at 1; rewrite Eg at 1; rewrite Ep at 1;
                          rewrite !Hid; done).
  assert (∀ a b, from_num (a - b) = from_num a - from_num b) as Hsub by (intros; unfold from_num; lia).
  split_and!; try done; try by apply Z.div_pos.
  - simpl. apply lookup_insert_eq.
  - rewrite Ei at 1. apply Hid.
  - rewrite Hsub, Fi. rewrite Eg at 1. apply Hid.
  - rewrite !Hsub, Fi, Fg. rewrite Ep at 1. apply Hid.
  - unfold from_num in *. nia.
  - by rewrite Fi.
  - by rewrite Fg.
  - by rewrite Fp.
  - transitivity (token_amount ts3 (cf_liquidity_vault c)); [done|]. rewrite H3, H2, H1. unfold vault. lia.
  - apply set_tokens_books. eapply same_totals_books; try done; by rewrite Hfr.
Qed.
End GroupTheorems.

(** ** The books *)
Section GroupBooks.
Context {F : FixedOps} {L : FixedLaws F} {T : TokenSdk} {O : OracleSdk} {R : Runtime}.

Lemma add_bank_books w clock c cfg ok w' :
  books_balance w → add_bank w clock c cfg ok = Ok w' → books_balance w'.
Proof.
  intros Hb (g & fs & mint & b1 & b2 & b3 & b4 & b5 & b6 & w1 & ls & _ & _ & _ & _ & _ & Hn & Hv
          & _ & _ & ->)%add_bank_ok. destruct (vc_frame _ _ _ _ _ _ _ _ _ Hv) as [ts ->].
  eapply books_ext; [eapply (new_bank_books w); [done..|]|done..]. apply new_bank_wf.
Qed.

Lemma configure_bank_books w g a k o rest w' :
  books_balance w → lending_pool_configure_bank w g a k o rest = Ok w' → books_balance w'.
Proof.
  unfold lending_pool_configure_bank. intros Hb H. inv_res. constraints.
  apply configure_bank_ok in E1 as [_ [f ->]].
  match goal with H : banks _ !! _ = Some ?b |- _ => pose proof (books_banks _ Hb _ _ H) as [] end.
  eapply same_totals_books; try done; by split.
Qed.

Lemma fund_emissions_ok w clock c mint n w' :
  fund_emissions w clock c mint n = Ok w' →
  ∃ pre ts, calculate_pre_fee_spl_deposit_amount mint n (epoch clock) = Ok pre ∧
    spl_transfer (mkTransfer pre (se_emissions_funding_account c) (se_emissions_token_account c)
      (se_admin c) (Some (se_emissions_mint c)) (se_token_program c)) (tokens w) = Ok ts ∧
    w' = set_tokens ts w.
Proof. unfold fund_emissions. intros H. inv_res. eauto. Qed.

Lemma setup_emissions_ok w clock c flags rate total w' :
  lending_pool_setup_emissions w clock c flags rate total = Ok w' →
  ∃ g k mint w1, groups w !! se_marginfi_group c = Some g ∧ se_admin c = MarginfiGroup.admin g ∧
    banks w !! se_bank c = Some k ∧ mints w !! se_emissions_mint c = Some mint ∧
    Bank.emissions_mint k = default_pubkey ∧ Bank.verify_emissions_flags flags = true ∧
    (∃ t, tokens w !! se_emissions_token_account c = None ∧
       w1 = set_tokens (<[se_emissions_token_account c := t]> (tokens w)) w) ∧
    token_amount (tokens w1) (se_emissions_token_account c) = 0 ∧
    fund_emissions (set_bank (se_bank c) (Bank.with_emissions_remaining (from_num total)
      (Bank.with_emissions_rate rate (Bank.with_flags flags
         (Bank.with_emissions_mint (se_emissions_mint c) k)))) w1) clock c mint total = Ok w'.
Proof.
  unfold lending_pool_setup_emissions, Bank.override_emissions_flag. intros H.
  apply bind_ok in H as (g & Hg & H). apply check_admin_ok in Hg as [Hg Ha].
  apply bind_ok in H as (k & Hk & H). apply check_bank_ok in Hk as [Hk _].
  apply bind_ok in H as (mint & Hm & H). apply ok_or_ok in Hm. apply bind_ok in H as (? & _ & H).
  apply bind_ok in H as ([b w1] & Hi & H). apply init_token_ok in Hi as (_ & _ & Hnew & Hw1).
  apply bind_ok in H as (? & _ & H). apply bind_ok in H as (? & Hd & H). apply check_ok in Hd.
  apply bind_ok in H as (k' & Hk' & H). apply bind_ok in Hk' as (u & Hf & Hk'). injection Hk' as <-.
  apply rust_assert_ok in Hf. bool_prop. exists g, k, mint, w1. split_and!; try done.
  - by eexists.
  - rewrite Hw1. unfold token_amount. simpl. by rewrite lookup_insert_eq.
Qed.

Lemma update_emissions_ok w clock c flags rate extra w' :
  lending_pool_update_emissions_parameters w clock c flags rate extra = Ok w' →
  ∃ g k mint k', groups w !! se_marginfi_group c = Some g ∧ se_admin c = MarginfiGroup.admin g ∧
    banks w !! se_bank c = Some k ∧ mints w !! se_emissions_mint c = Some mint ∧
    Bank.emissions_mint k = se_emissions_mint c ∧ Bank.emissions_mint k ≠ default_pubkey ∧
    k' = Bank.with_emissions_remaining (Bank.emissions_remaining k + from_num (default 0 extra))
      (Bank.with_emissions_rate (default (Bank.emissions_rate k) rate)
         (Bank.with_flags (default (Bank.flags k) flags) k)) ∧
    match extra with
    | Some n => fund_emissions (set_bank (se_bank c) k' w) clock c mint n = Ok w'
    | None => w' = set_bank (se_bank c) k' w
    end.
Proof.
  unfold lending_pool_update_emissions_parameters. intros H.
  apply bind_ok in H as (g & Hg & H). apply check_admin_ok in Hg as [Hg Ha].
  apply bind_ok in H as (k & Hk & H). apply check_bank_ok in Hk as [Hk _].
  apply bind_ok in H as (mint & Hm & H). apply ok_or_ok in Hm. apply bind_ok in H as (? & _ & H).
  apply bind_ok in H as (? & _ & H). apply bind_ok in H as (? & _ & H).
  apply bind_ok in H as (? & Hd & H). apply bind_ok in H as (? & He & H).
  apply check_ok in Hd, He. bool_prop. exists g, k, mint. eexists.
  split; [done|]. split; [done|]. split; [done|]. split; [done|]. split; [done|]. split; [done|].
  split; [reflexivity|].
  assert (match rate with Some r => Bank.with_emissions_rate r
            match flags with Some f => Bank.with_flags f k | None => k end
          | None => match flags with Some f => Bank.with_flags f k | None => k end end
          = Bank.with_emissions_rate (default (Bank.emissions_rate k) rate)
              (Bank.with_flags (default (Bank.flags k) flags) k)) as Heq
    by (destruct rate, flags; destruct k; reflexivity).
  rewrite Heq in H. destruct extra as [n|].
  - apply bind_ok in H as (r & Hr & H). apply math_ok, add_some in Hr as [-> _]. exact H.
  - injection H as <-. destruct k; simpl. by rewrite Z.add_0_r.
Qed.

Lemma setup_emissions_books w clock c flags rate total w' :
  is_u64 rate → is_u64 total → books_balance w →
  lending_pool_setup_emissions w clock c flags rate total = Ok w' → books_balance w'.
Proof.
  intros Hr Ht Hb H.
  apply setup_emissions_ok in H as (g & k & mint & w1 & _ & _ & Hk & _ & _ & _ & (t & _ & ->) & _ & H).
  apply fund_emissions_ok in H as (pre & ts & _ & _ & ->). apply set_tokens_books.
  apply (books_ext (set_bank (se_bank c)
      (Bank.with_emissions_remaining (from_num total) (Bank.with_emissions_rate rate
         (Bank.with_flags flags (Bank.with_emissions_mint (se_emissions_mint c) k)))) w)); [|done..].
  pose proof (books_banks _ Hb _ _ Hk) as []. eapply same_totals_books; try done.
  split; simpl; try done; [apply from_num_nonneg; apply Ht|apply Hr].
Qed.
Lemma update_emissions_books w clock c flags rate extra w' :
  is_u64 (default 0 rate) → is_u64 (default 0 extra) → books_balance w →
  lending_pool_update_emissions_parameters w clock c flags rate extra = Ok w' → books_balance w'.
Proof.
  intros Hr Hx Hb H.
  apply update_emissions_ok in H as (g & k & mint & k' & _ & _ & Hk & _ & _ & _ & Hk' & H).
  assert (books_balance (set_bank (se_bank c) k' w)) as Hb'.
  { pose proof (books_banks _ Hb _ _ Hk) as []. pose proof (from_num_nonneg _ (proj1 Hx)).
    eapply same_totals_books; rewrite ?Hk'; try done.
    split; simpl; try done; [lia|]. destruct rate; [apply Hr|done]. }
  destruct extra; [|by subst w'].
  apply fund_emissions_ok in H as (pre & ts & _ & _ & ->). by apply set_tokens_books.
Qed.

(** Only the admin sets up or tops up a bank's emissions;
    a bank is set up once, with flags that are emissions flags; every token
    added to the emissions the bank still owes is moved, before the mint's
    transfer fee, from the admin's account into the emissions vault; and the
    books stay balanced. *)
Theorem emissions_are_funded w clock c w' :
  (∃ flags rate total, is_u64 rate ∧ is_u64 total ∧
     lending_pool_setup_emissions w clock c flags rate total = Ok w') ∨
  (∃ flags rate extra, is_u64 (default 0 rate) ∧ is_u64 (default 0 extra) ∧
     lending_pool_update_emissions_parameters w clock c flags rate extra = Ok w') →
  ∃ g k k' n, groups w !! se_marginfi_group c = Some g ∧ se_admin c = MarginfiGroup.admin g ∧
    banks w !! se_bank c = Some k ∧ banks w' !! se_bank c = Some k' ∧
    Bank.emissions_mint k' = se_emissions_mint c ∧
    ((Bank.emissions_mint k = default_pubkey ∧ Bank.emissions_remaining k' = from_num n ∧
      Bank.verify_emissions_flags (Bank.flags k') = true) ∨
     (Bank.emissions_mint k = se_emissions_mint c ∧
      Bank.emissions_remaining k' = Bank.emissions_remaining k + from_num n)) ∧
    (0 < n → ∃ mint pre ts, mints w !! se_emissions_mint c = Some mint ∧
       calculate_pre_fee_spl_deposit_amount mint n (epoch clock) = Ok pre ∧
       spl_transfer (mkTransfer pre (se_emissions_funding_account c) (se_emissions_token_account c)
         (se_admin c) (Some (se_emissions_mint c)) (se_token_program c)) ts = Ok (tokens w')) ∧
    (books_balance w → books_balance w').
Proof.
  intros [(flags & rate & total & Hr & Ht & H)|(flags & rate & extra & Hr & Hx & H)].
  - pose proof (λ Hb, setup_emissions_books _ _ _ _ _ _ _ Hr Ht Hb H) as Hbooks.
    apply setup_emissions_ok in H as (g & k & mint & w1 & Hg & Ha & Hk & Hm & Hd & Hf & (t & _ & Hw1) & _ & H).
    apply fund_emissions_ok in H as (pre & ts & Hpre & Hts & ->). exists g, k. eexists. exists total.
    split; [done|]. split; [done|]. split; [done|]. split; [simpl; apply lookup_insert_eq|].
    split; [done|]. split; [by left|]. split; [intros _; by exists mint, pre, (tokens w1)|done].
  - pose proof (λ Hb, update_emissions_books _ _ _ _ _ _ _ Hr Hx Hb H) as Hbooks.
    apply update_emissions_ok in H as (g & k & mint & k' & Hg & Ha & Hk & Hm & He & Hne & Hk' & H).
    exists g, k, k', (default 0 extra). split; [done|]. split; [done|]. split; [done|]. split.
    { destruct extra; [apply fund_emissions_ok in H as (pre & ts & _ & _ & ->)|subst w'];
        simpl; apply lookup_insert_eq. }
    split; [by rewrite Hk'|]. split; [right; by rewrite Hk'|]. split; [|done].
    destruct extra as [n|]; simpl; [|lia]. intros _.
    apply fund_emissions_ok in H as (pre & ts & Hpre & Hts & ->). by exists mint, pre, (tokens w).
Qed.

(** *** Flags the admin may change *)
Lemma flag_can_be_set_bits flag i :
  flag_can_be_set flag = true → i = 0 ∨ i = 1 → Z.testbit flag i = false.
Proof.
  intros H Hi. apply Z.eqb_eq in H.
  assert (Z.testbit (Z.land flag (u64_not CONFIGURABLE_FLAGS)) i = false) as Hb by (by rewrite H, Z.bits_0).
  rewrite Z.land_spec in Hb. destruct Hi as [-> | ->];
    [change (Z.testbit (u64_not CONFIGURABLE_FLAGS) 0) with true in Hb
    |change (Z.testbit (u64_not CONFIGURABLE_FLAGS) 1) with true in Hb]; by rewrite andb_true_r in Hb.
Qed.

Lemma set_flag_bit m flag i : 0 ≤ i →
  MarginfiAccount.get_flag (MarginfiAccount.set_flag m flag) (2 ^ i)
    = MarginfiAccount.get_flag m (2 ^ i) || Z.testbit flag i.
Proof. intros. rewrite !MarginfiAccount.get_flag_testbit by done. simpl. apply Z.lor_spec. Qed.
Lemma unset_flag_bit m flag i : 0 ≤ i < 64 →
  MarginfiAccount.get_flag (MarginfiAccount.unset_flag m flag) (2 ^ i)
    = MarginfiAccount.get_flag m (2 ^ i) && negb (Z.testbit flag i).
Proof.
  intros. rewrite !MarginfiAccount.get_flag_testbit by lia. simpl. rewrite Z.land_spec. f_equal.
  unfold u64_not. rewrite Z.lxor_spec. change U64_MAX with (Z.ones 64).
  by rewrite Z.ones_spec_low by lia.
Qed.

Lemma account_flag_ok w g a admin flag w' :
  set_account_flag w g a admin flag = Ok w' ∨ unset_account_flag w g a admin flag = Ok w' →
  ∃ gr m m', groups w !! g = Some gr ∧ admin = MarginfiGroup.admin gr ∧ accounts w !! a = Some m ∧
    MarginfiAccount.group m = g ∧ flag_can_be_set flag = true ∧
    (m' = MarginfiAccount.set_flag m flag ∨ m' = MarginfiAccount.unset_flag m flag) ∧
    w' = set_account a m' w.
Proof.
  unfold set_account_flag, unset_account_flag.
  intros [H|H]; apply bind_ok in H as (m & Hm & H); apply load_account_ok in Hm;
    apply bind_ok in H as (? & Hg & H); apply check_ok in Hg; apply bind_ok in H as (gr & Hgr & H);
    apply check_admin_ok in Hgr as [? ?]; apply bind_ok in H as (? & Hf & H); apply check_ok in Hf;
    injection H as <-; bool_prop.
  - exists gr, m, (MarginfiAccount.set_flag m flag). split_and!; auto.
  - exists gr, m, (MarginfiAccount.unset_flag m flag). split_and!; auto.
Qed.

(** The group's admin can set and unset an account's
    configurable flags, and no others: whatever flag word is passed, a call
    that succeeds leaves the account's disabled and flashloan flags, its
    positions and its authority, and every bank, as they were. *)
Theorem admin_flags_limited w g a admin flag w' :
  set_account_flag w g a admin flag = Ok w' ∨ unset_account_flag w g a admin flag = Ok w' →
  ∃ gr m m', groups w !! g = Some gr ∧ admin = MarginfiGroup.admin gr ∧
    accounts w !! a = Some m ∧ MarginfiAccount.group m = g ∧ accounts w' = <[a := m']> (accounts w) ∧
    MarginfiAccount.get_flag m' DISABLED_FLAG = MarginfiAccount.get_flag m DISABLED_FLAG ∧
    MarginfiAccount.get_flag m' IN_FLASHLOAN_FLAG = MarginfiAccount.get_flag m IN_FLASHLOAN_FLAG ∧
    MarginfiAccount.lending_account m' = MarginfiAccount.lending_account m ∧
    MarginfiAccount.authority m' = MarginfiAccount.authority m ∧ banks w' = banks w.
Proof.
  intros (gr & m & m' & Hg & Ha & Hm & Hmg & Hf & Hm' & ->)%account_flag_ok.
  exists gr, m, m'. change DISABLED_FLAG with (2 ^ 0). change IN_FLASHLOAN_FLAG with (2 ^ 1).
  pose proof (flag_can_be_set_bits flag 0 Hf ltac:(by left)) as H0.
  pose proof (flag_can_be_set_bits flag 1 Hf ltac:(by right)) as H1.
  destruct Hm' as [-> | ->]; split_and!; try done.
  - by rewrite set_flag_bit, H0, orb_false_r.
  - by rewrite set_flag_bit, H1, orb_false_r.
  - by rewrite unset_flag_bit, H0, andb_true_r.
  - by rewrite unset_flag_bit, H1, andb_true_r.
Qed.
End GroupBooks.

(** ** Examples *)
#[local] Existing Instance demo_token_sdk.
#[local] Existing Instance demo_oracle_sdk.
#[local] Existing Instance demo_runtime.

(** The world of the examples with a mint, fees to collect in bank 600, an
    account for the program's fees and one of the admin. *)
Definition demo_fee_bank : Bank :=
  Bank.with_collected_insurance_fees_outstanding (fx_literal 25 10)
    (Bank.with_collected_group_fees_outstanding (from_num 80000000) (demo_bank_of 600)).
Definition demo_admin_world : World :=
  let w := demo_world 30 in
  mkWorld (<[600 := demo_fee_bank]> (banks w)) (accounts w) (groups w) (fee_state w)
    (<[509 := mkTokenAccount 500 5 10000000]> (<[508 := mkTokenAccount 500 8 0]> (<[602 := mkTokenAccount 500 605 0]>
       (<[603 := mkTokenAccount 500 606 0]> (tokens w)))))
    (<[500 := mkMint 500 token_id 6 None]> ∅) (<[9 := 100]> ∅).
Lemma demo_admin_world_books : books_balance demo_admin_world.
Proof.
  apply (books_ext (set_bank 600 demo_fee_bank (demo_world 30))); [|done..].
  eapply same_totals_books; [apply demo_world_books; lia|reflexivity| |done..].
  split; vm_compute; discriminate.
Qed.

Definition demo_compact : BankConfig.BankConfigCompact :=
  BankConfig.mkBankConfigCompact (fx_literal 8 10) (fx_literal 9 10) (fx_literal 12 10) (fx_literal 11 10)
    1000000000 (InterestRateConfig.to_compact Bank.demo_ir_config) Operational PythLegacy 900 U64_MAX
    Collateral 50 0.
Definition demo_add : LendingPoolAddBank := {|
  ab_marginfi_group := 1; ab_admin := 5; ab_fee_payer := 9; ab_fee_state := 2000;
  ab_global_fee_wallet := 8; ab_bank_mint := 500; ab_bank := 700;
  ab_liquidity_vault_authority := 704; ab_liquidity_vault := 701;
  ab_insurance_vault_authority := 705; ab_insurance_vault := 702;
  ab_fee_vault_authority := 706; ab_fee_vault := 703; ab_token_program := token_id;
  ab_remaining := [demo_pyth_ai] |}.
Definition demo_added : World :=
  ok_value demo_admin_world (lending_pool_add_bank demo_admin_world demo_clock demo_add demo_compact).

Lemma add_bank_starts_sound_witness :
  books_balance demo_added ∧ ∃ b, banks demo_added = <[700 := b]> (banks demo_admin_world).
Proof.
  destruct (add_bank_starts_sound demo_admin_world demo_clock demo_add demo_compact (Ok tt)
              demo_added)
    as (g & fs & b & _ & _ & _ & Hb & _ & _ & _ & _ & _ & _ & _ & _ & _ & _ & _ & _ & _ & Hbooks).
  - apply ok_value_ok. vm_compute. reflexivity.
  - split; [apply Hbooks, demo_admin_world_books|]. exists b. exact Hb.
Defined.

Definition demo_collect : LendingPoolCollectBankFees := {|
  cf_marginfi_group := 1; cf_bank := 600; cf_liquidity_vault_authority := 604; cf_liquidity_vault := 601;
  cf_insurance_vault := 602; cf_fee_vault := 603; cf_fee_state := 2000; cf_fee_ata := 508;
  cf_token_program := token_id; cf_remaining := [] |}.
Definition demo_collected : World :=
  ok_value demo_admin_world (lending_pool_collect_bank_fees demo_admin_world demo_collect).

(** Two tokens to the insurance fund, all the rest of the vault to the group. *)
Lemma collect_fees_pays_what_is_there_witness :
  ∃ ni ng np, token_amount (tokens demo_collected) 601
                = token_amount (tokens demo_admin_world) 601 - ni - ng - np ∧
    0 ≤ ni ∧ 0 ≤ ng ∧ 0 ≤ np ∧ books_balance demo_collected.
Proof.
  destruct (collect_fees_pays_what_is_there (F := i80f48) demo_admin_world demo_collect demo_collected)
    as (k & k' & fs & ni & ng & np & _ & _ & _ & _ & _ & _ & _ & H1 & H2 & H3 & _ & _ & _ & _ & Ht & Hb).
  - apply demo_admin_world_books.
  - vm_compute. discriminate.
  - discriminate.
  - discriminate.
  - discriminate.
  - apply ok_value_ok. vm_compute. reflexivity.
  - exists ni, ng, np. split; [exact Ht|]. split; [exact H1|]. split; [exact H2|]. split; [exact H3|exact Hb].
Defined.

Definition demo_emissions : LendingPoolSetupEmissions := {|
  se_marginfi_group := 1; se_admin := 5; se_bank := 600; se_emissions_mint := 500;
  se_emissions_auth := 607; se_emissions_token_account := 608;
  se_emissions_funding_account := 509; se_token_program := token_id |}.
Definition demo_funded : World :=
  ok_value demo_admin_world
    (lending_pool_setup_emissions demo_admin_world demo_clock demo_emissions 3 1000 5000000).

Lemma emissions_are_funded_witness :
  ∃ k' n, banks demo_funded !! 600 = Some k' ∧ Bank.emissions_mint k' = 500 ∧
    (0 < n → ∃ mint pre ts, mints demo_admin_world !! 500 = Some mint ∧
       calculate_pre_fee_spl_deposit_amount mint n (epoch demo_clock) = Ok pre ∧
       spl_transfer (mkTransfer pre 509 608 5 (Some 500) token_id) ts = Ok (tokens demo_funded)).
Proof.
  destruct (emissions_are_funded (F := i80f48) demo_admin_world demo_clock demo_emissions demo_funded)
    as (g & k & k' & n & _ & _ & _ & Hk & Hm & _ & Hn & _).
  - left. exists 3, 1000, 5000000. split; [unfold is_u64, U64_MAX; lia|].
    split; [unfold is_u64, U64_MAX; lia|]. apply ok_value_ok. vm_compute. reflexivity.
  - exists k', n. split; [exact Hk|]. split; [exact Hm|exact Hn].
Defined.

Lemma admin_flags_limited_witness :
  let w' := ok_value (demo_world 30) (set_account_flag (demo_world 30) 1 800 5 12) in
  ∃ m m', accounts (demo_world 30) !! 800 = Some m ∧ accounts w' = <[800 := m']> (accounts (demo_world 30)) ∧
    MarginfiAccount.get_flag m' DISABLED_FLAG = MarginfiAccount.get_flag m DISABLED_FLAG.
Proof.
  intros w'. destruct (admin_flags_limited (demo_world 30) 1 800 5 12 w')
    as (gr & m & m' & _ & _ & Hm & _ & Hw & Hd & _).
  - left. apply ok_value_ok. vm_compute. reflexivity.
  - exists m, m'. split; [exact Hm|]. split; [exact Hw|exact Hd].
Defined.
