(* ===== verification/Frames.v ===== *)
(** * What an instruction can touch

    The program's access control is spread over the handlers.  This file says
    once what the instructions that move value leave alone: the identity of the
    banks (their mint, group, vaults, configuration, flags and emission
    settings), the groups and the fee state, the header of every account (its
    group, authority and flags) and every account they are not given.  The
    relation [moves] is reflexive and transitive, every elementary step is an
    instance of it, and so is every handler. *)
From S2P Require Import Prelude Errors Fixed Constants Utils GroupState InterestRate BankState Price Account BankAccount Risk World UserIx LiquidateIx BankruptcyIx GroupIx.

(** The part of a bank that interest, deposits and fees never change: the
    record with the changing fields blanked out. *)
Definition bank_identity (b : Bank) : Bank :=
  Bank.with_asset_share_value 0 (Bank.with_liability_share_value 0
  (Bank.with_collected_insurance_fees_outstanding 0 (Bank.with_collected_group_fees_outstanding 0
  (Bank.with_collected_program_fees_outstanding 0 (Bank.with_total_asset_shares 0
  (Bank.with_total_liability_shares 0 (Bank.with_last_update 0
  (Bank.with_emissions_remaining 0 b)))))))).

(** Group, authority and flags of an account. *)
Definition account_header (m : MarginfiAccount) : MarginfiAccount :=
  MarginfiAccount.with_lending_account [] m.

(** An account holds an active position in a bank. *)
Definition holds (m : MarginfiAccount) (bank : Pubkey) : Prop :=
  ∃ b, b ∈ MarginfiAccount.lending_account m ∧ Balance.active b = true ∧ Balance.bank_pk b = bank.

(** The account and the bank, where they exist, belong to one group. *)
Definition same_group {T : TokenSdk} (w : World) (account bank : Pubkey) : Prop :=
  ∀ m b, accounts w !! account = Some m → banks w !! bank = Some b →
         Bank.group b = MarginfiAccount.group m.

Record moves {T : TokenSdk} (touched : list Pubkey) (w w' : World) : Prop := {
  mv_groups : groups w' = groups w;
  mv_fee_state : fee_state w' = fee_state w;
  mv_mints : mints w' = mints w;
  mv_lamports : lamports w' = lamports w;
  mv_banks k : bank_identity <$> banks w' !! k = bank_identity <$> banks w !! k;
  mv_headers a : account_header <$> accounts w' !! a = account_header <$> accounts w !! a;
  mv_others a : a ∉ touched → accounts w' !! a = accounts w !! a;
  mv_positions a m' k : accounts w' !! a = Some m' → holds m' k →
    (∃ m, accounts w !! a = Some m ∧ holds m k) ∨
    (∃ b, banks w !! k = Some b ∧ Bank.group b = MarginfiAccount.group m')
}.

(** An operation on a wrapped position keeps the bank's identity and the
    position's bank. *)
Definition slot_kept (w0 w1 : BankAccountWrapper.BankAccountWrapper) : Prop :=
  bank_identity (BankAccountWrapper.bank w1) = bank_identity (BankAccountWrapper.bank w0) ∧
  (Balance.active (BankAccountWrapper.balance w1) = true →
   Balance.bank_pk (BankAccountWrapper.balance w1) = Balance.bank_pk (BankAccountWrapper.balance w0)).

Lemma identity_group b b' : bank_identity b' = bank_identity b → Bank.group b' = Bank.group b.
Proof. intros H. exact (f_equal Bank.group H). Qed.
Lemma identity_config b b' : bank_identity b' = bank_identity b → Bank.config b' = Bank.config b.
Proof. intros H. exact (f_equal Bank.config H). Qed.
Lemma header_group m m' :
  account_header m' = account_header m → MarginfiAccount.group m' = MarginfiAccount.group m.
Proof. intros H. exact (f_equal MarginfiAccount.group H). Qed.
Lemma header_flag m m' f :
  account_header m' = account_header m → MarginfiAccount.get_flag m' f = MarginfiAccount.get_flag m f.
Proof.
  intros H. unfold MarginfiAccount.get_flag.
  by rewrite (f_equal MarginfiAccount.account_flags H : MarginfiAccount.account_flags m' = _).
Qed.

Section MovesLemmas.
Context {F : FixedOps} {T : TokenSdk}.

#[global] Instance moves_refl touched : Reflexive (moves (T := T) touched).
Proof. intros w. split; try done. intros a m k Ha Hk. left. eauto. Qed.

Lemma moves_bank touched w w' k b' :
  moves touched w w' → banks w' !! k = Some b' →
  ∃ b, banks w !! k = Some b ∧ bank_identity b' = bank_identity b.
Proof.
  intros H Hb. pose proof (mv_banks _ _ _ H k) as E. rewrite Hb in E.
  destruct (banks w !! k) as [b|]; [|done]. apply (inj Some) in E. eauto.
Qed.
Lemma moves_account touched w w' a m' :
  moves touched w w' → accounts w' !! a = Some m' →
  ∃ m, accounts w !! a = Some m ∧ account_header m' = account_header m.
Proof.
  intros H Ha. pose proof (mv_headers _ _ _ H a) as E. rewrite Ha in E.
  destruct (accounts w !! a) as [m|]; [|done]. apply (inj Some) in E. eauto.
Qed.

#[global] Instance moves_trans touched : Transitive (moves (T := T) touched).
Proof.
  intros w1 w2 w3 H H'. split.
  1-6: intros; etransitivity; [apply H'|apply H].
  - intros a Ha. by rewrite (mv_others _ _ _ H' a Ha), (mv_others _ _ _ H a Ha).
  - intros a m' k Ha Hk. destruct (mv_positions _ _ _ H' a m' k Ha Hk) as [(m & Hm & Hk')|(b & Hb & Hg)].
    + destruct (mv_positions _ _ _ H a m k Hm Hk') as [?|(b & Hb & Hg)]; [by left|].
      right. exists b. split; [done|]. rewrite Hg. symmetry.
      destruct (moves_account _ _ _ _ _ H' Ha) as (m2 & Hm2 & Hh). det_ok. by apply header_group.
    + right. destruct (moves_bank _ _ _ _ _ H Hb) as (b0 & Hb0 & Hi). exists b0.
      split; [done|]. rewrite <- Hg. symmetry. by apply identity_group.
Qed.

Lemma moves_mono l l' w w' : (∀ a, a ∈ l → a ∈ l') → moves l w w' → moves l' w w'.
Proof. intros Hl [? ? ? ? ? ? Ho ?]. split; try done. intros a Ha. apply Ho. auto. Qed.

Lemma moves_same_group touched w w' a k : moves touched w w' → same_group w a k → same_group w' a k.
Proof.
  intros H Hg m' b' Ha Hb.
  destruct (moves_account _ _ _ _ _ H Ha) as (m & Hm & Hh).
  destruct (moves_bank _ _ _ _ _ H Hb) as (b & Hk & Hi).
  rewrite (identity_group _ _ Hi), (header_group _ _ Hh). eauto.
Qed.

(** ** Elementary steps *)
Lemma moves_tokens touched w ts : moves touched w (set_tokens ts w).
Proof. split; try done. intros a m k Ha Hk. left. eauto. Qed.

Lemma moves_set_bank touched w k b b' :
  banks w !! k = Some b → bank_identity b' = bank_identity b → moves touched w (set_bank k b' w).
Proof.
  intros Hb Hi. split; try done; simpl.
  - intros j. destruct (decide (j = k)) as [->|].
    + rewrite lookup_insert_eq, Hb. exact (f_equal Some Hi).
    + by rewrite lookup_insert_ne.
  - intros a m j Ha Hk. left. eauto.
Qed.

Lemma accrue_identity b now g b' :
  Bank.accrue_interest b now g = Ok b' → bank_identity b' = bank_identity b.
Proof.
  unfold Bank.accrue_interest. intros H. inv_res.
  destruct (_ =? 0); inv_res; [done|]. destruct (_ || _); by inv_res.
Qed.

Lemma moves_accrue touched w bank group now w' :
  accrue w bank group now = Ok w' → moves touched w w'.
Proof.
  unfold accrue. intros H. apply bind_ok in H as (k & Hk & H). apply load_bank_ok in Hk.
  apply bind_ok in H as (g & _ & H). apply bind_ok in H as (k' & Ha & H). injection H as <-.
  eapply moves_set_bank; [done|]. by eapply accrue_identity.
Qed.

(** ** Operations on a position *)
Lemma claim_kept w now w' : BankAccountWrapper.claim_emissions w now = Ok w' → slot_kept w w'.
Proof.
  unfold BankAccountWrapper.claim_emissions. intros H. inv_res.
  destruct v as [base|]; inv_res; by split.
Qed.
Lemma change_assets_identity b s bp b' :
  Bank.change_asset_shares b s bp = Ok b' → bank_identity b' = bank_identity b.
Proof. unfold Bank.change_asset_shares. intros H. inv_res. destruct (_ && _); by inv_res. Qed.
Lemma change_liabs_identity b s bp b' :
  Bank.change_liability_shares b s bp = Ok b' → bank_identity b' = bank_identity b.
Proof. unfold Bank.change_liability_shares. intros H. inv_res. destruct (_ && _); by inv_res. Qed.
Lemma change_assets_slot b s b' :
  Balance.change_asset_shares b s = Ok b' →
  Balance.active b' = Balance.active b ∧ Balance.bank_pk b' = Balance.bank_pk b.
Proof. unfold Balance.change_asset_shares. intros H. by inv_res. Qed.
Lemma change_liabs_slot b s b' :
  Balance.change_liability_shares b s = Ok b' →
  Balance.active b' = Balance.active b ∧ Balance.bank_pk b' = Balance.bank_pk b.
Proof. unfold Balance.change_liability_shares. intros H. by inv_res. Qed.
Lemma closed_slot b b' : Balance.close b = Ok b' → Balance.active b' = false.
Proof. unfold Balance.close. intros H. by inv_res. Qed.

(** Rewrites with the effect of every elementary change in sight. *)
Ltac slots :=
  repeat match goal with
  | H : BankAccountWrapper.claim_emissions _ _ = Ok _ |- _ => apply claim_kept in H as [? ?]
  | H : Bank.change_asset_shares _ _ _ = Ok _ |- _ => apply change_assets_identity in H
  | H : Bank.change_liability_shares _ _ _ = Ok _ |- _ => apply change_liabs_identity in H
  | H : Balance.change_asset_shares _ _ = Ok _ |- _ => apply change_assets_slot in H as [? ?]
  | H : Balance.change_liability_shares _ _ = Ok _ |- _ => apply change_liabs_slot in H as [? ?]
  | H : Balance.close _ = Ok _ |- _ => apply closed_slot in H
  end.

Lemma run_kept op w now w' : BankAccountWrapper.run op w now = Ok w' → slot_kept w w'.
Proof.
  destruct op; simpl; intros H;
    [unfold BankAccountWrapper.increase_balance_internal in H
    |unfold BankAccountWrapper.decrease_balance_internal in H
    |unfold BankAccountWrapper.withdraw_all in H |unfold BankAccountWrapper.repay_all in H
    |unfold BankAccountWrapper.close_balance in H | by eapply claim_kept
    |unfold BankAccountWrapper.settle_emissions_and_get_transfer_amount in H].
  all: inv_res; slots; split; simpl in *; try congruence.
  all: match goal with
       | Hs : _ → _ |- _ → _ => intros ?; rewrite <- Hs by congruence; congruence
       | |- bank_identity (Bank.with_collected_insurance_fees_outstanding _ ?k) = _ =>
           transitivity (bank_identity k); [done|congruence]
       end.
Qed.

(** A step of a handler that runs one operation and returns something besides. *)
Definition runs_op {A} (f : BankAccountWrapper.BankAccountWrapper →
    MarginfiResult (A * BankAccountWrapper.BankAccountWrapper)) : Prop :=
  ∀ w x w', f w = Ok (x, w') → ∃ op now, BankAccountWrapper.run op w now = Ok w'.

Lemma find_positions (create : bool) bank bk l now i l' w0 :
  (if create then BankAccountWrapper.find_or_create bank bk l now
   else let? '(i, ba) := BankAccountWrapper.find bank bk l in Ok (i, l, ba)) = Ok (i, l', w0) →
  BankAccountWrapper.bank w0 = bk ∧ Balance.bank_pk (BankAccountWrapper.balance w0) = bank ∧
  ∀ j b, l' !! j = Some b → Balance.active b = true →
    b ∈ l ∨ Balance.bank_pk b = bank.
Proof.
  assert (∀ j b, l !! j = Some b → b ∈ l) as Hin by (intros; by eapply list_elem_of_lookup_2).
  destruct create; intros H.
  - unfold BankAccountWrapper.find_or_create in H.
    destruct (position _ l) as [j|] eqn:Hp; apply bind_ok in H as (b & Hb & H); injection H as <- <- <-.
    + apply ok_or_ok in Hb. apply position_Some in Hp as (x & Hx & Hp & _). det_ok.
      apply BankAccountWrapper.is_position_true in Hp as [_ Hp]. split_and!; eauto.
    + split_and!; try done. intros k c Hk Ha.
      apply list_lookup_insert_Some in Hk as [(_ & <- & _)|[_ Hk]]; eauto.
  - apply bind_ok in H as ([i' w0'] & H & Hr). injection Hr as <- <- <-.
    apply BankAccountWrapper.find_ok in H as (_ & _ & ? & ?). split_and!; eauto.
Qed.

Lemma moves_position {A} create w a k now
    (f : BankAccountWrapper.BankAccountWrapper → MarginfiResult (A * BankAccountWrapper.BankAccountWrapper))
    x w' :
  with_position create w a k now f = Ok (x, w') → runs_op f → same_group w a k →
  moves [a] w w'.
Proof.
  intros H Hf Hg. unfold with_position in H.
  apply bind_ok in H as (m & Hm & H). apply load_account_ok in Hm.
  apply bind_ok in H as (bk & Hk & H). apply load_bank_ok in Hk.
  apply bind_ok in H as ([[i l] w0] & Hfind & H).
  apply bind_ok in H as ([x' w1] & Hr & H). injection H as <- <-.
  apply find_positions in Hfind as (Hbk & Hpk & Hl).
  destruct (Hf _ _ _ Hr) as (op & now' & Hrun). apply run_kept in Hrun as [Hi Hs].
  transitivity (set_bank k (BankAccountWrapper.bank w1) w).
  { eapply moves_set_bank; [done|]. by rewrite Hi, Hbk. }
  split; try done; simpl.
  - intros b. destruct (decide (b = a)) as [->|]; [|by rewrite lookup_insert_ne].
    by rewrite lookup_insert_eq, Hm.
  - intros b Hb. apply lookup_insert_ne. set_solver.
  - intros b m' j Hb (c & Hc & Ha & Hj).
    apply lookup_insert_Some in Hb as [[<- <-]|[_ Hb]]; [|left; exists m'; split; [done|by exists c]].
    simpl in *. unfold BankAccountWrapper.write_back in Hc.
    apply list_elem_of_lookup_1 in Hc as (n & Hn).
    apply list_lookup_insert_Some in Hn as [(_ & <- & _)|[_ Hn]].
    + right. exists (BankAccountWrapper.bank w1). rewrite <- Hj, (Hs Ha), Hpk, lookup_insert_eq.
      split; [done|]. rewrite (identity_group _ _ Hi), Hbk. eauto.
    + destruct (Hl _ _ Hn Ha) as [?|Heq]; [left; exists m; split; [done|by exists c]|].
      right. exists (BankAccountWrapper.bank w1). rewrite <- Hj, Heq, lookup_insert_eq.
      split; [done|]. rewrite (identity_group _ _ Hi), Hbk. eauto.
Qed.

(** ** The steps of the handlers *)
Lemma runs_run op now : runs_op (λ ba, no_value (BankAccountWrapper.run op ba now)).
Proof.
  intros w x w' H. unfold no_value in H. apply bind_ok in H as (w1 & H & Hr).
  injection Hr as <- <-. eauto.
Qed.
Lemma runs_deposit amount now :
  runs_op (λ ba, no_value (BankAccountWrapper.deposit ba amount now)).
Proof. apply (runs_run (BankAccountWrapper.Increase amount IncAny)). Qed.
Lemma runs_repay_amount amount now :
  runs_op (λ ba, no_value (BankAccountWrapper.repay ba amount now)).
Proof. apply (runs_run (BankAccountWrapper.Increase amount RepayOnly)). Qed.
Lemma runs_close now : runs_op (λ ba, no_value (BankAccountWrapper.close_balance ba now)).
Proof. apply (runs_run BankAccountWrapper.CloseBalance). Qed.
Lemma runs_settle now :
  runs_op (λ ba, BankAccountWrapper.settle_emissions_and_get_transfer_amount ba now).
Proof.
  intros w x w' H. exists BankAccountWrapper.SettleEmissions, now. simpl. by rewrite H.
Qed.
Lemma runs_repay all amount clock : runs_op (repay_step all amount clock).
Proof.
  intros w x w' H. unfold repay_step in H. destruct all.
  - exists BankAccountWrapper.RepayAll, (unix_timestamp clock). simpl. by rewrite H.
  - apply bind_ok in H as (w1 & H & Hr). injection Hr as <- <-.
    by exists (BankAccountWrapper.Increase (from_num amount) RepayOnly), (unix_timestamp clock).
Qed.
Lemma runs_withdraw all mint amount clock : runs_op (withdraw_step all mint amount clock).
Proof.
  intros w x w' H. unfold withdraw_step in H. destruct all.
  - exists BankAccountWrapper.WithdrawAll, (unix_timestamp clock). simpl. by rewrite H.
  - apply bind_ok in H as (p & Hp & H). apply bind_ok in H as (w1 & H & Hr). injection Hr as <- <-.
    by exists (BankAccountWrapper.Decrease (from_num p) WithdrawOnly), (unix_timestamp clock).
Qed.
Lemma runs_borrow mint amount clock : runs_op (borrow_step mint amount clock).
Proof.
  intros w x w' H. unfold borrow_step in H. apply bind_ok in H as (p & Hp & H).
  apply bind_ok in H as ([fee n] & Hf & H). apply bind_ok in H as (b & Hb & H).
  apply bind_ok in H as (w1 & H & Hr). injection Hr as <- <-.
  by exists (BankAccountWrapper.Decrease b DecAny), (unix_timestamp clock).
Qed.
Lemma runs_with_amounts g op now (f : BankAccountWrapper.BankAccountWrapper → _) :
  (∀ w w', f w = Ok w' → BankAccountWrapper.run op w now = Ok w') → runs_op (with_amounts g f).
Proof. intros Hf w x w' H%with_amounts_ok%Hf. eauto. Qed.
End MovesLemmas.

Section HandlerMoves.
Context {F : FixedOps} {L : FixedLaws F} {T : TokenSdk} {O : OracleSdk} {R : Runtime}.

Lemma entitled_same_group w g a s k m b : entitled w g a s k m b → same_group w a k.
Proof. intros [? ? ? ? _ _] m' b' ? ?. det_ok. congruence. Qed.

(** An accrual, then a step on the position, then transfers. *)
Lemma moves_accrued_position {A} create w w1 w2 a k g now
    (f : BankAccountWrapper.BankAccountWrapper → MarginfiResult (A * BankAccountWrapper.BankAccountWrapper)) x :
  same_group w a k → accrue w k g now = Ok w1 → runs_op f →
  with_position create w1 a k now f = Ok (x, w2) → moves [a] w w2.
Proof.
  intros Hg Ha Hf H. eapply moves_accrue in Ha. transitivity w1; [exact Ha|].
  eapply moves_position; [done..|]. by eapply moves_same_group.
Qed.

Lemma deposit_moves w clock c amount w' :
  lending_account_deposit w clock c amount = Ok w' → moves [d_marginfi_account c] w w'.
Proof.
  intros (m & k & mint & w1 & w2 & pre & He & Ha & Hp & _ & Ht)%deposit_ok.
  apply transfer_in_ok in Ht as (? & ts & _ & _ & _ & ->).
  transitivity w2; [|apply moves_tokens].
  eapply moves_accrued_position; [by eapply entitled_same_group|done|apply runs_deposit|done].
Qed.
Lemma repay_moves w clock c amount all w' :
  lending_account_repay w clock c amount all = Ok w' → moves [d_marginfi_account c] w w'.
Proof.
  intros (m & k & mint & w1 & w2 & post & pre & He & Ha & Hp & _ & Ht)%repay_ok.
  apply transfer_in_ok in Ht as (? & ts & _ & _ & _ & ->).
  transitivity w2; [|apply moves_tokens].
  eapply moves_accrued_position; [by eapply entitled_same_group|done|apply runs_repay|done].
Qed.
Lemma withdraw_moves w clock c amount all w' :
  lending_account_withdraw w clock c amount all = Ok w' → moves [wd_marginfi_account c] w w'.
Proof.
  intros (m & k & mint & rest & w1 & w2 & n & m' & He & Ha & Hp & Ht & _)%withdraw_ok.
  apply transfer_out_ok in Ht as (ts & _ & ->).
  transitivity w2; [|apply moves_tokens].
  eapply moves_accrued_position; [by eapply entitled_same_group|done|apply runs_withdraw|done].
Qed.
Lemma borrow_moves w clock c amount w' :
  lending_account_borrow w clock c amount = Ok w' → moves [wd_marginfi_account c] w w'.
Proof.
  intros (m & k & mint & rest & g & w1 & w2 & w3 & n & fee & fu & k3 & k4 & m' & He & _ & Ha & Hp & Ht &
          Hk3 & Hf & -> & _)%borrow_ok.
  apply transfer_out_ok in Ht as (ts & _ & ->). apply collect_origination_fee_frame in Hf as (? & ? & ->).
  transitivity (set_tokens ts w2); [|by eapply moves_set_bank].
  transitivity w2; [|apply moves_tokens].
  eapply moves_accrued_position; [by eapply entitled_same_group|done|apply runs_borrow|done].
Qed.
Lemma close_balance_moves w clock c w' :
  lending_account_close_balance w clock c = Ok w' → moves [cb_marginfi_account c] w w'.
Proof.
  intros (m & k & w1 & He & Ha & Hp)%close_balance_ok.
  eapply moves_accrued_position; [by eapply entitled_same_group|done|apply runs_close|done].
Qed.
Lemma withdraw_emissions_moves w clock c w' :
  lending_account_withdraw_emissions w clock c = Ok w' → moves [we_marginfi_account c] w w'.
Proof.
  intros (m & k & n & w1 & He & Hp & _ & ts & -> & _)%withdraw_emissions_ok.
  transitivity w1; [|apply moves_tokens].
  eapply moves_position; [done|apply runs_settle|by eapply entitled_same_group].
Qed.

Lemma settle_emissions_ok w clock a k w' :
  lending_account_settle_emissions w clock a k = Ok w' →
  same_group w a k ∧
  ∃ n, is_u64 n ∧ with_position false w a k (unix_timestamp clock)
      (λ ba, no_value (BankAccountWrapper.claim_emissions ba n)) = Ok (tt, w').
Proof.
  unfold lending_account_settle_emissions. intros H.
  apply bind_ok in H as (m & Hm & H). apply bind_ok in H as (b & Hb & H).
  apply bind_ok in H as (u & Hg & H). apply bind_ok in H as ([x w1] & H & Hr). injection Hr as ->.
  constraints. apply check_ok in Hg. bool_prop. split; [intros m' b' ? ?; det_ok; congruence|].
  unfold with_position in *. apply bind_ok in H as (m1 & Hm1 & H). apply bind_ok in H as (b1 & Hb1 & H).
  apply bind_ok in H as ([[i l] w0] & Hfind & H). apply bind_ok in H as ([[] w2] & H & Hr).
  apply bind_ok in H as (n & Hn & H). apply unwrap_ok, u64_checked_some in Hn as [-> Hn].
  exists (unix_timestamp clock). split; [done|]. rewrite Hm1. simpl. rewrite Hb1. simpl.
  rewrite Hfind. simpl. rewrite H. simpl. injection Hr as <- <-. done.
Qed.
Lemma runs_claim n : is_u64 n → runs_op (λ ba, no_value (BankAccountWrapper.claim_emissions ba n)).
Proof. intros Hn. rewrite <- (is_u64_as_i64 n Hn). apply (runs_run BankAccountWrapper.ClaimEmissions). Qed.
Lemma settle_emissions_moves w clock a k w' :
  lending_account_settle_emissions w clock a k = Ok w' → moves [a] w w'.
Proof.
  intros [Hg (n & Hn & H)]%settle_emissions_ok.
  eapply moves_position; [done|by apply runs_claim|done].
Qed.

(** ** Liquidation and bankruptcy *)
Lemma liquidate_same_group w clock c q w' :
  lending_account_liquidate w clock c q = Ok w' →
  ∀ a k, a ∈ [lq_liquidator_marginfi_account c; lq_liquidatee_marginfi_account c] →
         k ∈ [lq_asset_bank c; lq_liab_bank c] → same_group w a k.
Proof.
  unfold lending_account_liquidate. intros ([[m1 m2] kl] & H & _)%bind_ok.
  apply liquidate_constraints_ok in H as (? & ? & ? & ? & ? & ? & _ & ka & ? & ?).
  intros a k Ha Hk m b Hm Hb.
  rewrite !elem_of_cons, elem_of_nil in Ha, Hk.
  destruct Ha as [->|[->|[]]], Hk as [->|[->|[]]]; det_ok; congruence.
Qed.

Lemma exchange_collateral_moves w now c q ll w' :
  (∀ a k, a ∈ [lq_liquidator_marginfi_account c; lq_liquidatee_marginfi_account c] →
          k ∈ [lq_asset_bank c; lq_liab_bank c] → same_group w a k) →
  exchange_collateral w now c q ll = Ok w' →
  moves [lq_liquidator_marginfi_account c; lq_liquidatee_marginfi_account c] w w'.
Proof.
  intros Hg H. unfold exchange_collateral in H.
  apply bind_ok in H as ([x1 w1] & H1 & H). apply bind_ok in H as ([x2 w2] & H2 & H).
  apply bind_ok in H as ([x3 w3] & H3 & H). injection H as <-.
  assert (moves [lq_liquidator_marginfi_account c; lq_liquidatee_marginfi_account c] w w1) as M1.
  { eapply moves_mono; [|eapply moves_position; [exact H1| |apply Hg; set_solver]]; [set_solver|].
    by eapply (runs_with_amounts _ (BankAccountWrapper.Decrease ll BypassBorrowLimit)). }
  assert (moves [lq_liquidator_marginfi_account c; lq_liquidatee_marginfi_account c] w w2) as M2.
  { transitivity w1; [done|]. eapply moves_mono;
      [|eapply moves_position; [exact H2| |eapply moves_same_group, Hg; [exact M1|set_solver..]]];
      [set_solver|].
    eapply (runs_with_amounts _ (BankAccountWrapper.Decrease q WithdrawOnly)).
    intros ? ? Hw. apply map_err_ok in Hw. exact Hw. }
  transitivity w2; [done|]. eapply moves_mono;
    [|eapply moves_position; [exact H3| |eapply moves_same_group, Hg; [exact M2|set_solver..]]];
    [set_solver|].
  by eapply (runs_with_amounts _ (BankAccountWrapper.Increase q BypassDepositLimit)).
Qed.

Lemma liquidate_moves w clock c q w' :
  lending_account_liquidate w clock c q = Ok w' →
  moves [lq_liquidator_marginfi_account c; lq_liquidatee_marginfi_account c] w w'.
Proof.
  intros H. pose proof (liquidate_same_group _ _ _ _ _ H) as Hg.
  apply liquidate_ok in H as (w1 & mr & me & ka & kl & pa & pl & ll & lf & e0 & e1 & pre & post & H).
  destruct (liq_accrued _ _ _ _ _ _ _ _ _ _ _ _ _ _ _ _ _ _ H) as (w0 & A0 & A1).
  destruct (liq_moves _ _ _ _ _ _ _ _ _ _ _ _ _ _ _ _ _ _ H) as (w2 & w3 & mint & n & X & _ & _ & Rp & Fe).
  set (l := [lq_liquidator_marginfi_account c; lq_liquidatee_marginfi_account c]) in *.
  assert (moves l w w1) as M1 by (transitivity w0; by eapply moves_accrue).
  assert (moves l w w2) as M2.
  { transitivity w1; [done|]. eapply exchange_collateral_moves; [|exact X].
    intros a k Ha Hk. eapply moves_same_group, Hg; done. }
  transitivity w3.
  - transitivity w2; [done|]. unfold repay_liquidatee in Rp. apply bind_ok in Rp as ([x w4] & Rp & E).
    injection E as ->. eapply moves_mono;
      [|eapply moves_position; [exact Rp| |eapply moves_same_group, Hg; [exact M2|set_solver..]]];
      [set_solver|].
    by eapply (runs_with_amounts _ (BankAccountWrapper.Increase lf IncAny)).
  - apply collect_insurance_fee_ok in Fe as (k & ts & Hk & _ & ->).
    transitivity (set_bank (lq_liab_bank c) (Bank.with_collected_insurance_fees_outstanding
              (Bank.collected_insurance_fees_outstanding k + (ll - lf) mod SCALE) k) w3);
      [by eapply moves_set_bank|apply moves_tokens].
Qed.

Lemma bankruptcy_moves w clock c w' :
  lending_pool_handle_bankruptcy w clock c = Ok w' →
  ∃ w3 m', moves [hb_marginfi_account c] w w3 ∧ accounts w3 !! hb_marginfi_account c = Some m' ∧
    w' = set_account (hb_marginfi_account c) (MarginfiAccount.set_flag m' DISABLED_FLAG) w3.
Proof.
  intros (w1 & w3 & g & m & m' & k0 & k1 & k2 & bad & cov & lost & mint & n & pre & ts & H)%handle_bankruptcy_ok.
  exists w3, m'. destruct H as [_ Hk0 Hm [Hg1 Hg2] _ _ Hacc Hk1 _ _ _ _ _ _ Hs Hrep Hm' ->].
  split; [|done].
  assert (same_group w (hb_marginfi_account c) (hb_bank c)) as Hg by (intros ? ? ? ?; det_ok; congruence).
  eapply moves_accrue in Hacc.
  assert (moves [hb_marginfi_account c] w (set_tokens ts (set_bank (hb_bank c) k2 w1))) as M.
  { transitivity w1; [exact Hacc|]. transitivity (set_bank (hb_bank c) k2 w1); [|apply moves_tokens].
    eapply moves_set_bank; [done|]. unfold Bank.socialize_loss in Hs. by inv_res. }
  transitivity (set_tokens ts (set_bank (hb_bank c) k2 w1)); [done|].
  eapply moves_position; [exact Hrep|apply runs_repay_amount|by eapply moves_same_group].
Qed.

(** ** Instructions of the group that move value *)
Lemma accrue_ix_moves w clock g k w' :
  lending_pool_accrue_bank_interest w clock g k = Ok w' → moves [] w w'.
Proof.
  unfold lending_pool_accrue_bank_interest. intros H.
  apply bind_ok in H as (u & _ & H). apply bind_ok in H as (b & _ & H). by eapply moves_accrue.
Qed.
Lemma collect_bank_fees_moves w c w' : lending_pool_collect_bank_fees w c = Ok w' → moves [] w w'.
Proof.
  intros (k & k' & v & fs & pi & pg & pp & t1 & t2 & t3 & mint & H)%collect_bank_fees_ok.
  destruct H as [Hk _ _ _ _ _ _ _ _ _ Hf ->].
  transitivity (set_bank (cf_bank c) k' w); [|apply moves_tokens].
  eapply moves_set_bank; [done|]. by rewrite Hf.
Qed.
Lemma withdraw_from_vault_ok s1 s2 b1 b2 w c n w' :
  withdraw_from_vault s1 s2 b1 b2 w c n = Ok w' →
  (∃ ts, w' = set_tokens ts w) ∧
  ∃ g, groups w !! wf_marginfi_group c = Some g ∧ wf_admin c = MarginfiGroup.admin g.
Proof.
  unfold withdraw_from_vault. intros H.
  apply bind_ok in H as (u0 & _ & H). apply bind_ok in H as (k & _ & H).
  apply bind_ok in H as (g & Hg & H). apply check_admin_ok in Hg as [? ?].
  apply bind_ok in H as (u1 & _ & H). apply bind_ok in H as (u2 & _ & H).
  apply bind_ok in H as (u3 & _ & H). apply bind_ok in H as ([mm rest] & _ & H).
  apply bind_ok in H as (ts & _ & H). injection H as <-. split; eauto.
Qed.

(** ** Instructions on one account's header *)
Lemma initialize_account_ok w g a auth w' :
  initialize_account w g a auth = Ok w' →
  is_Some (groups w !! g) ∧ accounts w !! a = None ∧
  w' = set_account a (MarginfiAccount.initialize MarginfiAccount.zeroed g auth) w.
Proof.
  unfold initialize_account. intros H. apply bind_ok in H as (gr & Hg & H). constraints.
  apply bind_ok in H as (u & Hc & H). injection H as <-. apply check_ok in Hc. bool_prop.
  apply bool_decide_eq_false in Hc. rewrite <- eq_None_not_Some in Hc. eauto.
Qed.
Lemma all_sides_none_ok l :
  MarginfiAccount.all_sides_none l = Ok true →
  ∀ b, b ∈ l → Balance.asset_shares b < EMPTY_BALANCE_THRESHOLD ∧
               Balance.liability_shares b < EMPTY_BALANCE_THRESHOLD.
Proof.
  induction l as [|b l IH]; simpl; intros H; [by intros b []%not_elem_of_nil|].
  apply bind_ok in H as (s & Hs & H). apply Balance.get_side_ok in Hs.
  destruct s as [s|]; [done|]. intros c [->|Hc]%elem_of_cons; [|by apply IH].
  by destruct Hs as [? ?].
Qed.
Lemma close_account_ok w a auth w' :
  close_account w a auth = Ok w' →
  ∃ m, accounts w !! a = Some m ∧ auth = MarginfiAccount.authority m ∧
    MarginfiAccount.get_flag m DISABLED_FLAG = false ∧
    (∀ b, b ∈ MarginfiAccount.lending_account m →
       Balance.asset_shares b < EMPTY_BALANCE_THRESHOLD ∧
       Balance.liability_shares b < EMPTY_BALANCE_THRESHOLD) ∧
    w' = close_account_at a w.
Proof.
  unfold close_account. intros H. apply bind_ok in H as (m & Hm & H).
  apply bind_ok in H as (u & Ha & H). apply bind_ok in H as (can & Hc & H).
  apply bind_ok in H as (u1 & Hcan & H). injection H as <-. constraints. apply check_ok in Hcan as ->.
  unfold MarginfiAccount.can_be_closed in Hc. apply bind_ok in Hc as (e & He & Hc).
  injection Hc as Hc. bool_prop. subst e. pose proof (all_sides_none_ok _ He). eauto 10.
Qed.
Lemma set_account_transfer_authority_ok w a g signer new w' :
  set_account_transfer_authority w a g signer new = Ok w' →
  ∃ m, accounts w !! a = Some m ∧ MarginfiAccount.group m = g ∧ signer = MarginfiAccount.authority m ∧
    MarginfiAccount.get_flag m TRANSFER_AUTHORITY_ALLOWED_FLAG = true ∧
    MarginfiAccount.get_flag m DISABLED_FLAG = false ∧
    w' = set_account a (MarginfiAccount.unset_flag (MarginfiAccount.with_authority new m)
                          TRANSFER_AUTHORITY_ALLOWED_FLAG) w.
Proof.
  unfold set_account_transfer_authority. intros H. apply bind_ok in H as (m & Hm & H).
  apply bind_ok in H as (u & Hg & H). apply bind_ok in H as (u1 & Ha & H).
  apply bind_ok in H as (m' & Hs & H). injection H as <-. constraints. apply check_ok in Hg. bool_prop.
  unfold MarginfiAccount.set_new_account_authority_checked in Hs.
  destruct (_ || _) eqn:E; [done|]. injection Hs as <-. bool_prop. eauto 10.
Qed.
Lemma start_flashloan_ok w tx a signer idx w' :
  lending_account_start_flashloan w tx a signer idx = Ok w' →
  ∃ m end_ix, accounts w !! a = Some m ∧ signer = MarginfiAccount.authority m ∧
    MarginfiAccount.get_flag m DISABLED_FLAG = false ∧
    MarginfiAccount.get_flag m IN_FLASHLOAN_FLAG = false ∧
    tx_top_level tx = true ∧ tx_current tx < idx ∧
    tx_instructions tx !! Z.to_nat idx = Some end_ix ∧ 0 ≤ idx ∧
    take 8 (ix_data end_ix) = end_flashloan_discriminator ∧ ix_program_id end_ix = program_id ∧
    ix_accounts end_ix !! 0%nat = Some a ∧
    w' = set_account a (MarginfiAccount.set_flag m IN_FLASHLOAN_FLAG) w.
Proof.
  unfold lending_account_start_flashloan. intros H. apply bind_ok in H as (m & Hm & H).
  apply bind_ok in H as (u & Ha & H). apply bind_ok in H as (u1 & Hc & H). injection H as <-.
  constraints. unfold check_flashloan_can_start in Hc. inv_res. constraints. bool_prop.
  unfold instruction_at in *. destruct (tx_current tx <? 0); [done|].
  destruct (idx <? 0) eqn:Hidx; [done|]. bool_prop. inv_res.
  repeat match goal with H : bool_decide _ = true |- _ => apply bool_decide_eq_true in H end.
  unfold END_FL_IX_MARGINFI_ACCOUNT_AI_IDX in *. subst. eauto 20.
Qed.

(** ** Instructions on groups, banks' settings and the fee state *)
Lemma initialize_group_ok w g admin fsk w' :
  initialize_group w g admin fsk = Ok w' →
  groups w !! g = None ∧ ∃ gr, w' = set_group g gr w ∧ MarginfiGroup.admin gr = admin.
Proof.
  unfold initialize_group. intros H. apply bind_ok in H as (u & Hn & H). apply check_new_ok in Hn.
  apply bind_ok in H as (fs & _ & H). injection H as <-. eauto.
Qed.
Lemma configure_ok w g admin config w' :
  configure w g admin config = Ok w' →
  ∃ gr a, groups w !! g = Some gr ∧ admin = MarginfiGroup.admin gr ∧
    w' = set_group g (MarginfiGroup.with_admin a gr) w.
Proof.
  unfold configure. intros H. apply bind_ok in H as (gr & Hg & H). apply check_admin_ok in Hg as [? ?].
  apply bind_ok in H as (gr' & Hc & H). injection H as <-. injection Hc as <-.
  destruct (MarginfiGroup.gc_admin config) as [a|].
  - by exists gr, a.
  - exists gr, (MarginfiGroup.admin gr). split_and!; [done..|by destruct gr].
Qed.
Lemma propagate_fee_ok w fsk g w' :
  propagate_fee w fsk g = Ok w' →
  ∃ gr fs, groups w !! g = Some gr ∧ fee_state w = Some fs ∧
    w' = set_group g (MarginfiGroup.with_cache (cache_of_fee_state fs) gr) w.
Proof.
  unfold propagate_fee. intros H. apply bind_ok in H as (fs & Hfs & H). apply check_fee_state_ok in Hfs.
  apply bind_ok in H as (gr & Hg & H). injection H as <-. constraints. eauto.
Qed.
Lemma config_group_fee_ok w g admin fsk flag w' :
  config_group_fee w g admin fsk flag = Ok w' →
  ∃ gr fs, groups w !! g = Some gr ∧ fee_state w = Some fs ∧ global_fee_admin fs = admin ∧
    w' = set_group g (MarginfiGroup.with_flags flag gr) w.
Proof.
  unfold config_group_fee. intros H. apply bind_ok in H as (gr & Hg & H). constraints.
  apply bind_ok in H as (fs & Hfs & H). apply check_fee_state_ok in Hfs.
  apply bind_ok in H as (u & Hc & H). apply check_ok in Hc. bool_prop.
  apply bind_ok in H as (gr' & Hs & H). injection H as <-.
  unfold MarginfiGroup.set_flags in Hs. apply bind_ok in Hs as (u1 & _ & Hs). injection Hs as <-. eauto 10.
Qed.
Lemma initialize_fee_state_ok w payer fsk admin wallet flat fixed rate w' :
  initialize_fee_state w payer fsk admin wallet flat fixed rate = Ok w' →
  payer = FEE_STATE_PAYER ∧ fee_state w = None ∧ ∃ fs, w' = set_fee_state fs w.
Proof.
  unfold initialize_fee_state. intros H. apply bind_ok in H as (u & _ & H).
  apply bind_ok in H as (u1 & Hn & H). apply bind_ok in H as (u2 & Hp & H). injection H as <-.
  apply check_ok in Hn. apply rust_assert_ok in Hp. bool_prop. apply bool_decide_eq_false in Hn.
  rewrite <- eq_None_not_Some in Hn. eauto.
Qed.
Lemma edit_fee_state_ok w admin fsk wallet flat fixed rate w' :
  edit_fee_state w admin fsk wallet flat fixed rate = Ok w' →
  ∃ fs fs', fee_state w = Some fs ∧ global_fee_admin fs = admin ∧ global_fee_admin fs' = admin ∧
    w' = set_fee_state fs' w.
Proof.
  unfold edit_fee_state. intros H. apply bind_ok in H as (fs & Hfs & H). apply check_fee_state_ok in Hfs.
  apply bind_ok in H as (u & Hc & H). injection H as <-. apply check_ok in Hc. bool_prop.
  eexists fs, _. split_and!; [done|done| |reflexivity]. done.
Qed.
Lemma configure_bank_ix_ok w g admin k o rest w' :
  lending_pool_configure_bank w g admin k o rest = Ok w' →
  ∃ gr b b', groups w !! g = Some gr ∧ admin = MarginfiGroup.admin gr ∧ banks w !! k = Some b ∧
    Bank.group b = g ∧ BankConfig.valid (Bank.config b') ∧
    (∃ f cfg, b' = Bank.with_flags f (Bank.with_config cfg b)) ∧ w' = set_bank k b' w.
Proof.
  unfold lending_pool_configure_bank. intros H. apply bind_ok in H as (gr & Hg & H).
  apply check_admin_ok in Hg as [? ?]. apply bind_ok in H as (b & Hb & H). constraints.
  apply bind_ok in H as (b' & Hc & H). apply configure_bank_ok in Hc as (Hv & f & Hb').
  apply bind_ok in H as (u & _ & H). injection H as <-.
  exists gr, b, b'. split_and!; eauto.
Qed.
End HandlerMoves.
