(* ===== verification/System.v ===== *)
(** * The program

    [programs/marginfi/src/lib.rs]: the instructions of the program and their
    dispatch, the worlds it can reach, and transactions.  The theorems are about
    the program as a whole: the invariant every instruction preserves, who may
    change what, and that a flashloan ends inside its transaction. *)
From S2P Require Import Prelude Errors Fixed Constants Utils GroupState InterestRate BankState Price Account BankAccount Risk World UserIx LiquidateIx BankruptcyIx GroupIx Frames.

(** The instructions, with their accounts and arguments. *)
Inductive MarginfiIx : Set :=
| IxGroupInitialize (marginfi_group admin fee_state : Pubkey)
| IxGroupConfigure (marginfi_group admin : Pubkey) (config : MarginfiGroup.GroupConfig)
| IxAddBank (c : LendingPoolAddBank) (config : BankConfig.BankConfigCompact)
| IxAddBankWithSeed (c : LendingPoolAddBank) (config : BankConfig.BankConfigCompact) (bank_seed : Z)
| IxConfigureBank (marginfi_group admin bank : Pubkey) (config : BankConfig.BankConfigOpt)
    (remaining : list AccountInfo)
| IxSetupEmissions (c : LendingPoolSetupEmissions) (flags rate total_emissions : Z)
| IxUpdateEmissions (c : LendingPoolSetupEmissions) (flags rate additional : option Z)
| IxHandleBankruptcy (c : LendingPoolHandleBankruptcy)
| IxAccountInitialize (marginfi_group marginfi_account authority : Pubkey)
| IxDeposit (c : LendingAccountDeposit) (amount : Z)
| IxRepay (c : LendingAccountDeposit) (amount : Z) (repay_all : option bool)
| IxWithdraw (c : LendingAccountWithdraw) (amount : Z) (withdraw_all : option bool)
| IxBorrow (c : LendingAccountWithdraw) (amount : Z)
| IxCloseBalance (c : LendingAccountCloseBalance)
| IxWithdrawEmissions (c : LendingAccountWithdrawEmissions)
| IxSettleEmissions (marginfi_account bank : Pubkey)
| IxLiquidate (c : LendingAccountLiquidate) (asset_amount : Z)
| IxStartFlashloan (marginfi_account signer : Pubkey) (end_index : Z)
| IxEndFlashloan (marginfi_account signer : Pubkey) (remaining : list AccountInfo)
| IxAccrueInterest (marginfi_group bank : Pubkey)
| IxCollectFees (c : LendingPoolCollectBankFees)
| IxWithdrawFees (c : LendingPoolWithdrawFees) (amount : Z)
| IxWithdrawInsurance (c : LendingPoolWithdrawFees) (amount : Z)
| IxSetAccountFlag (marginfi_group marginfi_account admin : Pubkey) (flag : Z)
| IxUnsetAccountFlag (marginfi_group marginfi_account admin : Pubkey) (flag : Z)
| IxSetAuthority (marginfi_account marginfi_group signer new_authority : Pubkey)
| IxAccountClose (marginfi_account authority : Pubkey)
| IxInitFeeState (payer fee_state admin fee_wallet : Pubkey) (flat_fee : Z) (fixed rate : I80F48)
| IxEditFeeState (global_fee_admin fee_state fee_wallet : Pubkey) (flat_fee : Z) (fixed rate : I80F48)
| IxPropagateFee (fee_state marginfi_group : Pubkey)
| IxConfigGroupFee (marginfi_group global_fee_admin fee_state : Pubkey) (flag : Z).

Section Program.
Context {F : FixedOps} {T : TokenSdk} {O : OracleSdk} {R : Runtime}.

(** [#[program] pub mod marginfi]: the handler of each instruction. *)
Definition marginfi (w : World) (clock : Clock) (tx : TxContext) (ix : MarginfiIx) : MarginfiResult World :=
  match ix with
  | IxGroupInitialize g admin fs => initialize_group w g admin fs
  | IxGroupConfigure g admin config => configure w g admin config
  | IxAddBank c config => lending_pool_add_bank w clock c config
  | IxAddBankWithSeed c config seed => lending_pool_add_bank_with_seed w clock c config seed
  | IxConfigureBank g admin bank config rest => lending_pool_configure_bank w g admin bank config rest
  | IxSetupEmissions c flags rate total => lending_pool_setup_emissions w clock c flags rate total
  | IxUpdateEmissions c flags rate extra =>
      lending_pool_update_emissions_parameters w clock c flags rate extra
  | IxHandleBankruptcy c => lending_pool_handle_bankruptcy w clock c
  | IxAccountInitialize g a auth => initialize_account w g a auth
  | IxDeposit c amount => lending_account_deposit w clock c amount
  | IxRepay c amount all => lending_account_repay w clock c amount all
  | IxWithdraw c amount all => lending_account_withdraw w clock c amount all
  | IxBorrow c amount => lending_account_borrow w clock c amount
  | IxCloseBalance c => lending_account_close_balance w clock c
  | IxWithdrawEmissions c => lending_account_withdraw_emissions w clock c
  | IxSettleEmissions a bank => lending_account_settle_emissions w clock a bank
  | IxLiquidate c amount => lending_account_liquidate w clock c amount
  | IxStartFlashloan a signer end_index => lending_account_start_flashloan w tx a signer end_index
  | IxEndFlashloan a signer rest => lending_account_end_flashloan w clock tx a signer rest
  | IxAccrueInterest g bank => lending_pool_accrue_bank_interest w clock g bank
  | IxCollectFees c => lending_pool_collect_bank_fees w c
  | IxWithdrawFees c amount => lending_pool_withdraw_fees w c amount
  | IxWithdrawInsurance c amount => lending_pool_withdraw_insurance w c amount
  | IxSetAccountFlag g a admin flag => set_account_flag w g a admin flag
  | IxUnsetAccountFlag g a admin flag => unset_account_flag w g a admin flag
  | IxSetAuthority a g signer new => set_account_transfer_authority w a g signer new
  | IxAccountClose a auth => close_account w a auth
  | IxInitFeeState payer fs admin wallet flat fixed rate =>
      initialize_fee_state w payer fs admin wallet flat fixed rate
  | IxEditFeeState admin fs wallet flat fixed rate => edit_fee_state w admin fs wallet flat fixed rate
  | IxPropagateFee fs g => propagate_fee w fs g
  | IxConfigGroupFee g admin fs flag => config_group_fee w g admin fs flag
  end.

(** The amounts of an instruction are [u64]. *)
Definition ix_amounts_ok (ix : MarginfiIx) : Prop :=
  match ix with
  | IxDeposit _ n | IxRepay _ n _ | IxWithdraw _ n _ | IxBorrow _ n | IxLiquidate _ n => is_u64 n
  | IxSetupEmissions _ _ rate total => is_u64 rate ∧ is_u64 total
  | IxUpdateEmissions _ _ rate extra => is_u64 (default 0 rate) ∧ is_u64 (default 0 extra)
  | _ => True
  end.

(** ** Transactions *)
(** A transaction's top-level instruction either is one of the program's or
    belongs to another program, which may call this one any number of times. *)
Inductive TopLevel : Set :=
| Direct (ix : MarginfiIx)
| Foreign (calls : list MarginfiIx).

Fixpoint run_calls (w : World) (clock : Clock) (tx : TxContext) (ixs : list MarginfiIx)
    : MarginfiResult World :=
  match ixs with
  | [] => Ok w
  | ix :: ixs => let? w := marginfi w clock tx ix in run_calls w clock tx ixs
  end.

Definition run_top_level (w : World) (clock : Clock) (sysvar : list Instruction) (i : nat) (t : TopLevel)
    : MarginfiResult World :=
  match t with
  | Direct ix => marginfi w clock (Build_TxContext sysvar (Z.of_nat i) true) ix
  | Foreign ixs => run_calls w clock (Build_TxContext sysvar (Z.of_nat i) false) ixs
  end.

(** The top-level instructions from the [i]-th on, in order; an error aborts
    the transaction. *)
Fixpoint run_from (w : World) (clock : Clock) (sysvar : list Instruction) (i : nat) (ts : list TopLevel)
    : MarginfiResult World :=
  match ts with
  | [] => Ok w
  | t :: ts => let? w := run_top_level w clock sysvar i t in run_from w clock sysvar (S i) ts
  end.
Definition run_transaction (w : World) (clock : Clock) (sysvar : list Instruction) (ts : list TopLevel)
    : MarginfiResult World := run_from w clock sysvar 0 ts.

(** What the instructions sysvar shows of a top-level instruction: an
    instruction of this program that starts with the discriminator of
    [lending_account_end_flashloan] is dispatched to it, and its first account
    is [marginfi_account]; an instruction of another program has that
    program's id. *)
Definition shown_as (i : Instruction) (t : TopLevel) : Prop :=
  match t with
  | Direct ix =>
      ix_program_id i = program_id ∧
      (take 8 (ix_data i) = end_flashloan_discriminator →
       ∃ a signer rest, ix = IxEndFlashloan a signer rest ∧ ix_accounts i !! 0%nat = Some a)
  | Foreign _ => ix_program_id i ≠ program_id
  end.
End Program.

(** ** Access control *)
(** The keys whose signature an instruction requires. *)
Definition ix_signers (ix : MarginfiIx) : list Pubkey :=
  match ix with
  | IxGroupInitialize _ admin _ | IxGroupConfigure _ admin _ | IxConfigureBank _ admin _ _ _
  | IxSetAccountFlag _ _ admin _ | IxUnsetAccountFlag _ _ admin _
  | IxEditFeeState admin _ _ _ _ _ | IxConfigGroupFee _ admin _ _ => [admin]
  | IxAddBank c _ | IxAddBankWithSeed c _ _ => [ab_admin c; ab_fee_payer c]
  | IxSetupEmissions c _ _ _ | IxUpdateEmissions c _ _ _ => [se_admin c]
  | IxHandleBankruptcy c => [hb_signer c]
  | IxAccountInitialize _ _ authority | IxAccountClose _ authority => [authority]
  | IxDeposit c _ | IxRepay c _ _ => [d_signer c]
  | IxWithdraw c _ _ | IxBorrow c _ => [wd_signer c]
  | IxCloseBalance c => [cb_signer c]
  | IxWithdrawEmissions c => [we_signer c]
  | IxLiquidate c _ => [lq_signer c]
  | IxStartFlashloan _ signer _ | IxEndFlashloan _ signer _ | IxSetAuthority _ _ signer _ => [signer]
  | IxWithdrawFees c _ | IxWithdrawInsurance c _ => [wf_admin c]
  | IxInitFeeState payer _ _ _ _ _ _ => [payer]
  | IxSettleEmissions _ _ | IxAccrueInterest _ _ | IxCollectFees _ | IxPropagateFee _ _ => []
  end.

(** The positions an instruction may change. *)
Definition may_move (ix : MarginfiIx) (a : Pubkey) (m : MarginfiAccount) : Prop :=
  let by_owner account :=
    a = account ∧ MarginfiAccount.authority m ∈ ix_signers ix ∧
    MarginfiAccount.get_flag m DISABLED_FLAG = false in
  match ix with
  | IxDeposit c _ | IxRepay c _ _ => by_owner (d_marginfi_account c)
  | IxWithdraw c _ _ | IxBorrow c _ => by_owner (wd_marginfi_account c)
  | IxCloseBalance c => by_owner (cb_marginfi_account c)
  | IxWithdrawEmissions c => by_owner (we_marginfi_account c)
  | IxSettleEmissions account _ => a = account
  | IxLiquidate c _ =>
      (a = lq_liquidator_marginfi_account c ∧ MarginfiAccount.authority m ∈ ix_signers ix) ∨
      a = lq_liquidatee_marginfi_account c
  | _ => False
  end.

(** Every way an account changes. *)
Inductive account_change {T : TokenSdk} (w w' : World) (tx : TxContext) (ix : MarginfiIx) (a : Pubkey)
    : Prop :=
| ch_positions m m' :
    accounts w !! a = Some m → accounts w' !! a = Some m' → may_move ix a m →
    account_header m' = account_header m → account_change w w' tx ix a
| ch_opened g auth :
    ix = IxAccountInitialize g a auth → accounts w !! a = None →
    accounts w' !! a = Some (MarginfiAccount.initialize MarginfiAccount.zeroed g auth) →
    account_change w w' tx ix a
| ch_closed m :
    accounts w !! a = Some m → accounts w' !! a = None →
    ix = IxAccountClose a (MarginfiAccount.authority m) →
    MarginfiAccount.get_flag m DISABLED_FLAG = false →
    (∀ b, b ∈ MarginfiAccount.lending_account m →
       Balance.asset_shares b < EMPTY_BALANCE_THRESHOLD ∧
       Balance.liability_shares b < EMPTY_BALANCE_THRESHOLD) →
    account_change w w' tx ix a
| ch_disabled m m' c :
    accounts w !! a = Some m → account_header m' = account_header m →
    ix = IxHandleBankruptcy c → a = hb_marginfi_account c →
    accounts w' !! a = Some (MarginfiAccount.set_flag m' DISABLED_FLAG) →
    account_change w w' tx ix a
| ch_flag m m' g gr flag admin :
    accounts w !! a = Some m → accounts w' !! a = Some m' →
    groups w !! g = Some gr → admin = MarginfiGroup.admin gr → MarginfiAccount.group m = g →
    flag_can_be_set flag = true →
    ix = IxSetAccountFlag g a admin flag ∨ ix = IxUnsetAccountFlag g a admin flag →
    m' = MarginfiAccount.set_flag m flag ∨ m' = MarginfiAccount.unset_flag m flag →
    account_change w w' tx ix a
| ch_authority m g new :
    accounts w !! a = Some m → ix = IxSetAuthority a g (MarginfiAccount.authority m) new →
    MarginfiAccount.get_flag m TRANSFER_AUTHORITY_ALLOWED_FLAG = true →
    MarginfiAccount.get_flag m DISABLED_FLAG = false →
    accounts w' !! a = Some (MarginfiAccount.unset_flag (MarginfiAccount.with_authority new m)
                               TRANSFER_AUTHORITY_ALLOWED_FLAG) →
    account_change w w' tx ix a
| ch_started m idx :
    accounts w !! a = Some m → ix = IxStartFlashloan a (MarginfiAccount.authority m) idx →
    tx_top_level tx = true → MarginfiAccount.get_flag m DISABLED_FLAG = false →
    accounts w' !! a = Some (MarginfiAccount.set_flag m IN_FLASHLOAN_FLAG) →
    account_change w w' tx ix a
| ch_ended m rest :
    accounts w !! a = Some m → ix = IxEndFlashloan a (MarginfiAccount.authority m) rest →
    accounts w' !! a = Some (MarginfiAccount.unset_flag m IN_FLASHLOAN_FLAG) →
    account_change w w' tx ix a.

Section AccessLemmas.
Context {F : FixedOps} {L : FixedLaws F} {T : TokenSdk} {O : OracleSdk} {R : Runtime}.

Lemma moves_change w w' tx ix touched :
  moves touched w w' →
  (∀ a m, a ∈ touched → accounts w !! a = Some m → may_move ix a m) →
  ∀ a, accounts w' !! a = accounts w !! a ∨ account_change w w' tx ix a.
Proof.
  intros H Hm a. destruct (decide (a ∈ touched)) as [Ha|Ha]; [|left; by eapply mv_others].
  destruct (accounts w' !! a) as [m'|] eqn:E'.
  - destruct (moves_account _ _ _ _ _ H E') as (m & E & Hh). right. by eapply ch_positions; eauto.
  - pose proof (mv_headers _ _ _ H a) as Eq. rewrite E' in Eq.
    destruct (accounts w !! a); [done|by left].
Qed.

(** An instruction that stores one account. *)
Lemma stored_change w tx ix a m' :
  account_change w (set_account a m' w) tx ix a →
  ∀ b, accounts (set_account a m' w) !! b = accounts w !! b ∨ account_change w (set_account a m' w) tx ix b.
Proof.
  intros H b. destruct (decide (b = a)) as [->|]; [by right|left].
  by apply lookup_insert_ne.
Qed.

Lemma entitled_moves w g a s k m b ix :
  entitled w g a s k m b → ix_signers ix = [s] →
  ∀ a' m', a' ∈ [a] → accounts w !! a' = Some m' →
    a' = a ∧ MarginfiAccount.authority m' ∈ ix_signers ix ∧
    MarginfiAccount.get_flag m' DISABLED_FLAG = false.
Proof.
  intros [Ha _ _ _ Hs He] Hix a' m' ->%list_elem_of_singleton Hm. det_ok. rewrite Hix. set_solver.
Qed.
End AccessLemmas.

Section Access.
Context {F : FixedOps} {L : FixedLaws F} {T : TokenSdk} {O : OracleSdk} {R : Runtime}.

(** The instructions that move value, and the accounts they are given. *)
Definition moves_value (ix : MarginfiIx) : option (list Pubkey) :=
  match ix with
  | IxDeposit c _ | IxRepay c _ _ => Some [d_marginfi_account c]
  | IxWithdraw c _ _ | IxBorrow c _ => Some [wd_marginfi_account c]
  | IxCloseBalance c => Some [cb_marginfi_account c]
  | IxWithdrawEmissions c => Some [we_marginfi_account c]
  | IxSettleEmissions a _ => Some [a]
  | IxLiquidate c _ => Some [lq_liquidator_marginfi_account c; lq_liquidatee_marginfi_account c]
  | IxAccrueInterest _ _ | IxCollectFees _ | IxWithdrawFees _ _ | IxWithdrawInsurance _ _ => Some []
  | _ => None
  end.

Lemma value_moves w clock tx ix touched w' :
  moves_value ix = Some touched → marginfi w clock tx ix = Ok w' → moves touched w w'.
Proof.
  destruct ix; intros [= <-] H; simpl in H;
    eauto using deposit_moves, repay_moves, withdraw_moves, borrow_moves, close_balance_moves,
      withdraw_emissions_moves, settle_emissions_moves, liquidate_moves, accrue_ix_moves,
      collect_bank_fees_moves; by apply withdraw_from_vault_ok in H as [[ts ->] _]; apply moves_tokens.
Qed.

(** What an instruction is about. *)
Inductive ix_class : Set := CValue | CAccount | CBank | CGroup | CFeeState.
#[global] Instance ix_class_eq_dec : EqDecision ix_class.
Proof. solve_decision. Defined.
Definition class_of (ix : MarginfiIx) : ix_class :=
  match ix with
  | IxGroupInitialize _ _ _ | IxGroupConfigure _ _ _ | IxPropagateFee _ _ | IxConfigGroupFee _ _ _ _ => CGroup
  | IxAddBank _ _ | IxAddBankWithSeed _ _ _ | IxConfigureBank _ _ _ _ _ | IxSetupEmissions _ _ _ _
  | IxUpdateEmissions _ _ _ _ => CBank
  | IxAccountInitialize _ _ _ | IxStartFlashloan _ _ _ | IxEndFlashloan _ _ _ | IxSetAccountFlag _ _ _ _
  | IxUnsetAccountFlag _ _ _ _ | IxSetAuthority _ _ _ _ | IxAccountClose _ _ => CAccount
  | IxInitFeeState _ _ _ _ _ _ _ | IxEditFeeState _ _ _ _ _ _ => CFeeState
  | _ => CValue
  end.

(** Each class of instructions leaves the rest of the world alone. *)
Lemma ix_frame w clock tx ix w' :
  marginfi w clock tx ix = Ok w' →
  match class_of ix with
  | CValue => groups w' = groups w ∧ fee_state w' = fee_state w
  | CAccount => banks w' = banks w ∧ groups w' = groups w ∧ fee_state w' = fee_state w
  | CBank => accounts w' = accounts w ∧ groups w' = groups w ∧ fee_state w' = fee_state w
  | CGroup => accounts w' = accounts w ∧ banks w' = banks w ∧ fee_state w' = fee_state w
  | CFeeState => accounts w' = accounts w ∧ banks w' = banks w ∧ groups w' = groups w
  end.
Proof.
  intros H. destruct (moves_value ix) as [touched|] eqn:Hv.
  { pose proof (value_moves _ _ _ _ _ _ Hv H) as [? ? _ _ _ _ _ _]. by destruct ix. }
  destruct ix; try done; clear Hv; cbn [marginfi class_of] in *.
  - by apply initialize_group_ok in H as (_ & ? & -> & _).
  - by apply configure_ok in H as (? & ? & _ & _ & ->).
  - apply add_bank_ok in H as (?&?&?&?&?&?&?&?&?&w1&?&_&_&_&_&_&_&[_ _ _ _ _ _ _ [ts ->] _]&_&_&->). done.
  - apply add_bank_ok in H as (?&?&?&?&?&?&?&?&?&w1&?&_&_&_&_&_&_&[_ _ _ _ _ _ _ [ts ->] _]&_&_&->). done.
  - by apply configure_bank_ix_ok in H as (?&?&?&_&_&_&_&_&_&->).
  - apply setup_emissions_ok in H as (?&?&?&w1&_&_&_&_&_&_&(ts&_&->)&_&H).
    by apply fund_emissions_ok in H as (?&?&_&_&->).
  - apply update_emissions_ok in H as (?&?&?&?&_&_&_&_&_&_&_&H). destruct additional; [|by subst].
    by apply fund_emissions_ok in H as (?&?&_&_&->).
  - apply bankruptcy_moves in H as (w3 & m' & [? ? _ _ _ _ _ _] & _ & ->). done.
  - by apply initialize_account_ok in H as (_ & _ & ->).
  - by apply start_flashloan_ok in H as (?&?&_&_&_&_&_&_&_&_&_&_&_&->).
  - by apply end_flashloan_ok in H as (?&_&_&_&_&->).
  - by destruct (account_flag_ok _ _ _ _ _ _ (or_introl H)) as (?&?&?&_&_&_&_&_&_&->).
  - by destruct (account_flag_ok _ _ _ _ _ _ (or_intror H)) as (?&?&?&_&_&_&_&_&_&->).
  - by apply set_account_transfer_authority_ok in H as (?&_&_&_&_&_&->).
  - by apply close_account_ok in H as (?&_&_&_&_&->).
  - by apply initialize_fee_state_ok in H as (_&_&?&->).
  - by apply edit_fee_state_ok in H as (?&?&_&_&_&->).
  - by apply propagate_fee_ok in H as (?&?&_&_&->).
  - by apply config_group_fee_ok in H as (?&?&_&_&_&->).
Qed.

Lemma value_may_move w clock tx ix touched w' :
  moves_value ix = Some touched → marginfi w clock tx ix = Ok w' →
  ∀ a m, a ∈ touched → accounts w !! a = Some m → may_move ix a m.
Proof.
  destruct ix; intros [= <-] H; simpl in H; try (intros a m []%not_elem_of_nil).
  - apply deposit_ok in H as (?&?&?&?&?&?&He&_). by eapply (entitled_moves _ _ _ _ _ _ _ (IxDeposit c amount)).
  - apply repay_ok in H as (?&?&?&?&?&?&?&He&_).
    by eapply (entitled_moves _ _ _ _ _ _ _ (IxRepay c amount repay_all)).
  - apply withdraw_ok in H as (?&?&?&?&?&?&?&?&He&_).
    by eapply (entitled_moves _ _ _ _ _ _ _ (IxWithdraw c amount withdraw_all)).
  - apply borrow_ok in H as (?&?&?&?&?&?&?&?&?&?&?&?&?&?&He&_).
    by eapply (entitled_moves _ _ _ _ _ _ _ (IxBorrow c amount)).
  - apply close_balance_ok in H as (?&?&?&He&_).
    by eapply (entitled_moves _ _ _ _ _ _ _ (IxCloseBalance c)).
  - apply withdraw_emissions_ok in H as (?&?&?&?&He&_).
    by eapply (entitled_moves _ _ _ _ _ _ _ (IxWithdrawEmissions c)).
  - by intros a m ->%list_elem_of_singleton _.
  - apply liquidate_ok in H as (?&?&?&?&?&?&?&?&?&?&?&?&?&H). destruct H as [Hm _ Hs _ _ _ _ _ _ _ _ _ _ _ _ _ _ _].
    intros a m [->|Hin]%elem_of_cons Ha; [left|right; by apply list_elem_of_singleton in Hin].
    det_ok. simpl. rewrite Hs. set_solver.
Qed.

Lemma accounts_after w clock tx ix w' :
  marginfi w clock tx ix = Ok w' →
  ∀ a, accounts w' !! a = accounts w !! a ∨ account_change w w' tx ix a.
Proof.
  intros H. pose proof (ix_frame _ _ _ _ _ H) as Hu.
  destruct (moves_value ix) as [touched|] eqn:Hv.
  { eapply moves_change; [by eapply value_moves|by eapply value_may_move]. }
  destruct ix; try (intros a; left; by destruct Hu as [-> _]); try done; clear Hu Hv; simpl in H.
  - apply bankruptcy_moves in H as (w3 & m' & Hm & Ha & ->).
    destruct (moves_account _ _ _ _ _ Hm Ha) as (m & E & Hh).
    intros a. destruct (decide (a = hb_marginfi_account c)) as [->|].
    + right. eapply ch_disabled; eauto. apply lookup_insert_eq.
    + left. simpl. rewrite lookup_insert_ne by done. eapply mv_others; [done|set_solver].
  - apply initialize_account_ok in H as (_ & Hn & ->). apply stored_change.
    eapply ch_opened; [done..|apply lookup_insert_eq].
  - apply start_flashloan_ok in H as (m & e & Hm & -> & Hd & _ & Ht & _ & _ & _ & _ & _ & _ & ->).
    apply stored_change. eapply ch_started; [done..|apply lookup_insert_eq].
  - apply end_flashloan_ok in H as (m & Hm & -> & _ & _ & ->).
    apply stored_change. eapply ch_ended; [done..|apply lookup_insert_eq].
  - assert (set_account_flag w marginfi_group marginfi_account admin flag = Ok w' ∨
            unset_account_flag w marginfi_group marginfi_account admin flag = Ok w') as H' by auto.
    apply account_flag_ok in H' as (gr & m & m' & Hg & -> & Hm & Hmg & Hf & Hm' & ->).
    apply stored_change. eapply ch_flag; eauto. apply lookup_insert_eq.
  - assert (set_account_flag w marginfi_group marginfi_account admin flag = Ok w' ∨
            unset_account_flag w marginfi_group marginfi_account admin flag = Ok w') as H' by auto.
    apply account_flag_ok in H' as (gr & m & m' & Hg & -> & Hm & Hmg & Hf & Hm' & ->).
    apply stored_change. eapply ch_flag; eauto. apply lookup_insert_eq.
  - apply set_account_transfer_authority_ok in H as (m & Hm & <- & -> & Hf & Hd & ->).
    apply stored_change. eapply ch_authority; [done..|apply lookup_insert_eq].
  - apply close_account_ok in H as (m & Hm & -> & Hd & He & ->). intros a.
    destruct (decide (a = marginfi_account)) as [->|]; [right|left; by apply lookup_delete_ne].
    eapply ch_closed; eauto. apply lookup_delete_eq.
Qed.
End Access.

(** ** Flashloans *)
Section Flashloans.
Context {F : FixedOps} {L : FixedLaws F} {T : TokenSdk} {O : OracleSdk} {R : Runtime}.

(** The account is inside a flashloan. *)
Definition in_flashloan (w : World) (a : Pubkey) : Prop :=
  ∃ m, accounts w !! a = Some m ∧ MarginfiAccount.get_flag m IN_FLASHLOAN_FLAG = true.

(** Only [start_flashloan] sets the flag. *)
Lemma change_flashloan w w' tx ix a :
  account_change w w' tx ix a → in_flashloan w' a →
  in_flashloan w a ∨ ∃ signer idx, ix = IxStartFlashloan a signer idx.
Proof.
  change IN_FLASHLOAN_FLAG with (2 ^ 1) in *. intros Hc (m' & Hm' & Hf). unfold in_flashloan.
  change IN_FLASHLOAN_FLAG with (2 ^ 1) in *.
  destruct Hc as [m m1 Hm E _ Hh | g auth _ _ E | m _ E _ _ _ | m m1 c Hm Hh _ _ E
    | m m1 g gr flag admin Hm E _ _ _ Hok _ Hf' | m g new Hm _ _ _ E | m idx Hm -> _ _ E | m rest Hm _ E];
    rewrite E in Hm'; try discriminate Hm'; injection Hm' as <-.
  - left. exists m. by rewrite <- (header_flag _ _ _ Hh).
  - done.
  - left. exists m. rewrite <- (header_flag _ _ _ Hh).
    change DISABLED_FLAG with (2 ^ 0) in Hf. rewrite MarginfiAccount.set_flag_get in Hf by lia.
    by rewrite orb_false_r in Hf.
  - left. exists m. split; [done|].
    pose proof (flag_can_be_set_bits flag 1 Hok ltac:(by right)) as Hb.
    destruct Hf' as [-> | ->]; rewrite ?set_flag_bit, ?unset_flag_bit, Hb in Hf by lia.
    + by rewrite orb_false_r in Hf.
    + by rewrite andb_true_r in Hf.
  - left. exists m. split; [done|].
    change TRANSFER_AUTHORITY_ALLOWED_FLAG with (2 ^ 3) in Hf.
    rewrite MarginfiAccount.unset_flag_get in Hf by lia. simpl in Hf. by rewrite andb_true_r in Hf.
  - right. eauto.
  - change IN_FLASHLOAN_FLAG with (2 ^ 1) in Hf.
    rewrite MarginfiAccount.unset_flag_get in Hf by lia. by rewrite andb_false_r in Hf.
Qed.

Lemma ix_flashloan w clock tx ix w' a :
  marginfi w clock tx ix = Ok w' → in_flashloan w' a →
  (in_flashloan w a ∧ ∀ signer rest, ix ≠ IxEndFlashloan a signer rest) ∨
  (∃ signer idx, ix = IxStartFlashloan a signer idx).
Proof.
  intros H Hf. destruct (accounts_after _ _ _ _ _ H a) as [E|Hc].
  - left. split; [destruct Hf as (m & Hm & ?); exists m; by rewrite <- E|].
    intros signer rest ->. apply end_flashloan_ok in H as (m & Hm & _ & _ & _ & ->).
    destruct Hf as (m' & Hm' & Hf). simpl in Hm'. rewrite lookup_insert_eq in Hm'. injection Hm' as <-.
    pose proof (MarginfiAccount.unset_flashloan m) as (Hu & _). congruence.
  - destruct (change_flashloan _ _ _ _ _ Hc Hf) as [?|?]; [left; split; [done|]|by right].
    intros signer rest ->. apply end_flashloan_ok in H as (m & Hm & _ & _ & _ & ->).
    destruct Hf as (m' & Hm' & Hf). simpl in Hm'. rewrite lookup_insert_eq in Hm'. injection Hm' as <-.
    pose proof (MarginfiAccount.unset_flashloan m) as (Hu & _). congruence.
Qed.

(** The end of the account's flashloan is still ahead. *)
Definition end_ahead (sysvar : list Instruction) (i : nat) (a : Pubkey) : Prop :=
  ∃ j e, (i ≤ j)%nat ∧ sysvar !! j = Some e ∧ ix_program_id e = program_id ∧
    take 8 (ix_data e) = end_flashloan_discriminator ∧ ix_accounts e !! 0%nat = Some a.
Definition ends_ahead (sysvar : list Instruction) (i : nat) (w : World) : Prop :=
  ∀ a, in_flashloan w a → end_ahead sysvar i a.

(** A call by another program cannot start a flashloan. *)
Lemma calls_flashloan clock tx ixs : tx_top_level tx = false → ∀ w w' a,
  run_calls w clock tx ixs = Ok w' → in_flashloan w' a → in_flashloan w a.
Proof.
  intros Ht. induction ixs as [|ix ixs IH]; simpl; intros w w' a H Hf; [by injection H as ->|].
  apply bind_ok in H as (w1 & H1 & H). specialize (IH _ _ _ H Hf).
  destruct (ix_flashloan _ _ _ _ _ _ H1 IH) as [[? _]|(s & idx & ->)]; [done|].
  apply start_flashloan_ok in H1 as (_ & _ & _ & _ & _ & _ & Ht' & _). congruence.
Qed.

Lemma top_level_ends_ahead w clock sysvar i e t w' :
  sysvar !! i = Some e → shown_as e t → ends_ahead sysvar i w →
  run_top_level w clock sysvar i t = Ok w' → ends_ahead sysvar (S i) w'.
Proof.
  intros He Hs Ha H a Hf. destruct t as [ix|ixs]; simpl in *.
  - destruct (ix_flashloan _ _ _ _ _ _ H Hf) as [[Hf' Hne]|(s & idx & ->)].
    + destruct (Ha a Hf') as (j & e' & Hj & He' & Hp & Hd & Hacc).
      exists j, e'. split_and!; try done. destruct (decide (j = i)) as [->|]; [exfalso|lia].
      det_ok. destruct Hs as [_ Hs]. destruct (Hs Hd) as (a' & s & rest & -> & Hacc').
      rewrite Hacc in Hacc'. injection Hacc' as <-. by eapply Hne.
    + apply start_flashloan_ok in H as (m & e' & _ & _ & _ & _ & _ & Hlt & He' & Hidx & Hd & Hp & Hacc & _).
      simpl in *. exists (Z.to_nat idx), e'. split_and!; try done. lia.
  - pose proof (calls_flashloan clock (Build_TxContext sysvar (Z.of_nat i) false) ixs eq_refl _ _ _ H Hf) as Hf'.
    destruct (Ha a Hf') as (j & e' & Hj & He' & Hp & Hd & Hacc).
    exists j, e'. split_and!; try done. destruct (decide (j = i)) as [->|]; [exfalso|lia]. by det_ok.
Qed.
End Flashloans.

(** ** The invariant *)
(** What the types of the program give and the arithmetic of one instruction
    does not: token amounts are [u64], no bank has lost more than its deposits,
    and the program's share of the fees is a fraction. *)
Record in_range {T : TokenSdk} (w : World) : Prop := {
  ir_share_values k b : banks w !! k = Some b → 0 ≤ Bank.asset_share_value b;
  ir_tokens k t : tokens w !! k = Some t → is_u64 (ta_amount t);
  ir_program_fee g gr : groups w !! g = Some gr →
    0 ≤ program_fee_rate (MarginfiGroup.fee_state_cache gr) ≤ ONE
}.
Definition valid_configs {T : TokenSdk} (w : World) : Prop :=
  ∀ k b, banks w !! k = Some b → BankConfig.valid (Bank.config b).
(** A position never crosses groups. *)
Definition positions_in_group {T : TokenSdk} (w : World) : Prop :=
  ∀ a m k b, accounts w !! a = Some m → holds m k → banks w !! k = Some b →
    Bank.group b = MarginfiAccount.group m.
Record invariant {T : TokenSdk} (w : World) : Prop := {
  inv_books : books_balance w;
  inv_configs : valid_configs w;
  inv_groups : positions_in_group w
}.

Section InvariantLemmas.
Context {F : FixedOps} {L : FixedLaws F} {T : TokenSdk} {O : OracleSdk} {R : Runtime}.

Lemma accrued_position_books {A} create w w1 w2 a k g now
    (f : BankAccountWrapper.BankAccountWrapper → MarginfiResult (A * BankAccountWrapper.BankAccountWrapper)) x :
  books_balance w → keeps_books f → accrue w k g now = Ok w1 →
  with_position create w1 a k now f = Ok (x, w2) → books_balance w2.
Proof.
  intros Hb Hf Ha H. apply accrue_ok in Ha as (?&?&_&_&_&_&_&Hb1); [|done].
  by eapply with_position_books.
Qed.

Lemma close_step_keeps now :
  keeps_books (λ ba, no_value (BankAccountWrapper.close_balance ba now)).
Proof. by apply (run_keeps_books BankAccountWrapper.CloseBalance). Qed.

(** The origination fee leaves the fees of the bank nonnegative. *)
Lemma saturating_nonneg a b : 0 ≤ a + b → 0 ≤ saturating_add a b.
Proof. intros. rewrite saturating_add_spec. unfold I80F48_MAX. lia. Qed.
Lemma saturating_sub_nonneg a b : b ≤ a → 0 ≤ saturating_sub a b.
Proof. intros. rewrite saturating_sub_spec. unfold I80F48_MAX. lia. Qed.
Lemma collect_origination_fee_wf k fee rate k' :
  Bank.wf k → 0 ≤ fee → 0 ≤ rate ≤ ONE → collect_origination_fee k fee rate = Ok k' → Bank.wf k'.
Proof.
  unfold collect_origination_fee. intros [] Hf Hr H. destruct (fee =? 0); [injection H as <-; by split|].
  destruct (rate =? 0).
  - injection H as <-. split; simpl; try done. by apply saturating_nonneg; lia.
  - apply bind_ok in H as (p & Hp & H). injection H as <-. apply math_ok, mul_some in Hp as [-> _]; [|lia..].
    pose proof (fmul_nonneg fee rate Hf ltac:(lia)). pose proof (fmul_le_l fee rate Hf ltac:(lia)).
    pose proof (saturating_sub_nonneg fee (fmul fee rate) ltac:(lia)).
    split; simpl; try done; apply saturating_nonneg; lia.
Qed.

Lemma borrow_books w clock c amount w' :
  books_balance w → in_range w → is_u64 amount → lending_account_borrow w clock c amount = Ok w' →
  books_balance w'.
Proof.
  intros Hb Hr Hu (m & k0 & mint & rest & g & w1 & w2 & w3 & n & fee & fu & k3 & k4 & m' & _ & Hg & Ha & Hp &
    Ht & Hk3 & Hf & -> & _)%borrow_ok.
  apply transfer_out_ok in Ht as (ts & _ & ->).
  assert (books_balance (set_tokens ts w2)) as Hb2.
  { apply set_tokens_books. eapply accrued_position_books; eauto using borrow_step_keeps. }
  apply with_position_bank in Hp as (p0 & p1 & Hp & _).
  unfold borrow_step in Hp. apply bind_ok in Hp as (q & _ & Hp). apply bind_ok in Hp as ([fee' u] & Hfee & Hp).
  apply bind_ok in Hp as (b & _ & Hp). apply bind_ok in Hp as (p2 & _ & Hp). injection Hp as <- -> -> _.
  apply origination_fee_nonneg in Hfee as [Hfee _].
  pose proof (ir_program_fee _ Hr _ _ Hg).
  pose proof (collect_origination_fee_frame _ _ _ _ Hf) as (gf & pf & E).
  apply collect_origination_fee_wf in Hf; [|by eapply books_banks|done..].
  eapply same_totals_books; [done..| |]; by rewrite E.
Qed.

Lemma user_ix_books w clock tx ix w' :
  match ix with
  | IxDeposit _ _ | IxRepay _ _ _ | IxWithdraw _ _ _ | IxBorrow _ _ | IxCloseBalance _
  | IxWithdrawEmissions _ | IxSettleEmissions _ _ | IxAccrueInterest _ _ => True
  | _ => False
  end →
  books_balance w → in_range w → ix_amounts_ok ix → marginfi w clock tx ix = Ok w' → books_balance w'.
Proof.
  destruct ix; intros []; simpl; intros Hb Hr Hu H.
  - apply deposit_ok in H as (?&?&?&w1&w2&?&_&Ha&Hp&_&Ht).
    apply transfer_in_ok in Ht as (?&?&_&_&_&->). apply set_tokens_books.
    eapply accrued_position_books; eauto using deposit_step_keeps.
  - apply repay_ok in H as (?&?&?&w1&w2&?&?&_&Ha&Hp&_&Ht).
    apply transfer_in_ok in Ht as (?&?&_&_&_&->). apply set_tokens_books.
    eapply accrued_position_books; eauto using repay_step_keeps.
  - apply withdraw_ok in H as (?&?&?&?&w1&w2&?&?&_&Ha&Hp&Ht&_).
    apply transfer_out_ok in Ht as (?&_&->). apply set_tokens_books.
    eapply accrued_position_books; eauto using withdraw_step_keeps.
  - by eapply borrow_books.
  - apply close_balance_ok in H as (?&?&w1&_&Ha&Hp).
    eapply accrued_position_books; eauto using close_step_keeps.
  - apply withdraw_emissions_ok in H as (?&?&?&w1&_&Hp&_&?&->&_). apply set_tokens_books.
    eapply with_position_books; eauto using settle_step_keeps.
  - apply settle_emissions_ok in H as [_ (n & Hn & Hp)].
    eapply with_position_books; eauto using claim_keeps_books.
  - unfold lending_pool_accrue_bank_interest in H. apply bind_ok in H as (?&_&H).
    apply bind_ok in H as (?&_&H). by apply accrue_ok in H as (?&?&_&_&_&_&_&Hb1).
Qed.

Lemma liquidate_books {PN : PricesNonneg O} w clock c q w' :
  books_balance w → is_u64 q → lending_account_liquidate w clock c q = Ok w' → books_balance w'.
Proof.
  intros Hb Hu (w1 & m1 & m2 & ka & kl & pa & pl & ll & lf & e0 & e1 & pre & post & H)%liquidate_ok.
  destruct H as [_ _ _ _ Hq Hne Ha (w0 & Hw0 & Hw1) _ _ Hka Hkl (oa & ol & Hpa & Hpl) Ham
                 (w2 & w3 & mint & n & Hx & Hn & _ & Hr & Hfee) _ _ _].
  apply prices_nonneg in Hpa, Hpl.
  apply liquidation_amounts_ok in Ham as (_ & Hlf & _); [|apply from_num_nonneg; lia|done..].
  pose proof (accrue_ok _ _ _ _ _ Hb Hw0) as (_ & _ & _ & _ & _ & _ & _ & Hb0).
  pose proof (accrue_ok _ _ _ _ _ Hb0 Hw1) as (_ & _ & _ & _ & _ & _ & _ & Hb1).
  destruct (liquidation_worth w1 (unix_timestamp clock) c (from_num q) ll lf w2 w3 ka kl)
    as (_ & _ & _ & _ & _ & Hb3 & _); try done; [apply from_num_nonneg; lia|lia..|].
  apply collect_insurance_fee_ok in Hfee as (k & ts & Hk & _ & ->). apply set_tokens_books.
  pose proof (books_banks _ Hb3 _ _ Hk) as []. eapply same_totals_books; [done..| |done|done].
  split; simpl; try done. pose proof (Z.mod_pos_bound (ll - lf) SCALE SCALE_pos). lia.
Qed.

Lemma bankruptcy_ix_books w clock c w' :
  books_balance w → in_range w' → lending_pool_handle_bankruptcy w clock c = Ok w' → books_balance w'.
Proof.
  intros Hb Hr (w1 & w3 & g & m & m' & k0 & k1 & k2 & bad & cov & lost & mint & n & pre & ts & H)%handle_bankruptcy_ok.
  pose proof (bk_repaid _ _ _ _ _ _ _ _ _ _ _ _ _ _ _ _ _ _ _ H) as Hrep.
  apply with_position_bank in Hrep as (p0 & p1 & _ & _ & Hk3).
  assert (banks w' !! hb_bank c = Some (BankAccountWrapper.bank p1)) as Hk'
    by (by rewrite (bk_final _ _ _ _ _ _ _ _ _ _ _ _ _ _ _ _ _ _ _ H)).
  pose proof (ir_share_values _ Hr _ _ Hk') as Hpos.
  rewrite (bankruptcy_final_bank _ _ _ _ _ _ _ _ _ _ _ _ _ _ _ _ _ _ _ _ H Hk') in Hpos.
  by eapply bankruptcy_books in H as [? _].
Qed.

Lemma collect_fees_books w c w' :
  books_balance w → in_range w → lending_pool_collect_bank_fees w c = Ok w' → books_balance w'.
Proof.
  intros Hb Hr (k & k' & t & fs & pi & pg & pp & ts1 & ts2 & ts3 & mint & H)%collect_bank_fees_ok.
  pose proof (books_banks _ Hb _ _ (cl_bank _ _ _ _ _ _ _ _ _ _ _ _ _ _ H)) as Hk.
  pose proof (ir_tokens _ Hr _ _ (cl_vault _ _ _ _ _ _ _ _ _ _ _ _ _ _ H)) as [Ht _].
  destruct (collection_wf _ _ _ _ _ _ _ _ _ _ _ _ _ _ Hk Ht H) as (Hk' & _).
  destruct H as [Hbank _ _ _ _ _ _ _ _ _ Hfr ->]. apply set_tokens_books.
  eapply same_totals_books; try done; by rewrite Hfr.
Qed.

(** Opening and closing accounts. *)
Lemma zeroed_holds g auth k :
  ¬ holds (MarginfiAccount.initialize MarginfiAccount.zeroed g auth) k.
Proof. by intros (b & [-> _]%elem_of_replicate & Ha & _). Qed.
Lemma no_position_no_shares side k m : (∀ b, b ∈ MarginfiAccount.lending_account m → Balance.active b = false) →
  account_shares side k m = 0.
Proof.
  intros H. apply sumZ_zero. intros i b Hi. apply position_shares_inactive, H.
  by eapply list_elem_of_lookup_2.
Qed.
Lemma new_account_books w a g auth :
  books_balance w → accounts w !! a = None →
  books_balance (set_account a (MarginfiAccount.initialize MarginfiAccount.zeroed g auth) w).
Proof.
  intros [H1 H2 H3 H4] Ha. split; simpl; [done| | |].
  - intros b m [[<- <-]|[_ Hm]]%lookup_insert_Some; [|eauto]. apply LendingAccount.zeroed_wf.
  - intros b m i p [[<- <-]|[_ Hm]]%lookup_insert_Some; [|eauto].
    by intros [-> _]%lookup_replicate.
  - intros side k b Hk. rewrite all_shares_insert_new by done. rewrite no_position_no_shares; [by apply H4|].
    by intros b' [-> _]%elem_of_replicate.
Qed.
Lemma close_account_books w a : books_balance w → books_balance (close_account_at a w).
Proof.
  intros [H1 H2 H3 H4]. split; simpl; [done| | |].
  - intros b m [_ Hm]%lookup_delete_Some. eauto.
  - intros b m i p [_ Hm]%lookup_delete_Some. eauto.
  - intros side k b Hk. specialize (H4 side k b Hk).
    destruct (accounts w !! a) as [m|] eqn:Hm; [|by rewrite delete_id].
    rewrite (all_shares_delete _ _ _ _ _ Hm) in H4.
    pose proof (account_shares_nonneg side k m (H2 _ _ Hm)). lia.
Qed.

Lemma account_flag_books w g a admin flag w' :
  books_balance w → set_account_flag w g a admin flag = Ok w' ∨ unset_account_flag w g a admin flag = Ok w' →
  books_balance w'.
Proof.
  intros Hb (gr & m & m' & _ & _ & Hm & _ & _ & Hm' & ->)%account_flag_ok.
  eapply set_account_books; [done..|]. by destruct Hm' as [-> | ->].
Qed.

Lemma ix_books {PN : PricesNonneg O} w clock tx ix w' :
  books_balance w → in_range w → in_range w' → ix_amounts_ok ix → marginfi w clock tx ix = Ok w' →
  books_balance w'.
Proof.
  intros Hb Hr Hr' Hu H.
  pose proof (user_ix_books w clock tx ix w') as K.
  destruct ix; try exact (K I Hb Hr Hu H); clear K;
    cbn [marginfi ix_amounts_ok] in H, Hu.
  - apply initialize_group_ok in H as (_ & ? & -> & _). by eapply books_ext.
  - apply configure_ok in H as (? & ? & _ & _ & ->). by eapply books_ext.
  - by eapply add_bank_books.
  - by eapply add_bank_books.
  - by eapply configure_bank_books.
  - exact (setup_emissions_books _ _ _ _ _ _ _ (proj1 Hu) (proj2 Hu) Hb H).
  - exact (update_emissions_books _ _ _ _ _ _ _ (proj1 Hu) (proj2 Hu) Hb H).
  - by eapply bankruptcy_ix_books.
  - apply initialize_account_ok in H as (_ & ? & ->). by apply new_account_books.
  - exact (liquidate_books _ _ _ _ _ Hb Hu H).
  - apply start_flashloan_ok in H as (?&?&?&_&_&_&_&_&_&_&_&_&_&->). by eapply set_account_books.
  - apply end_flashloan_ok in H as (?&?&_&_&_&->). by eapply set_account_books.
  - by eapply collect_fees_books.
  - apply withdraw_from_vault_ok in H as [[ts ->] _]. by apply set_tokens_books.
  - apply withdraw_from_vault_ok in H as [[ts ->] _]. by apply set_tokens_books.
  - eapply account_flag_books; [done|by left].
  - eapply account_flag_books; [done|by right].
  - apply set_account_transfer_authority_ok in H as (?&?&_&_&_&_&->). by eapply set_account_books.
  - apply close_account_ok in H as (?&_&_&_&_&->). by apply close_account_books.
  - apply initialize_fee_state_ok in H as (_&_&?&->). by eapply books_ext.
  - apply edit_fee_state_ok in H as (?&?&_&_&_&->). by eapply books_ext.
  - apply propagate_fee_ok in H as (?&?&_&_&->). by eapply books_ext.
  - apply config_group_fee_ok in H as (?&?&_&_&_&->). by eapply books_ext.
Qed.
End InvariantLemmas.

(** ** Banks, groups and the fee state *)
(** Every way a bank changes. *)
Inductive bank_change {T : TokenSdk} (w w' : World) (ix : MarginfiIx) (k : Pubkey) : Prop :=
| bc_value b b' :
    banks w !! k = Some b → banks w' !! k = Some b' → bank_identity b' = bank_identity b →
    bank_change w w' ix k
| bc_added b gr :
    banks w !! k = None → banks w' !! k = Some b → BankConfig.valid (Bank.config b) →
    groups w !! Bank.group b = Some gr → MarginfiGroup.admin gr ∈ ix_signers ix →
    bank_change w w' ix k
| bc_settings b b' gr f cfg r e m :
    banks w !! k = Some b → banks w' !! k = Some b' →
    groups w !! Bank.group b = Some gr → MarginfiGroup.admin gr ∈ ix_signers ix →
    BankConfig.valid cfg ∨ cfg = Bank.config b →
    b' = Bank.with_emissions_remaining r (Bank.with_emissions_rate e (Bank.with_flags f
           (Bank.with_config cfg (Bank.with_emissions_mint m b)))) →
    bank_change w w' ix k.

Section BankLemmas.
Context {F : FixedOps} {L : FixedLaws F} {T : TokenSdk} {O : OracleSdk} {R : Runtime}.

Lemma moves_bank_change w w' ix touched :
  moves touched w w' → ∀ k, banks w' !! k = banks w !! k ∨ bank_change w w' ix k.
Proof.
  intros H k. destruct (banks w' !! k) as [b'|] eqn:E'.
  - destruct (moves_bank _ _ _ _ _ H E') as (b & E & Hi). right. by eapply bc_value.
  - pose proof (mv_banks _ _ _ H k) as Eq. rewrite E' in Eq. destruct (banks w !! k); [done|by left].
Qed.

Lemma stored_bank_change w w' k b ix :
  banks w' = <[k := b]> (banks w) → bank_change w w' ix k →
  ∀ j, banks w' !! j = banks w !! j ∨ bank_change w w' ix j.
Proof.
  intros E H j. destruct (decide (j = k)) as [->|]; [by right|left].
  rewrite E. by apply lookup_insert_ne.
Qed.

Lemma add_bank_change w clock c cfg ok w' ix :
  ix_signers ix = [ab_admin c; ab_fee_payer c] → add_bank w clock c cfg ok = Ok w' →
  ∀ j, banks w' !! j = banks w !! j ∨ bank_change w w' ix j.
Proof.
  intros Hs H.
  apply add_bank_ok in H as (gr&?&?&?&?&?&?&?&?&w1&?&Hg&Ha&_&_&_&Hn&Hv&_&Hval&->).
  destruct Hv as [_ _ _ _ _ _ _ [ts ->] _]. eapply (stored_bank_change _ _ (ab_bank c)); [done|].
  eapply bc_added; [done|apply lookup_insert_eq|done|exact Hg|]. rewrite Hs, Ha. set_solver.
Qed.

Lemma emissions_group w clock c k :
  (∃ flags rate total w', lending_pool_setup_emissions w clock c flags rate total = Ok w') ∨
  (∃ flags rate extra w', lending_pool_update_emissions_parameters w clock c flags rate extra = Ok w') →
  banks w !! se_bank c = Some k → Bank.group k = se_marginfi_group c.
Proof.
  intros [(f & r & t & w' & H)|(f & r & t & w' & H)] Hk;
    [unfold lending_pool_setup_emissions in H|unfold lending_pool_update_emissions_parameters in H];
    apply bind_ok in H as (g & _ & H); apply bind_ok in H as (k' & Hk' & _); constraints; by det_ok.
Qed.

Lemma emissions_change w clock c ix w' :
  ((∃ flags rate total, ix = IxSetupEmissions c flags rate total ∧
      lending_pool_setup_emissions w clock c flags rate total = Ok w') ∨
   (∃ flags rate extra, ix = IxUpdateEmissions c flags rate extra ∧
      lending_pool_update_emissions_parameters w clock c flags rate extra = Ok w')) →
  ∀ j, banks w' !! j = banks w !! j ∨ bank_change w w' ix j.
Proof.
  intros H.
  assert (∃ g k k' f r e m, groups w !! Bank.group k = Some g ∧ se_admin c = MarginfiGroup.admin g ∧
    banks w !! se_bank c = Some k ∧ banks w' = <[se_bank c := k']> (banks w) ∧ ix_signers ix = [se_admin c] ∧
    k' = Bank.with_emissions_remaining r (Bank.with_emissions_rate e (Bank.with_flags f
           (Bank.with_config (Bank.config k) (Bank.with_emissions_mint m k)))))
    as (g & k & k' & f & r & e & m & Hg & Ha & Hk & Hw & Hs & Hk').
  { destruct H as [(flags & rate & total & -> & H)|(flags & rate & extra & -> & H)].
    - pose proof (emissions_group w clock c) as Hgr.
      pose proof H as (g & k & mint & w1 & Hg & Ha & Hk & _ & _ & _ & (ts & _ & ->) & Htok & Hf)%setup_emissions_ok.
      apply fund_emissions_ok in Hf as (? & ts' & _ & _ & ->).
      eexists g, k, _, flags, (from_num total), rate, (se_emissions_mint c).
      rewrite (Hgr k) by eauto 10. split_and!; [done|done|done|reflexivity|done|by destruct k].
    - pose proof (emissions_group w clock c) as Hgr.
      pose proof H as (g & k & mint & k' & Hg & Ha & Hk & _ & _ & _ & Hk' & Hf)%update_emissions_ok.
      exists g, k, k', (default (Bank.flags k) flags),
        (Bank.emissions_remaining k + from_num (default 0 extra)),
        (default (Bank.emissions_rate k) rate), (Bank.emissions_mint k).
      rewrite (Hgr k) by eauto 10. split_and!; [done|done|done| |done|rewrite Hk'; by destruct k].
      destruct extra; [|by subst]. by apply fund_emissions_ok in Hf as (? & ts' & _ & _ & ->). }
  eapply (stored_bank_change _ _ (se_bank c)); [done|].
  eapply (bc_settings _ _ _ _ k k' g f (Bank.config k) r e m); try done.
  - rewrite Hw. apply lookup_insert_eq.
  - rewrite Hs, Ha. set_solver.
  - by right.
Qed.

Lemma banks_after w clock tx ix w' :
  marginfi w clock tx ix = Ok w' → ∀ k, banks w' !! k = banks w !! k ∨ bank_change w w' ix k.
Proof.
  intros H. pose proof (ix_frame _ _ _ _ _ H) as Hu.
  destruct (moves_value ix) as [touched|] eqn:Hv.
  { eapply moves_bank_change. by eapply value_moves. }
  destruct ix; try (intros k; left; by first [destruct Hu as [-> _] | destruct Hu as (_ & -> & _)]);
    try done; clear Hu Hv; cbn [marginfi] in H.
  - by eapply add_bank_change.
  - by eapply add_bank_change.
  - apply configure_bank_ix_ok in H as (gr & b & b' & Hg & -> & Hb & Hgr & Hval & (f & cfg & Hb') & ->).
    eapply (stored_bank_change _ _ bank); [done|].
    eapply (bc_settings _ _ _ _ b b' gr f cfg (Bank.emissions_remaining b) (Bank.emissions_rate b)
              (Bank.emissions_mint b)); [done|apply lookup_insert_eq|by rewrite Hgr|set_solver| |].
    + left. by rewrite Hb' in Hval.
    + rewrite Hb'. by destruct b.
  - eapply emissions_change. left. by exists flags, rate, total_emissions.
  - eapply emissions_change. right. by exists flags, rate, additional.
  - apply bankruptcy_moves in H as (w3 & m' & Hm & _ & ->). intros k.
    destruct (moves_bank_change _ _ (IxHandleBankruptcy c) _ Hm k) as [?|[b b' ? ? ?|b gr ? ? ? ? ?|b b' gr f cfg r e m ? ? ? ? ? ?]];
      [by left|right..].
    + by eapply bc_value.
    + by eapply bc_added.
    + by eapply bc_settings.
Qed.
End BankLemmas.

(** Every way a group changes. *)
Inductive group_change {T : TokenSdk} (w w' : World) (ix : MarginfiIx) (g : Pubkey) : Prop :=
| gc_opened gr fs :
    groups w !! g = None → groups w' !! g = Some gr → ix = IxGroupInitialize g (MarginfiGroup.admin gr) fs →
    group_change w w' ix g
| gc_admin gr config a :
    groups w !! g = Some gr → ix = IxGroupConfigure g (MarginfiGroup.admin gr) config →
    groups w' !! g = Some (MarginfiGroup.with_admin a gr) →
    group_change w w' ix g
| gc_fees gr fs fsk :
    groups w !! g = Some gr → fee_state w = Some fs → ix = IxPropagateFee fsk g →
    groups w' !! g = Some (MarginfiGroup.with_cache (cache_of_fee_state fs) gr) →
    group_change w w' ix g
| gc_flags gr fs fsk flag :
    groups w !! g = Some gr → fee_state w = Some fs →
    ix = IxConfigGroupFee g (global_fee_admin fs) fsk flag →
    groups w' !! g = Some (MarginfiGroup.with_flags flag gr) → group_change w w' ix g.

Section GroupChanges.
Context {F : FixedOps} {L : FixedLaws F} {T : TokenSdk} {O : OracleSdk} {R : Runtime}.

(** An instruction that stores one group. *)
Lemma stored_group_change w ix g gr :
  group_change w (set_group g gr w) ix g →
  ∀ j, groups (set_group g gr w) !! j = groups w !! j ∨ group_change w (set_group g gr w) ix j.
Proof.
  intros H j. destruct (decide (j = g)) as [->|]; [by right|left]. by apply lookup_insert_ne.
Qed.

Lemma groups_after w clock tx ix w' :
  marginfi w clock tx ix = Ok w' → ∀ g, groups w' !! g = groups w !! g ∨ group_change w w' ix g.
Proof.
  intros H. pose proof (ix_frame _ _ _ _ _ H) as Hu.
  destruct ix; try (intros g; left; by first [destruct Hu as [-> _] | destruct Hu as (_ & -> & _)
                                             | destruct Hu as (_ & _ & ->)]);
    clear Hu; cbn [marginfi] in H.
  - apply initialize_group_ok in H as (Hn & gr & -> & Ha). apply stored_group_change.
    eapply gc_opened; [done|apply lookup_insert_eq|by rewrite Ha].
  - apply configure_ok in H as (gr & a & Hg & -> & ->). apply stored_group_change.
    eapply gc_admin; [done..|apply lookup_insert_eq].
  - apply propagate_fee_ok in H as (gr & fs & Hg & Hfs & ->). apply stored_group_change.
    eapply gc_fees; [done..|apply lookup_insert_eq].
  - apply config_group_fee_ok in H as (gr & fs & Hg & Hfs & <- & ->). apply stored_group_change.
    eapply gc_flags; [done..|apply lookup_insert_eq].
Qed.

Lemma fee_state_after w clock tx ix w' :
  marginfi w clock tx ix = Ok w' →
  fee_state w' = fee_state w ∨
  (fee_state w = None ∧ FEE_STATE_PAYER ∈ ix_signers ix) ∨
  (∃ fs, fee_state w = Some fs ∧ global_fee_admin fs ∈ ix_signers ix).
Proof.
  intros H. pose proof (ix_frame _ _ _ _ _ H) as Hu.
  destruct ix; try (left; by first [destruct Hu as [_ ->] | destruct Hu as (_ & _ & ->)]);
    clear Hu; cbn [marginfi] in H; right.
  - apply initialize_fee_state_ok in H as (-> & ? & _). left. set_solver.
  - apply edit_fee_state_ok in H as (fs & ? & ? & <- & _). right. exists fs. set_solver.
Qed.
End GroupChanges.

(** ** Reachable worlds *)
Section Reachability.
Context {F : FixedOps} {T : TokenSdk} {O : OracleSdk} {R : Runtime}.

(** The program does not own anything yet. *)
Record genesis (w : World) : Prop := {
  gen_banks : banks w = ∅; gen_accounts : accounts w = ∅; gen_groups : groups w = ∅;
  gen_fee_state : fee_state w = None; gen_range : in_range w
}.
(** One instruction of the program succeeds, or other programs move tokens and
    lamports and change mints. *)
Inductive step (w w' : World) : Prop :=
| step_ix clock tx ix :
    ix_amounts_ok ix → marginfi w clock tx ix = Ok w' → in_range w' → step w w'
| step_env ts ms ls :
    w' = mkWorld (banks w) (accounts w) (groups w) (fee_state w) ts ms ls → in_range w' → step w w'.
Definition reachable (w : World) : Prop := ∃ w0, genesis w0 ∧ rtc step w0 w.
End Reachability.

Section Invariant.
Context {F : FixedOps} {L : FixedLaws F} {T : TokenSdk} {O : OracleSdk} {R : Runtime} {PN : PricesNonneg O}.

Lemma ix_configs w clock tx ix w' :
  valid_configs w → marginfi w clock tx ix = Ok w' → valid_configs w'.
Proof.
  intros Hv H k b' Hb'. destruct (banks_after _ _ _ _ _ H k) as [E|Hc]; [rewrite E in Hb'; eauto|].
  destruct Hc as [b b1 Hb E Hi|b gr _ E Hval _ _|b b1 gr f cfg r e m Hb E _ _ Hcfg ->];
    rewrite E in Hb'; injection Hb' as <-.
  - rewrite (identity_config _ _ Hi). eauto.
  - done.
  - simpl. destruct Hcfg as [?|Heq]; [done|]. rewrite Heq. eauto.
Qed.

(** A bank stays in its group. *)
Lemma bank_group_kept w clock tx ix w' k b' :
  marginfi w clock tx ix = Ok w' → banks w' !! k = Some b' →
  banks w !! k = None ∨ ∃ b, banks w !! k = Some b ∧ Bank.group b' = Bank.group b.
Proof.
  intros H Hb'. destruct (banks_after _ _ _ _ _ H k) as [E|Hc]; [rewrite E in Hb'; eauto|].
  destruct Hc as [b b1 Hb E Hi|b gr E _ _ _ _|b b1 gr f cfg r e m Hb E _ _ _ ->]; [|by left|];
    rewrite E in Hb'; injection Hb' as <-; right; exists b; split; try done. by apply identity_group.
Qed.

(** An instruction that moves no value leaves every position where it was. *)
Lemma change_holds w w' tx ix a m' k :
  class_of ix ≠ CValue → account_change w w' tx ix a → accounts w' !! a = Some m' → holds m' k →
  ∃ m, accounts w !! a = Some m ∧ holds m k ∧ MarginfiAccount.group m' = MarginfiAccount.group m.
Proof.
  intros Hc H Ha Hk. destruct H as [m m1 Hm E Hmv _ | g auth _ _ E | m _ E _ _ _ | m m1 c _ _ -> _ _
    | m m1 g gr flag admin Hm E _ _ _ _ _ Hf | m g new Hm _ _ _ E | m idx Hm _ _ _ E | m rest Hm _ E];
    try (by destruct Hc); rewrite ?E in Ha; try discriminate Ha; try injection Ha as <-;
    try (exists m; by split_and!).
  - by destruct ix; try destruct Hmv; destruct Hc.
  - by destruct (zeroed_holds _ _ _ Hk).
  - exists m. by destruct Hf as [-> | ->].
Qed.

(** What the account's positions were before the instruction. *)
Lemma holds_after w clock tx ix w' a m' k :
  marginfi w clock tx ix = Ok w' → accounts w' !! a = Some m' → holds m' k →
  (∃ m, accounts w !! a = Some m ∧ holds m k ∧ MarginfiAccount.group m' = MarginfiAccount.group m) ∨
  (∃ b, banks w !! k = Some b ∧ Bank.group b = MarginfiAccount.group m').
Proof.
  intros H Ha Hk. pose proof (ix_frame _ _ _ _ _ H) as Hf.
  assert (∀ touched w3 m, moves touched w w3 → accounts w3 !! a = Some m → holds m k →
     (∃ m0, accounts w !! a = Some m0 ∧ holds m0 k ∧ MarginfiAccount.group m = MarginfiAccount.group m0) ∨
     (∃ b, banks w !! k = Some b ∧ Bank.group b = MarginfiAccount.group m)) as Hmv.
  { intros touched w3 m M Ha3 Hk3. destruct (mv_positions _ _ _ M a m k Ha3 Hk3) as [(m1 & Hm & ?)|?]; [left|by right].
    destruct (moves_account _ _ _ _ _ M Ha3) as (m0 & ? & Hh). det_ok. exists m1.
    split_and!; try done. by apply header_group. }
  destruct (moves_value ix) as [touched|] eqn:Hv.
  { eapply Hmv; [by eapply value_moves|done..]. }
  destruct (decide (class_of ix = CValue)) as [Hc|Hc].
  - destruct ix; try discriminate Hv; try discriminate Hc.
    apply bankruptcy_moves in H as (w3 & m1 & M & Hm1 & ->). simpl in Ha.
    apply lookup_insert_Some in Ha as [[<- <-]|[_ Ha]]; [|by eapply Hmv].
    by destruct (Hmv _ _ _ M Hm1 Hk) as [?|?]; [left|right].
  - left. destruct (accounts_after _ _ _ _ _ H a) as [E|Hch]; [|by eapply change_holds].
    rewrite E in Ha. eauto.
Qed.

Lemma ix_groups w clock tx ix w' :
  books_balance w → positions_in_group w → marginfi w clock tx ix = Ok w' → positions_in_group w'.
Proof.
  intros Hb Hg H a m' k b' Ha Hk Hb'.
  destruct (holds_after _ _ _ _ _ _ _ _ H Ha Hk) as [(m & Hm & Hh & ->)|(b & Hkb & <-)];
    destruct (bank_group_kept _ _ _ _ _ _ _ H Hb') as [Hn|(b0 & Hb0 & ->)].
  - destruct Hh as (p & [i Hi]%list_elem_of_lookup & Hp & <-).
    destruct (books_positions _ Hb _ _ _ _ Hm Hi Hp) as [? ?]. congruence.
  - by eapply Hg.
  - congruence.
  - congruence.
Qed.

Lemma ix_invariant w clock tx ix w' :
  invariant w → in_range w → in_range w' → ix_amounts_ok ix → marginfi w clock tx ix = Ok w' → invariant w'.
Proof.
  intros [Hb Hc Hg] Hr Hr' Hu H.
  split; [by eapply ix_books|by eapply ix_configs|by eapply ix_groups].
Qed.
End Invariant.

(** ** The theorems *)
Section Theorems.
Context {F : FixedOps} {L : FixedLaws F} {T : TokenSdk} {O : OracleSdk} {R : Runtime}.

(** Once disabled, an account stays disabled. *)
Lemma change_disabled w w' tx ix a m m' :
  account_change w w' tx ix a → accounts w !! a = Some m → accounts w' !! a = Some m' →
  MarginfiAccount.get_flag m DISABLED_FLAG = true → MarginfiAccount.get_flag m' DISABLED_FLAG = true.
Proof.
  change DISABLED_FLAG with (2 ^ 0).
  intros H Hm Hm' Hd. destruct H as [m0 m1 ? E _ Hh | g auth _ ? E | m0 _ E _ _ _ | m0 m1 c ? Hh _ _ E
    | m0 m1 g gr flag admin ? E _ _ _ Hok _ Hf' | m0 g new ? _ _ _ E | m0 idx ? _ _ _ E | m0 rest ? _ E];
    rewrite E in Hm'; try discriminate Hm'; injection Hm' as <-; det_ok.
  - by rewrite (header_flag _ _ _ Hh).
  - congruence.
  - change DISABLED_FLAG with (2 ^ 0). by rewrite MarginfiAccount.set_flag_get, orb_true_r by lia.
  - pose proof (flag_can_be_set_bits flag 0 Hok ltac:(by left)) as Hb.
    destruct Hf' as [-> | ->]; rewrite ?set_flag_bit, ?unset_flag_bit, Hb, Hd by lia; done.
  - change TRANSFER_AUTHORITY_ALLOWED_FLAG with (2 ^ 3).
    rewrite MarginfiAccount.unset_flag_get, andb_true_r by lia. done.
  - change IN_FLASHLOAN_FLAG with (2 ^ 1). by rewrite MarginfiAccount.set_flag_get, orb_false_r by lia.
  - change IN_FLASHLOAN_FLAG with (2 ^ 1). by rewrite MarginfiAccount.unset_flag_get, andb_true_r by lia.
Qed.

(** C3: Whatever instruction runs, an existing account keeps its
    group, and once disabled it stays disabled.  Its authority only changes with the old
    authority's signature, on an account that is not disabled and whose transfer
    flag the group's admin has set.  Its positions only change with the
    authority's signature on an account that is not disabled, or when it settles
    emissions, is part of a liquidation (the liquidator having signed) or is
    declared bankrupt.  Its flags only change with the signature of the authority
    or of the group's admin, or by a bankruptcy.  It only disappears when its authority closes it, not
    disabled and with every position below the empty-balance threshold. *)
Theorem account_access_control w clock tx ix w' :
  marginfi w clock tx ix = Ok w' → ∀ a m, accounts w !! a = Some m →
  let signed := MarginfiAccount.authority m ∈ ix_signers ix in
  let enabled := MarginfiAccount.get_flag m DISABLED_FLAG = false in
  let bankrupted := ∃ c, ix = IxHandleBankruptcy c ∧ a = hb_marginfi_account c in
  match accounts w' !! a with
  | None =>
      ix = IxAccountClose a (MarginfiAccount.authority m) ∧ enabled ∧
      ∀ b, b ∈ MarginfiAccount.lending_account m →
        Balance.asset_shares b < EMPTY_BALANCE_THRESHOLD ∧
        Balance.liability_shares b < EMPTY_BALANCE_THRESHOLD
  | Some m' =>
      MarginfiAccount.group m' = MarginfiAccount.group m ∧
      (MarginfiAccount.authority m' ≠ MarginfiAccount.authority m →
         signed ∧ enabled ∧ MarginfiAccount.get_flag m TRANSFER_AUTHORITY_ALLOWED_FLAG = true) ∧
      (MarginfiAccount.lending_account m' ≠ MarginfiAccount.lending_account m →
         (signed ∧ enabled) ∨ bankrupted ∨ (∃ bank, ix = IxSettleEmissions a bank) ∨
         (∃ c q, ix = IxLiquidate c q ∧
            (a = lq_liquidatee_marginfi_account c ∨ a = lq_liquidator_marginfi_account c ∧ signed))) ∧
      (MarginfiAccount.account_flags m' ≠ MarginfiAccount.account_flags m →
         signed ∨ bankrupted ∨
         (∃ gr, groups w !! MarginfiAccount.group m = Some gr ∧ MarginfiGroup.admin gr ∈ ix_signers ix)) ∧
      (¬ enabled → MarginfiAccount.get_flag m' DISABLED_FLAG = true)
  end.
Proof.
  intros H a m Hm signed enabled bankrupted.
  destruct (accounts_after _ _ _ _ _ H a) as [E|Hc].
  { rewrite E, Hm. split_and!; try done. by intros ?%not_false_iff_true. }
  assert (∀ m', accounts w' !! a = Some m' → ¬ enabled → MarginfiAccount.get_flag m' DISABLED_FLAG = true) as Hd.
  { intros m' Hm' ?%not_false_iff_true. by eapply change_disabled. }
  destruct Hc as [m0 m1 ? E Hmv Hh | g auth _ ? E | m0 ? E -> He Hpos | m0 m1 c ? Hh Hix Ha E
    | m0 m1 g gr flag admin ? E Hg Ha Hmg Hok Hix Hf | m0 g new ? -> Hf He E | m0 idx ? -> _ He E | m0 rest ? -> E];
    det_ok; rewrite E; try specialize (Hd _ E).
  - pose proof (f_equal MarginfiAccount.authority Hh : MarginfiAccount.authority m1 = MarginfiAccount.authority m).
    pose proof (f_equal MarginfiAccount.account_flags Hh : MarginfiAccount.account_flags m1 = MarginfiAccount.account_flags m).
    split_and!; [by apply header_group|done| |done|done]. intros _.
    destruct ix; try destruct Hmv; destruct_and?; eauto 10.
  - congruence.
  - by split_and!.
  - pose proof (f_equal MarginfiAccount.authority Hh : MarginfiAccount.authority m1 = MarginfiAccount.authority m).
    assert bankrupted by (by exists c). split_and!; [exact (header_group _ _ Hh)|done|auto|auto|done].
  - subst. assert (MarginfiGroup.admin gr ∈ ix_signers ix) by (destruct Hix as [-> | ->]; simpl; set_solver).
    destruct Hf as [-> | ->]; split_and!; try done; intros _; right; right; eauto.
  - assert signed by (unfold signed; simpl; set_solver). split_and!; try done; auto.
  - assert signed by (unfold signed; simpl; set_solver). split_and!; try done; auto.
  - assert signed by (unfold signed; simpl; set_solver). split_and!; try done; auto.
Qed.

(** What identifies a bank: its mint, its group and its vaults. *)
Definition bank_anchor (b : Bank) : Pubkey * Z * Pubkey * (Pubkey * Pubkey * Pubkey) :=
  (Bank.mint b, Bank.mint_decimals b, Bank.group b,
   (Bank.liquidity_vault b, Bank.insurance_vault b, Bank.fee_vault b)).

Lemma banks_access w clock tx ix w' k b :
  marginfi w clock tx ix = Ok w' → banks w !! k = Some b →
  ∃ b', banks w' !! k = Some b' ∧ bank_anchor b' = bank_anchor b ∧
    (bank_identity b' ≠ bank_identity b →
     ∃ gr, groups w !! Bank.group b = Some gr ∧ MarginfiGroup.admin gr ∈ ix_signers ix).
Proof.
  intros H Hb. destruct (banks_after _ _ _ _ _ H k) as [E|Hc]; [exists b; by rewrite E|].
  destruct Hc as [b0 b1 ? E Hi|b0 gr Hn _ _ _ _|b0 b1 gr f cfg r e m ? E Hg Ha _ ->];
    [| congruence |]; det_ok; eexists; (split; [exact E|]).
  - split; [exact (f_equal bank_anchor Hi)|]. by intros [].
  - split; [done|]. eauto.
Qed.

(** C4: Whatever instruction runs, a bank never disappears and
    keeps its mint, group and vaults; its configuration, flags and emission
    settings only change with the signature of its group's admin, who also signs
    for every new bank, whose configuration is valid.  A group's admin only
    changes with the old admin's signature, its flags only with the global fee
    admin's, and its fee cache only becomes a copy of the fee state; a new group's
    admin has signed.  The fee state is created by the fixed payer and edited by
    the global fee admin. *)
Theorem admin_access_control w clock tx ix w' :
  marginfi w clock tx ix = Ok w' →
  let signed k := k ∈ ix_signers ix in
  let by_admin g := ∃ gr, groups w !! g = Some gr ∧ signed (MarginfiGroup.admin gr) in
  let by_fee_admin := ∃ fs, fee_state w = Some fs ∧ signed (global_fee_admin fs) in
  (∀ k b, banks w !! k = Some b → ∃ b', banks w' !! k = Some b' ∧ bank_anchor b' = bank_anchor b ∧
     (bank_identity b' ≠ bank_identity b → by_admin (Bank.group b))) ∧
  (∀ k b', banks w !! k = None → banks w' !! k = Some b' →
     by_admin (Bank.group b') ∧ BankConfig.valid (Bank.config b')) ∧
  (∀ g gr, groups w !! g = Some gr → ∃ gr', groups w' !! g = Some gr' ∧
     (MarginfiGroup.admin gr' ≠ MarginfiGroup.admin gr → by_admin g) ∧
     (MarginfiGroup.group_flags gr' ≠ MarginfiGroup.group_flags gr → by_fee_admin) ∧
     (MarginfiGroup.fee_state_cache gr' ≠ MarginfiGroup.fee_state_cache gr →
        ∃ fs, fee_state w = Some fs ∧ MarginfiGroup.fee_state_cache gr' = cache_of_fee_state fs)) ∧
  (∀ g gr', groups w !! g = None → groups w' !! g = Some gr' → signed (MarginfiGroup.admin gr')) ∧
  (fee_state w' ≠ fee_state w → by_fee_admin ∨ fee_state w = None ∧ signed FEE_STATE_PAYER).
Proof.
  intros H signed by_admin by_fee_admin. split_and!.
  - intros k b. by eapply banks_access.
  - intros k b' Hn Hb'. destruct (banks_after _ _ _ _ _ H k) as [E|Hc]; [congruence|].
    destruct Hc as [b0 b1 ? E Hi|b0 gr _ E Hv Hg Ha|b0 b1 gr f cfg r e m ? E Hg Ha _ ->]; [congruence| |congruence].
    det_ok. split; [|done]. by exists gr.
  - intros g gr Hg. destruct (groups_after _ _ _ _ _ H g) as [E|Hc]; [exists gr; by rewrite E|].
    destruct Hc as [? ? ? ? ?|gr0 config a ? -> E|gr0 fs fsk ? Hfs -> E|gr0 fs fsk flag ? Hfs -> E];
      [congruence|..]; det_ok; eexists; (split; [exact E|]); split_and!; try done; intros _.
    + exists gr. split; [done|]. unfold signed. set_solver.
    + by exists fs.
    + exists fs. split; [done|]. unfold signed. set_solver.
  - intros g gr' Hn Hg. destruct (groups_after _ _ _ _ _ H g) as [E|Hc]; [congruence|].
    destruct Hc as [gr0 fs ? E ->| | |]; [|congruence..]. det_ok. unfold signed. set_solver.
  - intros Hne. destruct (fee_state_after _ _ _ _ _ H) as [?|[[? ?]|?]]; [done|by right|by left].
Qed.

Lemma run_ends_ahead clock sysvar ts : ∀ i w w',
  Forall2 shown_as (drop i sysvar) ts → ends_ahead sysvar i w →
  run_from w clock sysvar i ts = Ok w' → ends_ahead sysvar (length sysvar) w'.
Proof.
  induction ts as [|t ts IH]; simpl; intros i w w' Hs Ha H.
  - injection H as <-. apply Forall2_nil_inv_r in Hs.
    intros a Hf. destruct (Ha a Hf) as (j & e & Hj & He & _). exfalso.
    assert (drop i sysvar !! (j - i)%nat = Some e) as Hd by (rewrite lookup_drop; by replace (i + (j - i))%nat with j by lia).
    by rewrite Hs in Hd.
  - apply bind_ok in H as (w1 & H1 & H).
    destruct (drop i sysvar) as [|e es] eqn:Hd; [by inversion Hs|].
    apply Forall2_cons_1 in Hs as [He Hs].
    assert (sysvar !! i = Some e) as Hi
      by (rewrite <- (Nat.add_0_r i), <- lookup_drop, Hd; done).
    eapply (IH (S i)); [|by eapply top_level_ends_ahead|done].
    by rewrite <- Nat.add_1_r, <- drop_drop, Hd.
Qed.

(** C5: A transaction that succeeds leaves no account inside a
    flashloan when it started with none, whatever instructions it runs, directly or
    through other programs: the checks of [start_flashloan] on the instructions
    sysvar make the end instruction run later in the same transaction. *)
Theorem flashloans_end_in_transaction w clock sysvar ts w' :
  Forall2 shown_as sysvar ts → (∀ a, ¬ in_flashloan w a) →
  run_transaction w clock sysvar ts = Ok w' → ∀ a, ¬ in_flashloan w' a.
Proof.
  intros Hs Hn H a Hf.
  destruct (run_ends_ahead _ _ _ 0 _ _ Hs (λ a Ha, False_ind _ (Hn a Ha)) H a Hf) as (j & e & Hj & He & _).
  apply lookup_lt_Some in He. lia.
Qed.

Lemma genesis_invariant w : genesis w → invariant w.
Proof.
  intros [Eb Ea _ _ _].
  assert (∀ k b, banks w !! k = Some b → False) as Hb by (by rewrite Eb).
  assert (∀ a m, accounts w !! a = Some m → False) as Ha by (by rewrite Ea).
  split; [split|..].
  - intros k b H. by destruct (Hb k b).
  - intros a m H. by destruct (Ha a m).
  - intros a m i b H. by destruct (Ha a m).
  - intros side k b H. by destruct (Hb k b).
  - intros k b H. by destruct (Hb k b).
  - intros a m k b H. by destruct (Ha a m).
Qed.

Lemma step_invariant {PN : PricesNonneg O} w w' : in_range w → step w w' → invariant w → invariant w'.
Proof.
  intros Hr [clock tx ix Hu H Hr'|ts ms ls -> Hr'] Hi; [by eapply ix_invariant|].
  destruct Hi as [Hb Hc Hg]. split; [|done..]. by eapply books_ext.
Qed.

Lemma reach_invariant {PN : PricesNonneg O} w : reachable w → in_range w ∧ invariant w.
Proof.
  intros (w0 & H0 & Hs).
  assert (in_range w0 ∧ invariant w0) as Hi by (split; [apply H0|by apply genesis_invariant]).
  clear H0. induction Hs as [|w0 w1 w2 H _ IH]; [done|]. apply IH. destruct Hi as [Hr Hi].
  split; [by destruct H|by eapply step_invariant].
Qed.

End Theorems.

(** ** Witnesses *)
#[local] Existing Instance i80f48.
#[local] Existing Instance demo_token_sdk.
#[local] Existing Instance demo_oracle_sdk.
#[local] Existing Instance demo_runtime.

(** Replaying instructions, checking the ranges on the way. *)
Definition in_rangeb (w : World) : bool :=
  bool_decide (map_Forall (λ _ b, 0 ≤ Bank.asset_share_value b) (banks w)) &&
  bool_decide (map_Forall (λ _ t, 0 ≤ ta_amount t ∧ ta_amount t ≤ U64_MAX) (tokens w)) &&
  bool_decide (map_Forall (λ _ g, 0 ≤ program_fee_rate (MarginfiGroup.fee_state_cache g) ∧
                                  program_fee_rate (MarginfiGroup.fee_state_cache g) ≤ ONE) (groups w)).
Fixpoint replay (w : World) (clock : Clock) (tx : TxContext) (ixs : list MarginfiIx) : option World :=
  match ixs with
  | [] => Some w
  | ix :: ixs =>
      match marginfi w clock tx ix with
      | Ok w' => if in_rangeb w' then replay w' clock tx ixs else None
      | _ => None
      end
  end.

Lemma in_rangeb_in_range w : in_rangeb w = true → in_range w.
Proof.
  unfold in_rangeb. intros [[H1%bool_decide_eq_true H2%bool_decide_eq_true]%andb_prop H3%bool_decide_eq_true]%andb_prop.
  split; [exact H1| |]; intros k x Hx; [exact (H2 k x Hx)|exact (H3 k x Hx)].
Qed.
Lemma replay_steps clock tx ixs : Forall ix_amounts_ok ixs → ∀ w w',
  replay w clock tx ixs = Some w' → rtc step w w'.
Proof.
  induction 1 as [|ix ixs Hu _ IH]; simpl; intros w w' H; [injection H as <-; constructor|].
  destruct (marginfi w clock tx ix) as [w1| |] eqn:H1; [|done..].
  destruct (in_rangeb w1) eqn:Hr; [|done]. eapply rtc_l; [|by apply IH].
  by eapply step_ix; [| |apply in_rangeb_in_range].
Qed.

Definition demo_tx : TxContext := Build_TxContext [] 0 true.
Definition demo_genesis : World :=
  mkWorld ∅ ∅ ∅ None (tokens (demo_world 30)) (mints demo_admin_world) (lamports demo_admin_world).
Definition demo_script : list MarginfiIx :=
  [IxInitFeeState FEE_STATE_PAYER 2000 7 8 0 0 (SCALE / 10);
   IxGroupInitialize 1 5 2000;
   IxAddBank demo_add demo_compact;
   IxAccountInitialize 1 800 70;
   IxDeposit (demo_inflow 700) 50000000;
   IxSetAccountFlag 1 800 5 8].
Definition demo_reached : World := default demo_genesis (replay demo_genesis demo_clock demo_tx demo_script).

Lemma demo_replays : replay demo_genesis demo_clock demo_tx demo_script = Some demo_reached.
Proof.
  unfold demo_reached. destruct (replay _ _ _ _) eqn:E; [done|].
  assert (bool_decide (is_Some (replay demo_genesis demo_clock demo_tx demo_script)) = true) as H
    by (vm_compute; reflexivity).
  apply bool_decide_eq_true in H as [? H]. congruence.
Qed.


Lemma account_access_control_witness :
  let w' := ok_value (demo_world 10) (marginfi (demo_world 10) demo_clock demo_tx (IxSetAccountFlag 1 800 5 8)) in
  match accounts w' !! 800 with
  | Some m' => MarginfiAccount.account_flags m' = 8 ∧
      ∃ gr, groups (demo_world 10) !! 1 = Some gr ∧ MarginfiGroup.admin gr ∈ [5]
  | None => False
  end.
Proof.
  intros w'.
  pose proof (account_access_control (F := i80f48) (demo_world 10) demo_clock demo_tx (IxSetAccountFlag 1 800 5 8)
                w' ltac:(apply ok_value_ok; vm_compute; reflexivity) 800 (RiskEngine.demo_account 10) eq_refl) as H.
  assert (accounts w' !! 800 = Some (MarginfiAccount.set_flag (RiskEngine.demo_account 10) 8)) as E
    by (vm_compute; reflexivity).
  cbv zeta in H. rewrite E in H |- *. destruct H as (_ & _ & _ & Hf & _).
  split; [reflexivity|]. destruct Hf as [Hs|[(c & [=] & _)|Hg]]; [discriminate| |exact Hg].
  exfalso. apply list_elem_of_singleton in Hs. discriminate.
Defined.

Lemma admin_access_control_witness :
  let w' := ok_value (demo_world 10) (marginfi (demo_world 10) demo_clock demo_tx (IxPropagateFee 2000 1)) in
  ∃ gr, groups w' !! 1 = Some gr ∧ MarginfiGroup.admin gr = 5 ∧ MarginfiGroup.group_flags gr = 0.
Proof.
  intros w'.
  pose proof (admin_access_control (F := i80f48) (demo_world 10) demo_clock demo_tx (IxPropagateFee 2000 1) w'
                ltac:(apply ok_value_ok; vm_compute; reflexivity)) as H.
  destruct H as (_ & _ & Hg & _ & _).
  destruct (Hg 1 (MarginfiGroup.with_admin 5 MarginfiGroup.zeroed) eq_refl) as (gr & E & Ha & Hf & _).
  exists gr. split; [exact E|]. split.
  - destruct (decide (MarginfiGroup.admin gr = 5)) as [->|Hne]; [reflexivity|].
    destruct (Ha Hne) as (? & _ & Hs). exfalso. by apply not_elem_of_nil in Hs.
  - destruct (decide (MarginfiGroup.group_flags gr = 0)) as [->|Hne]; [reflexivity|].
    destruct (Hf Hne) as (? & _ & Hs). exfalso. by apply not_elem_of_nil in Hs.
Defined.

(** A flashloan that starts in the first instruction and ends in the third. *)
Definition demo_flash_world : World :=
  let w := demo_world 10 in
  set_account 800 (MarginfiAccount.with_account_flags FLASHLOAN_ENABLED_FLAG (RiskEngine.demo_account 10)) w.
Definition demo_end_flashloan : MarginfiIx := IxEndFlashloan 800 70 RiskEngine.demo_remaining.
Definition demo_flash_sysvar : list Instruction :=
  [mkInstruction 1000 [] [800]; mkInstruction 77 [] [];
   mkInstruction 1000 end_flashloan_discriminator [800; 70]].
Definition demo_flash_tx : list TopLevel :=
  [Direct (IxStartFlashloan 800 70 2); Foreign [IxBorrow (demo_outflow 610) 1000000]; Direct demo_end_flashloan].
Definition demo_flash_end : MarginfiResult World :=
  run_transaction demo_flash_world demo_clock demo_flash_sysvar demo_flash_tx.

Lemma flashloans_end_in_transaction_witness :
  is_ok demo_flash_end = true ∧ ∀ a, ¬ in_flashloan (ok_value demo_flash_world demo_flash_end) a.
Proof.
  split; [vm_compute; reflexivity|].
  apply (flashloans_end_in_transaction (F := i80f48) demo_flash_world demo_clock demo_flash_sysvar demo_flash_tx).
  - repeat constructor; try discriminate. intros _. by eexists 800, 70, _.
  - intros a (m & Hm & Hf). change (accounts demo_flash_world) with
      (<[800 := MarginfiAccount.with_account_flags FLASHLOAN_ENABLED_FLAG (RiskEngine.demo_account 10)]>
         (accounts (demo_world 10))) in Hm. apply lookup_insert_Some in Hm as [[_ <-]|[_ Hm]]; [discriminate Hf|].
    apply lookup_two in Hm as [[_ ->]|[_ ->]]; discriminate Hf.
  - apply ok_value_ok. vm_compute. reflexivity.
Defined.
