(* ===== verification/Typed.v ===== *)
(** * Machine widths

    The model computes with unbounded integers.  This file shows that what the
    program stores fits the fields of its accounts: every fixed-point value is an
    [I80F48], every counter, flag word, limit and timestamp has the width its
    field declares, and the arrays have their length.  The predicates follow the
    records of the accounts; [world_typed] says it of all of them, and every
    instruction with arguments of their declared types keeps it. *)
From S2P Require Import Prelude Errors Fixed Constants Utils GroupState InterestRate BankState Price Account BankAccount Risk World UserIx LiquidateIx BankruptcyIx GroupIx Frames System.

Definition is_u8 (z : Z) : Prop := 0 ≤ z < 2 ^ 8.
Definition is_u16 (z : Z) : Prop := 0 ≤ z < 2 ^ 16.
Definition is_u32 (z : Z) : Prop := 0 ≤ z < 2 ^ 32.

(** ** The accounts *)
(** The fixed-point fields of each structure, all of them [WrappedI80F48]. *)
Definition rate_values (c : InterestRateConfig) : list I80F48 :=
  [InterestRateConfig.optimal_utilization_rate c; InterestRateConfig.plateau_interest_rate c;
   InterestRateConfig.max_interest_rate c; InterestRateConfig.insurance_fee_fixed_apr c;
   InterestRateConfig.insurance_ir_fee c; InterestRateConfig.protocol_fixed_fee_apr c;
   InterestRateConfig.protocol_ir_fee c; InterestRateConfig.protocol_origination_fee c].
Definition weight_values (c : BankConfig) : list I80F48 :=
  [BankConfig.asset_weight_init c; BankConfig.asset_weight_maint c;
   BankConfig.liability_weight_init c; BankConfig.liability_weight_maint c].
Definition pool_values (b : Bank) : list I80F48 :=
  [Bank.asset_share_value b; Bank.liability_share_value b; Bank.total_asset_shares b;
   Bank.total_liability_shares b; Bank.collected_insurance_fees_outstanding b;
   Bank.collected_group_fees_outstanding b; Bank.collected_program_fees_outstanding b;
   Bank.emissions_remaining b].
Definition bank_values (b : Bank) : list I80F48 :=
  pool_values b ++ weight_values (Bank.config b) ++ rate_values (BankConfig.interest_rate_config (Bank.config b)).
Definition balance_values (b : Balance) : list I80F48 :=
  [Balance.asset_shares b; Balance.liability_shares b; Balance.emissions_outstanding b].

Record config_typed (c : BankConfig) : Prop := {
  ct_weights : Forall is_i80f48 (weight_values c);
  ct_rates : Forall is_i80f48 (rate_values (BankConfig.interest_rate_config c));
  ct_limits : Forall is_u64 [BankConfig.deposit_limit c; BankConfig.borrow_limit c;
                             BankConfig.total_asset_value_init_limit c];
  ct_age : is_u16 (BankConfig.oracle_max_age c);
  ct_keys : Z.of_nat (length (BankConfig.oracle_keys c)) = MAX_ORACLE_KEYS
}.
Record bank_typed (b : Bank) : Prop := {
  bt_values : Forall is_i80f48 (pool_values b);
  bt_config : config_typed (Bank.config b);
  bt_words : Forall is_u64 [Bank.flags b; Bank.emissions_rate b];
  bt_bytes : Forall is_u8 [Bank.mint_decimals b; Bank.liquidity_vault_bump b;
    Bank.liquidity_vault_authority_bump b; Bank.insurance_vault_bump b;
    Bank.insurance_vault_authority_bump b; Bank.fee_vault_bump b; Bank.fee_vault_authority_bump b];
  bt_time : is_i64 (Bank.last_update b)
}.
Record balance_typed (b : Balance) : Prop := {
  bal_values : Forall is_i80f48 (balance_values b);
  bal_time : is_u64 (Balance.last_update b)
}.
Record account_typed (m : MarginfiAccount) : Prop := {
  mt_slots : length (MarginfiAccount.lending_account m) = MAX_LENDING_ACCOUNT_BALANCES;
  mt_balances : Forall balance_typed (MarginfiAccount.lending_account m);
  mt_flags : is_u64 (MarginfiAccount.account_flags m)
}.
Record group_typed (g : MarginfiGroup) : Prop := {
  gt_flags : is_u64 (MarginfiGroup.group_flags g);
  gt_fees : Forall is_i80f48 [program_fee_fixed (MarginfiGroup.fee_state_cache g);
                              program_fee_rate (MarginfiGroup.fee_state_cache g)]
}.
Record fee_state_typed (f : FeeState) : Prop := {
  ft_flat : is_u32 (bank_init_flat_sol_fee f);
  ft_bump : is_u8 (bump_seed f);
  ft_fees : Forall is_i80f48 [fs_program_fee_fixed f; fs_program_fee_rate f]
}.

(** Every account of the program; the mints are the token program's. *)
Record world_typed {T : TokenSdk} (w : World) : Prop := {
  wt_banks k b : banks w !! k = Some b → bank_typed b;
  wt_accounts a m : accounts w !! a = Some m → account_typed m;
  wt_groups g gr : groups w !! g = Some gr → group_typed gr;
  wt_fee_state f : fee_state w = Some f → fee_state_typed f;
  wt_mints k m : mints w !! k = Some m → is_u8 (mint_dec m)
}.

(** ** Arguments *)
Definition opt {A} (P : A → Prop) (o : option A) : Prop := ∀ a, o = Some a → P a.

Record rates_opt_typed (o : InterestRateConfig.InterestRateConfigOpt) : Prop := {
  ro_values : Forall (opt is_i80f48) [InterestRateConfig.o_optimal_utilization_rate o;
    InterestRateConfig.o_plateau_interest_rate o; InterestRateConfig.o_max_interest_rate o;
    InterestRateConfig.o_insurance_fee_fixed_apr o; InterestRateConfig.o_insurance_ir_fee o;
    InterestRateConfig.o_protocol_fixed_fee_apr o; InterestRateConfig.o_protocol_ir_fee o]
}.
Record config_opt_typed (o : BankConfig.BankConfigOpt) : Prop := {
  co_weights : Forall (opt is_i80f48) [BankConfig.o_asset_weight_init o; BankConfig.o_asset_weight_maint o;
    BankConfig.o_liability_weight_init o; BankConfig.o_liability_weight_maint o];
  co_limits : Forall (opt is_u64) [BankConfig.o_deposit_limit o; BankConfig.o_borrow_limit o;
    BankConfig.o_total_asset_value_init_limit o];
  co_age : opt is_u16 (BankConfig.o_oracle_max_age o);
  co_oracle : opt (λ c, Z.of_nat (length (oc_keys c)) = MAX_ORACLE_KEYS) (BankConfig.o_oracle o);
  co_rates : opt rates_opt_typed (BankConfig.o_interest_rate_config o)
}.

(** The arguments of an instruction, as Anchor decodes them. *)
Definition ix_typed (ix : MarginfiIx) : Prop :=
  match ix with
  | IxAddBank _ c | IxAddBankWithSeed _ c _ => config_typed (BankConfig.of_compact c)
  | IxConfigureBank _ _ _ o _ => config_opt_typed o
  | IxSetupEmissions _ flags rate total => is_u64 flags ∧ is_u64 rate ∧ is_u64 total
  | IxUpdateEmissions _ flags rate extra => opt is_u64 flags ∧ opt is_u64 rate ∧ opt is_u64 extra
  | IxSetAccountFlag _ _ _ flag | IxUnsetAccountFlag _ _ _ flag | IxConfigGroupFee _ _ _ flag => is_u64 flag
  | IxInitFeeState _ _ _ _ flat fixed rate | IxEditFeeState _ _ _ flat fixed rate =>
      is_u32 flat ∧ is_i80f48 fixed ∧ is_i80f48 rate
  | _ => True
  end.

(** ** Widths of results *)
Lemma zero_width : is_i80f48 ZERO.
Proof. by vm_compute. Qed.
Lemma one_width : is_i80f48 ONE.
Proof. by vm_compute. Qed.
Lemma from_num_width n : is_u64 n → is_i80f48 (from_num n).
Proof. unfold is_u64, U64_MAX, is_i80f48, I80F48_MIN, I80F48_MAX, from_num, SCALE. lia. Qed.
Lemma u64_zero : is_u64 0.
Proof. by vm_compute. Qed.
Lemma u64_bits z : 0 ≤ z → is_u64 z ↔ ∀ i, 64 ≤ i → Z.testbit z i = false.
Proof.
  intros Hz. rewrite <- Z.bounded_iff_bits_nonneg by done. unfold is_u64, U64_MAX. lia.
Qed.
Lemma bad_debt_flag_width : is_u64 PERMISSIONLESS_BAD_DEBT_SETTLEMENT_FLAG.
Proof. by vm_compute. Qed.
Lemma lor_width a b : is_u64 a → is_u64 b → is_u64 (Z.lor a b).
Proof.
  intros Ha Hb. pose proof (proj1 Ha) as Ha0. pose proof (proj1 Hb) as Hb0.
  rewrite u64_bits in Ha, Hb by done. apply u64_bits; [by apply Z.lor_nonneg|].
  intros i Hi. by rewrite Z.lor_spec, Ha, Hb.
Qed.
Lemma land_width a b : is_u64 a → is_u64 (Z.land a b).
Proof.
  intros Ha. pose proof (proj1 Ha) as Ha0. rewrite u64_bits in Ha by done.
  apply u64_bits; [apply Z.land_nonneg; by left|]. intros i Hi. by rewrite Z.land_spec, Ha.
Qed.

Section Widths.
Context {F : FixedOps} {L : FixedLaws F}.
Lemma add_width a b c : checked_add a b = Some c → is_i80f48 c.
Proof. by intros [_ ?]%add_some. Qed.
Lemma sub_width a b c : checked_sub a b = Some c → is_i80f48 c.
Proof. by intros [_ ?]%sub_some. Qed.
Lemma mul_width a b c : checked_mul a b = Some c → is_i80f48 c.
Proof. by intros [_ ?]%mul_err. Qed.
Lemma div_width a b c : checked_div a b = Some c → is_i80f48 c.
Proof.
  destruct (decide (b = 0)) as [->|Hb]; [by rewrite checked_div_zero|].
  destruct (checked_div_spec a b Hb) as (q & _ & ->). by intros [-> ?]%fits_some.
Qed.
Lemma saturating_add_width a b : is_i80f48 (saturating_add a b).
Proof. rewrite saturating_add_spec. unfold is_i80f48, I80F48_MIN, I80F48_MAX. lia. Qed.
Lemma payment_width apr t v p :
  InterestRateCalc.calc_accrued_interest_payment_per_period apr t v = Some p → is_i80f48 p.
Proof.
  unfold InterestRateCalc.calc_accrued_interest_payment_per_period. intros H. InterestRateCalc.inv_opt.
  by eapply mul_width.
Qed.
Lemma collect_fee_width f o r : is_i80f48 o → Bank.collect_fee f o = Ok r → is_i80f48 r.
Proof. unfold Bank.collect_fee. intros Ho H. destruct (_ <? _); inv_res; [by eapply add_width|done]. Qed.
Lemma fee_payment_width out avail paid left : fee_payment out avail = Ok (paid, left) → is_i80f48 left.
Proof. unfold fee_payment. intros H. inv_res. by eapply sub_width. Qed.
End Widths.
Create HintDb widths.
#[export] Hint Resolve zero_width one_width from_num_width u64_zero bad_debt_flag_width lor_width land_width add_width
  sub_width mul_width div_width saturating_add_width payment_width collect_fee_width fee_payment_width
  BankAccountWrapper.i64_as_u64_range : widths.

(** Opens the typing hypotheses, splits the goal into its fields and looks each
    one up. *)
Ltac open_typed :=
  repeat match goal with
  | H : bank_typed _ |- _ => destruct H
  | H : balance_typed _ |- _ => destruct H
  | H : group_typed _ |- _ => destruct H
  | H : fee_state_typed _ |- _ => destruct H
  | H : Forall _ (_ :: _) |- _ => let H' := fresh "W" in apply Forall_cons_1 in H; destruct H as [H' H]
  | H : Forall _ [] |- _ => clear H
  | H : Forall _ (?f _) |- _ => unfold f in H
  end.
Ltac typed :=
  open_typed;
  repeat match goal with
  | |- _ ∧ _ => split
  | |- bank_typed _ => constructor
  | |- balance_typed _ => constructor
  | |- group_typed _ => constructor
  | |- fee_state_typed _ => constructor
  | |- Forall _ (?f _) => unfold f; simpl
  | |- Forall _ (_ :: _) => apply Forall_cons_2
  | |- Forall _ [] => apply Forall_nil_2
  end; simpl in *; eauto with widths.

(** ** Operations on a position *)
Record wrapper_typed (ba : BankAccountWrapper.BankAccountWrapper) : Prop := {
  wr_balance : balance_typed (BankAccountWrapper.balance ba);
  wr_bank : bank_typed (BankAccountWrapper.bank ba)
}.

Section Positions.
Context {F : FixedOps} {L : FixedLaws F}.

Lemma change_assets_typed k x bp k' : Bank.change_asset_shares k x bp = Ok k' → bank_typed k → bank_typed k'.
Proof. unfold Bank.change_asset_shares. intros H Hk. inv_res. destruct (_ && _); inv_res; typed. Qed.
Lemma change_liabs_typed k x bp k' : Bank.change_liability_shares k x bp = Ok k' → bank_typed k → bank_typed k'.
Proof. unfold Bank.change_liability_shares. intros H Hk. inv_res. destruct (_ && _); inv_res; typed. Qed.
Lemma balance_assets_typed b x b' : Balance.change_asset_shares b x = Ok b' → balance_typed b → balance_typed b'.
Proof. unfold Balance.change_asset_shares. intros H Hb. inv_res. typed. Qed.
Lemma balance_liabs_typed b x b' : Balance.change_liability_shares b x = Ok b' → balance_typed b → balance_typed b'.
Proof. unfold Balance.change_liability_shares. intros H Hb. inv_res. typed. Qed.
Lemma empty_typed : balance_typed Balance.empty_deactivated.
Proof. typed. Qed.
Lemma close_typed b b' : Balance.close b = Ok b' → balance_typed b'.
Proof. unfold Balance.close. intros H. inv_res. apply empty_typed. Qed.
Lemma claim_typed ba now ba' :
  BankAccountWrapper.claim_emissions ba now = Ok ba' → is_u64 now → wrapper_typed ba → wrapper_typed ba'.
Proof.
  unfold BankAccountWrapper.claim_emissions. intros H Hn []. inv_res.
  destruct v; inv_res; split; simpl; typed.
Qed.
Lemma insurance_fees_typed v k :
  is_i80f48 v → bank_typed k → bank_typed (Bank.with_collected_insurance_fees_outstanding v k).
Proof. intros. typed. Qed.

Lemma run_typed op ba now ba' :
  BankAccountWrapper.run op ba now = Ok ba' → wrapper_typed ba → wrapper_typed ba'.
Proof.
  destruct op; simpl; intros H Hw;
    [unfold BankAccountWrapper.increase_balance_internal in H
    |unfold BankAccountWrapper.decrease_balance_internal in H
    |unfold BankAccountWrapper.withdraw_all in H |unfold BankAccountWrapper.repay_all in H
    |unfold BankAccountWrapper.close_balance in H
    |by eapply claim_typed; [|apply BankAccountWrapper.i64_as_u64_range|]
    |unfold BankAccountWrapper.settle_emissions_and_get_transfer_amount in H].
  all: inv_res;
    match goal with H : BankAccountWrapper.claim_emissions _ _ = Ok _ |- _ =>
      apply claim_typed in H as []; [|apply BankAccountWrapper.i64_as_u64_range|done] end.
  all: split; simpl; eauto using change_assets_typed, change_liabs_typed, balance_assets_typed,
    balance_liabs_typed, close_typed, insurance_fees_typed, add_width.
  typed.
Qed.

Lemma accrue_interest_typed b now g b' :
  Bank.accrue_interest b now g = Ok b' → is_i64 now → bank_typed b → bank_typed b'.
Proof.
  unfold Bank.accrue_interest. intros H Hn Hb. inv_res. destruct (_ =? 0); inv_res; [done|].
  destruct (_ || _); inv_res; [typed|].
  unfold InterestRateCalc.calc_interest_rate_accrual_state_changes in *. InterestRateCalc.inv_opt.
  simpl in *. typed.
Qed.
End Positions.

(** ** Worlds *)
Section Worlds.
Context {F : FixedOps} {L : FixedLaws F} {T : TokenSdk}.

Lemma set_bank_typed k b w : bank_typed b → world_typed w → world_typed (set_bank k b w).
Proof. intros Hb []. split; simpl; try done. intros j c [[_ <-]|[_ ?]]%lookup_insert_Some; eauto. Qed.
Lemma set_account_typed a m w : account_typed m → world_typed w → world_typed (set_account a m w).
Proof. intros Hm []. split; simpl; try done. intros j c [[_ <-]|[_ ?]]%lookup_insert_Some; eauto. Qed.
Lemma set_group_typed g gr w : group_typed gr → world_typed w → world_typed (set_group g gr w).
Proof. intros Hg []. split; simpl; try done. intros j c [[_ <-]|[_ ?]]%lookup_insert_Some; eauto. Qed.
Lemma set_fee_state_typed f w : fee_state_typed f → world_typed w → world_typed (set_fee_state f w).
Proof. intros Hf []. split; simpl; try done. by intros ? [= <-]. Qed.
Lemma set_tokens_typed ts w : world_typed w → world_typed (set_tokens ts w).
Proof. intros []. by split. Qed.
Lemma set_lamports_typed ls w : world_typed w → world_typed (set_lamports ls w).
Proof. intros []. by split. Qed.
Lemma close_account_typed a w : world_typed w → world_typed (close_account_at a w).
Proof. intros []. split; simpl; try done. intros j c [_ ?]%lookup_delete_Some; eauto. Qed.
Lemma with_flags_typed f m :
  is_u64 f → account_typed m → account_typed (MarginfiAccount.with_account_flags f m).
Proof. intros ? []. by split. Qed.

Lemma accrue_typed w bank group now w' :
  accrue w bank group now = Ok w' → is_i64 now → world_typed w → world_typed w'.
Proof.
  unfold accrue. intros H Hn Hw. inv_res. constraints.
  apply set_bank_typed; [|done]. eapply accrue_interest_typed; [done..|]. by eapply wt_banks.
Qed.

Lemma find_typed (create : bool) bank bk l now i l' w0 :
  (if create then BankAccountWrapper.find_or_create bank bk l now
   else let? '(i, ba) := BankAccountWrapper.find bank bk l in Ok (i, l, ba)) = Ok (i, l', w0) →
  Forall balance_typed l → bank_typed bk →
  length l' = length l ∧ Forall balance_typed l' ∧ wrapper_typed w0.
Proof.
  intros H Hl Hb.
  assert (∀ j b, l !! j = Some b → balance_typed b) as Hin by (intros; by eapply Forall_lookup_1).
  destruct create.
  - unfold BankAccountWrapper.find_or_create in H. destruct (position _ l); inv_res.
    + split_and!; [done..|]. split; eauto.
    + assert (balance_typed (Balance.opened bank (i64_as_u64 now))) as Ho by typed.
      split_and!; [apply length_insert|by apply Forall_insert|by split].
  - unfold BankAccountWrapper.find in H. inv_res. split_and!; [done..|]. split; eauto.
Qed.

(** An operation the model names, on a position found or created. *)
Lemma with_position_typed {A} create w a k now
    (f : BankAccountWrapper.BankAccountWrapper → MarginfiResult (A * BankAccountWrapper.BankAccountWrapper))
    x w' :
  with_position create w a k now f = Ok (x, w') → runs_op f → world_typed w → world_typed w'.
Proof.
  unfold with_position. intros H Hf Hw. inv_res. constraints.
  repeat match goal with H : _ w !! _ = Some _ |- _ => first [apply (wt_accounts _ Hw) in H | apply (wt_banks _ Hw) in H] end.
  match goal with H : account_typed _ |- _ => destruct H end.
  match goal with H : (if create then _ else _) = _ |- _ => apply find_typed in H as (Hlen & Hl & Hw0); [|done..] end.
  match goal with H : f _ = _ |- _ => apply Hf in H as (op & now' & [? ?]%run_typed); [|done] end.
  apply set_account_typed; [|by apply set_bank_typed]. split; simpl; [|by apply Forall_insert|done].
  unfold BankAccountWrapper.write_back. by rewrite length_insert, Hlen.
Qed.

Lemma accrued_position_typed {A} create w w1 w2 a k g now
    (f : BankAccountWrapper.BankAccountWrapper → MarginfiResult (A * BankAccountWrapper.BankAccountWrapper)) x :
  accrue w k g now = Ok w1 → with_position create w1 a k now f = Ok (x, w2) →
  is_i64 now → runs_op f → world_typed w → world_typed w2.
Proof. intros Ha H ? ? ?. eapply with_position_typed; [done..|]. by eapply accrue_typed. Qed.
End Worlds.

(** ** Instructions *)
(** A bump is a byte: [find_program_address] returns a [u8]. *)
Class BumpBytes (R : Runtime) : Prop :=
  bump_byte seed keys : is_u8 (snd (find_program_address seed keys)).

Section Instructions.
Context {F : FixedOps} {L : FixedLaws F} {T : TokenSdk} {O : OracleSdk} {R : Runtime} {B : BumpBytes R}.

Lemma origination_fee_typed k fee rate k' :
  collect_origination_fee k fee rate = Ok k' → bank_typed k → bank_typed k'.
Proof.
  unfold collect_origination_fee. intros H Hk. destruct (_ =? 0); inv_res; [done|].
  destruct (_ =? 0); inv_res; typed.
Qed.

Lemma exchange_typed w now c q ll w' :
  exchange_collateral w now c q ll = Ok w' → world_typed w → world_typed w'.
Proof.
  unfold exchange_collateral. intros H Hw.
  apply bind_ok in H as ([x1 w1] & H1 & H). apply bind_ok in H as ([x2 w2] & H2 & H).
  apply bind_ok in H as ([x3 w3] & H3 & H). injection H as <-.
  eapply with_position_typed; [exact H3| |eapply with_position_typed; [exact H2| |
    eapply with_position_typed; [exact H1| |done]]].
  - by eapply (runs_with_amounts _ (BankAccountWrapper.Increase q BypassDepositLimit)).
  - eapply (runs_with_amounts _ (BankAccountWrapper.Decrease q WithdrawOnly)).
    intros ? ? Hm. apply map_err_ok in Hm. exact Hm.
  - by eapply (runs_with_amounts _ (BankAccountWrapper.Decrease ll BypassBorrowLimit)).
Qed.
Lemma insurance_fee_typed w c mint n dust w' :
  collect_insurance_fee w c mint n dust = Ok w' → world_typed w → world_typed w'.
Proof.
  unfold collect_insurance_fee. intros H Hw. inv_res. constraints.
  apply set_tokens_typed, set_bank_typed; [|done].
  apply insurance_fees_typed; [by eapply add_width|by eapply wt_banks].
Qed.
Lemma liquidate_typed w clock c q w' :
  lending_account_liquidate w clock c q = Ok w' → is_i64 (unix_timestamp clock) →
  world_typed w → world_typed w'.
Proof.
  intros (w1 & mr & me & ka & kl & pa & pl & ll & lf & e0 & e1 & pre & post & H)%liquidate_ok Hn Hw.
  destruct (liq_accrued _ _ _ _ _ _ _ _ _ _ _ _ _ _ _ _ _ _ H) as (w0 & A0 & A1).
  destruct (liq_moves _ _ _ _ _ _ _ _ _ _ _ _ _ _ _ _ _ _ H) as (w2 & w3 & mint & n & X & _ & _ & Rp & Fe).
  eapply insurance_fee_typed; [exact Fe|]. unfold repay_liquidatee in Rp.
  apply bind_ok in Rp as ([x w4] & Rp & E). injection E as ->.
  eapply with_position_typed; [exact Rp|by eapply (runs_with_amounts _ (BankAccountWrapper.Increase lf IncAny))|].
  eapply exchange_typed; [exact X|]. eauto using accrue_typed.
Qed.
Lemma bankruptcy_typed w clock c w' :
  lending_pool_handle_bankruptcy w clock c = Ok w' → is_i64 (unix_timestamp clock) →
  world_typed w → world_typed w'.
Proof.
  intros (w1 & w3 & g & m & m' & k0 & k1 & k2 & bad & cov & lost & mint & n & pre & ts & H)%handle_bankruptcy_ok Hn Hw.
  destruct H as [_ _ _ _ _ _ Hacc Hk1 _ _ _ _ _ _ Hs Hrep Hm' ->].
  apply accrue_typed in Hacc; [|done..]. unfold Bank.socialize_loss in Hs. inv_res.
  assert (world_typed w3) as Hw3.
  { eapply with_position_typed; [exact Hrep|apply runs_repay_amount|].
    apply set_tokens_typed, set_bank_typed; [|done]. eapply wt_banks in Hk1; [|done]. typed. }
  apply set_account_typed; [|done]. eapply wt_accounts in Hm'; [|done].
  apply with_flags_typed; [|done]. destruct Hm'. by apply lor_width.
Qed.
Lemma collect_fees_typed w c w' :
  lending_pool_collect_bank_fees w c = Ok w' → world_typed w → world_typed w'.
Proof.
  intros (k & k' & v & fs & pi & pg & pp & t1 & t2 & t3 & mint & H)%collect_bank_fees_ok Hw.
  destruct H as [Hk _ _ _ Hi Hg Hp _ _ _ Hf ->].
  apply set_tokens_typed, set_bank_typed; [|done]. eapply wt_banks in Hk; [|done].
  rewrite Hf. typed.
Qed.

(** *** Banks and their settings *)
Lemma opt_width {A} (P : A → Prop) a o : P a → opt P o → P (default a o).
Proof. intros Ha Ho. destruct o; simpl; auto. Qed.
#[local] Hint Extern 1 (is_i80f48 (default _ _)) => apply opt_width : widths.
#[local] Hint Extern 1 (is_u64 (default _ _)) => apply opt_width : widths.

Lemma update_rates_typed c o :
  Forall is_i80f48 (rate_values c) → rates_opt_typed o → Forall is_i80f48 (rate_values (InterestRateConfig.update c o)).
Proof. intros ? []. typed. Qed.
Lemma configure_typed k o k' :
  Bank.configure k o = Ok k' → config_opt_typed o → bank_typed k → bank_typed k'.
Proof.
  unfold Bank.configure. intros H Ho Hk. inv_res.
  assert (∀ cfg, config_typed cfg → bank_typed (Bank.with_config cfg k)) as Hc by (intros; typed).
  assert (config_typed (Bank.configure_fields (Bank.config k) o)) as Hcfg.
  { destruct Hk as [_ [? ? ? ? ?] _ _ _], Ho. split; simpl.
    1, 3: typed.
    - destruct (BankConfig.o_interest_rate_config o); [|done]. apply update_rates_typed; auto.
    - by apply opt_width.
    - destruct (BankConfig.o_oracle o) as [oc|]; simpl; [|done]. auto. }
  apply Hc in Hcfg. destruct (BankConfig.o_permissionless_bad_debt_settlement o) as [[]|];
    unfold Bank.update_flag in *; inv_res; typed.
Qed.
Lemma add_bank_typed w clock c cfg ok w' :
  add_bank w clock c cfg ok = Ok w' → is_i64 (unix_timestamp clock) →
  config_typed (BankConfig.of_compact cfg) → world_typed w → world_typed w'.
Proof.
  intros (g & fs & mint & b1 & b2 & b3 & b4 & b5 & b6 & w1 & ls & _ & _ & _ & _ & Hm & _ & V & _ & _ & ->)%add_bank_ok
    Hn Hc Hw.
  destruct V as [V1 V2 V3 V4 V5 V6 _ [ts ->] _].
  apply set_lamports_typed, set_bank_typed, set_tokens_typed; [|done]. eapply wt_mints in Hm; [|done].
  assert (∀ seed keys k b, find_program_address seed keys = (k, b) → is_u8 b) as Hb.
  { intros seed keys k b E. pose proof (bump_byte seed keys) as H. by rewrite E in H. }
  unfold Bank.new. typed.
Qed.
Lemma configure_bank_typed w g admin k o rest w' :
  lending_pool_configure_bank w g admin k o rest = Ok w' → config_opt_typed o →
  world_typed w → world_typed w'.
Proof.
  unfold lending_pool_configure_bank. intros H Ho Hw. inv_res. constraints.
  apply set_bank_typed; [|done]. eapply configure_typed; [done..|]. by eapply wt_banks.
Qed.
Lemma setup_emissions_typed w clock c flags rate total w' :
  lending_pool_setup_emissions w clock c flags rate total = Ok w' →
  is_u64 flags → is_u64 rate → is_u64 total → world_typed w → world_typed w'.
Proof.
  intros (?&k&?&w1&_&_&Hk&_&_&_&(ts&_&->)&_&H)%setup_emissions_ok ? ? ? Hw.
  apply fund_emissions_ok in H as (?&?&_&_&->).
  apply set_tokens_typed, set_bank_typed, set_tokens_typed; [|done].
  eapply wt_banks in Hk; [|done]. typed.
Qed.
Lemma update_emissions_typed w clock c flags rate extra w' :
  lending_pool_update_emissions_parameters w clock c flags rate extra = Ok w' →
  opt is_u64 flags → opt is_u64 rate → world_typed w → world_typed w'.
Proof.
  unfold lending_pool_update_emissions_parameters. intros H Hf Hr Hw. inv_res. constraints.
  match goal with H : banks _ !! _ = Some ?b |- _ => rename b into k; apply (wt_banks _ Hw) in H as Hk end.
  set (k1 := match rate with Some r => _ | None => _ end) in H.
  assert (bank_typed k1) as Hk1.
  { assert (∀ f, flags = Some f → is_u64 f) by done. assert (∀ r, rate = Some r → is_u64 r) by done.
    subst k1. destruct flags, rate; typed. }
  clearbody k1. destruct extra; inv_res; [|by apply set_bank_typed].
  apply fund_emissions_ok in H as (?&?&_&_&->).
  apply set_tokens_typed, set_bank_typed; [|done]. typed.
Qed.
End Instructions.

(** ** The type of a world *)
Section TypeSafety.
Context {F : FixedOps} {L : FixedLaws F} {T : TokenSdk} {O : OracleSdk} {R : Runtime} {B : BumpBytes R}.

Lemma value_typed w clock tx ix touched w' :
  moves_value ix = Some touched → marginfi w clock tx ix = Ok w' → is_i64 (unix_timestamp clock) →
  world_typed w → world_typed w'.
Proof.
  destruct ix; intros [= _] H Hn Hw; simpl in H.
  - apply deposit_ok in H as (?&?&?&?&?&?&_&Ha&Hp&_&Ht). apply transfer_in_ok in Ht as (?&?&_&_&_&->).
    apply set_tokens_typed. eauto using accrued_position_typed, runs_deposit.
  - apply repay_ok in H as (?&?&?&?&?&?&?&_&Ha&Hp&_&Ht). apply transfer_in_ok in Ht as (?&?&_&_&_&->).
    apply set_tokens_typed. eauto using accrued_position_typed, runs_repay.
  - apply withdraw_ok in H as (?&?&?&?&?&?&?&?&_&Ha&Hp&Ht&_). apply transfer_out_ok in Ht as (?&_&->).
    apply set_tokens_typed. eauto using accrued_position_typed, runs_withdraw.
  - apply borrow_ok in H as (?&?&?&?&?&?&w2&?&?&?&?&k3&?&?&_&_&Ha&Hp&Ht&Hk&Hf&->&_).
    apply transfer_out_ok in Ht as (?&_&->).
    assert (world_typed w2) as Hw2 by eauto using accrued_position_typed, runs_borrow.
    apply set_bank_typed; [|by apply set_tokens_typed].
    eapply origination_fee_typed; [done|]. by eapply (wt_banks w2).
  - apply close_balance_ok in H as (?&?&?&_&Ha&Hp). eauto using accrued_position_typed, runs_close.
  - apply withdraw_emissions_ok in H as (?&?&?&?&_&Hp&_&?&->&_).
    apply set_tokens_typed. eauto using with_position_typed, runs_settle.
  - apply settle_emissions_ok in H as (_&n&Hu&Hp). eauto using with_position_typed, runs_claim.
  - by eapply liquidate_typed.
  - unfold lending_pool_accrue_bank_interest in H. inv_res. by eapply accrue_typed.
  - by eapply collect_fees_typed.
  - by apply withdraw_from_vault_ok in H as [[? ->] _]; apply set_tokens_typed.
  - by apply withdraw_from_vault_ok in H as [[? ->] _]; apply set_tokens_typed.
Qed.

Lemma account_ix_typed w clock tx ix w' :
  marginfi w clock tx ix = Ok w' → class_of ix = CAccount → ix_typed ix → world_typed w → world_typed w'.
Proof.
  assert (∀ a m f, accounts w !! a = Some m → world_typed w → is_u64 f →
            account_typed (MarginfiAccount.set_flag m f)) as Hset.
  { intros a m f Hm Hw Hf. eapply wt_accounts in Hm; [|done]. apply with_flags_typed; [|done].
    destruct Hm. by apply lor_width. }
  assert (∀ a m f, accounts w !! a = Some m → world_typed w →
            account_typed (MarginfiAccount.unset_flag m f)) as Hunset.
  { intros a m f Hm Hw. eapply wt_accounts in Hm; [|done]. apply with_flags_typed; [|done].
    destruct Hm. by apply land_width. }
  destruct ix; intros H [=] Hix Hw; simpl in H.
  - apply initialize_account_ok in H as (_&_&->). apply set_account_typed; [|done].
    split; [done| |apply u64_zero]. apply Forall_replicate, empty_typed.
  - apply start_flashloan_ok in H as (m&?&Hm&_&_&_&_&_&_&_&_&_&_&->).
    apply set_account_typed; [|done]. eapply Hset; [done..|]. by vm_compute.
  - apply end_flashloan_ok in H as (m&Hm&_&_&_&->). apply set_account_typed; eauto.
  - destruct (account_flag_ok _ _ _ _ _ _ (or_introl H)) as (?&m&?&_&_&Hm&_&_&[->| ->]&->);
      apply set_account_typed; eauto.
  - destruct (account_flag_ok _ _ _ _ _ _ (or_intror H)) as (?&m&?&_&_&Hm&_&_&[->| ->]&->);
      apply set_account_typed; eauto.
  - apply set_account_transfer_authority_ok in H as (m&Hm&_&_&_&_&->). apply set_account_typed; [|done].
    destruct (Hunset _ _ TRANSFER_AUTHORITY_ALLOWED_FLAG Hm Hw). by split.
  - apply close_account_ok in H as (?&_&_&_&_&->). by apply close_account_typed.
Qed.

Lemma ix_keeps_types w clock tx ix w' :
  marginfi w clock tx ix = Ok w' → is_i64 (unix_timestamp clock) → ix_typed ix →
  world_typed w → world_typed w'.
Proof.
  intros H Hn Hix Hw. destruct (moves_value ix) as [touched|] eqn:Hv; [by eapply value_typed|].
  destruct (decide (class_of ix = CAccount)) as [Hc|Hc]; [by eapply account_ix_typed|].
  assert (∀ f, fee_state w = Some f → group_typed (MarginfiGroup.with_cache (cache_of_fee_state f)
            MarginfiGroup.zeroed)) as Hcache.
  { intros f Hf. eapply wt_fee_state in Hf; [|done]. typed. }
  destruct ix; try done; clear Hv Hc; simpl in H, Hix.
  - unfold initialize_group in H. apply bind_ok in H as (?&_&H). apply bind_ok in H as (fs&Hfs&H).
    injection H as <-. apply check_fee_state_ok, Hcache in Hfs. apply set_group_typed; [|done].
    destruct Hfs. split; [by vm_compute|done].
  - apply configure_ok in H as (gr&?&Hg&_&->). apply set_group_typed; [|done].
    eapply wt_groups in Hg; [|done]. typed.
  - by eapply add_bank_typed.
  - by eapply add_bank_typed.
  - by eapply configure_bank_typed.
  - destruct Hix as (?&?&?). by eapply setup_emissions_typed.
  - destruct Hix as (?&?&?). by eapply update_emissions_typed.
  - by eapply bankruptcy_typed.
  - unfold initialize_fee_state in H. inv_res. apply set_fee_state_typed; [|done].
    destruct Hix as (?&?&?). pose proof (bump_byte FEE_STATE_SEED []). typed.
  - unfold edit_fee_state in H. apply bind_ok in H as (fs&Hfs&H). apply check_fee_state_ok in Hfs.
    inv_res. apply set_fee_state_typed; [|done]. destruct Hix as (?&?&?).
    eapply wt_fee_state in Hfs; [|done]. typed.
  - apply propagate_fee_ok in H as (gr&fs&Hg&Hfs&->). apply set_group_typed; [|done].
    eapply wt_groups in Hg; [|done]. apply Hcache in Hfs. destruct Hfs. typed.
  - apply config_group_fee_ok in H as (gr&?&Hg&_&_&->). apply set_group_typed; [|done].
    eapply wt_groups in Hg; [|done]. typed.
Qed.

(** The fixed-point numbers a world stores. *)
Definition stored (w : World) (v : I80F48) : Prop :=
  (∃ k b, banks w !! k = Some b ∧ v ∈ bank_values b) ∨
  (∃ a m b, accounts w !! a = Some m ∧ b ∈ MarginfiAccount.lending_account m ∧ v ∈ balance_values b).

Lemma stored_width w v : world_typed w → stored w v → is_i80f48 v.
Proof.
  intros Hw [(k & b & Hb & Hv)|(a & m & b & Hm & Hb & Hv)].
  - eapply wt_banks in Hb as [Hp [Hwt Hr _ _ _] _ _ _]; [|done]. unfold bank_values in Hv.
    rewrite !elem_of_app in Hv.
    rewrite Forall_forall in Hp, Hwt, Hr. rewrite !list_elem_of_In in Hv.
    destruct Hv as [Hv|[Hv|Hv]]; auto.
  - eapply wt_accounts in Hm as [_ Hl _]; [|done]. rewrite Forall_forall in Hl.
    apply list_elem_of_In in Hb, Hv. destruct (Hl b Hb) as [Hv' _].
    rewrite Forall_forall in Hv'. auto.
Qed.

(** One instruction with arguments of their types succeeds, or other programs
    move tokens and lamports and change mints. *)
Inductive typed_step (w w' : World) : Prop :=
| typed_ix clock tx ix :
    is_i64 (unix_timestamp clock) → ix_typed ix → marginfi w clock tx ix = Ok w' → typed_step w w'
| typed_env ts ms ls :
    (∀ k m, ms !! k = Some m → is_u8 (mint_dec m)) →
    w' = mkWorld (banks w) (accounts w) (groups w) (fee_state w) ts ms ls → typed_step w w'.
(** The program does not own anything yet. *)
Record untouched (w : World) : Prop := {
  un_banks : banks w = ∅; un_accounts : accounts w = ∅; un_groups : groups w = ∅;
  un_fee_state : fee_state w = None; un_mints k m : mints w !! k = Some m → is_u8 (mint_dec m)
}.

Lemma untouched_typed w : untouched w → world_typed w.
Proof. intros [Eb Ea Eg Ef Hm]. split; rewrite ?Eb, ?Ea, ?Eg, ?Ef; try done. Qed.
Lemma typed_step_typed w w' : typed_step w w' → world_typed w → world_typed w'.
Proof. intros [clock tx ix|ts ms ls Hm ->] Hw; [by eapply ix_keeps_types|]. destruct Hw. by split. Qed.

(** C8: Whatever sequence of instructions runs from the world in
    which the program owns nothing, with arguments of their declared types and
    interleaved with the transfers of other programs, everything the program
    stores fits its field: the fixed-point numbers of banks and positions, the
    flag words, limits, rates and timestamps at their widths, sixteen slots per
    account, five oracle keys per bank, the fee settings; and so the sixteen
    bytes each fixed-point number is stored in read back as that number. *)
Theorem stored_numbers_fit w0 w :
  untouched w0 → rtc typed_step w0 w →
  world_typed w ∧ ∀ v, stored w v → Wrapped.into_i80f48 (Wrapped.from_i80f48 v) = v.
Proof.
  intros H0%untouched_typed Hs.
  assert (world_typed w) as Hw.
  { induction Hs as [|w0 w1 w2 H _ IH]; [done|]. apply IH. by eapply typed_step_typed. }
  split; [done|]. intros v Hv. by apply Wrapped.into_from, (stored_width w).
Qed.
End TypeSafety.

(** ** Witness *)
#[local] Existing Instance i80f48.
#[local] Existing Instance demo_token_sdk.
#[local] Existing Instance demo_oracle_sdk.
#[local] Existing Instance demo_runtime.

#[export] Instance demo_bump_bytes : BumpBytes demo_runtime.
Proof.
  intros seed keys. simpl. destruct (negb _); [by vm_compute|]. destruct seed, keys; by vm_compute.
Qed.

Lemma replay_typed clock tx ixs : is_i64 (unix_timestamp clock) → Forall ix_typed ixs → ∀ w w',
  replay w clock tx ixs = Some w' → rtc typed_step w w'.
Proof.
  intros Hn. induction 1 as [|ix ixs Hu _ IH]; simpl; intros w w' H; [injection H as <-; constructor|].
  destruct (marginfi w clock tx ix) as [w1| |] eqn:H1; [|done..].
  destruct (in_rangeb w1); [|done]. eapply rtc_l; [by eapply typed_ix|by apply IH].
Qed.

Lemma demo_genesis_untouched : untouched demo_genesis.
Proof.
  split; try done. intros k m Hm.
  assert (map_Forall (λ _ m, 0 ≤ mint_dec m ∧ mint_dec m < 256) (mints demo_genesis)) as H
    by (apply (proj1 (bool_decide_eq_true _)); vm_compute; reflexivity).
  exact (H k m Hm).
Qed.
Lemma demo_script_typed : Forall ix_typed demo_script.
Proof.
  repeat apply Forall_cons_2; [..|apply Forall_nil_2]; simpl; try done;
    repeat split; repeat constructor; by vm_compute.
Qed.

Lemma stored_numbers_fit_witness :
  world_typed demo_reached ∧ is_Some (banks demo_reached !! 700) ∧
  ∀ v, stored demo_reached v → Wrapped.into_i80f48 (Wrapped.from_i80f48 v) = v.
Proof.
  destruct (stored_numbers_fit demo_genesis demo_reached) as [Hw Hr].
  - exact demo_genesis_untouched.
  - apply (replay_typed demo_clock demo_tx demo_script); [by vm_compute|exact demo_script_typed|exact demo_replays].
  - split; [exact Hw|]. split; [|exact Hr].
    apply (proj1 (bool_decide_eq_true (is_Some (banks demo_reached !! 700)))). vm_compute. reflexivity.
Defined.
