(* ===== verification/Solvency.v ===== *)
(** * Solvency

    A bank owes its depositors and the three fee accounts; its borrowers owe
    the bank, and its liquidity vault holds tokens.  This file proves that the
    vault and the debts cover the deposits and the fees, up to the rounding of
    the fixed-point arithmetic: every instruction loses at most [slack], a few
    units of 2^-96 of the bank's amounts, and the losses add up over a bank's
    history.

    [Custody] is what the argument needs of the runtime and the token program:
    the vault's authority is the derived address of this bank only, only that
    address can have the vault debited, and the mint of the bank charges no
    transfer fee. *)
From S2P Require Import Prelude Errors Fixed Constants Utils GroupState InterestRate BankState Price Account BankAccount Risk World UserIx LiquidateIx BankruptcyIx GroupIx Frames System.

(** ** The bank's balance sheet *)
(** What the bank owes, less what it is owed, in units of 2^-96 token: shares
    times share values are exact there. *)
Definition obligations (b : Bank) : Z :=
  Bank.total_asset_shares b * Bank.asset_share_value b
  - Bank.total_liability_shares b * Bank.liability_share_value b
  + SCALE * (Bank.collected_insurance_fees_outstanding b + Bank.collected_group_fees_outstanding b
             + Bank.collected_program_fees_outstanding b).
(** [n] tokens in the same units. *)
Definition exact (n : Z) : Z := SCALE * from_num n.
(** The tokens of the vault less the obligations. *)
Definition surplus (ts : gmap Z TokenAccount) (b : Bank) : Z :=
  exact (token_amount ts (Bank.liquidity_vault b)) - obligations b.

(** The interest factor of an accrual's period, in units of 2^-48. *)
Definition lending_factor {F : FixedOps} (b : Bank) (g : MarginfiGroup) (now : Z) : Z :=
  let deposits := fmul (Bank.total_asset_shares b) (Bank.asset_share_value b) in
  let debts := fmul (Bank.total_liability_shares b) (Bank.liability_share_value b) in
  match InterestRateCalc.calc_interest_rate (Bank.ir_calc b g) (fdiv debts deposits) with
  | Ok (Some r) =>
      Z.max 0 (InterestRateCalc.period_rate (InterestRateCalc.lending_rate_apr r) (now - Bank.last_update b))
  | _ => 0
  end.
(** What accruing interest can lose. *)
Definition accrual_slack {F : FixedOps} (b : Bank) (g : MarginfiGroup) (now : Z) : Z :=
  4 * SCALE + fmul (Bank.total_liability_shares b) (Bank.liability_share_value b)
  + Bank.total_liability_shares b + lending_factor b g now.
(** What an operation on positions can lose: a unit of each share, a unit of
    an amount, and, when a loss is socialized, a unit of the share value. *)
Definition op_slack (b : Bank) : Z :=
  Bank.asset_share_value b + Bank.liability_share_value b + SCALE + Bank.total_asset_shares b.

Section Obligations.
Context {F : FixedOps} {L : FixedLaws F}.

Lemma exact_sub a b : exact (a - b) = exact a - exact b.
Proof. unfold exact, from_num. lia. Qed.
Lemma exact_add a b : exact (a + b) = exact a + exact b.
Proof. unfold exact, from_num. lia. Qed.
Lemma exact_mono a b : a ≤ b → exact a ≤ exact b.
Proof. unfold exact, from_num. pose proof SCALE_pos. nia. Qed.
Lemma exact_nonneg n : 0 ≤ n → 0 ≤ exact n.
Proof. intros. change 0 with (exact 0). by apply exact_mono. Qed.

(** Rounding of a division, multiplied out. *)
Lemma fdiv_exact x v : 0 < v → x * SCALE - v < fdiv x v * v ≤ x * SCALE.
Proof. intros Hv. unfold fdiv. pose proof (div_bounds (x * SCALE) v Hv). lia. Qed.
Lemma fmul_exact x v : x * v - SCALE < SCALE * fmul x v ≤ x * v.
Proof. unfold fmul. pose proof (div_bounds (x * v) SCALE SCALE_pos). lia. Qed.

Lemma accrual_slack_nonneg b g now : Bank.wf b → 0 ≤ accrual_slack b g now.
Proof.
  intros Hb. pose proof (Bank.wf_lsv_pos _ Hb). pose proof (Bank.wf_liabs _ Hb). pose proof SCALE_pos.
  pose proof (fmul_nonneg (Bank.total_liability_shares b) (Bank.liability_share_value b) ltac:(done) ltac:(lia)).
  unfold accrual_slack. assert (0 ≤ lending_factor b g now); [|lia].
  unfold lending_factor. destruct (InterestRateCalc.calc_interest_rate _ _) as [[]| |]; lia.
Qed.
Lemma op_slack_nonneg b : Bank.wf b → 0 ≤ op_slack b.
Proof.
  intros Hb. pose proof (Bank.wf_lsv_pos _ Hb). pose proof (Bank.wf_assets _ Hb).
  pose proof (Bank.wf_asv _ Hb). pose proof SCALE_pos. unfold op_slack. lia.
Qed.

(** ** Accruing interest *)
Lemma accrue_obligations b now g b' :
  Bank.wf b → Bank.rates_wf b g → Bank.accrue_interest b now g = Ok b' →
  obligations b' ≤ obligations b + accrual_slack b g now.
Proof.
  intros Hwf [Hc Hf] H. pose proof (accrual_slack_nonneg b g now Hwf) as Hs.
  destruct (Bank.accrue_interest_cases _ _ _ _ Hwf H) as [Ht Hcases].
  destruct Hcases as [[-> ->] | [[Hlt ->] | (Hlt & ch & Hch & HA & HL & Hfr & Hl & Ha & Hli & Hg & Hi & Hp)]];
    [lia|unfold obligations in *; simpl; lia|]. clear Hs.
  pose proof (Bank.wf_lsv_pos b Hwf) as Hlsv. destruct Hwf as [Has Hls Hav _ _ _ _ _ _].
  pose proof Hch as (r & _ & Hrate & _)%InterestRateCalc.state_changes_some; [|lia..].
  pose proof (InterestRateCalc.changes_conserve_value (now - Bank.last_update b) _ _ _
                (Bank.liability_share_value b) _ _ r Hc Hf ltac:(lia) Has Hls Hav ltac:(lia) Hch Hrate) as Hcons.
  assert (InterestRateCalc.period_rate (InterestRateCalc.lending_rate_apr r) (now - Bank.last_update b)
          ≤ lending_factor b g now) as Hil by (unfold lending_factor; rewrite Hrate; lia).
  unfold obligations, accrual_slack. rewrite Ha, Hli, Hg, Hi, Hp.
  replace (Bank.total_asset_shares b') with (Bank.total_asset_shares b) by (by rewrite Hfr).
  replace (Bank.total_liability_shares b') with (Bank.total_liability_shares b) by (by rewrite Hfr).
  pose proof (fmul_exact (Bank.total_asset_shares b) (Bank.asset_share_value b)).
  pose proof (fmul_exact (Bank.total_asset_shares b) (InterestRateCalc.new_asset_share_value ch)).
  pose proof (fmul_exact (Bank.total_liability_shares b) (Bank.liability_share_value b)).
  pose proof (fmul_exact (Bank.total_liability_shares b) (InterestRateCalc.new_liability_share_value ch)).
  cbv zeta in Hcons. lia.
Qed.

(** ** Operations on a position *)
Import BankAccountWrapper.
Lemma effect_obligations now e da dl w :
  obligations (bank (effect now e da dl w)) =
    obligations (bank w) + da * Bank.asset_share_value (bank w) - dl * Bank.liability_share_value (bank w).
Proof. unfold obligations. simpl. lia. Qed.

Lemma increase_obligations w delta op now w' :
  wf w → 0 ≤ delta → increase_balance_internal w delta op now = Ok w' →
  obligations (bank w') ≤ obligations (bank w) + SCALE * delta.
Proof.
  intros Hwf Hd H. apply increase_spec in H as (e & -> & _ & Ha & _); [|done..].
  pose proof (Bank.wf_lsv_pos _ (wf_bank _ Hwf)) as Hl. rewrite effect_obligations.
  pose proof (fdiv_exact (deposited_by w delta) _ Ha). pose proof (fdiv_exact (repaid_by w delta) _ Hl).
  assert (repaid_by w delta + deposited_by w delta = delta) by (unfold repaid_by, deposited_by; lia). lia.
Qed.
Lemma decrease_obligations w delta op now w' :
  wf w → 0 ≤ delta → decrease_balance_internal w delta op now = Ok w' →
  obligations (bank w') ≤ obligations (bank w) - SCALE * delta
    + Bank.asset_share_value (bank w) + Bank.liability_share_value (bank w).
Proof.
  intros Hwf Hd H. apply decrease_spec in H as (e & -> & _ & Ha & _); [|done..].
  pose proof (Bank.wf_lsv_pos _ (wf_bank _ Hwf)) as Hl. rewrite effect_obligations.
  pose proof (fdiv_exact (withdrawn_by w delta) _ Ha). pose proof (fdiv_exact (borrowed_by w delta) _ Hl).
  assert (withdrawn_by w delta + borrowed_by w delta = delta) by (unfold withdrawn_by, borrowed_by; lia). lia.
Qed.
Lemma withdraw_all_obligations w now n w' :
  wf w → withdraw_all w now = Ok (n, w') → obligations (bank w') ≤ obligations (bank w) - exact n.
Proof.
  intros Hwf (e & _ & _ & _ & _ & _ & _ & _ & -> & _)%withdraw_all_spec; [|done].
  pose proof (fmul_exact (Balance.asset_shares (balance w)) (Bank.asset_share_value (bank w))).
  unfold obligations, holdings, exact. simpl. lia.
Qed.
Lemma repay_all_obligations w now n w' :
  wf w → repay_all w now = Ok (n, w') → obligations (bank w') ≤ obligations (bank w) + exact n + SCALE.
Proof.
  intros Hwf (e & _ & _ & _ & _ & _ & _ & _ & ->)%repay_all_spec; [|done].
  pose proof (fmul_exact (Balance.liability_shares (balance w)) (Bank.liability_share_value (bank w))).
  unfold obligations, debt, exact. simpl. lia.
Qed.
Lemma close_obligations w now w' :
  wf w → close_balance w now = Ok w' → obligations (bank w') = obligations (bank w).
Proof. by intros Hwf (e & _ & _ & _ & _ & _ & ->)%close_balance_spec. Qed.
Lemma claim_obligations w n w' :
  wf w → is_u64 n → claim_emissions w n = Ok w' → obligations (bank w') = obligations (bank w).
Proof.
  intros Hwf Hn (e & _ & ->)%claim_emissions_spec; [|done..]. rewrite effect_obligations. lia.
Qed.
Lemma settle_obligations w now n w' :
  wf w → settle_emissions_and_get_transfer_amount w now = Ok (n, w') →
  obligations (bank w') = obligations (bank w).
Proof.
  intros Hwf (e & _ & _ & _ & ->)%settle_spec; [|done]. simpl. unfold obligations. simpl. lia.
Qed.
End Obligations.

(** ** The liquidity vault *)
(** [A] is the authority of bank [k]'s vault and of nothing else. *)
Record Custody {T : TokenSdk} {R : Runtime} (k A : Pubkey) : Prop := {
  cu_address : fst (find_program_address LIQUIDITY_VAULT_AUTHORITY_SEED [k]) = A;
  (* the canonical bump gives the canonical address *)
  cu_canonical v b : find_program_address LIQUIDITY_VAULT_SEED [k] = (v, b) →
    create_program_address LIQUIDITY_VAULT_SEED [k] b = Some v;
  (* no other seeds give the authority's address *)
  cu_unique s keys bump : create_program_address s keys bump = Some A →
    s = LIQUIDITY_VAULT_AUTHORITY_SEED ∧ head keys = Some k;
  cu_unique_canonical s keys : fst (find_program_address s keys) = A →
    s = LIQUIDITY_VAULT_AUTHORITY_SEED ∧ head keys = Some k;
  (* the authority owns its token accounts and approves no delegate *)
  cu_signed t ts ts' a : spl_transfer t ts = Ok ts' → ts !! tr_from t = Some a → ta_owner a = A →
    tr_authority t = A;
  (* the bank's mint charges no transfer fee *)
  cu_no_fee t ts ts' a : spl_transfer t ts = Ok ts' → ts !! tr_to t = Some a → ta_owner a = A →
    tr_from t ≠ tr_to t → token_amount ts' (tr_to t) = token_amount ts (tr_to t) + tr_amount t
}.

(** The token account [v] is the authority's. *)
Definition owned_by (A v : Pubkey) (ts : gmap Z TokenAccount) : Prop :=
  ∃ a, ts !! v = Some a ∧ ta_owner a = A.
(** The vault of the bank as it was created. *)
Record vault_intact {R : Runtime} (k A : Pubkey) (ts : gmap Z TokenAccount) (b : Bank) : Prop := {
  vi_owner : owned_by A (Bank.liquidity_vault b) ts;
  vi_address : create_program_address LIQUIDITY_VAULT_SEED [k] (Bank.liquidity_vault_bump b)
               = Some (Bank.liquidity_vault b)
}.
(** [v] stays the authority's and loses at most [n]. *)
Definition debited (A v : Pubkey) (n : Z) (ts ts' : gmap Z TokenAccount) : Prop :=
  owned_by A v ts → owned_by A v ts' ∧ token_amount ts v - n ≤ token_amount ts' v.

Section Vaults.
Context {F : FixedOps} {T : TokenSdk} {TL : TokenLaws T} {R : Runtime}.
Context (k A : Pubkey) (C : Custody k A).

Lemma debited_refl v ts : debited A v 0 ts ts.
Proof. intros Ho. split; [done|lia]. Qed.
Lemma debited_trans v n m ts1 ts2 ts3 :
  debited A v n ts1 ts2 → debited A v m ts2 ts3 → debited A v (n + m) ts1 ts3.
Proof. intros H H' Ho. destruct (H Ho) as [Ho2 ?]. destruct (H' Ho2) as [? ?]. split; [done|lia]. Qed.
Lemma debited_mono v n m ts ts' : n ≤ m → debited A v n ts ts' → debited A v m ts ts'.
Proof. intros Hn H Ho. destruct (H Ho). split; [done|lia]. Qed.

Lemma owned_after v t ts ts' : spl_transfer t ts = Ok ts' → owned_by A v ts → owned_by A v ts'.
Proof.
  intros H (a & Ha & Ho). pose proof (spl_transfer_owners _ _ _ v H) as E. rewrite Ha in E.
  destruct (ts' !! v) as [a'|] eqn:Ha'; [|done]. exists a'. split; [done|].
  simpl in E. injection E as ->. done.
Qed.

(** A transfer takes at most its amount out of any account, ... *)
Lemma transfer_debits v t ts ts' :
  0 ≤ tr_amount t → spl_transfer t ts = Ok ts' → debited A v (tr_amount t) ts ts'.
Proof.
  intros Hn H Ho. split; [by eapply owned_after|].
  pose proof (spl_transfer_self _ _ _ H) as Hself.
  apply spl_transfer_spec in H as (_ & _ & _ & Hm & Hother).
  destruct (decide (tr_from t = tr_to t)) as [E|Hne].
  - destruct (decide (v = tr_to t)) as [->|Hv]; [rewrite Hself by done; lia|].
    unfold token_amount. rewrite Hother by congruence. lia.
  - destruct (Hm Hne) as [Hf (fee & ? & _ & Hto)].
    destruct (decide (v = tr_to t)) as [->|Hv]; [lia|].
    destruct (decide (v = tr_from t)) as [->|Hv']; [lia|].
    unfold token_amount. rewrite Hother by done. lia.
Qed.
(** ... nothing out of the vault unless the authority signs, ... *)
Lemma foreign_transfer_debits v t ts ts' :
  tr_authority t ≠ A → spl_transfer t ts = Ok ts' → debited A v 0 ts ts'.
Proof.
  intros Hs H Ho. split; [by eapply owned_after|]. destruct Ho as (a & Ha & Hoa).
  assert (v ≠ tr_from t) as Hv by (intros ->; by pose proof (cu_signed _ _ C _ _ _ _ H Ha Hoa)).
  apply spl_transfer_spec in H as (_ & _ & _ & Hm & Hother).
  destruct (decide (v = tr_to t)) as [->|Hto].
  - destruct (Hm ltac:(congruence)) as [_ (fee & ? & _ & ->)]. lia.
  - unfold token_amount. rewrite Hother by done. lia.
Qed.
(** ... and what others pay into the vault arrives. *)
Lemma transfer_credits v t ts ts' :
  tr_authority t ≠ A → tr_to t = v → spl_transfer t ts = Ok ts' → debited A v (- tr_amount t) ts ts'.
Proof.
  intros Hs <- H Ho. split; [by eapply owned_after|]. destruct Ho as (a & Ha & Hoa).
  assert (tr_from t ≠ tr_to t) as Hne
    by (intros E; rewrite <- E in Ha; by pose proof (cu_signed _ _ C _ _ _ _ H Ha Hoa)).
  rewrite (cu_no_fee _ _ C _ _ _ _ H Ha Hoa Hne). lia.
Qed.
Lemma new_account_debits v j x ts :
  ts !! j = None → debited A v 0 ts (<[j := x]> ts).
Proof.
  intros Hn (a & Ha & Ho). assert (v ≠ j) by congruence. unfold token_amount.
  rewrite lookup_insert_ne by done. split; [exists a; by rewrite lookup_insert_ne|lia].
Qed.

(** An address derived for something else is not the authority. *)
Lemma other_pda s keys bump a :
  create_program_address s keys bump = Some a →
  s ≠ LIQUIDITY_VAULT_AUTHORITY_SEED ∨ head keys ≠ Some k → a ≠ A.
Proof. intros H Hne ->. destruct (cu_unique _ _ C _ _ _ H) as [? ?]. tauto. Qed.
Lemma other_canonical s keys : s ≠ LIQUIDITY_VAULT_AUTHORITY_SEED → fst (find_program_address s keys) ≠ A.
Proof. intros H E. by destruct (cu_unique_canonical _ _ C _ _ E). Qed.
End Vaults.

(** ** Steps of the handlers *)
(** The rates of every bank are those of a validated curve and nonnegative
    fees. *)
Definition rates_ok {T : TokenSdk} (w : World) : Prop :=
  ∀ k b g, banks w !! k = Some b → groups w !! Bank.group b = Some g → Bank.rates_wf b g.
(** [accrual_slack] with the bank's own group. *)
Definition bank_slack {F : FixedOps} {T : TokenSdk} (w : World) (b : Bank) (now : Z) : Z :=
  match groups w !! Bank.group b with Some g => accrual_slack b g now | None => 0 end.
Definition vault_of (b : Bank) : Pubkey * Z := (Bank.liquidity_vault b, Bank.liquidity_vault_bump b).

(** The instruction keeps bank [k]'s vault and costs it at most the slack. *)
Definition keeps_backing {F : FixedOps} {T : TokenSdk} {R : Runtime} (k A : Pubkey) (now : Z) (w w' : World) : Prop :=
  ∀ b, banks w !! k = Some b → vault_intact k A (tokens w) b →
  ∃ b', banks w' !! k = Some b' ∧ vault_intact k A (tokens w') b' ∧
    surplus (tokens w) b - (bank_slack w b now + op_slack b') ≤ surplus (tokens w') b'.

Section Steps.
Context {F : FixedOps} {L : FixedLaws F} {T : TokenSdk} {TL : TokenLaws T} {O : OracleSdk} {R : Runtime}.

Lemma bank_slack_nonneg w k b now : books_balance w → banks w !! k = Some b → 0 ≤ bank_slack w b now.
Proof.
  intros Hw Hb. unfold bank_slack. destruct (groups w !! _); [|done].
  eapply accrual_slack_nonneg, books_banks; done.
Qed.

(** An instruction that does not touch the bank. *)
Lemma untouched_backing k A now w w' :
  books_balance w → banks w' !! k = banks w !! k → (∀ v, debited A v 0 (tokens w) (tokens w')) →
  keeps_backing k A now w w'.
Proof.
  intros Hw Hk Hd b Hb [Ho Hv]. destruct (Hd _ Ho) as [Ho' Ha]. exists b.
  split; [by rewrite Hk|]. split; [by split|]. unfold surplus.
  pose proof (exact_mono _ _ Ha) as Hx. rewrite exact_sub in Hx. change (exact 0) with 0 in Hx.
  pose proof (bank_slack_nonneg w k b now Hw Hb). pose proof (op_slack_nonneg b (books_banks _ Hw _ _ Hb)). lia.
Qed.
(** An instruction on the bank that moves [n] tokens out of the vault. *)
Lemma touched_backing k A now w w' b b' n :
  banks w !! k = Some b → banks w' !! k = Some b' → vault_of b' = vault_of b →
  debited A (Bank.liquidity_vault b) n (tokens w) (tokens w') →
  obligations b' ≤ obligations b - exact n + bank_slack w b now + op_slack b' → keeps_backing k A now w w'.
Proof.
  intros Hb Hb' Hv Hd Hob b0 Hb0 [Ho Hva]. det_ok. destruct (Hd Ho) as [Ho' Ha].
  injection Hv as Hv1 Hv2. exists b'. split; [done|]. split; [split; congruence|]. unfold surplus.
  pose proof (exact_mono _ _ Ha) as Hx. rewrite exact_sub in Hx. rewrite Hv1. lia.
Qed.

Lemma accrue_at w j g now w' :
  books_balance w → rates_ok w → (∀ b, banks w !! j = Some b → Bank.group b = g) →
  accrue w j g now = Ok w' →
  ∃ b b', banks w !! j = Some b ∧ w' = set_bank j b' w ∧ Bank.wf b' ∧ vault_of b' = vault_of b ∧
    obligations b' ≤ obligations b + bank_slack w b now ∧ books_balance w'.
Proof.
  intros Hw Hr Hg H. pose proof H as (b & b' & Hb & -> & Hwf & Hfr & _ & Hw')%accrue_ok; [|done].
  exists b, b'. split_and!; [done..|by rewrite Hfr| |done].
  unfold accrue in H. apply bind_ok in H as (b0 & Hb0 & H). apply load_bank_ok in Hb0. det_ok.
  apply bind_ok in H as (gr & Hgr & H). apply ok_or_ok in Hgr. apply bind_ok in H as (b1 & Ha & H).
  injection H as E. pose proof (f_equal (lookup j) E) as E1. rewrite !lookup_insert_eq in E1. injection E1 as ->.
  specialize (Hg _ Hb0). subst g. unfold bank_slack. rewrite Hgr.
  eapply accrue_obligations; [exact (books_banks _ Hw _ _ Hb0)|exact (Hr _ _ _ Hb0 Hgr)|done].
Qed.

Lemma rates_moves touched w w' : moves touched w w' → rates_ok w → rates_ok w'.
Proof.
  intros Hm Hr k b g Hb Hg. destruct (moves_bank _ _ _ _ _ Hm Hb) as (b0 & Hb0 & Hi).
  rewrite (mv_groups _ _ _ Hm), (identity_group _ _ Hi) in Hg. pose proof (Hr _ _ _ Hb0 Hg) as Hwf.
  unfold Bank.rates_wf, Bank.ir_calc in *. by rewrite (identity_config _ _ Hi).
Qed.

Lemma position_at {A} create w a j now
    (f : BankAccountWrapper.BankAccountWrapper → MarginfiResult (A * BankAccountWrapper.BankAccountWrapper)) x w' :
  books_balance w → keeps_books f → with_position create w a j now f = Ok (x, w') →
  ∃ w0 w1, f w0 = Ok (x, w1) ∧ BankAccountWrapper.wf w0 ∧
    banks w !! j = Some (BankAccountWrapper.bank w0) ∧ banks w' !! j = Some (BankAccountWrapper.bank w1) ∧
    BankAccountWrapper.bank_frame (BankAccountWrapper.bank w0) (BankAccountWrapper.bank w1) ∧
    (∀ i, i ≠ j → banks w' !! i = banks w !! i) ∧ tokens w' = tokens w ∧ groups w' = groups w ∧ books_balance w'.
Proof.
  intros Hw Hf H. pose proof H as (m & l & b' & _ & Hw')%with_position_frame.
  apply with_position_worth in H as (w0 & w1 & Hr & Hwf & Hk & _ & Hs); [|done].
  pose proof (Hf _ _ _ Hwf Hr) as Hps. destruct (Hs Hps) as (Hb' & _ & Hk' & _).
  exists w0, w1. split_and!; try done; [apply Hps|intros i Hi|..]; rewrite Hw'; [|done..].
  simpl. by rewrite lookup_insert_ne.
Qed.

Lemma frame_vault b b' : BankAccountWrapper.bank_frame b b' → vault_of b' = vault_of b.
Proof. by intros ->. Qed.
(** Neither share value changes, and the units of rounding are covered. *)
Lemma frame_slack b b' :
  BankAccountWrapper.bank_frame b b' → Bank.wf b' →
  Bank.asset_share_value b + Bank.liability_share_value b ≤ op_slack b' ∧ SCALE ≤ op_slack b'.
Proof.
  intros Hf Hwf. pose proof (Bank.wf_assets _ Hwf). pose proof (Bank.wf_asv _ Hwf).
  pose proof (Bank.wf_lsv_pos _ Hwf). pose proof SCALE_pos. unfold op_slack.
  assert (Bank.asset_share_value b' = Bank.asset_share_value b ∧
          Bank.liability_share_value b' = Bank.liability_share_value b) as [-> ->] by (by rewrite Hf).
  rewrite Hf in *. simpl in *. lia.
Qed.

(** An accrual and a step on a position of the same bank. *)
Lemma accrued_position_at {A} create w w1 w2 a j g now
    (f : BankAccountWrapper.BankAccountWrapper → MarginfiResult (A * BankAccountWrapper.BankAccountWrapper)) x :
  books_balance w → rates_ok w → (∀ b, banks w !! j = Some b → Bank.group b = g) → keeps_books f →
  accrue w j g now = Ok w1 → with_position create w1 a j now f = Ok (x, w2) →
  ∃ b ba ba', banks w !! j = Some b ∧ f ba = Ok (x, ba') ∧ BankAccountWrapper.wf ba ∧
    let b1 := BankAccountWrapper.bank ba in
    let b2 := BankAccountWrapper.bank ba' in
    banks w2 !! j = Some b2 ∧ obligations b1 ≤ obligations b + bank_slack w b now ∧
    vault_of b2 = vault_of b ∧ BankAccountWrapper.bank_frame b1 b2 ∧ Bank.wf b2 ∧
    Bank.asset_share_value b1 + Bank.liability_share_value b1 ≤ op_slack b2 ∧ SCALE ≤ op_slack b2 ∧
    (∀ i, i ≠ j → banks w2 !! i = banks w !! i) ∧ tokens w2 = tokens w ∧ books_balance w2.
Proof.
  intros Hw Hr Hg Hf Ha H.
  apply accrue_at in Ha as (b & b1 & Hb & -> & Hwf & Hv & Ho & Hw1); [|done..].
  apply position_at in H as (ba & ba' & Hrun & Hba & Hk & Hk' & Hfr & Hoth & Ht & _ & Hw2); [|done..].
  simpl in Hk. rewrite lookup_insert_eq in Hk. injection Hk as ->.
  pose proof (books_banks _ Hw2 _ _ Hk') as Hwf2. destruct (frame_slack _ _ Hfr Hwf2).
  exists b, ba, ba'. simpl. split_and!; try done.
  - rewrite (frame_vault _ _ Hfr). done.
  - intros i Hi. rewrite Hoth by done. simpl. by rewrite lookup_insert_ne.
Qed.
End Steps.

(** ** Instructions of a user's account *)
Section UserBacking.
Context {F : FixedOps} {L : FixedLaws F} {T : TokenSdk} {TL : TokenLaws T} {O : OracleSdk} {R : Runtime}.
Context (k A : Pubkey) (C : Custody k A).

Lemma pre_fee_amount_le mint n e pre : is_u64 n → pre_fee_amount mint n e = Ok pre → n ≤ pre.
Proof.
  intros [Hn _] H. unfold pre_fee_amount, calculate_pre_fee_spl_deposit_amount in H.
  destruct mint as [m|]; [|injection H as ->; lia].
  destruct (_ =? _); [injection H as ->; lia|]. destruct (mint_fee_config m) as [c|]; [|injection H as ->; lia].
  apply unwrap_ok, calculate_pre_fee_exact in H as [_ ?]; [lia|apply epoch_fee_range..|done].
Qed.

Lemma deposit_step_obligations amount clock ba ba' :
  is_u64 amount → BankAccountWrapper.wf ba →
  no_value (BankAccountWrapper.deposit ba (from_num amount) (unix_timestamp clock)) = Ok (tt, ba') →
  obligations (BankAccountWrapper.bank ba') ≤ obligations (BankAccountWrapper.bank ba) + exact amount.
Proof.
  intros [Hu _] Hwf H. unfold no_value in H. apply bind_ok in H as (w1 & H & Hr). injection Hr as <-.
  apply increase_obligations in H; [exact H|done|by apply from_num_nonneg].
Qed.
Lemma repay_step_obligations all amount clock ba n ba' :
  is_u64 amount → BankAccountWrapper.wf ba → repay_step all amount clock ba = Ok (n, ba') →
  is_u64 n ∧
  obligations (BankAccountWrapper.bank ba') ≤ obligations (BankAccountWrapper.bank ba) + exact n + SCALE.
Proof.
  intros Hu Hwf H. pose proof SCALE_pos. unfold repay_step in H. destruct all.
  - pose proof (repay_all_u64 _ _ _ _ H). split; [done|]. by apply repay_all_obligations in H.
  - apply bind_ok in H as (w1 & H & Hr). injection Hr as <- <-. split; [done|].
    apply increase_obligations in H; [|done|by apply from_num_nonneg; destruct Hu]. unfold exact. lia.
Qed.
Lemma withdraw_step_obligations all mint amount clock ba n ba' :
  is_u64 amount → BankAccountWrapper.wf ba → withdraw_step all mint amount clock ba = Ok (n, ba') →
  0 ≤ n ∧
  obligations (BankAccountWrapper.bank ba') ≤ obligations (BankAccountWrapper.bank ba) - exact n
    + Bank.asset_share_value (BankAccountWrapper.bank ba) + Bank.liability_share_value (BankAccountWrapper.bank ba).
Proof.
  intros Hu Hwf H. pose proof (withdraw_step_net _ _ _ _ _ _ _ Hu Hwf H) as [Hn _]. split; [done|].
  pose proof (Bank.wf_asv _ (BankAccountWrapper.wf_bank _ Hwf)).
  pose proof (Bank.wf_lsv_pos _ (BankAccountWrapper.wf_bank _ Hwf)).
  unfold withdraw_step in H. destruct all.
  - apply withdraw_all_obligations in H; [lia|done].
  - apply bind_ok in H as (p & Hp & H). apply bind_ok in H as (w1 & H & Hr). injection Hr as <- <-.
    apply decrease_obligations in H; [unfold exact; lia|done|by apply from_num_nonneg].
Qed.
Lemma borrow_step_obligations mint amount clock ba n fee fee_u64 ba' :
  is_u64 amount → BankAccountWrapper.wf ba →
  borrow_step mint amount clock ba = Ok ((n, (fee, fee_u64)), ba') →
  0 ≤ n ∧ 0 ≤ fee ∧
  obligations (BankAccountWrapper.bank ba') ≤ obligations (BankAccountWrapper.bank ba) - exact n - SCALE * fee
    + Bank.asset_share_value (BankAccountWrapper.bank ba) + Bank.liability_share_value (BankAccountWrapper.bank ba).
Proof.
  intros Hu Hwf H. pose proof (borrow_step_net _ _ _ _ _ _ _ _ Hu Hwf H) as ([Hn _] & _ & Hfee & _).
  split; [done|]. split; [done|]. unfold borrow_step in H.
  apply bind_ok in H as (p & Hp & H). apply bind_ok in H as ([fee' n'] & Hf & H).
  apply bind_ok in H as (x & Hx & H). apply op_add_ok in Hx as ->. apply bind_ok in H as (w1 & H & Hr).
  simpl in H. injection Hr as <- <- _ <-. pose proof (from_num_nonneg p Hn).
  apply decrease_obligations in H; [|done|lia]. unfold exact. lia.
Qed.

(** The origination fee: no more is booked than was charged. *)
Lemma origination_fee_obligations b fee rate b' :
  Bank.wf b → 0 ≤ fee → 0 ≤ rate ≤ ONE → collect_origination_fee b fee rate = Ok b' →
  obligations b' ≤ obligations b + SCALE * fee.
Proof.
  intros Hb Hfee Hrate H. unfold collect_origination_fee in H. pose proof SCALE_pos.
  pose proof (Bank.wf_group_fees _ Hb). pose proof (Bank.wf_program_fees _ Hb).
  destruct (fee =? 0); [injection H as <-; lia|]. destruct (rate =? 0).
  - injection H as <-. unfold obligations. simpl. rewrite saturating_add_spec. unfold I80F48_MIN. nia.
  - apply bind_ok in H as (p & Hp & H). injection H as <-. apply math_ok, mul_some in Hp as [-> _]; [|lia..].
    pose proof (fmul_nonneg fee rate Hfee ltac:(lia)). pose proof (fmul_le_l fee rate Hfee Hrate).
    unfold obligations. simpl. rewrite !saturating_add_spec, saturating_sub_spec. unfold I80F48_MIN. nia.
Qed.

(** The authority that signs for the vault is derived for the bank. *)
Lemma withdraw_constraints_authority w c x :
  withdraw_constraints w c = Ok x → ∃ bump,
    create_program_address LIQUIDITY_VAULT_AUTHORITY_SEED [wd_bank c] bump
      = Some (wd_bank_liquidity_vault_authority c).
Proof.
  unfold withdraw_constraints, check_pda. intros H. inv_res.
  repeat match goal with H : bool_decide _ = true |- _ => apply bool_decide_eq_true in H end. eauto.
Qed.
Lemma withdraw_authority w clock c :
  (∃ n all w', lending_account_withdraw w clock c n all = Ok w') ∨
  (∃ n w', lending_account_borrow w clock c n = Ok w') →
  wd_bank c ≠ k → wd_bank_liquidity_vault_authority c ≠ A.
Proof.
  intros H Hne. assert (∃ x, withdraw_constraints w c = Ok x) as (x & [bump Hc]%withdraw_constraints_authority).
  { destruct H as [(n & all & w' & H)|(n & w' & H)]; apply bind_ok in H as (x & H & _); eauto. }
  eapply other_pda; [done..|]. right. simpl. congruence.
Qed.

Lemma entitled_group w g a s j m b :
  entitled w g a s j m b → ∀ b, banks w !! j = Some b → Bank.group b = g.
Proof. intros [_ Hb _ Hg _ _] b' Hb'. by det_ok. Qed.

(** A deposit or a repayment. *)
Lemma inflow_backing {X} w clock c n w1 w2 w' create mint pre (x : X)
    (step : BankAccountWrapper.BankAccountWrapper → MarginfiResult (X * BankAccountWrapper.BankAccountWrapper)) :
  books_balance w → rates_ok w → d_signer c ≠ A → keeps_books step →
  (∀ b, banks w !! d_bank c = Some b → Bank.group b = d_marginfi_group c) →
  (∀ ba ba', BankAccountWrapper.wf ba → step ba = Ok (x, ba') → is_u64 n ∧
     obligations (BankAccountWrapper.bank ba') ≤ obligations (BankAccountWrapper.bank ba) + exact n + SCALE) →
  accrue w (d_bank c) (d_marginfi_group c) (unix_timestamp clock) = Ok w1 →
  with_position create w1 (d_marginfi_account c) (d_bank c) (unix_timestamp clock) step = Ok (x, w2) →
  pre_fee_amount mint n (epoch clock) = Ok pre →
  transfer_in w2 (d_bank c) pre (d_signer_token_account c) (d_bank_liquidity_vault c)
    (d_signer c) mint (d_token_program c) = Ok w' →
  keeps_backing k A (unix_timestamp clock) w w'.
Proof.
  intros Hw Hr Hs Hkb Hg Hstep Ha Hp Hpre Ht.
  destruct (accrued_position_at _ _ _ _ _ _ _ _ _ _ Hw Hr Hg Hkb Ha Hp)
    as (b & ba & ba' & Hb & Hf & Hwf & Hb2 & Ho & Hv & _ & _ & _ & Hsl & Hoth & Htok & _).
  apply Hstep in Hf as [Hn Hob]; [|done]. pose proof (pre_fee_amount_le _ _ _ _ Hn Hpre) as Hle.
  apply transfer_in_ok in Ht as (b' & ts & Hb' & Hto & Hts & ->). det_ok. rewrite Htok in Hts.
  destruct (decide (d_bank c = k)) as [<-|Hne].
  - eapply (touched_backing _ _ _ _ _ b _ (- n)); [done|exact Hb2|done| |].
    + eapply debited_mono; [|eapply transfer_credits; [exact C| |symmetry|exact Hts]]; simpl; [lia|done|].
      injection Hv as Hv _. congruence.
    + change (- n) with (0 - n). rewrite exact_sub. change (exact 0) with 0. simpl. lia.
  - apply untouched_backing; [done|simpl; by apply Hoth|]. intros v.
    by eapply foreign_transfer_debits; [exact C| |exact Hts].
Qed.

Lemma deposit_backing w clock c n w' :
  books_balance w → rates_ok w → is_u64 n → d_signer c ≠ A →
  lending_account_deposit w clock c n = Ok w' → keeps_backing k A (unix_timestamp clock) w w'.
Proof.
  intros Hw Hr Hu Hs (m & b & mint & w1 & w2 & pre & He & Ha & Hp & Hpre & Ht)%deposit_ok.
  refine (inflow_backing w clock c n w1 w2 w' true mint pre tt _ Hw Hr Hs (deposit_step_keeps _ _ Hu)
            (entitled_group _ _ _ _ _ _ _ He) _ Ha Hp Hpre Ht).
  intros ba ba' Hwf H. apply deposit_step_obligations in H; [|done..]. pose proof SCALE_pos. split; [done|lia].
Qed.
Lemma repay_backing w clock c n all w' :
  books_balance w → rates_ok w → is_u64 n → d_signer c ≠ A →
  lending_account_repay w clock c n all = Ok w' → keeps_backing k A (unix_timestamp clock) w w'.
Proof.
  intros Hw Hr Hu Hs (m & b & mint & w1 & w2 & post & pre & He & Ha & Hp & Hpre & Ht)%repay_ok.
  refine (inflow_backing w clock c post w1 w2 w' false mint pre post _ Hw Hr Hs (repay_step_keeps _ _ _ Hu)
            (entitled_group _ _ _ _ _ _ _ He) _ Ha Hp Hpre Ht).
  intros ba ba' Hwf H. by eapply repay_step_obligations.
Qed.
Lemma withdraw_backing w clock c n all w' :
  books_balance w → rates_ok w → is_u64 n →
  lending_account_withdraw w clock c n all = Ok w' → keeps_backing k A (unix_timestamp clock) w w'.
Proof.
  intros Hw Hr Hu H. assert (wd_bank c ≠ k → wd_bank_liquidity_vault_authority c ≠ A) as Hau
    by (eapply withdraw_authority; eauto).
  apply withdraw_ok in H as (m & b0 & mint & rest & w1 & w2 & x & m' & He & Ha & Hp & Ht & _).
  destruct (accrued_position_at _ _ _ _ _ _ _ _ _ _ Hw Hr (entitled_group _ _ _ _ _ _ _ He)
              (withdraw_step_keeps _ _ _ _ Hu) Ha Hp)
    as (b & ba & ba' & Hb & Hf & Hwf & Hb2 & Ho & Hv & _ & _ & Hsl & _ & Hoth & Htok & _).
  apply withdraw_step_obligations in Hf as [Hx Hob]; [|done..].
  apply transfer_out_ok in Ht as (ts & Hts & ->). rewrite Htok in Hts.
  destruct (decide (wd_bank c = k)) as [<-|Hne].
  - eapply (touched_backing _ _ _ _ _ b _ x); [done|exact Hb2|done|by refine (transfer_debits _ _ _ _ _ _ Hts)|lia].
  - apply untouched_backing; [done|simpl; by apply Hoth|]. intros v.
    eapply foreign_transfer_debits; [exact C| |exact Hts]. by apply Hau.
Qed.

Lemma borrow_backing w clock c n w' :
  books_balance w → rates_ok w → in_range w → is_u64 n →
  lending_account_borrow w clock c n = Ok w' → keeps_backing k A (unix_timestamp clock) w w'.
Proof.
  intros Hw Hr Hrange Hu H. assert (wd_bank c ≠ k → wd_bank_liquidity_vault_authority c ≠ A) as Hau
    by (eapply withdraw_authority; eauto).
  apply borrow_ok in H as (m & b0 & mint & rest & g & w1 & w2 & w3 & x & fee & fee_u64 & b3 & b4 & m' &
    He & Hg & Ha & Hp & Ht & Hb3 & Hfee & -> & _).
  destruct (accrued_position_at _ _ _ _ _ _ _ _ _ _ Hw Hr (entitled_group _ _ _ _ _ _ _ He)
              (borrow_step_keeps _ _ _ Hu) Ha Hp)
    as (b & ba & ba' & Hb & Hf & Hwf & Hb2 & Ho & Hv & _ & Hwf2 & Hsl & _ & Hoth & Htok & _).
  apply borrow_step_obligations in Hf as (Hx & Hfee0 & Hob); [|done..].
  apply transfer_out_ok in Ht as (ts & Hts & ->). rewrite Htok in Hts. simpl in Hb3. det_ok.
  pose proof (collect_origination_fee_frame _ _ _ _ Hfee) as (gf & pf & Hfr).
  apply origination_fee_obligations in Hfee; [|done..|by eapply ir_program_fee].
  destruct (decide (wd_bank c = k)) as [<-|Hne].
  - eapply (touched_backing _ _ _ _ _ b b4 x); [done|simpl; apply lookup_insert_eq|by rewrite Hfr| |].
    + by refine (transfer_debits _ _ _ _ _ _ Hts).
    + replace (op_slack b4) with (op_slack (BankAccountWrapper.bank ba')) by (by rewrite Hfr). lia.
  - apply untouched_backing; [done|simpl; rewrite lookup_insert_ne by done; by apply Hoth|]. intros v.
    eapply foreign_transfer_debits; [exact C| |exact Hts]. by apply Hau.
Qed.

Lemma close_balance_backing w clock c w' :
  books_balance w → rates_ok w →
  lending_account_close_balance w clock c = Ok w' → keeps_backing k A (unix_timestamp clock) w w'.
Proof.
  intros Hw Hr (m & b0 & w1 & He & Ha & Hp)%close_balance_ok.
  destruct (accrued_position_at _ _ _ _ _ _ _ _ _ _ Hw Hr (entitled_group _ _ _ _ _ _ _ He)
              (close_step_keeps _) Ha Hp)
    as (b & ba & ba' & Hb & Hf & Hwf & Hb2 & Ho & Hv & _ & Hwf2 & _ & _ & Hoth & Htok & _).
  unfold no_value in Hf. apply bind_ok in Hf as (ba1 & Hf & E). injection E as ->.
  apply close_obligations in Hf; [|done]. pose proof (op_slack_nonneg _ Hwf2).
  destruct (decide (cb_bank c = k)) as [<-|Hne].
  - eapply (touched_backing _ _ _ _ _ b _ 0); [done|exact Hb2|done|rewrite Htok; apply debited_refl|].
    change (exact 0) with 0. lia.
  - apply untouched_backing; [done|by apply Hoth|]. intros v. rewrite Htok. apply debited_refl.
Qed.

(** The emissions instructions leave the obligations alone. *)
Lemma emissions_step_backing {X} w a j now w' (x : X) ts
    (f : BankAccountWrapper.BankAccountWrapper → MarginfiResult (X * BankAccountWrapper.BankAccountWrapper)) :
  books_balance w → keeps_books f →
  (∀ ba ba', BankAccountWrapper.wf ba → f ba = Ok (x, ba') →
     obligations (BankAccountWrapper.bank ba') = obligations (BankAccountWrapper.bank ba)) →
  with_position false w a j now f = Ok (x, w') → (∀ v, debited A v 0 (tokens w) ts) →
  keeps_backing k A now w (set_tokens ts w').
Proof.
  intros Hw Hkb Hf Hp Hd.
  apply position_at in Hp as (ba & ba' & Hrun & Hba & Hb & Hb' & Hfr & Hoth & Ht & _ & Hw'); [|done..].
  apply Hf in Hrun; [|done]. pose proof (books_banks _ Hw' _ _ Hb') as Hwf'.
  pose proof (op_slack_nonneg _ Hwf'). pose proof (bank_slack_nonneg _ _ _ now Hw Hb).
  destruct (decide (j = k)) as [<-|Hne].
  - eapply (touched_backing _ _ _ _ _ _ _ 0); [done|exact Hb'|by apply frame_vault|apply Hd|].
    change (exact 0) with 0. lia.
  - by apply untouched_backing; [|simpl; apply Hoth|].
Qed.
Lemma settle_emissions_backing w clock a j w' :
  books_balance w → lending_account_settle_emissions w clock a j = Ok w' →
  keeps_backing k A (unix_timestamp clock) w w'.
Proof.
  intros Hw [_ (n & Hn & H)]%settle_emissions_ok.
  pose proof H as (? & ? & ? & _ & E)%with_position_frame.
  replace w' with (set_tokens (tokens w) w') by (by rewrite E).
  eapply emissions_step_backing; [done|by apply claim_keeps_books| |exact H|intros v; apply debited_refl].
  intros ba ba' Hwf Hf. unfold no_value in Hf. apply bind_ok in Hf as (ba1 & Hf & E'). injection E' as ->.
  by eapply claim_obligations.
Qed.
Lemma withdraw_emissions_backing w clock c w' :
  books_balance w → lending_account_withdraw_emissions w clock c = Ok w' →
  keeps_backing k A (unix_timestamp clock) w w'.
Proof.
  intros Hw H. assert (we_emissions_auth c ≠ A) as Hau.
  { unfold lending_account_withdraw_emissions, check_canonical_pda in H.
    do 6 (apply bind_ok in H as (? & _ & H)). apply bind_ok in H as (? & Hc & _).
    apply check_ok in Hc. bool_prop. rewrite <- Hc. by eapply other_canonical. }
  apply withdraw_emissions_ok in H as (m & b0 & n & w1 & _ & Hp & _ & ts & -> & Hts).
  pose proof Hp as (? & ? & ? & _ & E)%with_position_frame.
  eapply emissions_step_backing; [done|apply settle_step_keeps| |exact Hp|].
  - intros ba ba' Hwf Hf. exact (settle_obligations _ _ _ _ Hwf Hf).
  - intros v. replace (tokens w) with (tokens w1) by (by rewrite E). destruct (0 <? n).
    + by eapply foreign_transfer_debits; [exact C| |exact Hts].
    + subst ts. apply debited_refl.
Qed.
End UserBacking.

(** ** Liquidation *)
(** The vault and the share values of a bank. *)
Definition fixed (b : Bank) : Pubkey * Z * (Z * Z) :=
  (vault_of b, (Bank.asset_share_value b, Bank.liability_share_value b)).

(** One position of bank [j] has been changed, at a cost of [X] to the bank. *)
Record bank_step {T : TokenSdk} (w w' : World) (j : Pubkey) (b b' : Bank) (X : Bank → Z) : Prop := {
  bs_before : banks w !! j = Some b;
  bs_after : banks w' !! j = Some b';
  bs_fixed : fixed b' = fixed b;
  bs_cost : obligations b' ≤ obligations b + X b;
  bs_others i : i ≠ j → banks w' !! i = banks w !! i;
  bs_tokens : tokens w' = tokens w;
  bs_groups : groups w' = groups w;
  bs_books : books_balance w'
}.

Section LiquidationBacking.
Context {F : FixedOps} {L : FixedLaws F} {T : TokenSdk} {TL : TokenLaws T} {O : OracleSdk} {R : Runtime}.
Context (k A : Pubkey) (C : Custody k A).

(** A rounding unit of each share. *)
Definition units (b : Bank) : Z := Bank.asset_share_value b + Bank.liability_share_value b.
Lemma fixed_units b b' : fixed b' = fixed b → units b' = units b ∧ vault_of b' = vault_of b.
Proof. unfold fixed, units, vault_of. intros [= -> -> -> ->]. done. Qed.
Lemma fixed_slack b b' : fixed b' = fixed b → Bank.wf b' → units b ≤ op_slack b'.
Proof.
  intros H Hwf. apply fixed_units in H as [<- _]. pose proof (Bank.wf_assets _ Hwf). pose proof SCALE_pos.
  unfold units, op_slack. lia.
Qed.

Lemma amounts_step {Y} create w a j now (x : Y) w' (X : Bank → Z)
    (f : BankAccountWrapper.BankAccountWrapper → MarginfiResult (Y * BankAccountWrapper.BankAccountWrapper)) :
  books_balance w → with_position create w a j now f = Ok (x, w') →
  (∀ ba x ba', BankAccountWrapper.wf ba → f ba = Ok (x, ba') → position_step ba ba' ∧
     obligations (BankAccountWrapper.bank ba') ≤
       obligations (BankAccountWrapper.bank ba) + X (BankAccountWrapper.bank ba)) →
  ∃ b b', bank_step w w' j b b' X.
Proof.
  intros Hw H Hf. assert (keeps_books f) as Hkb by (intros ba y ba' Hwf Hr; by eapply Hf).
  apply position_at in H as (ba & ba' & Hr & Hwf & Hb & Hb' & Hfr & ? & ? & ? & ?); [|done..].
  destruct (Hf _ _ _ Hwf Hr) as [_ Ho].
  exists (BankAccountWrapper.bank ba), (BankAccountWrapper.bank ba'). split; try done. by rewrite Hfr.
Qed.

Lemma increase_step g delta op now ba x ba' :
  0 ≤ delta → BankAccountWrapper.wf ba →
  with_amounts g (λ ba, BankAccountWrapper.increase_balance_internal ba delta op now) ba = Ok (x, ba') →
  position_step ba ba' ∧
  obligations (BankAccountWrapper.bank ba') ≤ obligations (BankAccountWrapper.bank ba) + SCALE * delta.
Proof.
  intros Hd Hwf H. split; [by eapply liquidation_increase|].
  apply with_amounts_ok in H. by eapply increase_obligations.
Qed.
Lemma decrease_step g delta op now (f : BankAccountWrapper.BankAccountWrapper → _) ba x ba' :
  0 ≤ delta → BankAccountWrapper.wf ba →
  (∀ ba ba', f ba = Ok ba' → BankAccountWrapper.decrease_balance_internal ba delta op now = Ok ba') →
  with_amounts g f ba = Ok (x, ba') →
  position_step ba ba' ∧
  obligations (BankAccountWrapper.bank ba') ≤
    obligations (BankAccountWrapper.bank ba) + (units (BankAccountWrapper.bank ba) - SCALE * delta).
Proof.
  intros Hd Hwf Hf H. split; [by eapply liquidation_decrease|].
  apply with_amounts_ok, Hf in H. apply decrease_obligations in H; [|done..]. unfold units. lia.
Qed.

(** The three movements and the repayment: the debt bank gains [ll] and loses
    [lf], the collateral bank neither gains nor loses. *)
Lemma exchange_steps w now c q ll lf w2 w3 :
  books_balance w → 0 ≤ q → 0 ≤ ll → 0 ≤ lf → lq_asset_bank c ≠ lq_liab_bank c →
  exchange_collateral w now c q ll = Ok w2 → repay_liquidatee w2 now c lf = Ok w3 →
  ∃ bl bl' ba ba', banks w !! lq_liab_bank c = Some bl ∧ banks w3 !! lq_liab_bank c = Some bl' ∧
    banks w !! lq_asset_bank c = Some ba ∧ banks w3 !! lq_asset_bank c = Some ba' ∧
    fixed bl' = fixed bl ∧ fixed ba' = fixed ba ∧
    obligations bl' ≤ obligations bl + units bl - SCALE * (ll - lf) ∧
    obligations ba' ≤ obligations ba + units ba ∧
    (∀ i, i ≠ lq_liab_bank c → i ≠ lq_asset_bank c → banks w3 !! i = banks w !! i) ∧
    tokens w3 = tokens w ∧ books_balance w3.
Proof.
  intros Hw Hq Hll Hlf Hne H Hrep. unfold exchange_collateral in H.
  apply bind_ok in H as ([x1 wa] & H1 & H). apply bind_ok in H as ([x2 wb] & H2 & H).
  apply bind_ok in H as ([x3 wc] & H3 & H). injection H as <-.
  unfold repay_liquidatee in Hrep. apply bind_ok in Hrep as ([x4 wd] & H4 & E). injection E as <-.
  apply (amounts_step _ _ _ _ _ _ _ (λ b, units b - SCALE * ll)) in H1 as (b1 & b1' & S1); [|done|].
  2: { intros ba x ba' Hwf Hf. eapply (decrease_step _ ll BypassBorrowLimit now); [done..| |exact Hf].
       intros ? ? Hr. exact Hr. }
  apply (amounts_step _ _ _ _ _ _ _ (λ b, units b - SCALE * q)) in H2 as (b2 & b2' & S2);
    [|by eapply bs_books|].
  2: { intros ba x ba' Hwf Hf. eapply (decrease_step _ q WithdrawOnly now); [done..| |exact Hf].
       intros ? ? Hr. apply map_err_ok in Hr. exact Hr. }
  apply (amounts_step _ _ _ _ _ _ _ (λ b, SCALE * q)) in H3 as (b3 & b3' & S3); [|by eapply bs_books|].
  2: { intros ba x ba' Hwf Hf. by eapply (increase_step _ q BypassDepositLimit now). }
  apply (amounts_step _ _ _ _ _ _ _ (λ b, SCALE * lf)) in H4 as (b4 & b4' & S4); [|by eapply bs_books|].
  2: { intros ba x ba' Hwf Hf. by eapply (increase_step _ lf IncAny now). }
  destruct S1 as [E1 E1' F1 C1 O1 T1 _ _], S2 as [E2 E2' F2 C2 O2 T2 _ _], S3 as [E3 E3' F3 C3 O3 T3 _ _],
    S4 as [E4 E4' F4 C4 O4 T4 _ Hb].
  rewrite O1 in E2 by done. rewrite O3, O2, E1' in E4 by done. rewrite E2' in E3.
  injection E3 as ->. injection E4 as ->.
  exists b1, b4', b2, b3'. split_and!; try done; try congruence; try lia.
  - by rewrite O4.
  - intros i Hi Hj. by rewrite O4, O3, O2, O1.
Qed.

Lemma liquidate_authority w clock c q w' :
  lending_account_liquidate w clock c q = Ok w' → lq_liab_bank c ≠ k →
  lq_bank_liquidity_vault_authority c ≠ A.
Proof.
  unfold lending_account_liquidate. intros (x & H & _)%bind_ok Hne.
  unfold liquidate_constraints, check_pda in H. inv_res.
  repeat match goal with H : bool_decide _ = true |- _ => apply bool_decide_eq_true in H end.
  match goal with H : create_program_address LIQUIDITY_VAULT_AUTHORITY_SEED _ _ = Some _ |- _ =>
    eapply (other_pda _ _ C _ _ _ _ H) end.
  right. simpl. congruence.
Qed.

Lemma insurance_fee_at w c mint n f w' :
  n = f / SCALE → collect_insurance_fee w c mint n (f mod SCALE) = Ok w' →
  ∃ b b' ts, banks w !! lq_liab_bank c = Some b ∧ w' = set_tokens ts (set_bank (lq_liab_bank c) b' w) ∧
    fixed b' = fixed b ∧ obligations b' = obligations b + SCALE * f - exact n ∧
    Bank.total_asset_shares b' = Bank.total_asset_shares b ∧
    spl_transfer (mkTransfer n (lq_bank_liquidity_vault c) (lq_bank_insurance_vault c)
      (lq_bank_liquidity_vault_authority c) (mint_key <$> mint) (lq_token_program c)) (tokens w) = Ok ts.
Proof.
  intros -> (b & ts & Hb & Hts & ->)%collect_insurance_fee_ok.
  eexists b, _, ts. split_and!; try done. unfold obligations, exact, from_num. simpl.
  pose proof (Z.div_mod f SCALE). pose proof SCALE_pos. lia.
Qed.

Lemma liquidate_backing {PN : PricesNonneg O} w clock c q w' :
  books_balance w → rates_ok w → is_u64 q →
  lending_account_liquidate w clock c q = Ok w' → keeps_backing k A (unix_timestamp clock) w w'.
Proof.
  intros Hw Hr Hu H. pose proof (liquidate_authority _ _ _ _ _ H) as Hau.
  assert (∀ j b, j = lq_asset_bank c ∨ j = lq_liab_bank c → banks w !! j = Some b →
            Bank.group b = lq_marginfi_group c) as Hgr.
  { unfold lending_account_liquidate in H. apply bind_ok in H as ([[m1 m2] b0] & Hc & _).
    apply liquidate_constraints_ok in Hc as (_&_&?&_&_&?&_&b1&?&?). intros j b [ -> | -> ] ?; by det_ok. }
  apply liquidate_ok in H as (w1 & m1 & m2 & ka & kl & pa & pl & ll & lf & e0 & e1 & pre & post & H).
  destruct H as [_ _ _ _ Hq Hne _ (w0 & Hw0 & Hw1) _ _ Hka Hkl (oa & ol & Hpa & Hpl) Ham
                 (w2 & w3 & mint & n & Hx & Hn & [Hn0 _] & Hrep & Hfee) _ _ _].
  apply prices_nonneg in Hpa, Hpl.
  apply liquidation_amounts_ok in Ham as (_ & Hlf & _); [|apply from_num_nonneg; lia|done..].
  pose proof (rates_moves [] _ _ (moves_accrue _ _ _ _ _ _ Hw0) Hr) as Hr0.
  apply accrue_at in Hw0 as (xa & xa' & Exa & -> & _ & Va & Oa & Hb0);
    [|done..|intros; apply (Hgr (lq_asset_bank c)); auto].
  apply accrue_at in Hw1 as (xl & xl' & Exl & -> & _ & Vl & Ol & Hb1); [|done..|].
  2: { simpl. intros b. rewrite lookup_insert_ne by done. intros; apply (Hgr (lq_liab_bank c)); auto. }
  simpl in Exl. rewrite lookup_insert_ne in Exl by done.
  destruct (exchange_steps _ _ _ _ ll lf _ _ Hb1 (from_num_nonneg q ltac:(lia)) ltac:(lia) ltac:(lia) Hne Hx Hrep)
    as (bl & bl' & ba & ba' & El & El' & Ea & Ea' & Fl & Fa & Cl & Ca & Hoth & Htok & Hb3).
  simpl in El, Ea. rewrite lookup_insert_eq in El. rewrite lookup_insert_ne, lookup_insert_eq in Ea by done.
  injection El as <-. injection Ea as <-.
  destruct (insurance_fee_at _ _ _ _ _ _ Hn Hfee) as (x & bf & ts & Ex & -> & Ff & Cf & Tf & Hts). det_ok.
  simpl in Htok. rewrite Htok in Hts.
  pose proof (fixed_units _ _ Fl) as [_ Vl']. pose proof (fixed_units _ _ Fa) as [_ Va'].
  pose proof (fixed_units _ _ Ff) as [_ Vf].
  destruct (decide (lq_liab_bank c = k)) as [<-|Hl]; [|specialize (Hau Hl)].
  - eapply (touched_backing _ _ _ _ _ xl bf n); [done|simpl; apply lookup_insert_eq|congruence| |].
    + by refine (transfer_debits _ _ _ _ _ _ Hts).
    + change (bank_slack (set_bank (lq_asset_bank c) xa' w) xl) with (bank_slack w xl) in Ol.
      assert (units xl' ≤ op_slack bf); [|lia].
      pose proof (fixed_slack _ _ Fl (books_banks _ Hb3 _ _ El')) as Hs. unfold op_slack in *. rewrite Tf.
      injection Ff as _ _ -> ->. done.
  - assert (∀ v, debited A v 0 (tokens w) ts) as Hd
      by (intros v; by eapply foreign_transfer_debits; [exact C| |exact Hts]).
    destruct (decide (lq_asset_bank c = k)) as [<-|Ha].
    + eapply (touched_backing _ _ _ _ _ xa ba' 0); [done| |congruence|apply Hd|].
      * simpl. by rewrite lookup_insert_ne.
      * pose proof (fixed_slack _ _ Fa (books_banks _ Hb3 _ _ Ea')). change (exact 0) with 0. lia.
    + apply untouched_backing; [done| |exact Hd]. simpl.
      rewrite lookup_insert_ne, Hoth by done. simpl. by rewrite !lookup_insert_ne.
Qed.
End LiquidationBacking.

(** ** Bankruptcy *)
Section BankruptcyBacking.
Context {F : FixedOps} {L : FixedLaws F} {T : TokenSdk} {TL : TokenLaws T} {O : OracleSdk} {R : Runtime}.
Context (k A : Pubkey) (C : Custody k A).

(** Socializing a loss takes it off the deposits, up to a unit of the share
    value. *)
Lemma socialize_obligations b loss b' :
  Bank.wf b → Bank.socialize_loss b loss = Ok b' →
  obligations b' ≤ obligations b - SCALE * loss + Bank.total_asset_shares b.
Proof.
  intros Hwf H. unfold Bank.socialize_loss in H.
  apply bind_ok in H as (v & Hv & H). apply bind_ok in H as (d & Hd & H). apply bind_ok in H as (x & Hx & H).
  injection H as <-. pose proof (Bank.wf_asv b Hwf). pose proof (Bank.wf_assets b Hwf).
  apply math_ok in Hv, Hd, Hx. apply mul_some in Hv as [-> _]; [|done..]. apply sub_some in Hd as [-> _].
  assert (Bank.total_asset_shares b ≠ 0) as Hz by (intros Hz; by rewrite Hz, checked_div_zero in Hx).
  destruct (checked_div_spec (fmul (Bank.total_asset_shares b) (Bank.asset_share_value b) - loss) _ Hz)
    as (q & Hq & Heq).
  rewrite Heq in Hx. apply fits_some in Hx as [-> _]. apply drops_bits_err in Hq; [|lia].
  pose proof (fmul_exact (Bank.total_asset_shares b) (Bank.asset_share_value b)).
  unfold obligations. simpl. lia.
Qed.

Lemma repay_obligations w amount now w' :
  BankAccountWrapper.wf w → 0 ≤ amount → BankAccountWrapper.repay w amount now = Ok w' →
  obligations (BankAccountWrapper.bank w') ≤ obligations (BankAccountWrapper.bank w) + SCALE * amount ∧
  Bank.total_asset_shares (BankAccountWrapper.bank w) ≤ Bank.total_asset_shares (BankAccountWrapper.bank w').
Proof.
  intros Hwf Ha H. split; [by eapply increase_obligations|].
  apply BankAccountWrapper.increase_spec in H as (e & -> & _ & _ & Hda & _); [simpl; lia|done..].
Qed.

Lemma bankruptcy_pdas w clock c w' :
  lending_pool_handle_bankruptcy w clock c = Ok w' → hb_insurance_vault_authority c ≠ A ∧
  ∃ b, banks w !! hb_bank c = Some b ∧ Bank.group b = hb_marginfi_group c ∧
    create_program_address LIQUIDITY_VAULT_SEED [hb_bank c] (Bank.liquidity_vault_bump b)
      = Some (hb_liquidity_vault c).
Proof.
  unfold lending_pool_handle_bankruptcy. intros ([[[g b] m] t] & H & _)%bind_ok.
  pose proof H as (_ & ? & ? & _)%bankruptcy_constraints_ok.
  unfold bankruptcy_constraints, check_pda in H. inv_res.
  repeat match goal with H : bool_decide _ = true |- _ => apply bool_decide_eq_true in H end.
  split; [|by exists b].
  match goal with H : create_program_address INSURANCE_VAULT_AUTHORITY_SEED _ _ = Some _ |- _ =>
    eapply (other_pda _ _ C _ _ _ _ H) end. by left.
Qed.

Lemma bankruptcy_backing w clock c w' :
  books_balance w → rates_ok w → in_range w' →
  lending_pool_handle_bankruptcy w clock c = Ok w' → keeps_backing k A (unix_timestamp clock) w w'.
Proof.
  intros Hw Hr Hr' H. destruct (bankruptcy_pdas _ _ _ _ H) as (Hau & b & Hb & Hg & Hpda).
  pose proof (bankruptcy_ix_books _ _ _ _ Hw Hr' H) as Hb3.
  apply handle_bankruptcy_ok in H as (w1 & w3 & g & m & m' & k0 & k1 & k2 & bad & cov & lost & mint & n & pre & ts & H).
  pose proof (λ k', bankruptcy_final_bank _ _ _ _ _ _ _ _ _ _ _ _ _ _ _ _ _ _ _ k' H) as Hfinal.
  destruct H as [_ Hk0 _ _ _ _ Hac Hk1 _ Hbad (ins & _ & Hsp) (x & Hx & Hn) Hpre Hts Hsoc Hp _ Hw']. det_ok.
  assert (0 ≤ bad) as Hbad0 by (assert (0 < ZERO_AMOUNT_THRESHOLD) by (vm_compute; done); lia).
  pose proof (split_bad_debt_ok _ _ _ _ _ _ Hbad0 Hsp) as (Hsum & _).
  pose proof (covered_rounded_up _ _ _ Hx Hn) as [Hu Hcov].
  pose proof (pre_fee_amount_le _ _ _ _ Hu Hpre) as Hle.
  apply accrue_at in Hac as (b0 & b1 & Eb & -> & Hwf1 & Hv1 & Ho1 & Hb1); [|done..|by intros; det_ok]. det_ok.
  simpl in Hk1, Hts. rewrite lookup_insert_eq in Hk1. injection Hk1 as ->.
  pose proof (Bank.socialize_loss_frame _ _ _ Hsoc) as Hfr.
  pose proof (socialize_obligations _ _ _ Hwf1 Hsoc) as Hso.
  assert (tokens w' = ts ∧ (∃ b', banks w' !! hb_bank c = Some b') ∧
          ∀ j, j ≠ hb_bank c → banks w' !! j = banks w !! j) as (Htok & (b' & Hb') & Hoth).
  { apply with_position_frame in Hp as (? & ? & b' & _ & ->). rewrite Hw'. simpl. split_and!; [done| |].
    - exists b'. apply lookup_insert_eq.
    - intros j Hj. by rewrite !lookup_insert_ne. }
  destruct (decide (hb_bank c = k)) as [<-|Hne].
  2: { apply untouched_backing; [done|by apply Hoth|]. intros v. rewrite Htok.
       by eapply foreign_transfer_debits; [exact C| |exact Hts]. }
  pose proof (ir_share_values _ Hr' _ _ Hb') as Hasv. rewrite (Hfinal _ Hb') in Hasv.
  apply position_at in Hp as (ba & ba' & Hrun & Hba & Eb & Eb' & Hfrm & _);
    [|by eapply socialized_books; [| |exact Hsoc|]; [done|simpl; apply lookup_insert_eq|]
     |by apply bad_debt_keeps_books].
  simpl in Eb. rewrite lookup_insert_eq in Eb. injection Eb as Eb.
  unfold no_value in Hrun. apply bind_ok in Hrun as (wy & Hrun & E). injection E as ->.
  apply repay_obligations in Hrun as [Hob Htas]; [|done..]. rewrite <- Eb in *.
  assert (b' = BankAccountWrapper.bank ba') as -> by (rewrite Hw' in Hb'; simpl in Hb'; congruence).
  intros kx Hkx Hvi. assert (kx = k0) as -> by congruence.
  assert (hb_liquidity_vault c = Bank.liquidity_vault k0) as Hv
    by (pose proof (vi_address _ _ _ _ Hvi); congruence).
  refine (touched_backing _ _ _ _ _ k0 _ (- pre) Hk0 Hb' _ _ _ k0 Hk0 Hvi).
  - rewrite (frame_vault _ _ Hfrm), Hfr. done.
  - rewrite Htok. refine (transfer_credits _ _ C _ (mkTransfer _ _ _ _ _ _) _ _ Hau Hv Hts).
  - change (- pre) with (0 - pre). rewrite exact_sub. change (exact 0) with 0.
    assert (SCALE * from_num n ≤ exact pre) by (by apply exact_mono).
    assert (Bank.total_asset_shares k1 = Bank.total_asset_shares k2) as Ht2 by (by rewrite Hfr).
    pose proof (books_banks _ Hb3 _ _ Hb') as Hwf'. pose proof (Bank.wf_asv _ Hwf').
    pose proof (Bank.wf_lsv_pos _ Hwf'). pose proof SCALE_pos.
    assert (SCALE * bad ≤ SCALE * from_num n + SCALE * lost) by nia. unfold op_slack. lia.
Qed.
End BankruptcyBacking.

(** ** Instructions on banks *)
Section GroupBacking.
Context {F : FixedOps} {L : FixedLaws F} {T : TokenSdk} {TL : TokenLaws T} {O : OracleSdk} {R : Runtime}.
Context (k A : Pubkey) (C : Custody k A).

(** What leaves the balance sheet and the vault alone. *)
Lemma relabel_backing w j b b' ts now :
  books_balance w → banks w !! j = Some b → Bank.wf b' → obligations b' = obligations b →
  vault_of b' = vault_of b → (∀ v, debited A v 0 (tokens w) ts) →
  keeps_backing k A now w (set_tokens ts (set_bank j b' w)).
Proof.
  intros Hw Hb Hwf Ho Hv Hd. destruct (decide (j = k)) as [<-|Hne].
  - pose proof (bank_slack_nonneg _ _ _ now Hw Hb). pose proof (op_slack_nonneg _ Hwf).
    eapply (touched_backing _ _ _ _ _ _ _ 0); [done|simpl; apply lookup_insert_eq|done|apply Hd|].
    change (exact 0) with 0. lia.
  - apply untouched_backing; [done|simpl; by apply lookup_insert_ne|done].
Qed.
Lemma tokens_backing w ts now :
  books_balance w → (∀ v, debited A v 0 (tokens w) ts) → keeps_backing k A now w (set_tokens ts w).
Proof. intros Hw Hd. by apply untouched_backing. Qed.
Lemma unrelated_backing w w' now :
  books_balance w → banks w' = banks w → tokens w' = tokens w → keeps_backing k A now w w'.
Proof.
  intros Hw Hb Ht. apply untouched_backing; [done|by rewrite Hb|]. intros v. rewrite Ht. apply debited_refl.
Qed.

Lemma accrue_ix_backing w clock g j w' :
  books_balance w → rates_ok w →
  lending_pool_accrue_bank_interest w clock g j = Ok w' → keeps_backing k A (unix_timestamp clock) w w'.
Proof.
  intros Hw Hr H. unfold lending_pool_accrue_bank_interest in H. apply bind_ok in H as (gr & _ & H).
  apply bind_ok in H as (b & Hb & H). apply check_bank_ok in Hb as [Hb Hg].
  apply accrue_at in H as (b0 & b' & Hb0 & -> & Hwf & Hv & Ho & _); [|done..|by intros; det_ok].
  pose proof (op_slack_nonneg _ Hwf). destruct (decide (j = k)) as [<-|Hne].
  - eapply (touched_backing _ _ _ _ _ _ _ 0); [done|simpl; apply lookup_insert_eq|done|apply debited_refl|].
    change (exact 0) with 0. lia.
  - apply untouched_backing; [done|simpl; by apply lookup_insert_ne|intros v; apply debited_refl].
Qed.

(** Collecting the fees takes the three payments out of the vault and off the
    fees outstanding. *)
Lemma pay_debits b c amount to mint ts ts' v :
  pay_from_liquidity b c amount to mint ts = Ok ts' → debited A v (amount / SCALE) ts ts'.
Proof.
  intros (n & Hn & H)%bind_ok. apply math_ok, to_u64_some in Hn as (-> & [Hn _] & _).
  by refine (transfer_debits _ _ _ _ _ _ H).
Qed.
Lemma foreign_pay_debits b c amount to mint ts ts' v :
  cf_liquidity_vault_authority c ≠ A →
  pay_from_liquidity b c amount to mint ts = Ok ts' → debited A v 0 ts ts'.
Proof.
  intros Ha (n & Hn & H)%bind_ok. by eapply foreign_transfer_debits; [exact C| |exact H].
Qed.
Lemma collect_fees_authority w c w' :
  lending_pool_collect_bank_fees w c = Ok w' → cf_bank c ≠ k → cf_liquidity_vault_authority c ≠ A.
Proof.
  unfold lending_pool_collect_bank_fees. intros (x & H & _)%bind_ok Hne.
  unfold collect_fees_constraints, check_pda in H. inv_res.
  repeat match goal with H : bool_decide _ = true |- _ => apply bool_decide_eq_true in H end.
  match goal with H : create_program_address LIQUIDITY_VAULT_AUTHORITY_SEED _ _ = Some _ |- _ =>
    eapply (other_pda _ _ C _ _ _ _ H) end.
  right. simpl. congruence.
Qed.
Lemma collect_fees_backing w c w' now :
  books_balance w → in_range w → lending_pool_collect_bank_fees w c = Ok w' → keeps_backing k A now w w'.
Proof.
  intros Hw Hr H. pose proof (collect_fees_authority _ _ _ H) as Hau.
  apply collect_bank_fees_ok in H as (b & b' & t & fs & pi & pg & pp & ts1 & ts2 & ts3 & mint & H).
  pose proof (cl_bank _ _ _ _ _ _ _ _ _ _ _ _ _ _ H) as Hb.
  pose proof (ir_tokens _ Hr _ _ (cl_vault _ _ _ _ _ _ _ _ _ _ _ _ _ _ H)) as [Ht _].
  destruct (collection_wf _ _ _ _ _ _ _ _ _ _ _ _ _ _ (books_banks _ Hw _ _ Hb) Ht H)
    as (Hwf & (Ei & Li & _) & (Eg & Lg & _) & (Ep & Lp & _) & _).
  destruct H as [_ _ _ _ _ _ _ P1 P2 P3 Hfr ->].
  destruct (decide (cf_bank c = k)) as [<-|Hne].
  - eapply (touched_backing _ _ _ _ _ b b' (pg / SCALE + pi / SCALE + pp / SCALE));
      [done|simpl; apply lookup_insert_eq|by rewrite Hfr| |].
    + eapply debited_trans; [eapply debited_trans|]; by eapply pay_debits.
    + pose proof (bank_slack_nonneg _ _ _ now Hw Hb). pose proof (op_slack_nonneg _ Hwf).
      assert (obligations b' = obligations b - SCALE * (pi + pg + pp)) as ->.
      { unfold obligations. rewrite Li, Lg, Lp.
        replace (Bank.total_asset_shares b') with (Bank.total_asset_shares b) by (by rewrite Hfr).
        replace (Bank.total_liability_shares b') with (Bank.total_liability_shares b) by (by rewrite Hfr).
        replace (Bank.asset_share_value b') with (Bank.asset_share_value b) by (by rewrite Hfr).
        replace (Bank.liability_share_value b') with (Bank.liability_share_value b) by (by rewrite Hfr). lia. }
      unfold exact, from_num. rewrite Ei, Eg, Ep, !Z.div_mul by (pose proof SCALE_pos; lia). lia.
  - apply untouched_backing; [done|simpl; by apply lookup_insert_ne|]. intros v. specialize (Hau Hne).
    change 0 with (0 + 0 + 0). eapply debited_trans; [eapply debited_trans|]; by eapply foreign_pay_debits.
Qed.

(** The fee and insurance vaults have their own authorities. *)
Lemma withdraw_from_vault_backing s1 s2 b1 b2 w c n w' now :
  books_balance w → s2 ≠ LIQUIDITY_VAULT_AUTHORITY_SEED →
  withdraw_from_vault s1 s2 b1 b2 w c n = Ok w' → keeps_backing k A now w w'.
Proof.
  intros Hw Hs H. unfold withdraw_from_vault, check_pda in H. inv_res.
  repeat match goal with H : bool_decide _ = true |- _ => apply bool_decide_eq_true in H end.
  apply tokens_backing; [done|]. intros vault. unfold Bank.withdraw_spl_transfer in *.
  eapply foreign_transfer_debits; [exact C| |eassumption]. simpl. eapply other_pda; [done..|]. by left.
Qed.

Lemma fund_emissions_debits w clock c mint n w' :
  se_admin c ≠ A → fund_emissions w clock c mint n = Ok w' →
  ∃ ts, w' = set_tokens ts w ∧ ∀ v, debited A v 0 (tokens w) ts.
Proof.
  intros Ha (pre & ts & _ & H & ->)%fund_emissions_ok. exists ts. split; [done|]. intros v.
  by eapply foreign_transfer_debits; [exact C| |exact H].
Qed.
Lemma setup_emissions_backing w clock c flags rate total w' :
  books_balance w → is_u64 rate → is_u64 total → se_admin c ≠ A →
  lending_pool_setup_emissions w clock c flags rate total = Ok w' →
  keeps_backing k A (unix_timestamp clock) w w'.
Proof.
  intros Hw Hu1 Hu2 Ha H. pose proof (setup_emissions_books _ _ _ _ _ _ _ Hu1 Hu2 Hw H) as Hw'.
  apply setup_emissions_ok in H as (g & b & mint & w1 & _ & _ & Hb & _ & _ & _ & (t & Hn & ->) & _ & H).
  apply fund_emissions_debits in H as (ts & -> & Hd); [|done]. simpl in Hd.
  eapply (relabel_backing w (se_bank c) b); try done.
  - eapply (books_banks _ Hw'). simpl. apply lookup_insert_eq.
  - intros v. change 0 with (0 + 0). eapply debited_trans; [by apply new_account_debits|apply Hd].
Qed.
Lemma update_emissions_backing w clock c flags rate extra w' :
  books_balance w → is_u64 (default 0 rate) → is_u64 (default 0 extra) → se_admin c ≠ A →
  lending_pool_update_emissions_parameters w clock c flags rate extra = Ok w' →
  keeps_backing k A (unix_timestamp clock) w w'.
Proof.
  intros Hw Hu1 Hu2 Ha H. pose proof (update_emissions_books _ _ _ _ _ _ _ Hu1 Hu2 Hw H) as Hw'.
  apply update_emissions_ok in H as (g & b & mint & b' & _ & _ & Hb & _ & _ & _ & Hb' & H).
  assert (∃ ts, w' = set_tokens ts (set_bank (se_bank c) b' w) ∧ ∀ v, debited A v 0 (tokens w) ts)
    as (ts & -> & Hd).
  { destruct extra; [by apply fund_emissions_debits in H|]. exists (tokens w). split; [done|].
    intros v. apply debited_refl. }
  eapply (relabel_backing w (se_bank c) b); try done.
  - eapply (books_banks _ Hw'). simpl. apply lookup_insert_eq.
  - by rewrite Hb'.
  - by rewrite Hb'.
Qed.

Lemma configure_bank_backing w g admin j o rest w' now :
  books_balance w → lending_pool_configure_bank w g admin j o rest = Ok w' → keeps_backing k A now w w'.
Proof.
  intros Hw H. pose proof (configure_bank_books _ _ _ _ _ _ _ Hw H) as Hw'.
  apply configure_bank_ix_ok in H as (gr & b & b' & _ & _ & Hb & _ & _ & (f & cfg & ->) & ->).
  eapply (relabel_backing w j b _ (tokens w)); try done.
  - eapply (books_banks _ Hw'). simpl. apply lookup_insert_eq.
  - intros v. apply debited_refl.
Qed.

(** A new bank does not touch the others, and starts even. *)
Lemma add_bank_backing w clock c cfg ok w' now :
  books_balance w → add_bank w clock c cfg ok = Ok w' → keeps_backing k A now w w'.
Proof.
  intros Hw (g & fs & mint & b1 & b2 & b3 & b4 & b5 & b6 & w1 & ls & _ & _ & _ & _ & _ & Hn & Hv & _ & _ & ->)%add_bank_ok.
  intros b Hb. assert (ab_bank c ≠ k) as Hne by congruence. revert b Hb.
  destruct Hv as [_ _ _ _ _ _ _ [ts ->] Hoth]. apply untouched_backing; [done|simpl; by apply lookup_insert_ne|].
  intros v (a & Ha & Hoa). simpl in *. pose proof (Hoth v (ex_intro _ a Ha)) as E. unfold token_amount.
  rewrite E, Ha. split; [exists a; by rewrite E|lia].
Qed.
Lemma new_bank_backed w clock c cfg ok w' :
  ab_bank c = k → add_bank w clock c cfg ok = Ok w' →
  ∃ b, banks w' !! k = Some b ∧ vault_intact k A (tokens w') b ∧ surplus (tokens w') b = 0.
Proof.
  intros <- (g & fs & mint & b1 & b2 & b3 & b4 & b5 & b6 & w1 & ls & _ & _ & _ & _ & _ & _ & Hv & _ & _ & ->)%add_bank_ok.
  destruct Hv as [V1 _ _ V4 _ _ Vt [ts ->] _].
  destruct (Vt (ab_liquidity_vault c) (ab_liquidity_vault_authority c)) as [_ Hts]; [by left|]. simpl in Hts.
  eexists. split; [simpl; apply lookup_insert_eq|]. split; [split|].
  - simpl. eexists. split; [exact Hts|]. simpl. pose proof (cu_address _ _ C) as Ha. by rewrite V4 in Ha.
  - simpl. by apply (cu_canonical _ _ C).
  - unfold surplus, obligations, token_amount. simpl. rewrite Hts. done.
Qed.
End GroupBacking.

(** ** The whole program *)
Section SolvencyLemmas.
Context {F : FixedOps} {L : FixedLaws F} {T : TokenSdk} {TL : TokenLaws T} {O : OracleSdk} {PN : PricesNonneg O}
        {R : Runtime}.
Context (k A : Pubkey) (C : Custody k A).

Lemma ix_backing w clock tx ix w' :
  books_balance w → rates_ok w → in_range w → in_range w' → ix_amounts_ok ix → A ∉ ix_signers ix →
  marginfi w clock tx ix = Ok w' → keeps_backing k A (unix_timestamp clock) w w'.
Proof.
  intros Hw Hr Hi Hi' Hu Hs H. destruct ix; cbn [marginfi ix_amounts_ok ix_signers] in H, Hu, Hs;
    rewrite ?not_elem_of_cons in Hs; try (destruct Hs as [Hs%not_eq_sym _]).
  - apply initialize_group_ok in H as (_ & ? & -> & _). by apply unrelated_backing.
  - apply configure_ok in H as (? & ? & _ & _ & ->). by apply unrelated_backing.
  - by eapply add_bank_backing.
  - by eapply add_bank_backing.
  - by eapply configure_bank_backing.
  - exact (setup_emissions_backing _ _ C _ _ _ _ _ _ _ Hw (proj1 Hu) (proj2 Hu) Hs H).
  - exact (update_emissions_backing _ _ C _ _ _ _ _ _ _ Hw (proj1 Hu) (proj2 Hu) Hs H).
  - by eapply bankruptcy_backing.
  - apply initialize_account_ok in H as (_ & _ & ->). by apply unrelated_backing.
  - by eapply deposit_backing.
  - by eapply repay_backing.
  - by eapply withdraw_backing.
  - by eapply borrow_backing.
  - by eapply close_balance_backing.
  - by eapply withdraw_emissions_backing.
  - by eapply settle_emissions_backing.
  - by eapply liquidate_backing.
  - apply start_flashloan_ok in H as (?&?&_&_&_&_&_&_&_&_&_&_&_&->). by apply unrelated_backing.
  - apply end_flashloan_ok in H as (?&_&_&_&_&->). by apply unrelated_backing.
  - by eapply accrue_ix_backing.
  - by eapply collect_fees_backing.
  - by refine (withdraw_from_vault_backing _ _ C _ _ _ _ _ _ _ _ _ Hw _ H).
  - by refine (withdraw_from_vault_backing _ _ C _ _ _ _ _ _ _ _ _ Hw _ H).
  - destruct (account_flag_ok _ _ _ _ _ _ (or_introl H)) as (?&?&?&_&_&_&_&_&_&->). by apply unrelated_backing.
  - destruct (account_flag_ok _ _ _ _ _ _ (or_intror H)) as (?&?&?&_&_&_&_&_&_&->). by apply unrelated_backing.
  - apply set_account_transfer_authority_ok in H as (?&_&_&_&_&_&->). by apply unrelated_backing.
  - apply close_account_ok in H as (?&_&_&_&_&->). by apply unrelated_backing.
  - apply initialize_fee_state_ok in H as (_&_&?&->). by apply unrelated_backing.
  - apply edit_fee_state_ok in H as (?&?&_&_&_&->). by apply unrelated_backing.
  - apply propagate_fee_ok in H as (?&?&_&_&->). by apply unrelated_backing.
  - apply config_group_fee_ok in H as (?&?&_&_&_&->). by apply unrelated_backing.
Qed.
End SolvencyLemmas.

(** The bank an instruction opens. *)
Definition ix_opens (ix : MarginfiIx) : option Pubkey :=
  match ix with
  | IxAddBank c _ | IxAddBankWithSeed c _ _ => Some (ab_bank c)
  | _ => None
  end.

(** The history of bank [k] from the instruction that added it on, with the
    slack used up so far.  Other programs may do what they want with the token
    accounts, except debit those of the vault's authority, which signs nothing
    but this program's transfers. *)
Inductive history {F : FixedOps} {T : TokenSdk} {O : OracleSdk} {R : Runtime} (k A : Pubkey) : World → Z → Prop :=
| hi_opened w clock tx ix w' :
    reachable w → ix_opens ix = Some k → ix_amounts_ok ix →
    marginfi w clock tx ix = Ok w' → in_range w' → history k A w' 0
| hi_instruction w slack clock tx ix w' b b' :
    history k A w slack → rates_ok w → ix_amounts_ok ix → A ∉ ix_signers ix →
    marginfi w clock tx ix = Ok w' → in_range w' →
    banks w !! k = Some b → banks w' !! k = Some b' →
    history k A w' (slack + (bank_slack w b (unix_timestamp clock) + op_slack b'))
| hi_outside w slack ts ms ls w' :
    history k A w slack → w' = mkWorld (banks w) (accounts w) (groups w) (fee_state w) ts ms ls →
    in_range w' → (∀ v, debited A v 0 (tokens w) ts) → history k A w' slack.

Section Solvency.
Context {F : FixedOps} {L : FixedLaws F} {T : TokenSdk} {TL : TokenLaws T} {O : OracleSdk} {PN : PricesNonneg O}
        {R : Runtime}.
Context (k A : Pubkey) (C : Custody k A).

Lemma history_reachable w slack : history k A w slack → reachable w.
Proof.
  induction 1 as [w clock tx ix w' (w0 & H0 & Hs) _ Hu H Hi | w slack clock tx ix w' b b' _ (w0 & H0 & Hs) _ Hu _ H Hi
    | w slack ts ms ls w' _ (w0 & H0 & Hs) E Hi _]; exists w0; split; [done| |done| |done|];
    eapply rtc_r; [exact Hs|by eapply step_ix|exact Hs|by eapply step_ix|exact Hs|by eapply step_env].
Qed.

Lemma history_backed w slack :
  history k A w slack →
  ∃ b, banks w !! k = Some b ∧ vault_intact k A (tokens w) b ∧ - slack ≤ surplus (tokens w) b.
Proof.
  induction 1 as [w clock tx ix w' Hre Ho _ H _ | w slack clock tx ix w' b b' Hh IH Hr Hu Hs H Hi' Hb Hb'
    | w slack ts ms ls w' _ IH -> _ Hd].
  - assert (∃ c cfg ok, ab_bank c = k ∧ add_bank w clock c cfg ok = Ok w') as (c & cfg & ok & Hc & Ha)
      by (destruct ix; try discriminate Ho; injection Ho as Ho; eauto).
    destruct (new_bank_backed k A C _ _ _ _ _ _ Hc Ha) as (b & Hb & Hv & Hsur). exists b. split_and!; [done..|lia].
  - destruct IH as (b0 & Hb0 & Hv & Hsur). det_ok.
    pose proof (reach_invariant _ (history_reachable _ _ Hh)) as [Hi [Hw _ _]].
    destruct (ix_backing k A C _ _ _ _ _ Hw Hr Hi Hi' Hu Hs H _ Hb Hv) as (b1 & Hb1 & Hv1 & Hsur1). det_ok.
    exists b'. split_and!; [done..|lia].
  - destruct IH as (b & Hb & [Ho Ha] & Hsur). exists b. simpl. destruct (Hd _ Ho) as [Ho' Hle].
    split_and!; [done|by split|]. unfold surplus in *. pose proof (exact_mono _ _ Hle) as Hx.
    rewrite exact_sub in Hx. change (exact 0) with 0 in Hx. lia.
Qed.

End Solvency.

(** ** Witness

    Bank 700 of the example history is opened, and an account deposits 50
    tokens in it; its vault's authority is 704. *)
#[local] Existing Instance i80f48.
#[local] Existing Instance demo_token_sdk.
#[local] Existing Instance demo_oracle_sdk.
#[local] Existing Instance demo_runtime.

#[local] Instance rates_wf_dec b g : Decision (Bank.rates_wf b g).
Proof. unfold Bank.rates_wf, InterestRateCalc.curve_wf, InterestRateCalc.fees_wf. apply _. Defined.
Definition rates_okb (w : World) : bool :=
  bool_decide (map_Forall (λ _ b, match groups w !! Bank.group b with
    | Some g => bool_decide (Bank.rates_wf b g) | None => true end = true) (banks w)).
Lemma rates_okb_ok w : rates_okb w = true → rates_ok w.
Proof.
  unfold rates_okb. intros H%bool_decide_eq_true k b g Hb Hg. specialize (H k b Hb). simpl in H.
  rewrite Hg in H. by apply bool_decide_eq_true in H.
Qed.

(** The example's token program: the owner signs, and no fee is charged. *)
Lemma demo_signed A t ts ts' a :
  spl_transfer t ts = Ok ts' → ts !! tr_from t = Some a → ta_owner a = A → tr_authority t = A.
Proof.
  intros H Ha <-. simpl in H. rewrite Ha in H. destruct (ts !! tr_to t); [|done].
  destruct (_ && _) eqn:Hc; [|done]. by bool_prop.
Qed.
Lemma demo_no_fee A t ts ts' a :
  spl_transfer t ts = Ok ts' → ts !! tr_to t = Some a → ta_owner a = A → tr_from t ≠ tr_to t →
  token_amount ts' (tr_to t) = token_amount ts (tr_to t) + tr_amount t.
Proof.
  intros H _ _ Hne. simpl in H.
  destruct (ts !! tr_from t) as [x|] eqn:Ef; [|done]. destruct (ts !! tr_to t) as [y|] eqn:Et; [|done].
  destruct (_ && _); [|done]. injection H as <-. unfold token_amount. by rewrite lookup_insert_eq, Et.
Qed.
Lemma demo_custody : Custody 700 704.
Proof.
  split.
  - reflexivity.
  - intros v b. simpl. intros [= <- <-]. reflexivity.
  - intros s [|j keys] bump; [done|]. simpl.
    destruct (j <? 0) eqn:E1; [done|]. destruct (j mod 10 =? 0) eqn:E2; [|done]. bool_prop.
    destruct s; simpl; intros [= H]; try (exfalso; Z.div_mod_to_equations; lia).
    split; [done|]. f_equal. lia.
  - intros s keys. simpl. destruct keys as [|j keys]; simpl; [by destruct s|].
    destruct (j mod 10 =? 0) eqn:E2; simpl; [|done]. bool_prop.
    destruct s; simpl; intros H; try done; try (exfalso; Z.div_mod_to_equations; lia).
    split; [done|]. f_equal. lia.
  - exact (demo_signed 704).
  - exact (demo_no_fee 704).
Qed.

(** The world after the first [n] instructions of the example. *)
Definition demo_replay (n : nat) : World :=
  default demo_genesis (replay demo_genesis demo_clock demo_tx (take n demo_script)).
Lemma demo_prefix n :
  bool_decide (is_Some (replay demo_genesis demo_clock demo_tx (take n demo_script))) = true →
  replay demo_genesis demo_clock demo_tx (take n demo_script) = Some (demo_replay n).
Proof. unfold demo_replay. intros [w ->]%bool_decide_eq_true. done. Qed.
(** One more instruction. *)
Lemma replay_app w clock tx l ix w1 w2 :
  replay w clock tx l = Some w1 → replay w clock tx (l ++ [ix]) = Some w2 →
  marginfi w1 clock tx ix = Ok w2 ∧ in_range w2.
Proof.
  revert w. induction l as [|j l IH]; simpl; intros w H1 H2.
  - injection H1 as ->. destruct (marginfi w1 clock tx ix) as [w'| |] eqn:E; [|done..].
    destruct (in_rangeb w') eqn:Hr; [|done]. injection H2 as <-. split; [done|by apply in_rangeb_in_range].
  - destruct (marginfi w clock tx j) as [w'| |]; [|done..]. destruct (in_rangeb w'); [|done]. by eapply IH.
Qed.
Lemma demo_script_step n ix :
  demo_script !! n = Some ix →
  bool_decide (is_Some (replay demo_genesis demo_clock demo_tx (take n demo_script))) = true →
  bool_decide (is_Some (replay demo_genesis demo_clock demo_tx (take (S n) demo_script))) = true →
  marginfi (demo_replay n) demo_clock demo_tx ix = Ok (demo_replay (S n)) ∧ in_range (demo_replay (S n)).
Proof.
  intros Hix H1%demo_prefix H2%demo_prefix. rewrite (take_S_r _ _ _ Hix) in H2. by eapply replay_app.
Qed.

(** The rest of a history, run: the world it ends in and the slack it uses. *)
Fixpoint follow (k : Pubkey) (clock : Clock) (tx : TxContext) (w : World) (ixs : list MarginfiIx) : option (World * Z) :=
  match ixs with
  | [] => Some (w, 0)
  | ix :: ixs =>
      match marginfi w clock tx ix with
      | Ok w' =>
          if rates_okb w && in_rangeb w' then
            b ← banks w !! k; b' ← banks w' !! k; r ← follow k clock tx w' ixs;
            Some (fst r, bank_slack w b (unix_timestamp clock) + op_slack b' + snd r)
          else None
      | _ => None
      end
  end.
Lemma follow_history k A clock tx ixs : Forall (λ ix, ix_amounts_ok ix ∧ A ∉ ix_signers ix) ixs → ∀ w slack r,
  history k A w slack → follow k clock tx w ixs = Some r → history k A (fst r) (slack + snd r).
Proof.
  induction 1 as [|ix ixs [Hu Hs] _ IH]; simpl; intros w slack r Hh H.
  - injection H as <-. by rewrite Z.add_0_r.
  - destruct (marginfi w clock tx ix) as [w'| |] eqn:Hm; [|done..].
    destruct (_ && _) eqn:Ht; [|done]. apply andb_prop in Ht as [Hr%rates_okb_ok Hi%in_rangeb_in_range].
    destruct (banks w !! k) as [b|] eqn:Hb; [|done]. destruct (banks w' !! k) as [b'|] eqn:Hb'; [|done]. simpl in H.
    destruct (follow _ _ _ _ _) as [r'|] eqn:Hf; [|done]. injection H as <-. simpl. rewrite Z.add_assoc.
    eapply IH; [|exact Hf]. by eapply hi_instruction.
Qed.
Lemma demo_opened : history 700 704 (demo_replay 3) 0.
Proof.
  destruct (demo_script_step 2 (IxAddBank demo_add demo_compact)) as [H Hi];
    [reflexivity|vm_compute; reflexivity..|].
  refine (hi_opened _ _ _ _ _ (IxAddBank demo_add demo_compact) _ _ eq_refl I H Hi). exists demo_genesis. split.
  - split; [reflexivity..|apply in_rangeb_in_range; vm_compute; reflexivity].
  - refine (replay_steps demo_clock demo_tx (take 2 demo_script) _ _ _ (demo_prefix 2 _)).
    + repeat constructor; discriminate.
    + vm_compute. reflexivity.
Qed.
(** The account is opened and deposits. *)
Definition demo_followed : World * Z :=
  default (demo_genesis, 0) (follow 700 demo_clock demo_tx (demo_replay 3) (take 2 (drop 3 demo_script))).
Lemma demo_history : history 700 704 (fst demo_followed) (snd demo_followed).
Proof.
  refine (follow_history 700 704 demo_clock demo_tx (take 2 (drop 3 demo_script)) _ _ 0 demo_followed demo_opened _).
  - repeat constructor; try discriminate; set_solver.
  - unfold demo_followed. assert (bool_decide (is_Some (follow 700 demo_clock demo_tx (demo_replay 3)
      (take 2 (drop 3 demo_script)))) = true) as [r ->]%bool_decide_eq_true by (vm_compute; reflexivity). done.
Qed.

