(* ===== verification/Exits.v ===== *)
(** * Ways out

    What the programs' users rely on when they stop using them: a lender can take
    out everything lent, and a borrower can pay back everything owed, whatever
    everybody else has done to the bank.  These are theorems that an instruction
    of UserIx.v returns, not only that it is right when it does; they are put
    together from the success of the accrual (BankState.v), of the operation on
    the position (below) and, for a lender, from the balance sheet of the bank
    along its history (Solvency.v): the vault has the tokens. *)
From S2P Require Import Prelude Errors Fixed Constants Utils GroupState InterestRate BankState Price Account BankAccount Risk World UserIx LiquidateIx BankruptcyIx GroupIx Frames System Solvency.

(** ** Closing a position *)
(** The position collects no emissions, and those it has are less than a token. *)
Definition emissions_idle (side : BalanceSide) (k : Bank) (b : Balance) : Prop :=
  Bank.get_flag k (match side with
                   | Assets => EMISSIONS_FLAG_LENDING_ACTIVE
                   | Liabilities => EMISSIONS_FLAG_BORROW_ACTIVE
                   end) = false ∧
  Balance.emissions_outstanding b < ONE.
(** The deposits, debts and fees of the bank are in range, with a token to spare. *)
Record amounts_fit (k : Bank) : Prop := {
  af_shares : Bank.total_asset_shares k ≤ I80F48_MAX ∧ Bank.total_liability_shares k ≤ I80F48_MAX;
  af_deposits : fmul (Bank.total_asset_shares k) (Bank.asset_share_value k) ≤ I80F48_MAX;
  af_debts : fmul (Bank.total_liability_shares k) (Bank.liability_share_value k) ≤ I80F48_MAX - ONE;
  af_insurance : Bank.collected_insurance_fees_outstanding k ≤ I80F48_MAX - ONE
}.

Section Closing.
Context {F : FixedOps} {L : FixedLaws F}.
Implicit Types (w : BankAccountWrapper.BankAccountWrapper) (b : Balance) (k : Bank).

(** An idle position claims nothing. *)
Lemma claim_emissions_idle side w now :
  BankAccountWrapper.wf w → emissions_idle side (BankAccountWrapper.bank w) (BankAccountWrapper.balance w) →
  match side with Assets => Balance.liability_shares | Liabilities => Balance.asset_shares end
    (BankAccountWrapper.balance w) = 0 →
  BankAccountWrapper.claim_emissions w now =
    Ok (BankAccountWrapper.mkWrapper (Balance.with_last_update now (BankAccountWrapper.balance w))
          (BankAccountWrapper.bank w)).
Proof.
  intros [Hb _ _ _] [Hf _] Hz. assert (0 < EMPTY_BALANCE_THRESHOLD) by done.
  unfold BankAccountWrapper.claim_emissions, BankAccountWrapper.emissions_base.
  rewrite Balance.get_side_spec by done. simpl.
  destruct side.
  - rewrite (proj2 (Z.leb_gt EMPTY_BALANCE_THRESHOLD (Balance.liability_shares _))) by lia.
    destruct (_ <=? _); [|done]. by rewrite Hf.
  - rewrite (proj2 (Z.leb_gt EMPTY_BALANCE_THRESHOLD (Balance.asset_shares _))) by lia.
    destruct (_ <=? _); [|done]. rewrite Hf. by destruct (Bank.get_flag _ _).
Qed.

Lemma floor_ok a : 0 ≤ a ≤ I80F48_MAX → checked_floor a = Some (a / SCALE * SCALE).
Proof.
  intros [Ha Hm]. rewrite checked_floor_spec. apply fits_some. split; [done|].
  pose proof (floor_bounds a). pose proof (Z.div_pos a SCALE Ha SCALE_pos). pose proof SCALE_pos.
  unfold is_i80f48, I80F48_MIN. nia.
Qed.
Lemma ceil_ok a : 0 ≤ a ≤ I80F48_MAX - ONE → checked_ceil a = Some (- (- a / SCALE) * SCALE).
Proof.
  intros [Ha Hm]. rewrite checked_ceil_spec. apply fits_some. split; [done|].
  pose proof (ceil_bounds a). unfold is_i80f48, I80F48_MIN, ONE in *. lia.
Qed.
Lemma to_u64_ok n : is_u64 n → checked_to_u64 (n * SCALE) = Some n.
Proof.
  intros Hn. pose proof SCALE_pos. rewrite checked_to_u64_spec, Z.div_mul by lia. by apply u64_checked_some.
Qed.

Lemma assert_not_paused k :
  BankConfig.operational_state (Bank.config k) ≠ Paused → Bank.assert_operational_mode k None = Ok tt.
Proof. unfold Bank.assert_operational_mode. by destruct (BankConfig.operational_state _). Qed.

(** A deposit that the utilization of the bank lets go is closed. *)
Lemma withdraw_all_total w now :
  let k := BankAccountWrapper.bank w in
  let b := BankAccountWrapper.balance w in
  BankAccountWrapper.wf w → amounts_fit k → emissions_idle Assets k b →
  BankConfig.operational_state (Bank.config k) ≠ Paused →
  Balance.liability_shares b = 0 → ZERO_AMOUNT_THRESHOLD < BankAccountWrapper.holdings w →
  Bank.total_liability_shares k * Bank.liability_share_value k
    ≤ (Bank.total_asset_shares k - Balance.asset_shares b) * Bank.asset_share_value k →
  BankAccountWrapper.holdings w / SCALE ≤ U64_MAX →
  ∃ w', BankAccountWrapper.withdraw_all w now = Ok (BankAccountWrapper.holdings w / SCALE, w').
Proof.
  intros k b Hwf [[Has Hls] Hd Hl Hins] Hidle Hp Hz Hpos Hut Hu64. pose proof SCALE_pos.
  unfold BankAccountWrapper.withdraw_all. rewrite (claim_emissions_idle Assets) by done. simpl.
  subst k b. destruct w as [b k]. destruct Hidle as [_ Hout].
  destruct Hwf as [[Ha _ _ _] Hk Hca _]. unfold BankAccountWrapper.holdings in *. simpl in *.
  pose proof (Bank.wf_asv _ Hk). pose proof (Bank.wf_lsv_pos _ Hk). pose proof (Bank.wf_liabs _ Hk).
  pose proof (Bank.wf_insurance_fees _ Hk).
  set (amount := fmul (Balance.asset_shares b) (Bank.asset_share_value k)) in *.
  assert (amount ≤ fmul (Bank.total_asset_shares k) (Bank.asset_share_value k)) as Hle by (by apply fmul_mono).
  assert (0 ≤ amount) as Hamt by (by apply fmul_nonneg).
  rewrite (assert_not_paused k) by done. simpl.
  unfold Bank.get_asset_amount at 1, Bank.get_liability_amount at 1.
  rewrite Hz, (mul_ok (Balance.asset_shares b)), mul_ok, fmul_0_l by (rewrite ?fmul_0_l; done || lia).
  simpl. fold amount. unfold is_positive_with_tolerance. rewrite (proj2 (Z.ltb_lt _ _)) by done. simpl.
  rewrite is_zero_tol_eq by done. simpl. unfold Balance.close. simpl.
  rewrite (proj2 (Z.ltb_lt _ _)) by done. simpl.
  rewrite op_neg_spec by (unfold is_i80f48, I80F48_MIN, I80F48_MAX in *; lia). simpl.
  unfold Bank.change_asset_shares.
  rewrite add_ok by (unfold is_i80f48, I80F48_MIN, I80F48_MAX in *; lia). simpl.
  rewrite (proj2 (Z.ltb_ge _ _)) by lia. simpl.
  unfold Bank.check_utilization_ratio, Bank.get_asset_amount, Bank.get_liability_amount. simpl.
  set (rest := Bank.total_asset_shares k + - Balance.asset_shares b).
  assert (fmul rest (Bank.asset_share_value k) ≤ fmul (Bank.total_asset_shares k) (Bank.asset_share_value k))
    by (apply fmul_mono; lia).
  assert (fmul (Bank.total_liability_shares k) (Bank.liability_share_value k)
          ≤ fmul rest (Bank.asset_share_value k)) as Hle2 by (apply Z.div_le_mono; lia).
  rewrite !mul_ok by lia. simpl. rewrite (proj2 (Z.leb_le _ _)) by exact Hle2. simpl.
  pose proof (floor_bounds amount). pose proof (Z.div_pos amount SCALE Hamt SCALE_pos).
  rewrite floor_ok by lia. simpl.
  rewrite sub_ok by (unfold is_i80f48, I80F48_MIN, I80F48_MAX in *; lia). simpl.
  rewrite add_ok by (unfold is_i80f48, I80F48_MIN, I80F48_MAX, ONE in *; lia). simpl.
  rewrite to_u64_ok by done. simpl. eauto.
Qed.

(** A debt is closed whatever the state of the bank, unless it is paused. *)
Lemma repay_all_total w now :
  let k := BankAccountWrapper.bank w in
  let b := BankAccountWrapper.balance w in
  let due := - (- BankAccountWrapper.debt w / SCALE) in
  BankAccountWrapper.wf w → amounts_fit k → emissions_idle Liabilities k b →
  BankConfig.operational_state (Bank.config k) ≠ Paused →
  Balance.asset_shares b = 0 → ZERO_AMOUNT_THRESHOLD < BankAccountWrapper.debt w → due ≤ U64_MAX →
  ∃ w', BankAccountWrapper.repay_all w now = Ok (due, w').
Proof.
  intros k b due Hwf [[Has Hls] Hd Hl Hins] Hidle Hp Hz Hpos Hu64. pose proof SCALE_pos. subst due.
  unfold BankAccountWrapper.repay_all. rewrite (claim_emissions_idle Liabilities) by done. simpl.
  subst k b. destruct w as [b k]. destruct Hidle as [_ Hout].
  destruct Hwf as [[_ Ha _ _] Hk _ Hcl]. unfold BankAccountWrapper.debt in *. simpl in *.
  pose proof (Bank.wf_asv _ Hk). pose proof (Bank.wf_lsv_pos _ Hk). pose proof (Bank.wf_insurance_fees _ Hk).
  set (amount := fmul (Balance.liability_shares b) (Bank.liability_share_value k)) in *.
  assert (amount ≤ fmul (Bank.total_liability_shares k) (Bank.liability_share_value k)) as Hle
    by (apply fmul_mono; lia).
  assert (0 ≤ amount) as Hamt by (apply fmul_nonneg; lia).
  rewrite (assert_not_paused k) by done. simpl.
  unfold Bank.get_asset_amount at 1, Bank.get_liability_amount at 1. unfold ONE in *.
  rewrite Hz, (mul_ok (Balance.liability_shares b)), mul_ok, fmul_0_l by (rewrite ?fmul_0_l; done || lia).
  simpl. fold amount. unfold is_positive_with_tolerance. rewrite (proj2 (Z.ltb_lt _ _)) by done. simpl.
  rewrite is_zero_tol_eq by done. simpl. unfold Balance.close. simpl.
  rewrite (proj2 (Z.ltb_lt _ _)) by done. simpl.
  rewrite op_neg_spec by (unfold is_i80f48, I80F48_MIN, I80F48_MAX in *; lia). simpl.
  unfold Bank.change_liability_shares.
  rewrite add_ok by (unfold is_i80f48, I80F48_MIN, I80F48_MAX in *; lia). simpl.
  rewrite (proj2 (Z.ltb_ge _ _)) by lia. simpl.
  pose proof (ceil_bounds amount).
  rewrite ceil_ok by (unfold ONE; lia). simpl.
  rewrite sub_ok by (unfold is_i80f48, I80F48_MIN, I80F48_MAX in *; lia). simpl.
  rewrite add_ok by (unfold is_i80f48, I80F48_MIN, I80F48_MAX in *; lia). simpl.
  rewrite to_u64_ok by (split; nia). simpl. eauto.
Qed.
End Closing.

(** ** The instructions *)
(** The only position of the account. *)
Definition lone_position (m : MarginfiAccount) (i : nat) (bank : Pubkey) (b : Balance) : Prop :=
  MarginfiAccount.lending_account m !! i = Some b ∧ LendingAccount.is_position bank b = true ∧
  ∀ j b', MarginfiAccount.lending_account m !! j = Some b' → Balance.active b' = true → j = i.

(** What a lender needs of the bank. *)
Record may_leave {F : FixedOps} (k : Bank) (g : MarginfiGroup) (b : Balance) (now reserve : Z) : Prop := {
  ml_open : BankConfig.operational_state (Bank.config k) ≠ Paused;
  ml_accrual : Bank.accruable k now g;
  ml_idle : emissions_idle Assets k b;
  ml_lender : Balance.liability_shares b = 0 ∧
              ZERO_AMOUNT_THRESHOLD < fmul (Balance.asset_shares b) (Bank.asset_share_value k);
  ml_others k1 : Bank.accrue_interest k now g = Ok k1 →
    amounts_fit k1 ∧
    let debts := Bank.total_liability_shares k1 * Bank.liability_share_value k1 in
    let others := (Bank.total_asset_shares k1 - Balance.asset_shares b) * Bank.asset_share_value k1 in
    debts ≤ others ∧ debts + reserve ≤ others
}.
(** The token program lets the bank pay the lender what the vault holds. *)
Definition vault_pays {T : TokenSdk} (w : World) (c : LendingAccountWithdraw) (mint : option Mint) : Prop :=
  ∀ n, 0 ≤ n ≤ token_amount (tokens w) (wd_bank_liquidity_vault c) →
  ∃ ts, spl_transfer (mkTransfer n (wd_bank_liquidity_vault c) (wd_destination_token_account c)
          (wd_bank_liquidity_vault_authority c) (mint_key <$> mint) (wd_token_program c)) (tokens w) = Ok ts.


(** The debt in whole tokens, rounded up. *)
Definition whole_debt (k : Bank) (b : Balance) : Z :=
  - (- fmul (Balance.liability_shares b) (Bank.liability_share_value k) / SCALE).
(** What a borrower needs of the bank. *)
Record may_repay {F : FixedOps} (k : Bank) (g : MarginfiGroup) (b : Balance) (now : Z) : Prop := {
  mr_open : BankConfig.operational_state (Bank.config k) ≠ Paused;
  mr_accrual : Bank.accruable k now g;
  mr_idle : emissions_idle Liabilities k b;
  mr_borrower : Balance.asset_shares b = 0 ∧
                ZERO_AMOUNT_THRESHOLD < fmul (Balance.liability_shares b) (Bank.liability_share_value k);
  mr_fits k1 : Bank.accrue_interest k now g = Ok k1 → amounts_fit k1 ∧ whole_debt k1 b ≤ U64_MAX
}.
(** The token program lets the signer pay [n] tokens into the vault. *)
Definition payer_pays {F : FixedOps} {T : TokenSdk} (w : World) (c : LendingAccountDeposit) (mint : option Mint)
    (epoch n : Z) : Prop :=
  ∃ pre ts, pre_fee_amount mint n epoch = Ok pre ∧
    spl_transfer (mkTransfer pre (d_signer_token_account c) (d_bank_liquidity_vault c) (d_signer c)
      (mint_key <$> mint) (d_token_program c)) (tokens w) = Ok ts.

Section Leaving.
Context {F : FixedOps} {L : FixedLaws F} {T : TokenSdk} {TL : TokenLaws T} {O : OracleSdk} {PN : PricesNonneg O}
        {R : Runtime}.

Lemma position_unique m i k b :
  LendingAccount.wf (MarginfiAccount.lending_account m) →
  MarginfiAccount.lending_account m !! i = Some b → LendingAccount.is_position k b = true →
  position (LendingAccount.is_position k) (MarginfiAccount.lending_account m) = Some i.
Proof.
  intros Hwf Hi Hp. destruct (position_is_Some _ _ _ _ Hi Hp) as [j Hj]. rewrite Hj.
  apply position_Some in Hj as (c & Hc & Hpc & _).
  apply BankAccountWrapper.is_position_true in Hp as [? ?], Hpc as [? ?].
  f_equal. eapply LendingAccount.wf_unique; [exact Hwf|exact Hc|exact Hi|done..|congruence].
Qed.

(** An account without positions passes the health check. *)
Lemma no_positions_healthy bs clock m :
  (∀ j b, MarginfiAccount.lending_account m !! j = Some b → Balance.active b = false) →
  RiskEngine.check_account_init_health bs clock m [] = Ok tt.
Proof.
  intros Hn. unfold RiskEngine.check_account_init_health. destruct (MarginfiAccount.get_flag _ _); [done|].
  assert (LendingAccount.active_balances (MarginfiAccount.lending_account m) = []) as E.
  { unfold LendingAccount.active_balances.
    destruct (filter _ _) as [|b l] eqn:El; [done|].
    assert (b ∈ b :: l) as Hin by apply list_elem_of_here. rewrite <- El in Hin.
    apply list_elem_of_filter in Hin as [Ha [j Hj]%list_elem_of_lookup]. by rewrite (Hn j b Hj) in Ha. }
  unfold RiskEngine.new_no_flashloan_check, BankAccountWithPriceFeed.load. by rewrite E.
Qed.

(** Accruing interest on a bank that can. *)
Lemma accrue_total w j g b now :
  books_balance w → banks w !! j = Some b → groups w !! Bank.group b = Some g → Bank.accruable b now g →
  ∃ b1, Bank.accrue_interest b now g = Ok b1 ∧ accrue w j (Bank.group b) now = Ok (set_bank j b1 w).
Proof.
  intros Hw Hb Hg Hac. destruct (Bank.accrual_total b now g) as (b1 & Hb1 & _); [by eapply books_banks|done|].
  exists b1. split; [done|]. unfold accrue, load_bank, load_group. rewrite Hb. simpl. rewrite Hg. simpl.
  by rewrite Hb1.
Qed.

(** Running an operation on a position the account has. *)
Lemma with_position_total {A} w a j now m i b k x ba'
    (f : BankAccountWrapper.BankAccountWrapper → MarginfiResult (A * BankAccountWrapper.BankAccountWrapper)) :
  accounts w !! a = Some m → banks w !! j = Some k →
  LendingAccount.wf (MarginfiAccount.lending_account m) →
  MarginfiAccount.lending_account m !! i = Some b → LendingAccount.is_position j b = true →
  f (BankAccountWrapper.mkWrapper b k) = Ok (x, ba') →
  with_position false w a j now f =
    Ok (x, set_account a (MarginfiAccount.with_lending_account
                            (<[i := BankAccountWrapper.balance ba']> (MarginfiAccount.lending_account m)) m)
             (set_bank j (BankAccountWrapper.bank ba') w)).
Proof.
  intros Hm Hk Hwf Hi Hp Hf. unfold with_position, load_account, load_bank. rewrite Hm. simpl. rewrite Hk. simpl.
  unfold BankAccountWrapper.find. erewrite position_unique by done. simpl. rewrite Hi. simpl. by rewrite Hf.
Qed.

Lemma withdraw_constraints_parts w c m k :
  withdraw_constraints w c = Ok (m, k) →
  accounts w !! wd_marginfi_account c = Some m ∧ banks w !! wd_bank c = Some k ∧
  Bank.group k = wd_marginfi_group c ∧
  create_program_address LIQUIDITY_VAULT_SEED [wd_bank c] (Bank.liquidity_vault_bump k)
    = Some (wd_bank_liquidity_vault c).
Proof.
  unfold withdraw_constraints, check_pda. intros H. inv_res. constraints. subst.
  split_and!; try done. by eapply bool_decide_eq_true.
Qed.

(** The position with its bank after an accrual. *)
Lemma accrued_wrapper_wf w a m i j b k k1 now g :
  books_balance w → accounts w !! a = Some m → banks w !! j = Some k →
  MarginfiAccount.lending_account m !! i = Some b → LendingAccount.is_position j b = true →
  Bank.accrue_interest k now g = Ok k1 → BankAccountWrapper.wf (BankAccountWrapper.mkWrapper b k1).
Proof.
  intros Hw Hm Hk Hi Hp H. pose proof (books_accounts _ Hw _ _ Hm) as Hl.
  apply accrue_interest_frame in H as (Hwf & Hfr & _); [|by eapply books_banks].
  assert (∀ side, position_shares side j b ≤ bank_total side k1) as Hcov.
  { intros side. rewrite <- (accrual_totals _ _ side Hfr). pose proof (books_totals _ Hw side _ _ Hk).
    pose proof (account_shares_ge side j m i b Hl Hi).
    pose proof (all_shares_ge side j _ _ _ (books_accounts _ Hw) Hm). lia. }
  pose proof (Hcov Assets) as Ha. pose proof (Hcov Liabilities) as Hb.
  unfold position_shares in Ha, Hb. rewrite Hp in Ha, Hb. simpl in Ha, Hb.
  split; simpl; [by eapply LendingAccount.wf_balances|done..].
Qed.

(** The vault holds what the others leave to a lender of [s] shares. *)
Lemma vault_covers v k1 s reserve :
  Bank.wf k1 → 0 ≤ s → - reserve ≤ exact v - obligations k1 →
  Bank.total_liability_shares k1 * Bank.liability_share_value k1 + reserve
    ≤ (Bank.total_asset_shares k1 - s) * Bank.asset_share_value k1 →
  fmul s (Bank.asset_share_value k1) / SCALE ≤ v.
Proof.
  intros [_ _ Ha _ Hg Hi Hp _ _] Hs Hsur Hres. pose proof SCALE_pos.
  unfold obligations, exact, from_num in Hsur.
  assert (s * Bank.asset_share_value k1 ≤ v * SCALE * SCALE) as Hle by nia.
  unfold fmul. apply Z.div_le_upper_bound; [done|]. rewrite (Z.mul_comm SCALE v).
  apply Z.div_le_upper_bound; lia.
Qed.

Lemma token_amount_u64 w v : in_range w → is_u64 (token_amount (tokens w) v).
Proof.
  intros Hin. unfold token_amount. destruct (tokens w !! v) eqn:E; [by eapply ir_tokens|done].
Qed.

(** The part of a lender's exit that concerns the bank. *)
Lemma leave_position w a m i j b k g now slack :
  books_balance w → in_range w → rates_ok w → accounts w !! a = Some m → banks w !! j = Some k →
  groups w !! Bank.group k = Some g →
  MarginfiAccount.lending_account m !! i = Some b → LendingAccount.is_position j b = true →
  may_leave k g b now (slack + bank_slack w k now) → - slack ≤ surplus (tokens w) k →
  ∃ k1 n ba',
    accrue w j (Bank.group k) now = Ok (set_bank j k1 w) ∧
    BankAccountWrapper.withdraw_all (BankAccountWrapper.mkWrapper b k1) now = Ok (n, ba') ∧
    0 ≤ n ≤ token_amount (tokens w) (Bank.liquidity_vault k) ∧
    fmul (Balance.asset_shares b) (Bank.asset_share_value k) < from_num (n + 1) ∧
    BankAccountWrapper.balance ba' = Balance.empty_deactivated.
Proof.
  intros Hw Hin Hr Hm Hk Hg Hi Hp [Hop Hac Hidle [Hz Hpos] Hafter] Hsur.
  pose proof (books_banks _ Hw _ _ Hk) as Hkwf. pose proof (books_accounts _ Hw _ _ Hm) as Hlwf.
  destruct (accrue_total _ _ _ _ now Hw Hk Hg Hac) as (k1 & Hk1 & Haccr).
  destruct (Hafter _ Hk1) as [Hfit [Hut Hres]].
  pose proof (Bank.accrue_values _ _ _ _ Hkwf Hk1) as (Hasv & _).
  pose proof (accrued_wrapper_wf _ _ _ _ _ _ _ _ _ _ Hw Hm Hk Hi Hp Hk1) as Hbawf.
  pose proof (accrue_interest_frame _ _ _ _ Hkwf Hk1) as (Hk1wf & Hfr & _).
  pose proof (accrue_obligations _ _ _ _ Hkwf (Hr _ _ _ Hk Hg) Hk1) as Hob.
  unfold bank_slack in *. rewrite Hg in *.
  pose proof (Balance.wf_assets _ (LendingAccount.wf_balances _ Hlwf _ _ Hi)) as Hs0.
  pose proof (Bank.wf_asv _ Hkwf) as Hasv0.
  set (ba := BankAccountWrapper.mkWrapper b k1) in *.
  set (n := BankAccountWrapper.holdings ba / SCALE).
  pose proof (fmul_mono (Balance.asset_shares b) (Balance.asset_shares b) _ _ ltac:(lia) (conj Hasv0 Hasv)) as Hworth.
  pose proof (floor_bounds (BankAccountWrapper.holdings ba)) as Hfl. fold n in Hfl.
  assert (0 ≤ n) by (apply Z.div_pos; [apply fmul_nonneg; simpl; lia|done]).
  assert (n ≤ token_amount (tokens w) (Bank.liquidity_vault k)) as Hn.
  { refine (vault_covers _ k1 _ _ Hk1wf Hs0 _ Hres). unfold surplus in Hsur. lia. }
  destruct (withdraw_all_total ba now) as [ba' Hba']; simpl; try done.
  { destruct Hidle. split; [rewrite Hfr; done|done]. }
  { rewrite Hfr. done. }
  { unfold BankAccountWrapper.holdings. simpl. lia. }
  { fold n. destruct (token_amount_u64 w (Bank.liquidity_vault k) Hin). lia. }
  exists k1, n, ba'. split_and!; try done.
  - unfold BankAccountWrapper.holdings, from_num in *. simpl in *. lia.
  - by apply BankAccountWrapper.withdraw_all_spec in Hba' as (e & _ & _ & _ & _ & _ & _ & ? & _).
Qed.

Lemma deposit_constraints_parts w c m k :
  deposit_constraints w c = Ok (m, k) →
  accounts w !! d_marginfi_account c = Some m ∧ banks w !! d_bank c = Some k ∧
  Bank.group k = d_marginfi_group c.
Proof.
  unfold deposit_constraints, check_pda. intros H. inv_res. constraints. by subst.
Qed.

End Leaving.

(** ** Witnesses

    Two accounts lend 50 and 20 tokens to bank 700; the first leaves an hour
    later.  In bank 610 of the other example world, an account pays its debt of 30. *)
#[local] Existing Instance demo_token_sdk.
#[local] Existing Instance demo_oracle_sdk.
#[local] Existing Instance demo_runtime.

Definition demo_lenders_script : list MarginfiIx :=
  [IxAccountInitialize 1 800 70; IxDeposit (demo_inflow 700) 50000000; IxAccountInitialize 1 810 70;
   IxDeposit {| d_marginfi_group := 1; d_marginfi_account := 810; d_signer := 70; d_bank := 700;
                d_signer_token_account := 801; d_bank_liquidity_vault := 701; d_token_program := token_id;
                d_remaining := [] |} 20000000].
Definition demo_lenders : World * Z :=
  default (demo_genesis, 0) (follow 700 demo_clock demo_tx (demo_replay 3) demo_lenders_script).
Lemma demo_lenders_history : history 700 704 (fst demo_lenders) (snd demo_lenders).
Proof.
  refine (follow_history 700 704 demo_clock demo_tx demo_lenders_script _ _ 0 demo_lenders demo_opened _).
  - repeat constructor; try discriminate; set_solver.
  - unfold demo_lenders. assert (bool_decide (is_Some (follow 700 demo_clock demo_tx (demo_replay 3)
      demo_lenders_script)) = true) as [r ->]%bool_decide_eq_true by (vm_compute; reflexivity). done.
Qed.
Definition demo_leaving : LendingAccountWithdraw := {|
  wd_marginfi_group := 1; wd_marginfi_account := 800; wd_signer := 70; wd_bank := 700;
  wd_destination_token_account := 801; wd_bank_liquidity_vault_authority := 704;
  wd_bank_liquidity_vault := 701; wd_token_program := token_id; wd_remaining := [] |}.
Definition demo_later : Clock := mkClock 3600 0.
Definition demo_bank_of_world (w : World) (k : Pubkey) : Bank := default Bank.demo_bank (banks w !! k).
Definition demo_account_of_world (w : World) (a : Pubkey) : MarginfiAccount :=
  default demo_liquidator (accounts w !! a).
Definition demo_group_of_world (w : World) : MarginfiGroup := default MarginfiGroup.zeroed (groups w !! 1).
Definition demo_position (m : MarginfiAccount) (i : nat) : Balance :=
  default Balance.empty_deactivated (MarginfiAccount.lending_account m !! i).
Definition demo_lent_bank : Bank := demo_bank_of_world (fst demo_lenders) 700.
Definition demo_lender : MarginfiAccount := demo_account_of_world (fst demo_lenders) 800.

Lemma demo_may_leave :
  may_leave demo_lent_bank (demo_group_of_world (fst demo_lenders)) (demo_position demo_lender 0) 3600
    (snd demo_lenders + bank_slack (fst demo_lenders) demo_lent_bank 3600).
Proof.
  split.
  - vm_compute. discriminate.
  - split; [unfold Bank.rates_wf, InterestRateCalc.curve_wf, InterestRateCalc.fees_wf; vm_compute;
      repeat split; discriminate| |..]; try (vm_compute; split; discriminate || reflexivity).
    all: try (vm_compute; discriminate).
  - split; vm_compute; reflexivity.
  - split; vm_compute; reflexivity.
  - intros k1 H. assert (k1 = ok_value demo_lent_bank (Ok k1 : MarginfiResult Bank)) as -> by done.
    rewrite <- H. clear H k1.
    split; [|split; vm_compute; discriminate]. split; try (vm_compute; discriminate).
    split; vm_compute; discriminate.
Qed.

Lemma demo_vault_pays : vault_pays (fst demo_lenders) demo_leaving None.
Proof.
  intros n Hn. assert (tokens (fst demo_lenders) !! 701 = Some (mkTokenAccount 500 704 70000000)) as E1
    by (vm_compute; reflexivity).
  assert (tokens (fst demo_lenders) !! 801 = Some (mkTokenAccount 500 70 930000000)) as E2 by (vm_compute; reflexivity).
  revert Hn E1 E2. generalize (tokens (fst demo_lenders)). intros ts Hn E1 E2.
  unfold token_amount in Hn. simpl in Hn. rewrite E1 in Hn. simpl in Hn.
  unfold spl_transfer. simpl. rewrite E1, E2. simpl.
  rewrite !(proj2 (Z.leb_le _ _)) by (unfold U64_MAX; lia). simpl. eauto.
Qed.


Definition demo_debtor_world : World := demo_world 30.
Definition demo_debtor_bank : Bank := demo_bank_of_world demo_debtor_world 610.
Definition demo_debtor_account : MarginfiAccount := demo_account_of_world demo_debtor_world 800.

Lemma demo_may_repay :
  may_repay demo_debtor_bank (demo_group_of_world demo_debtor_world) (demo_position demo_debtor_account 1) 3600.
Proof.
  split.
  - vm_compute. discriminate.
  - split; [unfold Bank.rates_wf, InterestRateCalc.curve_wf, InterestRateCalc.fees_wf; vm_compute;
      repeat split; discriminate| |..]; try (vm_compute; split; discriminate || reflexivity).
    all: try (vm_compute; discriminate).
  - split; vm_compute; reflexivity.
  - split; vm_compute; reflexivity.
  - intros k1 H. assert (k1 = ok_value demo_lent_bank (Ok k1 : MarginfiResult Bank)) as -> by done.
    rewrite <- H. clear H k1. split; [split; try (vm_compute; discriminate)|vm_compute; discriminate].
    split; vm_compute; discriminate.
Qed.

