(* ===== verification/Fuzz.v ===== *)
(** * The fuzzer

    programs/marginfi/fuzz/: a harness that sets up a group with banks and users
    in memory and runs random sequences of actions on it, each a call of a
    handler of the program between two checks.  The handlers are those of
    UserIx.v, LiquidateIx.v and BankruptcyIx.v without the constraints of their
    accounts structures, which the harness builds by hand.  When a call fails the
    harness puts back the accounts it cached; what a failed handler leaves in its
    writable accounts is the class [Debris].  The oracle accounts are structures
    of the pyth SDK, whose bytes are the class [PriceAccountBytes].

    An [assert!] or an [unwrap] that fails is [Panic], which is how the fuzzer
    reports what it found. *)
From S2P Require Import Prelude Errors Fixed Constants Utils GroupState InterestRate BankState Price Account BankAccount Risk World UserIx LiquidateIx BankruptcyIx GroupIx Frames System Solvency.

(** ** Accounts of the harness *)
(** [SolanaPriceAccount]: the fields the harness sets. *)
Record SolanaPriceAccount := mkPriceAccount {
  spa_prod : Pubkey; spa_agg_price : Z; spa_agg_conf : Z; spa_expo : Z; spa_prev_price : Z; spa_timestamp : Z;
  spa_ema_val : Z; spa_ema_numer : Z; spa_ema_denom : Z
}.
(** [bytemuck::bytes_of] *)
Class PriceAccountBytes := { price_account_bytes : SolanaPriceAccount → list Z }.

Record BankAccounts := mkBankAccounts {
  fb_bank : Pubkey; fb_oracle : Pubkey; fb_liquidity_vault : Pubkey; fb_liquidity_vault_authority : Pubkey;
  fb_insurance_vault : Pubkey; fb_insurance_vault_authority : Pubkey; fb_fee_vault : Pubkey;
  fb_fee_vault_authority : Pubkey; fb_mint : Pubkey; fb_token_program : Pubkey; fb_mint_decimals : Z
}.
Record UserAccount := mkUserAccount { margin_account : Pubkey; token_accounts : list Pubkey }.

(** *** Metrics *)
Inductive MetricAction : Set := MDeposit | MWithdraw | MBorrow | MRepay | MLiquidate | MBankruptcy.
#[export] Instance MetricAction_eq_dec : EqDecision MetricAction.
Proof. solve_decision. Defined.
(** The twelve counters of actions, the price updates, and the errors by name. *)
Record Metrics := mkMetrics {
  counts : MetricAction → bool → Z; price_update : Z; error_counts : list (error * Z)
}.
Definition update_metric (metric : MetricAction) (success : bool) (m : Metrics) : Metrics :=
  mkMetrics (λ a s, if decide (a = metric ∧ s = success) then counts m a s + 1 else counts m a s)
    (price_update m) (error_counts m).
Fixpoint count_error (e : error) (l : list (error * Z)) : list (error * Z) :=
  match l with
  | [] => [(e, 1)]
  | (e', n) :: l => if decide (e' = e) then (e', n + 1) :: l else (e', n) :: count_error e l
  end.
Definition update_error (e : error) (m : Metrics) : Metrics :=
  mkMetrics (counts m) (price_update m) (count_error e (error_counts m)).
Definition default_metrics : Metrics := mkMetrics (λ _ _, 0) 0 [].

(** *** The context and the state of a run *)
Record MarginfiFuzzContext := mkContext {
  fz_marginfi_group : Pubkey; fz_fee_state : Pubkey; fz_fee_state_wallet : Pubkey;
  fz_banks : list BankAccounts; fz_accounts : list UserAccount; fz_owner : Pubkey
}.
Record FuzzState {T : TokenSdk} := mkState {
  world : World; oracles : gmap Z SolanaPriceAccount;
  last_sysvar_current_timestamp : Z (* u64 *); metrics : Metrics
}.
Arguments FuzzState {T}.

Section Harness.
Context {F : FixedOps} {T : TokenSdk} {O : OracleSdk} {R : Runtime}.

Definition with_world (w : World) (s : FuzzState) : FuzzState :=
  mkState _ w (oracles s) (last_sysvar_current_timestamp s) (metrics s).
Definition with_oracles (o : gmap Z SolanaPriceAccount) (s : FuzzState) : FuzzState :=
  mkState _ (world s) o (last_sysvar_current_timestamp s) (metrics s).
Definition with_metrics (m : Metrics) (s : FuzzState) : FuzzState :=
  mkState _ (world s) (oracles s) (last_sysvar_current_timestamp s) m.

(** [sol_get_clock_sysvar] of the stubs. *)
Definition sysvar_clock (s : FuzzState) : Clock := mkClock (u64_as_i64 (last_sysvar_current_timestamp s)) 0.

(** *** [AccountInfoCache] *)
Definition snapshot (w : World) (k : Pubkey)
    : option Bank * option MarginfiAccount * option TokenAccount :=
  (banks w !! k, accounts w !! k, tokens w !! k).
Definition AccountInfoCache : Type :=
  list (Pubkey * (option Bank * option MarginfiAccount * option TokenAccount)).
Definition cache_new (w : World) (ais : list Pubkey) : AccountInfoCache := (λ k, (k, snapshot w k)) <$> ais.
Definition put_back (x : Pubkey * (option Bank * option MarginfiAccount * option TokenAccount)) (w : World) : World :=
  let '(k, (b, m, t)) := x in
  mkWorld (partial_alter (λ _, b) k (banks w)) (partial_alter (λ _, m) k (accounts w)) (groups w) (fee_state w)
    (partial_alter (λ _, t) k (tokens w)) (mints w) (lamports w).
Definition revert (cache : AccountInfoCache) (w : World) : World := foldl (λ w x, put_back x w) w cache.

(** *** Accounts handed to the handlers *)
Definition get_bank_map (banks : list BankAccounts) : gmap Z BankAccounts :=
  foldl (λ m b, <[fb_bank b := b]> m) ∅ banks.
Context {PB : PriceAccountBytes}.

(** The program reads the bank from its store and the price from the bytes of
    the oracle. *)
Definition bank_info (b : BankAccounts) : AccountInfo := mkAccountInfo (fb_bank b) program_id [].
Definition oracle_info (s : FuzzState) (b : BankAccounts) : MarginfiResult AccountInfo :=
  let? p := unwrap (oracles s !! fb_oracle b) in Ok (mkAccountInfo (fb_oracle b) PYTH_ID (price_account_bytes p)).
Fixpoint bank_and_oracles (s : FuzzState) (bank_map : gmap Z BankAccounts) (ks : list Pubkey)
    : MarginfiResult (list AccountInfo) :=
  match ks with
  | [] => Ok []
  | k :: ks =>
      let? b := unwrap (bank_map !! k) in
      let? o := oracle_info s b in
      let? ais := bank_and_oracles s bank_map ks in
      Ok (bank_info b :: o :: ais)
  end.
Definition get_remaining_accounts (s : FuzzState) (u : UserAccount) (bank_map : gmap Z BankAccounts)
    (include_banks exclude_banks : list Pubkey) : MarginfiResult (list AccountInfo) :=
  let? m := unwrap (accounts (world s) !! margin_account u) in
  let already_included_banks :=
    filter (λ k, k ∉ exclude_banks)
      (Balance.bank_pk <$> LendingAccount.active_balances (MarginfiAccount.lending_account m)) in
  let? ais := bank_and_oracles s bank_map already_included_banks in
  let missing_banks := filter (λ k, k ∉ already_included_banks) include_banks in
  let? missing_bank_ais := bank_and_oracles s bank_map missing_banks in
  Ok (ais ++ missing_bank_ais).
(** The mint is passed to the handlers of Token-2022 banks. *)
Definition mint_info (b : BankAccounts) : list AccountInfo :=
  if fb_token_program b =? token_2022_id then [mkAccountInfo (fb_mint b) (fb_token_program b) []] else [].

(** [sort_by_key(|a| !a.active)]: the active balances first. *)
Definition sort_balances (k : Pubkey) (w : World) : MarginfiResult World :=
  let? m := unwrap (accounts w !! k) in
  Ok (set_account k (MarginfiAccount.with_lending_account
    (sort_by (λ a b, implb (negb (Balance.active a)) (negb (Balance.active b)))
       (MarginfiAccount.lending_account m)) m) w).

Definition get_liquidation_banks (w : World) (u : UserAccount) (banks : list BankAccounts) : option (Z * Z) :=
  m ← accounts w !! margin_account u;
  let balances := MarginfiAccount.lending_account m in
  let asset_balances := filter (λ b, Balance.is_empty b Assets = false) balances in
  let liab_balances := filter (λ b, Balance.is_empty b Liabilities = false) balances in
  let asset_balances := sort_by (λ a b, Balance.asset_shares a <=? Balance.asset_shares b) asset_balances in
  let liab_balances := sort_by (λ a b, Balance.liability_shares a <=? Balance.liability_shares b) liab_balances in
  best_asset_bank ← Balance.bank_pk <$> head asset_balances;
  best_liab_bank ← Balance.bank_pk <$> head liab_balances;
  best_asset_pos ← position (λ b, fb_bank b =? best_asset_bank) banks;
  best_liab_pos ← position (λ b, fb_bank b =? best_liab_bank) banks;
  Some (Z.of_nat best_asset_pos mod 256, Z.of_nat best_liab_pos mod 256).
End Harness.

(** ** What a failed handler leaves *)
(** The accounts it could write may hold anything. *)
Class Debris {T : TokenSdk} := { debris : list Pubkey → error → World → World }.
Record same_but {T : TokenSdk} (ks : list Pubkey) (w w' : World) : Prop := {
  sb_banks k : k ∉ ks → banks w' !! k = banks w !! k;
  sb_accounts k : k ∉ ks → accounts w' !! k = accounts w !! k;
  sb_tokens k : k ∉ ks → tokens w' !! k = tokens w !! k;
  sb_groups : groups w' = groups w;
  sb_fee_state : fee_state w' = fee_state w;
  sb_mints : mints w' = mints w;
  sb_lamports : lamports w' = lamports w
}.
Class DebrisLaws {T : TokenSdk} (D : Debris) : Prop := {
  debris_frame ks e w : same_but ks w (debris ks e w)
}.

(** ** The actions *)
Section Actions.
Context {F : FixedOps} {T : TokenSdk} {O : OracleSdk} {R : Runtime} {PB : PriceAccountBytes} {D : Debris}.

(** What the harness makes of the result of a call: a failure must be one of the
    expected errors, and the cached accounts are put back.  [writable] are the
    accounts with data that the structure marks [mut]. *)
Definition finish (s : FuzzState) (cache : AccountInfoCache) (writable : list Pubkey)
    (expected : list error) (res : MarginfiResult World) : MarginfiResult (bool * FuzzState) :=
  match res with
  | Ok w => Ok (true, with_world w s)
  | Err e =>
      let s := with_metrics (update_error e (metrics s)) s in
      let? _ := rust_assert (bool_decide (e ∈ expected)) in
      Ok (false, with_world (revert cache (debris writable e (world s))) s)
  | Panic => Panic
  end.
Definition record_metric (metric : MetricAction) (success : bool) (s : FuzzState) : FuzzState :=
  with_metrics (update_metric metric success (metrics s)) s.
(** The actions of one call. *)
Definition conclude (metric : MetricAction) (s : FuzzState) (cache : AccountInfoCache) (writable : list Pubkey)
    (expected : list error) (res : MarginfiResult World) : MarginfiResult FuzzState :=
  let? '(success, s) := finish s cache writable expected res in
  Ok (record_metric metric success s).

(** [AccountLoader::try_from] and the like on the fields of a context. *)
Definition deposit_context (w : World) (c : LendingAccountDeposit) : MarginfiResult (MarginfiAccount * Bank) :=
  let? _ := load_group w (d_marginfi_group c) in
  let? m := load_account w (d_marginfi_account c) in
  let? k := load_bank w (d_bank c) in
  let? _ := check_token_program (d_token_program c) in
  Ok (m, k).
Definition withdraw_context (w : World) (c : LendingAccountWithdraw) : MarginfiResult (MarginfiAccount * Bank) :=
  let? _ := load_group w (wd_marginfi_group c) in
  let? m := load_account w (wd_marginfi_account c) in
  let? k := load_bank w (wd_bank c) in
  let? _ := check_token_program (wd_token_program c) in
  let? _ := load_token w (wd_destination_token_account c) in
  let? _ := load_token w (wd_bank_liquidity_vault c) in
  Ok (m, k).
Definition liquidate_context (w : World) (c : LendingAccountLiquidate) : MarginfiResult (MarginfiAccount * Bank) :=
  let? _ := load_group w (lq_marginfi_group c) in
  let? _ := load_bank w (lq_asset_bank c) in
  let? liab_bank := load_bank w (lq_liab_bank c) in
  let? _ := load_account w (lq_liquidator_marginfi_account c) in
  let? liquidatee := load_account w (lq_liquidatee_marginfi_account c) in
  let? _ := load_token w (lq_bank_liquidity_vault c) in
  let? _ := check_token_program (lq_token_program c) in
  Ok (liquidatee, liab_bank).
Definition bankruptcy_context (w : World) (c : LendingPoolHandleBankruptcy)
    : MarginfiResult (MarginfiGroup * Bank * MarginfiAccount * TokenAccount) :=
  let? g := load_group w (hb_marginfi_group c) in
  let? k := load_bank w (hb_bank c) in
  let? m := load_account w (hb_marginfi_account c) in
  let? insurance := load_token w (hb_insurance_vault c) in
  let? _ := check_token_program (hb_token_program c) in
  Ok (g, k, m, insurance).

Definition deposit_accounts (ctx : MarginfiFuzzContext) (u : UserAccount) (b : BankAccounts) (token : Pubkey)
    : LendingAccountDeposit :=
  {| d_marginfi_group := fz_marginfi_group ctx; d_marginfi_account := margin_account u; d_signer := fz_owner ctx;
     d_bank := fb_bank b; d_signer_token_account := token; d_bank_liquidity_vault := fb_liquidity_vault b;
     d_token_program := fb_token_program b; d_remaining := mint_info b |}.
Definition withdraw_accounts (ctx : MarginfiFuzzContext) (u : UserAccount) (b : BankAccounts) (token : Pubkey)
    (ais : list AccountInfo) : LendingAccountWithdraw :=
  {| wd_marginfi_group := fz_marginfi_group ctx; wd_marginfi_account := margin_account u;
     wd_signer := fz_owner ctx; wd_bank := fb_bank b; wd_destination_token_account := token;
     wd_bank_liquidity_vault_authority := fb_liquidity_vault_authority b;
     wd_bank_liquidity_vault := fb_liquidity_vault b; wd_token_program := fb_token_program b;
     wd_remaining := mint_info b ++ ais |}.
(** The accounts of a deposit, a repayment, a withdrawal or a borrow that are
    cached, and those with data that are marked [mut]: they are the same. *)
Definition position_keys (u : UserAccount) (b : BankAccounts) (token : Pubkey) : list Pubkey :=
  [margin_account u; fb_bank b; token; fb_liquidity_vault b].

Definition process_action_deposit (ctx : MarginfiFuzzContext) (account_idx bank_idx asset_amount : Z)
    (s : FuzzState) : MarginfiResult FuzzState :=
  let? u := index (fz_accounts ctx) account_idx in
  let? w := sort_balances (margin_account u) (world s) in
  let s := with_world w s in
  let? b := index (fz_banks ctx) bank_idx in
  let? token := index (token_accounts u) bank_idx in
  let cache := cache_new w (position_keys u b token) in
  let c := deposit_accounts ctx u b token in
  let? '(m, k) := deposit_context w c in
  conclude MDeposit s cache (position_keys u b token) [AccountDisabled : error]
    (deposit_handler w (sysvar_clock s) c asset_amount m k).

Definition process_action_repay (ctx : MarginfiFuzzContext) (account_idx bank_idx asset_amount : Z)
    (repay_all : bool) (s : FuzzState) : MarginfiResult FuzzState :=
  let? u := index (fz_accounts ctx) account_idx in
  let? b := index (fz_banks ctx) bank_idx in
  let? w := sort_balances (margin_account u) (world s) in
  let s := with_world w s in
  let? token := index (token_accounts u) bank_idx in
  let cache := cache_new w (position_keys u b token) in
  let c := deposit_accounts ctx u b token in
  let? '(m, k) := deposit_context w c in
  conclude MRepay s cache (position_keys u b token)
    [NoLiabilityFound : error; OperationRepayOnly : error; BankAccountNotFound : error; AccountDisabled : error]
    (repay_handler w (sysvar_clock s) c asset_amount (Some repay_all) m k).

(** [refresh_oracle] of every bank. *)
Definition set_timestamp (timestamp : Z) (p : SolanaPriceAccount) : SolanaPriceAccount :=
  mkPriceAccount (spa_prod p) (spa_agg_price p) (spa_agg_conf p) (spa_expo p) (spa_prev_price p) timestamp
    (spa_ema_val p) (spa_ema_numer p) (spa_ema_denom p).
Definition refresh_oracle_accounts (ctx : MarginfiFuzzContext) (s : FuzzState) : FuzzState :=
  with_oracles
    (foldl (λ o b, alter (set_timestamp (u64_as_i64 (last_sysvar_current_timestamp s))) (fb_oracle b) o)
       (oracles s) (fz_banks ctx)) s.

Definition process_action_withdraw (ctx : MarginfiFuzzContext) (account_idx bank_idx asset_amount : Z)
    (withdraw_all : option bool) (s : FuzzState) : MarginfiResult FuzzState :=
  let s := refresh_oracle_accounts ctx s in
  let? u := index (fz_accounts ctx) account_idx in
  let? w := sort_balances (margin_account u) (world s) in
  let s := with_world w s in
  let? b := index (fz_banks ctx) bank_idx in
  let? token := index (token_accounts u) bank_idx in
  let cache := cache_new w (position_keys u b token) in
  let remove_all_bank := if default false withdraw_all then [fb_bank b] else [] in
  let? ais := get_remaining_accounts s u (get_bank_map (fz_banks ctx)) [] remove_all_bank in
  let c := withdraw_accounts ctx u b token ais in
  let? '(m, k) := withdraw_context w c in
  conclude MWithdraw s cache (position_keys u b token)
    [OperationWithdrawOnly : error; IllegalUtilizationRatio : error; RiskEngineInitRejected : error;
     NoAssetFound : error; BankAccountNotFound : error; AccountDisabled : error]
    (withdraw_handler w (sysvar_clock s) c asset_amount withdraw_all m k).

(** The accounts are cached before the balances are sorted. *)
Definition process_action_borrow (ctx : MarginfiFuzzContext) (account_idx bank_idx asset_amount : Z)
    (s : FuzzState) : MarginfiResult FuzzState :=
  let s := refresh_oracle_accounts ctx s in
  let? u := index (fz_accounts ctx) account_idx in
  let? b := index (fz_banks ctx) bank_idx in
  let? token := index (token_accounts u) bank_idx in
  let cache := cache_new (world s) (position_keys u b token) in
  let? w := sort_balances (margin_account u) (world s) in
  let s := with_world w s in
  let? ais := get_remaining_accounts s u (get_bank_map (fz_banks ctx)) [fb_bank b] [] in
  let c := withdraw_accounts ctx u b token ais in
  let? '(m, k) := withdraw_context w c in
  conclude MBorrow s cache (position_keys u b token)
    [RiskEngineInitRejected : error; IsolatedAccountIllegalState : error; IllegalUtilizationRatio : error;
     AccountDisabled : error]
    (borrow_handler w (sysvar_clock s) c asset_amount m k).

Definition bankruptcy_accounts (ctx : MarginfiFuzzContext) (u : UserAccount) (b : BankAccounts)
    (ais : list AccountInfo) : LendingPoolHandleBankruptcy :=
  {| hb_marginfi_group := fz_marginfi_group ctx; hb_signer := fz_owner ctx; hb_bank := fb_bank b;
     hb_marginfi_account := margin_account u; hb_liquidity_vault := fb_liquidity_vault b;
     hb_insurance_vault := fb_insurance_vault b; hb_insurance_vault_authority := fb_insurance_vault_authority b;
     hb_token_program := fb_token_program b; hb_remaining := mint_info b ++ ais |}.
Definition bankruptcy_keys (u : UserAccount) (b : BankAccounts) : list Pubkey :=
  [fb_bank b; margin_account u; fb_liquidity_vault b; fb_insurance_vault b].
Definition process_handle_bankruptcy (ctx : MarginfiFuzzContext) (account_idx bank_idx : Z) (s : FuzzState)
    : MarginfiResult FuzzState :=
  let? u := index (fz_accounts ctx) account_idx in
  let? b := index (fz_banks ctx) bank_idx in
  let cache := cache_new (world s) (bankruptcy_keys u b) in
  let? ais := get_remaining_accounts s u (get_bank_map (fz_banks ctx)) [] [] in
  let c := bankruptcy_accounts ctx u b ais in
  let? '(g, k, m, insurance) := bankruptcy_context (world s) c in
  conclude MBankruptcy s cache (bankruptcy_keys u b) [AccountDisabled : error; AccountNotBankrupt : error]
    (bankruptcy_handler (world s) (sysvar_clock s) c g k m insurance).

Definition liquidate_accounts (ctx : MarginfiFuzzContext) (liquidator liquidatee : UserAccount)
    (asset_bank liab_bank : BankAccounts) (ais : list AccountInfo) : LendingAccountLiquidate :=
  {| lq_marginfi_group := fz_marginfi_group ctx; lq_asset_bank := fb_bank asset_bank;
     lq_liab_bank := fb_bank liab_bank; lq_liquidator_marginfi_account := margin_account liquidator;
     lq_signer := fz_owner ctx; lq_liquidatee_marginfi_account := margin_account liquidatee;
     lq_bank_liquidity_vault_authority := fb_liquidity_vault_authority liab_bank;
     lq_bank_liquidity_vault := fb_liquidity_vault liab_bank;
     lq_bank_insurance_vault := fb_insurance_vault liab_bank; lq_token_program := fb_token_program liab_bank;
     lq_remaining := mint_info liab_bank ++ ais |}.
Definition liquidation_cached (liquidator liquidatee : UserAccount) (asset_bank liab_bank : BankAccounts)
    : list Pubkey :=
  [margin_account liquidator; margin_account liquidatee; fb_bank asset_bank; fb_liquidity_vault asset_bank;
   fb_bank liab_bank; fb_liquidity_vault liab_bank; fb_insurance_vault liab_bank].
Definition liquidation_writable (liquidator liquidatee : UserAccount) (asset_bank liab_bank : BankAccounts)
    : list Pubkey :=
  [fb_bank asset_bank; fb_bank liab_bank; margin_account liquidator; margin_account liquidatee;
   fb_liquidity_vault liab_bank; fb_insurance_vault liab_bank].

Definition process_liquidate_account (ctx : MarginfiFuzzContext) (liquidator_idx liquidatee_idx asset_amount : Z)
    (s : FuzzState) : MarginfiResult FuzzState :=
  let s := refresh_oracle_accounts ctx s in
  let? liquidator := index (fz_accounts ctx) liquidator_idx in
  let? liquidatee := index (fz_accounts ctx) liquidatee_idx in
  let? w := sort_balances (margin_account liquidator) (world s) in
  let? w := sort_balances (margin_account liquidatee) w in
  let s := with_world w s in
  if margin_account liquidator =? margin_account liquidatee then Ok (record_metric MLiquidate false s)
  else
    match get_liquidation_banks w liquidatee (fz_banks ctx) with
    | None => Ok (record_metric MLiquidate false s)
    | Some (asset_bank_idx, liab_bank_idx) =>
        if asset_bank_idx =? liab_bank_idx then Ok (record_metric MLiquidate false s)
        else
          let? asset_bank := index (fz_banks ctx) asset_bank_idx in
          let? liab_bank := index (fz_banks ctx) liab_bank_idx in
          let cache := cache_new w (liquidation_cached liquidator liquidatee asset_bank liab_bank) in
          let? asset_oracle := oracle_info s asset_bank in
          let? liab_oracle := oracle_info s liab_bank in
          let bank_map := get_bank_map (fz_banks ctx) in
          let? liquidator_ais :=
            get_remaining_accounts s liquidator bank_map [fb_bank liab_bank; fb_bank asset_bank] [] in
          let? liquidatee_ais := get_remaining_accounts s liquidatee bank_map [] [] in
          let c := liquidate_accounts ctx liquidator liquidatee asset_bank liab_bank
                     ([asset_oracle; liab_oracle] ++ liquidator_ais ++ liquidatee_ais) in
          let? '(m, k) := liquidate_context w c in
          let? '(success, s) :=
            finish s cache (liquidation_writable liquidator liquidatee asset_bank liab_bank)
              [RiskEngineInitRejected : error; IsolatedAccountIllegalState : error; IllegalUtilizationRatio : error;
               IllegalLiquidation : error; AccountDisabled : error; MathError : error]
              (liquidate_handler w (sysvar_clock s) c asset_amount m k) in
          let? s := if success then process_handle_bankruptcy ctx liquidatee_idx liab_bank_idx s else Ok s in
          Ok (record_metric MLiquidate success s)
    end.

(** [update_oracle] *)
Definition set_price (updated_price : Z) (p : SolanaPriceAccount) : SolanaPriceAccount :=
  mkPriceAccount (spa_prod p) (Z.max updated_price 0) (spa_agg_conf p) (spa_expo p) (spa_prev_price p)
    (spa_timestamp p) (Z.max updated_price 0) (Z.max updated_price 0) (spa_ema_denom p).
Definition process_update_oracle (ctx : MarginfiFuzzContext) (bank_idx price_change : Z) (s : FuzzState)
    : MarginfiResult FuzzState :=
  let? b := index (fz_banks ctx) bank_idx in
  let s := with_oracles (alter (set_price price_change) (fb_oracle b) (oracles s)) s in
  Ok (with_metrics (mkMetrics (counts (metrics s)) (price_update (metrics s) + 1) (error_counts (metrics s))) s).

Definition advance_time (time : Z) (s : FuzzState) : MarginfiResult FuzzState :=
  let? t := unwrap (u64_checked (last_sysvar_current_timestamp s + time)) in
  Ok (mkState _ (world s) (oracles s) t (metrics s)).
End Actions.

(** ** Random values *)
(** [arbitrary::Unstructured]: the fuzzer's bytes. *)
Class Unstructured := {
  Bytes : Type;
  is_exhausted : Bytes → bool;
  int_in_range : Z → Z → Bytes → outcome unit (Z * Bytes);
  arbitrary_bool : Bytes → outcome unit (bool * Bytes);
  choose : list Z → Bytes → outcome unit (Z * Bytes)
}.
Class UnstructuredLaws (U : Unstructured) : Prop := {
  int_in_range_spec lo hi u v u' : int_in_range lo hi u = Ok (v, u') → lo ≤ v ≤ hi;
  choose_spec l u v u' : choose l u = Ok (v, u') → v ∈ l
}.

Inductive TokenType : Set := Tokenkeg | Token22 | Token22WithFee (transfer_fee_basis_points maximum_fee : Z).
Record BankAndOracleConfig := mkBankAndOracle {
  bo_oracle_native_price : Z; bo_mint_decimals : Z;
  bo_asset_weight_init : I80F48; bo_asset_weight_maint : I80F48;
  bo_liability_weight_init : I80F48; bo_liability_weight_maint : I80F48;
  bo_deposit_limit : Z; bo_borrow_limit : Z; bo_token_type : TokenType; bo_risk_tier_isolated : bool
}.
Inductive Action : Set :=
| Deposit (account bank asset_amount : Z)
| Borrow (account bank asset_amount : Z)
| UpdateOracle (bank price : Z)
| Repay (account bank asset_amount : Z) (repay_all : bool)
| Withdraw (account bank asset_amount : Z) (withdraw_all : bool)
| Liquidate (liquidator liquidatee asset_amount : Z).

Definition N_USERS : Z := 2.
Definition N_BANKS : Z := 16.
Definition ASSET_UNIT : Z := 1000000000.
Definition N_ACTIONS : nat := 400.

Section Arbitrary.
Context {U : Unstructured}.

(** The four index and amount types. *)
Definition arbitrary_price_change (u : Bytes) : outcome unit (Z * Bytes) :=
  if is_exhausted u then Panic else int_in_range 0 1000000000000 u.
Definition arbitrary_account_idx (u : Bytes) : outcome unit (Z * Bytes) :=
  if is_exhausted u then Panic else int_in_range 0 (N_USERS - 1) u.
Definition arbitrary_bank_idx (u : Bytes) : outcome unit (Z * Bytes) :=
  if is_exhausted u then Panic else int_in_range 0 (N_BANKS - 1) u.
Definition arbitrary_asset_amount (u : Bytes) : outcome unit (Z * Bytes) :=
  if is_exhausted u then Panic else let? '(v, u) := int_in_range 1 10 u in Ok (v * ASSET_UNIT, u).

Definition arbitrary_token_type (u : Bytes) : outcome unit (TokenType * Bytes) :=
  let? '(discriminant, u) := choose [0; 1; 2] u in
  if discriminant =? 0 then Ok (Tokenkeg, u)
  else if discriminant =? 1 then Ok (Token22, u)
  else
    let? '(fee_bps, u) := int_in_range 0 10000 u in
    let? '(max_fee, u) := int_in_range 0 1000000 u in
    Ok (Token22WithFee fee_bps max_fee, u).

Definition arbitrary_bank_and_oracle_config (u : Bytes) : outcome unit (BankAndOracleConfig * Bytes) :=
  let? '(d, u) := int_in_range 2 3 u in
  let mint_decimals := d * 3 in
  let top_limit := 1000000 * 10 ^ mint_decimals in
  let? '(b, u) := int_in_range 1 10 u in
  let borrow_limit := b * top_limit in
  let? '(b, u) := int_in_range 1 10 u in
  let deposit_limit := borrow_limit + b * top_limit in
  let max_price := 100 * 10 ^ mint_decimals in
  let? '(risk_tier_isolated, u) := arbitrary_bool u in
  let? '(token_type, u) := arbitrary_token_type u in
  let? '(p, u) := int_in_range 1 10 u in
  Ok (mkBankAndOracle (p * max_price) mint_decimals
        (if risk_tier_isolated : bool then 0 else fx_literal 5 10) (if risk_tier_isolated then 0 else fx_literal 75 100)
        (fx_literal 15 10) (fx_literal 125 100) deposit_limit borrow_limit token_type risk_tier_isolated, u).

(** [derive(Arbitrary)]: a variant, then its fields in order. *)
Definition arbitrary_action (u : Bytes) : outcome unit (Action * Bytes) :=
  let? '(variant, u) := choose [0; 1; 2; 3; 4; 5] u in
  if variant =? 2 then
    let? '(bank, u) := arbitrary_bank_idx u in
    let? '(price, u) := arbitrary_price_change u in
    Ok (UpdateOracle bank price, u)
  else if variant =? 5 then
    let? '(liquidator, u) := arbitrary_account_idx u in
    let? '(liquidatee, u) := arbitrary_account_idx u in
    let? '(asset_amount, u) := arbitrary_asset_amount u in
    Ok (Liquidate liquidator liquidatee asset_amount, u)
  else
    let? '(account, u) := arbitrary_account_idx u in
    let? '(bank, u) := arbitrary_bank_idx u in
    let? '(asset_amount, u) := arbitrary_asset_amount u in
    if variant =? 0 then Ok (Deposit account bank asset_amount, u)
    else if variant =? 1 then Ok (Borrow account bank asset_amount, u)
    else
      let? '(all, u) := arbitrary_bool u in
      Ok (if variant =? 3 then Repay account bank asset_amount all else Withdraw account bank asset_amount all, u).

Fixpoint arbitrary_actions (n : nat) (u : Bytes) : outcome unit (list Action * Bytes) :=
  match n with
  | O => Ok ([], u)
  | S n =>
      let? _ := rust_assert (negb (is_exhausted u)) in
      let? '(action, u) := arbitrary_action u in
      let? '(actions, u) := arbitrary_actions n u in
      Ok (action :: actions, u)
  end.
Definition arbitrary_action_sequence (u : Bytes) : outcome unit (list Action * Bytes) :=
  arbitrary_actions N_ACTIONS u.
End Arbitrary.

(** ** Setting up *)
(** The extension of a new mint with a transfer fee. *)
Class NewMints {T : TokenSdk} := { new_transfer_fee_config : Z → Z → TransferFeeConfig }.
(** The keys drawn at random: of the group and its admin's accounts, of each
    bank, its mint and its oracle, and of each user's accounts. *)
Record RandomKeys := mkKeys {
  rk_admin : Pubkey; rk_wallet : Pubkey; rk_group : Pubkey;
  rk_banks : list (Pubkey * Pubkey * Pubkey); rk_accounts : list (Pubkey * list Pubkey)
}.

Section Setup.
Context {F : FixedOps} {T : TokenSdk} {O : OracleSdk} {R : Runtime} {PB : PriceAccountBytes} {D : Debris} {M : NewMints}.

(** [.unwrap()] of a result. *)
Definition must {A} (r : MarginfiResult A) : MarginfiResult A := match r with Ok a => Ok a | _ => Panic end.

Inductive BankVaultType : Set := VLiquidity | VInsurance | VFee.
Definition vault_seed (t : BankVaultType) : Seed :=
  match t with
  | VLiquidity => LIQUIDITY_VAULT_SEED | VInsurance => INSURANCE_VAULT_SEED | VFee => FEE_VAULT_SEED
  end.
Definition vault_authority_seed (t : BankVaultType) : Seed :=
  match t with
  | VLiquidity => LIQUIDITY_VAULT_AUTHORITY_SEED | VInsurance => INSURANCE_VAULT_AUTHORITY_SEED
  | VFee => FEE_VAULT_AUTHORITY_SEED
  end.
Definition get_vault_address (bank : Pubkey) (t : BankVaultType) : Pubkey * Z :=
  find_program_address (vault_seed t) [bank].
Definition get_vault_authority (bank : Pubkey) (t : BankVaultType) : Pubkey * Z :=
  find_program_address (vault_authority_seed t) [bank].

Definition new_token_mint (k : Pubkey) (decimals : Z) (t : TokenType) : Mint :=
  match t with
  | Tokenkeg => mkMint k token_id decimals None
  | Token22 => mkMint k token_2022_id decimals None
  | Token22WithFee bps max => mkMint k token_2022_id decimals (Some (new_transfer_fee_config bps max))
  end.
Definition new_oracle_account (native_price mint mint_decimals : Z) : SolanaPriceAccount :=
  mkPriceAccount mint native_price 0 (- mint_decimals) native_price 0 native_price native_price 1.
(** A token account, and the empty vault of a bank. *)
Definition new_token_account (k mint owner balance : Z) (w : World) : World :=
  set_tokens (<[k := mkTokenAccount mint owner balance]> (tokens w)) w.
Definition new_vault_account (t : BankVaultType) (mint bank : Pubkey) (w : World) : World :=
  new_token_account (fst (get_vault_address bank t)) mint (fst (get_vault_authority bank t)) 0 w.
Definition add_mint (m : Mint) (w : World) : World :=
  mkWorld (banks w) (accounts w) (groups w) (fee_state w) (tokens w) (<[mint_key m := m]> (mints w)) (lamports w).

Definition fuzz_rates : InterestRateConfig :=
  InterestRateConfig.mkInterestRateConfig (fx_literal 1 2) (fx_literal 1 2) (from_num 4) (fx_literal 1 100)
    (fx_literal 5 100) (fx_literal 1 100) (fx_literal 1 10) 0.
(** The configuration given to [lending_pool_add_bank]; the fields not named are
    those of [BankConfig::default()]. *)
Definition bank_config_of (c : BankAndOracleConfig) (oracle : Pubkey) : BankConfig :=
  BankConfig.mkBankConfig (bo_asset_weight_init c) (bo_asset_weight_maint c) (bo_liability_weight_init c)
    (bo_liability_weight_maint c) (bo_deposit_limit c) fuzz_rates Operational PythLegacy
    [oracle; default_pubkey; default_pubkey; default_pubkey; default_pubkey] (bo_borrow_limit c)
    (if bo_risk_tier_isolated c then Isolated else Collateral) TOTAL_ASSET_VALUE_INIT_LIMIT_INACTIVE 0.

Definition setup_bank (ks : Pubkey * Pubkey * Pubkey) (config : BankAndOracleConfig)
    (ctx : MarginfiFuzzContext) (s : FuzzState) : MarginfiResult (MarginfiFuzzContext * FuzzState) :=
  let '(bank, mint, oracle) := ks in
  let m := new_token_mint mint (bo_mint_decimals config) (bo_token_type config) in
  let address t := fst (get_vault_address bank t) in
  let authority t := fst (get_vault_authority bank t) in
  let bump t := snd (get_vault_address bank t) in
  let authority_bump t := snd (get_vault_authority bank t) in
  let w := new_vault_account VFee mint bank
             (new_vault_account VInsurance mint bank
                (new_vault_account VLiquidity mint bank (add_mint m (world s)))) in
  let o := new_oracle_account (bo_oracle_native_price config) mint (bo_mint_decimals config) in
  let s := with_oracles (<[oracle := o]> (oracles s)) s in
  let token_program := match bo_token_type config with Tokenkeg => token_id | _ => token_2022_id end in
  let c := {| ab_marginfi_group := fz_marginfi_group ctx; ab_admin := fz_owner ctx; ab_fee_payer := fz_owner ctx;
              ab_fee_state := fz_fee_state ctx; ab_global_fee_wallet := fz_fee_state_wallet ctx;
              ab_bank_mint := mint; ab_bank := bank;
              ab_liquidity_vault_authority := authority VLiquidity; ab_liquidity_vault := address VLiquidity;
              ab_insurance_vault_authority := authority VInsurance; ab_insurance_vault := address VInsurance;
              ab_fee_vault_authority := authority VFee; ab_fee_vault := address VFee;
              ab_token_program := token_program;
              ab_remaining := [mkAccountInfo oracle PYTH_ID (price_account_bytes o)] |} in
  let? _ := must (load_group w (fz_marginfi_group ctx)) in
  let? fs := must (load_fee_state w) in
  let? w := must (add_bank_handler w (sysvar_clock s) c (bank_config_of config oracle) fs m
                    (bump VLiquidity) (authority_bump VLiquidity) (bump VInsurance) (authority_bump VInsurance)
                    (bump VFee) (authority_bump VFee)) in
  let b := mkBankAccounts bank oracle (address VLiquidity) (authority VLiquidity) (address VInsurance)
             (authority VInsurance) (address VFee) (authority VFee) mint token_program (bo_mint_decimals config) in
  Ok (mkContext (fz_marginfi_group ctx) (fz_fee_state ctx) (fz_fee_state_wallet ctx) (fz_banks ctx ++ [b])
        (fz_accounts ctx) (fz_owner ctx), with_world w s).

Definition create_marginfi_account (ks : Pubkey * list Pubkey) (token_mints : list Pubkey)
    (ctx : MarginfiFuzzContext) (s : FuzzState) : MarginfiResult (MarginfiFuzzContext * FuzzState) :=
  let '(marginfi_account, token_keys) := ks in
  let? _ := load_group (world s) (fz_marginfi_group ctx) in
  let w := set_account marginfi_account
             (MarginfiAccount.initialize MarginfiAccount.zeroed (fz_marginfi_group ctx) (fz_owner ctx)) (world s) in
  let w := foldl (λ w '(k, mint), new_token_account k mint (fz_owner ctx) 100000000000000000 w) w
             (zip token_keys token_mints) in
  Ok (mkContext (fz_marginfi_group ctx) (fz_fee_state ctx) (fz_fee_state_wallet ctx) (fz_banks ctx)
        (fz_accounts ctx ++ [mkUserAccount marginfi_account token_keys]) (fz_owner ctx), with_world w s).

(** [for_each] with what the closure changes passed along. *)
Fixpoint set_up_each {A B} (f : A → B → MarginfiResult B) (l : list A) (x : B) : MarginfiResult B :=
  match l with
  | [] => Ok x
  | a :: l => let? x := f a x in set_up_each f l x
  end.

(** The fee state, whose fees are zero, and the group. *)
Definition initial_world (ks : RandomKeys) : World :=
  let fee_state_key := fst (find_program_address FEE_STATE_SEED []) in
  let fs := mkFeeState fee_state_key (rk_admin ks) (rk_wallet ks) 0
              (snd (find_program_address FEE_STATE_SEED [])) 0 0 in
  let g := MarginfiGroup.set_initial_configuration MarginfiGroup.zeroed (rk_admin ks) in
  mkWorld ∅ ∅ {[rk_group ks := MarginfiGroup.with_cache (cache_of_fee_state fs) g]} (Some fs) ∅ ∅ ∅.

Definition seed_bank (bank_idx : Z) (x : MarginfiFuzzContext * FuzzState)
    : MarginfiResult (MarginfiFuzzContext * FuzzState) :=
  let '(ctx, s) := x in
  let? b := index (fz_banks ctx) bank_idx in
  let? amount := unwrap (u64_checked (1000 * 10 ^ fb_mint_decimals b)) in
  let? s := must (process_action_deposit ctx ((Z.of_nat (length (fz_accounts ctx)) mod 256) - 1) (bank_idx mod 256)
                    amount s) in
  Ok (ctx, s).

(** [n_users] accounts and one more, which seeds the banks; first without the
    seeds. *)
Definition setup_unseeded (ks : RandomKeys) (started : Z) (bank_configs : list BankAndOracleConfig) (n_users : nat)
    : MarginfiResult (MarginfiFuzzContext * FuzzState) :=
  let ctx := mkContext (rk_group ks) (fst (find_program_address FEE_STATE_SEED [])) (rk_wallet ks) [] []
               (rk_admin ks) in
  let? s := advance_time 0 (mkState _ (initial_world ks) ∅ started default_metrics) in
  let? '(ctx, s) := set_up_each (λ '(k, config) '(ctx, s), setup_bank k config ctx s)
                      (zip (rk_banks ks) bank_configs) (ctx, s) in
  let token_vec := fb_mint <$> fz_banks ctx in
  set_up_each (λ k '(ctx, s), must (create_marginfi_account k token_vec ctx s))
    (take (S n_users) (rk_accounts ks)) (ctx, s).
Definition setup (ks : RandomKeys) (started : Z) (bank_configs : list BankAndOracleConfig) (n_users : nat)
    : MarginfiResult (MarginfiFuzzContext * FuzzState) :=
  let? '(ctx, s) := setup_unseeded ks started bank_configs n_users in
  set_up_each seed_bank (Z.of_nat <$> seq 0 (length (fz_banks ctx))) (ctx, s).
End Setup.

(** ** A run *)
Section Run.
Context {F : FixedOps} {T : TokenSdk} {O : OracleSdk} {R : Runtime} {PB : PriceAccountBytes} {D : Debris} {M : NewMints}.

(** One action; an hour passes after it. *)
Definition process_action (ctx : MarginfiFuzzContext) (action : Action) (s : FuzzState) : MarginfiResult FuzzState :=
  let? s :=
    match action with
    | Deposit account bank asset_amount => process_action_deposit ctx account bank asset_amount s
    | Withdraw account bank asset_amount withdraw_all =>
        process_action_withdraw ctx account bank asset_amount (Some withdraw_all) s
    | Borrow account bank asset_amount => process_action_borrow ctx account bank asset_amount s
    | Repay account bank asset_amount repay_all => process_action_repay ctx account bank asset_amount repay_all s
    | UpdateOracle bank price => process_update_oracle ctx bank price s
    | Liquidate liquidator liquidatee asset_amount =>
        process_liquidate_account ctx liquidator liquidatee asset_amount s
    end in
  advance_time 3600 s.
Fixpoint run_actions (ctx : MarginfiFuzzContext) (actions : list Action) (s : FuzzState) : MarginfiResult FuzzState :=
  match actions with
  | [] => Ok s
  | action :: actions => let? s := process_action ctx action s in run_actions ctx actions s
  end.

(** [assert_eq_with_tolerance!] *)
Definition assert_eq_with_tolerance (test_val val tolerance : I80F48) : MarginfiResult unit :=
  let? d := op_sub test_val val in
  let? a := fx_abs d in
  rust_assert (a <=? tolerance).

(** The closure of [verify_end_state]: interest is accrued for another hour, and
    the vault must hold, up to a token, the deposits and the fees less the
    debts. *)
Definition end_balances (k : Bank) (vault : option TokenAccount) : MarginfiResult (I80F48 * I80F48) :=
  let? fees := op_add (Bank.collected_group_fees_outstanding k) (Bank.collected_insurance_fees_outstanding k) in
  let? outstanding_fees := op_add fees (Bank.collected_program_fees_outstanding k) in
  let? total_deposits := Bank.get_asset_amount k (Bank.total_asset_shares k) in
  let? total_liabilities := Bank.get_liability_amount k (Bank.total_liability_shares k) in
  let? net_accounted_balance := op_sub total_deposits total_liabilities in
  let? vault := unwrap vault in
  let? net_of_fees := op_sub (from_num (ta_amount vault)) outstanding_fees in
  Ok (net_of_fees, net_accounted_balance).
Definition verify_bank (ctx : MarginfiFuzzContext) (last_timestamp : Z) (b : BankAccounts) (w : World)
    : MarginfiResult World :=
  let? k := load_bank w (fb_bank b) in
  let? unix_timestamp := i64_checked (u64_as_i64 last_timestamp + 3600) in
  let? g := load_group w (fz_marginfi_group ctx) in
  let? k := Bank.accrue_interest k unix_timestamp g in
  let? '(net_of_fees, net_accounted_balance) := end_balances k (tokens w !! fb_liquidity_vault b) in
  let? _ := assert_eq_with_tolerance net_of_fees net_accounted_balance ONE in
  Ok (set_bank (fb_bank b) k w).
Definition verify_end_state (ctx : MarginfiFuzzContext) (s : FuzzState) : MarginfiResult World :=
  set_up_each (verify_bank ctx (last_sysvar_current_timestamp s)) (fz_banks ctx) (world s).

Definition process_actions (ks : RandomKeys) (started : Z) (bank_configs : list BankAndOracleConfig)
    (actions : list Action) : MarginfiResult unit :=
  let? '(ctx, s) := setup ks started bank_configs (Z.to_nat N_USERS) in
  let? s := run_actions ctx actions (with_metrics default_metrics s) in
  let? _ := must (verify_end_state ctx s) in
  Ok tt.
End Run.
