(* ===== verification/FuzzSpec.v ===== *)
(** * What the fuzzer tests

    Theorems about the harness of Fuzz.v.  A call that fails leaves no trace but
    the order of the balances, so the accounts the harness puts back are enough.
    The harness calls the handlers without the constraints of their accounts
    structures; on its own accounts the constraints hold, so what it runs is what
    the chain would run.  Hence the invariants of System.v and the solvency of
    Solvency.v hold after every run, and the check at its end cannot find a vault
    short by more than the rounding. *)
From S2P Require Import Prelude Errors Fixed Constants Utils GroupState InterestRate BankState Price Account BankAccount Risk World UserIx LiquidateIx BankruptcyIx GroupIx Frames System Solvency Fuzz.

(** ** Reordered balances *)
(** The account's balances are in another order. *)
Inductive reordered {T : TokenSdk} (w w' : World) : Prop :=
| reorder a m l :
    accounts w !! a = Some m → l ≡ₚ MarginfiAccount.lending_account m →
    w' = set_account a (MarginfiAccount.with_lending_account l m) w → reordered w w'.

Section Reordered.
Context {F : FixedOps} {T : TokenSdk} {O : OracleSdk} {R : Runtime}.

Lemma sort_balances_reorders k w w' : sort_balances k w = Ok w' → reordered w w'.
Proof.
  unfold sort_balances. intros H. apply bind_ok in H as (m & Hm & H). apply unwrap_ok in Hm.
  injection H as <-. eapply reorder; [done| |done]. apply sort_by_perm.
Qed.
Lemma reordered_wf (l l' : LendingAccount) : l' ≡ₚ l → LendingAccount.wf l → LendingAccount.wf l'.
Proof.
  intros Hp [Hl Hb Hu]. apply Permutation_inj in Hp as [Hlen (f & Hf & Hi)]. split.
  - congruence.
  - intros i b H. rewrite Hi in H. eauto.
  - intros i j b b' H H' ? ? ?. rewrite Hi in H, H'. apply Hf. eauto.
Qed.
Lemma reordered_shares side k m l :
  l ≡ₚ MarginfiAccount.lending_account m →
  account_shares side k (MarginfiAccount.with_lending_account l m) = account_shares side k m.
Proof. intros H. unfold account_shares. simpl. by apply sumZ_perm. Qed.

Lemma reordered_books w w' : reordered w w' → books_balance w → books_balance w'.
Proof.
  intros [a m l Hm Hp ->] [H1 H2 H3 H4]. split; simpl; [done| | |].
  - intros b m' [[<- <-]|[_ Hm']]%lookup_insert_Some; [|eauto]. simpl. eapply reordered_wf; eauto.
  - intros b m' i p [[<- <-]|[_ Hm']]%lookup_insert_Some Hi Ha; [|eauto]. simpl in Hi.
    assert (p ∈ MarginfiAccount.lending_account m) as [j Hj]%list_elem_of_lookup
      by (rewrite <- Hp; by eapply list_elem_of_lookup_2).
    eauto.
  - intros side k b Hk. rewrite (all_shares_update _ _ _ _ _ _ Hm), reordered_shares by done.
    pose proof (H4 side k b Hk). lia.
Qed.
Lemma reordered_moves w w' : reordered w w' → ∃ touched, moves touched w w'.
Proof.
  intros [a m l Hm Hp ->]. exists [a]. split; try done; simpl.
  - intros b. destruct (decide (b = a)) as [->|]; [|by rewrite lookup_insert_ne].
    by rewrite lookup_insert_eq, Hm.
  - intros b Hb. apply lookup_insert_ne. set_solver.
  - intros b m' k [[<- <-]|[_ Hm']]%lookup_insert_Some (c & Hc & Ha & Hk); left.
    + exists m. split; [done|]. exists c. simpl in Hc. by rewrite Hp in Hc.
    + exists m'. split; [done|]. by exists c.
Qed.
Lemma reordered_invariant w w' : reordered w w' → invariant w → invariant w'.
Proof.
  intros H [Hb Hc Hg]. pose proof (reordered_moves _ _ H) as [t M]. split; [by eapply reordered_books|..].
  - by destruct H as [a m l _ _ ->].
  - destruct H as [a m l Hm Hp ->]. intros b m' k bk Hm' Hk Hbk. simpl in *.
    apply lookup_insert_Some in Hm' as [[<- <-]|[_ Hm']]; [|eauto]. simpl.
    destruct Hk as (c & Hc' & ? & ?). simpl in Hc'. rewrite Hp in Hc'. eapply Hg; [done| |done]. by exists c.
Qed.
End Reordered.

(** ** Failed calls *)
Section Revert.
Context {F : FixedOps} {T : TokenSdk}.

Lemma same_but_mono ks ks' w w' : (∀ k, k ∈ ks → k ∈ ks') → same_but ks w w' → same_but ks' w w'.
Proof. intros Hk [H1 H2 H3 ? ? ? ?]. split; try done; intros k ?; [apply H1|apply H2|apply H3]; auto. Qed.
Lemma same_but_nil w w' : same_but [] w w' → w' = w.
Proof.
  destruct w, w'. intros [H1 H2 H3 ? ? ? ?]. simpl in *. f_equal; try done;
    apply map_eq; intros i; [apply H1|apply H2|apply H3]; apply not_elem_of_nil.
Qed.
(** Putting back an account leaves one less that differs. *)
Lemma put_back_same k ks w w' : same_but (k :: ks) w w' → same_but ks w (put_back (k, snapshot w k) w').
Proof.
  intros [H1 H2 H3 ? ? ? ?]. split; try done; simpl; intros j Hj;
    destruct (decide (j = k)) as [->|Hne]; rewrite ?lookup_partial_alter_eq, ?lookup_partial_alter_ne by done; try done;
    [apply H1|apply H2|apply H3]; rewrite not_elem_of_cons; done.
Qed.
Lemma revert_restores ks w w' : same_but ks w w' → revert (cache_new w ks) w' = w.
Proof.
  revert w'. induction ks as [|k ks IH]; intros w' H; [by apply same_but_nil|].
  unfold revert, cache_new. simpl. by apply IH, put_back_same.
Qed.
End Revert.

(** ** The outcome of a call *)
Section Outcomes.
Context {F : FixedOps} {L : FixedLaws F} {T : TokenSdk} {O : OracleSdk} {R : Runtime} {PB : PriceAccountBytes}
        {D : Debris} {DL : DebrisLaws D}.

(** The call succeeded, and the world is what the handler made of it; or it
    failed with an expected error, and the world is the one that was cached. *)
Definition called (w0 : World) (expected : list error) (res : MarginfiResult World) (success : bool) (w' : World) : Prop :=
  if success then res = Ok w' else w' = w0 ∧ ∃ e, e ∈ expected ∧ res = Err e.

Lemma finish_ok s w0 cached writable expected res success s' :
  same_but cached w0 (world s) → (∀ k, k ∈ writable → k ∈ cached) →
  finish s (cache_new w0 cached) writable expected res = Ok (success, s') →
  called w0 expected res success (world s') ∧ counts (metrics s') = counts (metrics s) ∧
  last_sysvar_current_timestamp s' = last_sysvar_current_timestamp s.
Proof.
  intros Hs Hk H. unfold finish in H. destruct res as [w|e|]; [|apply bind_ok in H as (u & He & H)|done];
    injection H as <- <-; [done|]. apply rust_assert_ok, bool_decide_eq_true in He.
  split; [|done]. simpl. split; [|eauto]. apply revert_restores.
  pose proof (debris_frame writable e (world s)) as Hd. apply (same_but_mono _ cached) in Hd; [|done].
  destruct Hs as [H1 H2 H3 ? ? ? ?], Hd as [G1 G2 G3 ? ? ? ?].
  split; try congruence; intros k ?; [rewrite G1, H1|rewrite G2, H2|rewrite G3, H3]; done.
Qed.
Lemma same_but_refl ks w : same_but ks w w.
Proof. by split. Qed.

Lemma update_metric_counts a b m a' b' :
  counts (update_metric a b m) a' b' = if decide (a' = a ∧ b' = b) then counts m a' b' + 1 else counts m a' b'.
Proof. done. Qed.
Lemma conclude_ok metric s w0 cached writable expected res s' :
  same_but cached w0 (world s) → (∀ k, k ∈ writable → k ∈ cached) →
  conclude metric s (cache_new w0 cached) writable expected res = Ok s' →
  ∃ success, called w0 expected res success (world s') ∧
    counts (metrics s') = counts (update_metric metric success (metrics s)).
Proof.
  intros Hs Hk H. unfold conclude in H. apply bind_ok in H as ([success s1] & H & Hr). injection Hr as <-.
  apply finish_ok in H as (H & Hc & _); [|done..]. exists success. split; [done|]. simpl. by rewrite Hc.
Qed.
End Outcomes.

(** ** The accounts of the harness *)
(** The bank is the one the harness set up: of its group, with its vaults and
    their authorities. *)
Record bank_matches {R : Runtime} (ctx : MarginfiFuzzContext) (b : BankAccounts) (k : Bank) : Prop := {
  bm_group : Bank.group k = fz_marginfi_group ctx;
  bm_liquidity_vault : create_program_address LIQUIDITY_VAULT_SEED [fb_bank b] (Bank.liquidity_vault_bump k)
    = Some (fb_liquidity_vault b);
  bm_liquidity_vault_authority :
    create_program_address LIQUIDITY_VAULT_AUTHORITY_SEED [fb_bank b] (Bank.liquidity_vault_authority_bump k)
    = Some (fb_liquidity_vault_authority b);
  bm_insurance_vault : create_program_address INSURANCE_VAULT_SEED [fb_bank b] (Bank.insurance_vault_bump k)
    = Some (fb_insurance_vault b);
  bm_insurance_vault_authority :
    create_program_address INSURANCE_VAULT_AUTHORITY_SEED [fb_bank b] (Bank.insurance_vault_authority_bump k)
    = Some (fb_insurance_vault_authority b);
  bm_vault : Bank.liquidity_vault k = fb_liquidity_vault b
}.
(** The banks and accounts of the context exist and are the harness's, and the
    owner is the authority of every account. *)
Record fuzz_ready {T : TokenSdk} {R : Runtime} (ctx : MarginfiFuzzContext) (w : World) : Prop := {
  fr_group : is_Some (groups w !! fz_marginfi_group ctx);
  fr_banks b : b ∈ fz_banks ctx → ∃ k, banks w !! fb_bank b = Some k ∧ bank_matches ctx b k;
  fr_accounts u : u ∈ fz_accounts ctx → ∃ m, accounts w !! margin_account u = Some m ∧
    MarginfiAccount.group m = fz_marginfi_group ctx ∧ MarginfiAccount.authority m = fz_owner ctx
}.

Section Ready.
Context {F : FixedOps} {L : FixedLaws F} {T : TokenSdk} {O : OracleSdk} {R : Runtime}.

Lemma matches_identity ctx b k k' :
  bank_identity k' = bank_identity k → bank_matches ctx b k → bank_matches ctx b k'.
Proof.
  intros E [? ? ? ? ? ?]. pose proof (f_equal Bank.group E). pose proof (f_equal Bank.liquidity_vault_bump E) as E1.
  pose proof (f_equal Bank.liquidity_vault_authority_bump E) as E2.
  pose proof (f_equal Bank.insurance_vault_bump E) as E3.
  pose proof (f_equal Bank.insurance_vault_authority_bump E) as E4.
  pose proof (f_equal Bank.liquidity_vault E) as E5. simpl in *. split; congruence.
Qed.
Lemma ready_moves ctx touched w w' : moves touched w w' → fuzz_ready ctx w → fuzz_ready ctx w'.
Proof.
  intros M [Hg Hb Ha]. split.
  - by rewrite (mv_groups _ _ _ M).
  - intros b (k & Hk & Hm)%Hb. pose proof (mv_banks _ _ _ M (fb_bank b)) as E. rewrite Hk in E.
    destruct (banks w' !! fb_bank b) as [k'|]; [|done]. apply (inj Some) in E. exists k'. split; [done|].
    by eapply matches_identity.
  - intros u (m & Hm & Hmg & Hau)%Ha. pose proof (mv_headers _ _ _ M (margin_account u)) as E. rewrite Hm in E.
    destruct (accounts w' !! margin_account u) as [m'|]; [|done]. apply (inj Some) in E. exists m'.
    pose proof (f_equal MarginfiAccount.authority E) as E1. pose proof (header_group _ _ E). simpl in E1.
    split_and!; congruence.
Qed.
Lemma ready_account ctx w a f :
  (∀ m, MarginfiAccount.group (f m) = MarginfiAccount.group m ∧
        MarginfiAccount.authority (f m) = MarginfiAccount.authority m) →
  fuzz_ready ctx w → ∀ m, accounts w !! a = Some m → fuzz_ready ctx (set_account a (f m) w).
Proof.
  intros Hf [Hg Hb Ha] m Hm. split; [done..|]. intros u Hu. destruct (Ha u Hu) as (m' & Hm' & Hmg & Hau). simpl.
  destruct (decide (margin_account u = a)) as [<-|Hne]; [|exists m'; by rewrite lookup_insert_ne].
  det_ok. exists (f m). rewrite lookup_insert_eq. destruct (Hf m) as [-> ->]. done.
Qed.

Lemma check_bank_matches ctx w b k :
  banks w !! fb_bank b = Some k → bank_matches ctx b k → check_bank w (fz_marginfi_group ctx) (fb_bank b) = Ok k.
Proof. intros Hk [Hg _ _ _ _ _]. unfold check_bank, load_bank. rewrite Hk. simpl. by rewrite Hg, Z.eqb_refl. Qed.
Lemma check_account_ready w a g m :
  accounts w !! a = Some m → MarginfiAccount.group m = g → check_account w g a = Ok m.
Proof. intros Hm <-. unfold check_account, load_account. rewrite Hm. simpl. by rewrite Z.eqb_refl. Qed.
Lemma check_pda_holds s keys bump a : create_program_address s keys bump = Some a → check_pda s keys bump a = Ok tt.
Proof. intros H. unfold check_pda, check. by rewrite bool_decide_eq_true_2. Qed.
Lemma check_authority_holds m a : MarginfiAccount.authority m = a → check_authority m a = Ok tt.
Proof. intros <-. unfold check_authority, check. by rewrite Z.eqb_refl. Qed.
End Ready.
#[export] Hint Resolve check_bank_matches check_account_ready check_pda_holds check_authority_holds
  bm_group bm_liquidity_vault bm_liquidity_vault_authority bm_insurance_vault bm_insurance_vault_authority : fuzz.

(** Passes a constraint of an accounts structure. *)
Ltac pass :=
  match goal with
  | |- context [outcome_bind _ ?m] =>
      let H := fresh in eassert (m = Ok _) as H by (eassumption || eauto with fuzz); rewrite H; clear H; simpl
  end.

(** ** The constraints hold *)
Section Constraints.
Context {F : FixedOps} {L : FixedLaws F} {T : TokenSdk} {O : OracleSdk} {R : Runtime}.
Context (ctx : MarginfiFuzzContext) (w : World) (Hr : fuzz_ready ctx w).

Lemma deposit_passes u b token m k :
  u ∈ fz_accounts ctx → b ∈ fz_banks ctx →
  deposit_context w (deposit_accounts ctx u b token) = Ok (m, k) →
  deposit_constraints w (deposit_accounts ctx u b token) = Ok (m, k).
Proof.
  intros (m0 & Hm & Hg & Ha)%(fr_accounts _ _ Hr) (k0 & Hk & Hmt)%(fr_banks _ _ Hr) H.
  unfold deposit_context in H. apply bind_ok in H as (g & Hgr & H). apply bind_ok in H as (m1 & Hm1 & H).
  apply bind_ok in H as (k1 & Hk1 & H). apply bind_ok in H as (u0 & Ht & H). injection H as <- <-.
  apply load_account_ok in Hm1. apply load_bank_ok in Hk1. simpl in *. det_ok.
  unfold deposit_constraints. simpl. by repeat pass.
Qed.

Lemma withdraw_passes u b token ais m k :
  u ∈ fz_accounts ctx → b ∈ fz_banks ctx →
  withdraw_context w (withdraw_accounts ctx u b token ais) = Ok (m, k) →
  withdraw_constraints w (withdraw_accounts ctx u b token ais) = Ok (m, k).
Proof.
  intros (m0 & Hm & Hg & Ha)%(fr_accounts _ _ Hr) (k0 & Hk & Hmt)%(fr_banks _ _ Hr) H.
  unfold withdraw_context in H. apply bind_ok in H as (g & Hgr & H). apply bind_ok in H as (m1 & Hm1 & H).
  apply bind_ok in H as (k1 & Hk1 & H). apply bind_ok in H as (u0 & Ht & H).
  apply bind_ok in H as (t1 & Ht1 & H). apply bind_ok in H as (t2 & Ht2 & H). injection H as <- <-.
  apply load_account_ok in Hm1. apply load_bank_ok in Hk1. simpl in *. det_ok.
  unfold withdraw_constraints. simpl. by repeat pass.
Qed.
Lemma liquidate_passes u v ab lb ais m k :
  u ∈ fz_accounts ctx → v ∈ fz_accounts ctx → ab ∈ fz_banks ctx → lb ∈ fz_banks ctx →
  liquidate_context w (liquidate_accounts ctx u v ab lb ais) = Ok (m, k) →
  ∃ liquidator, liquidate_constraints w (liquidate_accounts ctx u v ab lb ais) = Ok (liquidator, m, k).
Proof.
  intros (m0 & Hm & Hg & Ha)%(fr_accounts _ _ Hr) (m1 & Hm1 & Hg1 & _)%(fr_accounts _ _ Hr)
    (k0 & Hk & Hmt)%(fr_banks _ _ Hr) (k1 & Hk1 & Hmt1)%(fr_banks _ _ Hr) H.
  unfold liquidate_context in H. apply bind_ok in H as (g & Hgr & H). apply bind_ok in H as (a & _ & H).
  apply bind_ok in H as (k2 & Hk2 & H). apply bind_ok in H as (l & _ & H). apply bind_ok in H as (m2 & Hm2 & H).
  apply bind_ok in H as (t1 & Ht1 & H). apply bind_ok in H as (u0 & Ht & H). injection H as <- <-.
  apply load_account_ok in Hm2. apply load_bank_ok in Hk2. simpl in *. det_ok.
  exists m0. unfold liquidate_constraints. simpl. by repeat pass.
Qed.
Lemma bankruptcy_passes u b ais x :
  u ∈ fz_accounts ctx → b ∈ fz_banks ctx →
  bankruptcy_context w (bankruptcy_accounts ctx u b ais) = Ok x →
  bankruptcy_constraints w (bankruptcy_accounts ctx u b ais) = Ok x.
Proof.
  intros (m0 & Hm & Hg & Ha)%(fr_accounts _ _ Hr) (k0 & Hk & Hmt)%(fr_banks _ _ Hr) H.
  unfold bankruptcy_context in H. apply bind_ok in H as (g & Hgr & H). apply bind_ok in H as (k1 & Hk1 & H).
  apply bind_ok in H as (m1 & Hm1 & H). apply bind_ok in H as (t & Ht1 & H).
  apply bind_ok in H as (u0 & Ht & H). injection H as <-.
  apply load_account_ok in Hm1. apply load_bank_ok in Hk1. simpl in *. det_ok.
  unfold bankruptcy_constraints. simpl. by repeat pass.
Qed.
End Constraints.

(** ** What an action does *)
(** The instructions the harness issues, signed by the owner of its accounts. *)
Definition fuzzed (ctx : MarginfiFuzzContext) (ix : MarginfiIx) : Prop :=
  match ix with
  | IxDeposit _ _ | IxRepay _ _ _ | IxWithdraw _ _ _ | IxBorrow _ _ | IxLiquidate _ _ | IxHandleBankruptcy _ =>
      ix_signers ix = [fz_owner ctx] ∧ ix_amounts_ok ix
  | _ => False
  end.
Definition issued {F : FixedOps} {T : TokenSdk} {O : OracleSdk} {R : Runtime} (ctx : MarginfiFuzzContext)
    (clock : Clock) (w w' : World) : Prop :=
  ∃ ix, fuzzed ctx ix ∧ ∀ tx, marginfi w clock tx ix = Ok w'.
(** The call of an action failed and left the balances of the accounts in another
    order at most, or it is an instruction of the program. *)
Inductive outcome_of {F : FixedOps} {T : TokenSdk} {O : OracleSdk} {R : Runtime} (ctx : MarginfiFuzzContext)
    (metric : MetricAction) (s s' : FuzzState) : Prop :=
| oc_failed :
    rtc reordered (world s) (world s') →
    counts (metrics s') = counts (update_metric metric false (metrics s)) → outcome_of ctx metric s s'
| oc_done w :
    rtc reordered (world s) w → issued ctx (sysvar_clock s) w (world s') →
    counts (metrics s') = counts (update_metric metric true (metrics s)) → outcome_of ctx metric s s'.

Section Actions.
Context {F : FixedOps} {L : FixedLaws F} {T : TokenSdk} {O : OracleSdk} {R : Runtime} {PB : PriceAccountBytes}
        {D : Debris} {DL : DebrisLaws D}.
Context (ctx : MarginfiFuzzContext).

Lemma reordered_ready w w' : rtc reordered w w' → fuzz_ready ctx w → fuzz_ready ctx w'.
Proof.
  induction 1 as [|w1 w2 w3 Ho _ IH]; intros Hr; [done|]. apply IH.
  destruct (reordered_moves _ _ Ho) as [t M]. by eapply ready_moves.
Qed.
Lemma reordered_outside w w' a : sort_balances a w = Ok w' → same_but [a] w w'.
Proof.
  unfold sort_balances. intros H. apply bind_ok in H as (m & _ & H). injection H as <-. split; try done. simpl.
  intros k Hk. apply lookup_insert_ne. set_solver.
Qed.
Lemma reorder_once w w' a : sort_balances a w = Ok w' → rtc reordered w w'.
Proof. intros H%sort_balances_reorders. by apply rtc_once. Qed.

Lemma conclude_outcome metric s0 s w0 cached writable expected ix res s' :
  rtc reordered (world s0) w0 → rtc reordered (world s0) (world s) →
  same_but cached w0 (world s) → (∀ k, k ∈ writable → k ∈ cached) →
  metrics s = metrics s0 → last_sysvar_current_timestamp s = last_sysvar_current_timestamp s0 →
  fuzzed ctx ix → (∀ tx, marginfi (world s) (sysvar_clock s) tx ix = res) →
  conclude metric s (cache_new w0 cached) writable expected res = Ok s' → outcome_of ctx metric s0 s'.
Proof.
  intros Ho Ho' Hs Hk Hm Ht Hix Hres H. apply conclude_ok in H as ([|] & Hc & Hn); [| |done..]; simpl in Hc.
  - apply (oc_done _ _ _ _ (world s)); [done| |by rewrite <- Hm]. exists ix. split; [done|]. intros tx.
    unfold sysvar_clock in *. by rewrite <- Ht, Hres.
  - destruct Hc as [Hw _]. apply oc_failed; [by rewrite Hw|by rewrite <- Hm].
Qed.

(** What is left to show of a call on accounts that are cached as they are. *)
Ltac concluded :=
  match goal with
  | |- rtc _ _ _ => first [assumption | apply rtc_refl]
  | |- ∀ tx, marginfi _ _ tx _ = _ =>
      intros tx; simpl; unfold lending_account_deposit, lending_account_repay, lending_account_withdraw,
        lending_account_borrow, lending_pool_handle_bankruptcy;
      match goal with H : _ = Ok _ |- _ => by rewrite H end
  | |- ∀ k, k ∈ _ → k ∈ _ => done
  | |- fuzzed _ _ => by split
  | |- same_but _ _ _ => try apply same_but_refl
  | _ => done
  end.

Lemma index_elem {A} (l : list A) i x : index (E := error) l i = Ok x → x ∈ l.
Proof. intros [_ H]%index_ok. by eapply list_elem_of_lookup_2. Qed.

Lemma deposit_outcome a b n s s' :
  fuzz_ready ctx (world s) → is_u64 n → process_action_deposit ctx a b n s = Ok s' → outcome_of ctx MDeposit s s'.
Proof.
  intros Hr Hn H. unfold process_action_deposit in H. apply bind_ok in H as (u & Hu%index_elem & H).
  apply bind_ok in H as (w & Hw & H). apply bind_ok in H as (bk & Hb%index_elem & H).
  apply bind_ok in H as (token & _ & H). apply bind_ok in H as ([m k] & Hc & H).
  pose proof (reorder_once _ _ _ Hw) as Ho. apply deposit_passes in Hc; [|by eapply reordered_ready|done..].
  eapply conclude_outcome with (ix := IxDeposit (deposit_accounts ctx u bk token) n) in H; [exact H|concluded..].
Qed.
Lemma repay_outcome a b n all s s' :
  fuzz_ready ctx (world s) → is_u64 n → process_action_repay ctx a b n all s = Ok s' → outcome_of ctx MRepay s s'.
Proof.
  intros Hr Hn H. unfold process_action_repay in H. apply bind_ok in H as (u & Hu%index_elem & H).
  apply bind_ok in H as (bk & Hb%index_elem & H). apply bind_ok in H as (w & Hw & H).
  apply bind_ok in H as (token & _ & H). apply bind_ok in H as ([m k] & Hc & H).
  pose proof (reorder_once _ _ _ Hw) as Ho. apply deposit_passes in Hc; [|by eapply reordered_ready|done..].
  eapply conclude_outcome with (ix := IxRepay (deposit_accounts ctx u bk token) n (Some all)) in H; [exact H|concluded..].
Qed.
Lemma withdraw_outcome a b n all s s' :
  fuzz_ready ctx (world s) → is_u64 n → process_action_withdraw ctx a b n all s = Ok s' →
  outcome_of ctx MWithdraw s s'.
Proof.
  intros Hr Hn H. unfold process_action_withdraw in H. apply bind_ok in H as (u & Hu%index_elem & H).
  apply bind_ok in H as (w & Hw & H). apply bind_ok in H as (bk & Hb%index_elem & H).
  apply bind_ok in H as (token & _ & H). apply bind_ok in H as (ais & _ & H). apply bind_ok in H as ([m k] & Hc & H).
  pose proof (reorder_once _ _ _ Hw) as Ho. apply withdraw_passes in Hc; [|by eapply reordered_ready|done..].
  eapply conclude_outcome with (ix := IxWithdraw (withdraw_accounts ctx u bk token ais) n all) in H; [exact H|concluded..].
Qed.
Lemma borrow_outcome a b n s s' :
  fuzz_ready ctx (world s) → is_u64 n → process_action_borrow ctx a b n s = Ok s' → outcome_of ctx MBorrow s s'.
Proof.
  intros Hr Hn H. unfold process_action_borrow in H. apply bind_ok in H as (u & Hu%index_elem & H).
  apply bind_ok in H as (bk & Hb%index_elem & H). apply bind_ok in H as (token & _ & H).
  apply bind_ok in H as (w & Hw & H). apply bind_ok in H as (ais & _ & H). apply bind_ok in H as ([m k] & Hc & H).
  pose proof (reorder_once _ _ _ Hw) as Ho. apply withdraw_passes in Hc; [|by eapply reordered_ready|done..].
  eapply conclude_outcome with (ix := IxBorrow (withdraw_accounts ctx u bk token ais) n) in H; [exact H|concluded..].
  eapply same_but_mono, reordered_outside, Hw. intros j ->%list_elem_of_singleton. left.
Qed.
Lemma bankruptcy_outcome a b s s' :
  fuzz_ready ctx (world s) → process_handle_bankruptcy ctx a b s = Ok s' → outcome_of ctx MBankruptcy s s'.
Proof.
  intros Hr H. unfold process_handle_bankruptcy in H. apply bind_ok in H as (u & Hu%index_elem & H).
  apply bind_ok in H as (bk & Hb%index_elem & H). apply bind_ok in H as (ais & _ & H).
  apply bind_ok in H as ([[[g k] m] t] & Hc & H). apply bankruptcy_passes in Hc; [|done..].
  eapply conclude_outcome with (ix := IxHandleBankruptcy (bankruptcy_accounts ctx u bk ais)) in H; [exact H|concluded..].
Qed.

Lemma issued_ready clock w w' : issued ctx clock w w' → fuzz_ready ctx w → fuzz_ready ctx w'.
Proof.
  intros (ix & Hix & H) Hr. specialize (H (Build_TxContext [] 0 true)).
  destruct (moves_value ix) as [touched|] eqn:Hv; [eapply ready_moves, Hr; by eapply value_moves|].
  destruct ix; try done. apply bankruptcy_moves in H as (w3 & m & M & Hm & ->).
  eapply (ready_account _ _ _ (λ m, MarginfiAccount.set_flag m DISABLED_FLAG)); [done| |done].
  by eapply ready_moves.
Qed.

(** A liquidation that succeeds is followed by a bankruptcy. *)
Lemma liquidate_outcome a b n s s' :
  fuzz_ready ctx (world s) → is_u64 n → process_liquidate_account ctx a b n s = Ok s' →
  (rtc reordered (world s) (world s') ∧ counts (metrics s') = counts (update_metric MLiquidate false (metrics s))) ∨
  ∃ w s1 s2, rtc reordered (world s) w ∧ issued ctx (sysvar_clock s) w (world s1) ∧
    sysvar_clock s1 = sysvar_clock s ∧ counts (metrics s1) = counts (metrics s) ∧
    outcome_of ctx MBankruptcy s1 s2 ∧ world s' = world s2 ∧
    counts (metrics s') = counts (update_metric MLiquidate true (metrics s2)).
Proof.
  intros Hr Hn H. unfold process_liquidate_account in H. apply bind_ok in H as (u & Hu%index_elem & H).
  apply bind_ok in H as (v & Hv%index_elem & H). apply bind_ok in H as (w1 & Hw1 & H).
  apply bind_ok in H as (w & Hw & H).
  assert (rtc reordered (world s) w) as Ho by (etransitivity; by eapply reorder_once).
  destruct (_ =? _); [injection H as <-; by left|].
  destruct (get_liquidation_banks w v (fz_banks ctx)) as [[i j]|]; [|injection H as <-; by left].
  destruct (i =? j); [injection H as <-; by left|].
  apply bind_ok in H as (ab & Hab%index_elem & H). apply bind_ok in H as (lb & Hlb%index_elem & H).
  apply bind_ok in H as (ao & _ & H). apply bind_ok in H as (lo & _ & H).
  apply bind_ok in H as (ais1 & _ & H). apply bind_ok in H as (ais2 & _ & H).
  apply bind_ok in H as ([m k] & Hc & H). apply bind_ok in H as ([success s1] & Hf & H).
  apply liquidate_passes in Hc as (m' & Hc); [|by eapply reordered_ready|done..].
  apply finish_ok in Hf as (Hf & Hcn & Ht);
    [|apply same_but_refl|unfold liquidation_writable, liquidation_cached; set_solver].
  destruct success; simpl in Hf.
  - right. apply bind_ok in H as (s2 & H & Hs). injection Hs as <-.
    assert (issued ctx (sysvar_clock s) w (world s1)) as Hi.
    { exists (IxLiquidate (liquidate_accounts ctx u v ab lb ([ao; lo] ++ ais1 ++ ais2)) n). split; [by split|]. intros tx.
      cbn [marginfi]. unfold lending_account_liquidate. by rewrite Hc. }
    exists w, s1, s2. split_and!; try done; [by unfold sysvar_clock; rewrite Ht|].
    apply bankruptcy_outcome in H; [done|]. by eapply issued_ready, reordered_ready.
  - left. injection H as <-. simpl. destruct Hf as [-> _]. split; [done|]. by rewrite Hcn.
Qed.
End Actions.

(** ** Runs *)
(** A run of the harness, with the worlds it passes through: each step reorders
    the balances of an account or is an instruction at the harness's clock. *)
Definition fuzz_step {F : FixedOps} {T : TokenSdk} {O : OracleSdk} {R : Runtime} (ctx : MarginfiFuzzContext)
    (clock : Clock) (w w' : World) : Prop := reordered w w' ∨ issued ctx clock w w'.
Fixpoint linked {F : FixedOps} {T : TokenSdk} {O : OracleSdk} {R : Runtime} (ctx : MarginfiFuzzContext)
    (w : World) (run : list (Clock * World)) (w' : World) : Prop :=
  match run with
  | [] => w' = w
  | (clock, w1) :: run => fuzz_step ctx clock w w1 ∧ linked ctx w1 run w'
  end.
(** What the steps can cost bank [k]. *)
Fixpoint run_slack {F : FixedOps} {T : TokenSdk} (k : Pubkey) (w : World) (run : list (Clock * World)) : Z :=
  match run with
  | [] => 0
  | (clock, w1) :: run =>
      match banks w !! k, banks w1 !! k with
      | Some b, Some b1 => bank_slack w b (unix_timestamp clock) + op_slack b1
      | _, _ => 0
      end + run_slack k w1 run
  end.
Definition action_ok (action : Action) : Prop :=
  match action with
  | Deposit _ _ n | Borrow _ _ n | Repay _ _ n _ | Withdraw _ _ n _ | Liquidate _ _ n => is_u64 n
  | UpdateOracle _ _ => True
  end.
Definition metric_of (action : Action) : option MetricAction :=
  match action with
  | Deposit _ _ _ => Some MDeposit | Borrow _ _ _ => Some MBorrow | Repay _ _ _ _ => Some MRepay
  | Withdraw _ _ _ _ => Some MWithdraw | Liquidate _ _ _ => Some MLiquidate | UpdateOracle _ _ => None
  end.

Section Runs.
Context {F : FixedOps} {L : FixedLaws F} {T : TokenSdk} {O : OracleSdk} {R : Runtime} {PB : PriceAccountBytes}
        {D : Debris} {DL : DebrisLaws D}.
Context (ctx : MarginfiFuzzContext).

Lemma linked_app run : ∀ w w1 run' w', linked ctx w run w1 → linked ctx w1 run' w' → linked ctx w (run ++ run') w'.
Proof.
  induction run as [|[clock w2] run IH]; simpl; intros w w1 run' w' H H'; [by subst|].
  destruct H as [? H]. split; [done|]. by eapply IH.
Qed.
Lemma linked_issued clock w w' : issued ctx clock w w' → linked ctx w [(clock, w')] w'.
Proof. intros H. split; [by right|done]. Qed.
Lemma linked_reordered w w' : rtc reordered w w' → ∃ run, linked ctx w run w'.
Proof.
  induction 1 as [|w1 w2 w3 Ho _ [run IH]]; [by exists []|].
  exists ((mkClock 0 0, w2) :: run). split; [by left|done].
Qed.
Lemma linked_ready run : ∀ w w', linked ctx w run w' → fuzz_ready ctx w → fuzz_ready ctx w'.
Proof.
  induction run as [|[clock w1] run IH]; simpl; intros w w' H Hr; [by subst|].
  destruct H as [[Ho|Hi] H]; eapply IH; [done| |done|by eapply issued_ready].
  by eapply reordered_ready, Hr; apply rtc_once.
Qed.
Lemma outcome_linked metric s s' : outcome_of ctx metric s s' → ∃ run, linked ctx (world s) run (world s').
Proof.
  intros [Ho _|w Ho Hi _]; [by apply linked_reordered|]. apply linked_reordered in Ho as [run Hl].
  eexists. eapply linked_app, linked_issued; done.
Qed.
Lemma advance_time_ok t s s' :
  advance_time t s = Ok s' → world s' = world s ∧ metrics s' = metrics s.
Proof. unfold advance_time. intros H. apply bind_ok in H as (n & _ & H). by injection H as <-. Qed.

Lemma action_linked action s s' :
  fuzz_ready ctx (world s) → action_ok action → process_action ctx action s = Ok s' →
  ∃ run, linked ctx (world s) run (world s').
Proof.
  intros Hr Hn H. unfold process_action in H. apply bind_ok in H as (s1 & H & Ht).
  apply advance_time_ok in Ht as [-> _]. destruct action; simpl in Hn.
  - by eapply outcome_linked, deposit_outcome.
  - by eapply outcome_linked, borrow_outcome.
  - unfold process_update_oracle in H. apply bind_ok in H as (b & _ & H). injection H as <-. by exists [].
  - by eapply outcome_linked, repay_outcome.
  - by eapply outcome_linked, withdraw_outcome.
  - apply liquidate_outcome in H as [[Ho _]|(w & s2 & s3 & Ho & Hi & _ & _ & Hb & -> & _)]; [|..|done|done].
    + by apply linked_reordered.
    + apply linked_reordered in Ho as [run1 H1]. apply outcome_linked in Hb as [run2 H2].
      eexists. eapply linked_app; [exact H1|]. eapply linked_app, H2. by apply linked_issued.
Qed.
Lemma actions_linked actions : Forall action_ok actions → ∀ s s',
  fuzz_ready ctx (world s) → run_actions ctx actions s = Ok s' → ∃ run, linked ctx (world s) run (world s').
Proof.
  induction 1 as [|action actions Hn _ IH]; simpl; intros s s' Hr H; [injection H as <-; by exists []|].
  apply bind_ok in H as (s1 & H1 & H). apply action_linked in H1 as [run1 H1]; [|done..].
  apply IH in H as [run2 H2]; [|by eapply linked_ready]. eexists. by eapply linked_app.
Qed.
End Runs.

(** ** Solvency of a run *)
Section RunSolvency.
Context {F : FixedOps} {L : FixedLaws F} {T : TokenSdk} {TL : TokenLaws T} {O : OracleSdk} {PN : PricesNonneg O}
        {R : Runtime}.
Context (ctx : MarginfiFuzzContext).

(** What holds of the worlds of a run. *)
Record sound (w : World) : Prop := { so_invariant : invariant w; so_rates : rates_ok w; so_range : in_range w }.

Lemma issued_rates clock w w' : issued ctx clock w w' → rates_ok w → rates_ok w'.
Proof.
  intros (ix & Hix & H) Hr. specialize (H (Build_TxContext [] 0 true)).
  destruct (moves_value ix) as [touched|] eqn:Hv; [eapply rates_moves, Hr; by eapply value_moves|].
  destruct ix; try done. apply bankruptcy_moves in H as (w3 & m & M & Hm & ->).
  by apply (rates_moves _ _ _ M).
Qed.
Lemma step_sound clock w w' : fuzz_step ctx clock w w' → in_range w' → sound w → sound w'.
Proof.
  intros [Ho|Hi] Hr' [Hinv Hrt Hr]; split; try done.
  - by eapply reordered_invariant.
  - destruct (reordered_moves _ _ Ho) as [t M]. by eapply rates_moves.
  - destruct Hi as (ix & Hix & H). specialize (H (Build_TxContext [] 0 true)).
    eapply ix_invariant; [done..| |exact H]. by destruct ix; try done; destruct Hix.
  - by eapply issued_rates.
Qed.
Lemma step_backing k A clock w w' :
  Custody k A → A ≠ fz_owner ctx → fuzz_step ctx clock w w' → in_range w' → sound w →
  keeps_backing k A (unix_timestamp clock) w w'.
Proof.
  intros HC HA [Ho|Hi] Hr' [Hinv Hrt Hr].
  - destruct Ho as [a m l _ _ ->]. apply unrelated_backing; [apply Hinv|done..].
  - destruct Hi as (ix & Hix & H). specialize (H (Build_TxContext [] 0 true)).
    refine (ix_backing k A HC _ _ _ ix _ (inv_books _ Hinv) Hrt Hr Hr' _ _ H).
    + by destruct ix; try done; destruct Hix.
    + assert (ix_signers ix = [fz_owner ctx]) as -> by (by destruct ix; try done; destruct Hix).
      by rewrite list_elem_of_singleton.
Qed.
Lemma linked_sound run : ∀ w w',
  linked ctx w run w' → Forall (λ x, in_range (snd x)) run → sound w → sound w'.
Proof.
  induction run as [|[clock w1] run IH]; simpl; intros w w' H Hf Hs; [by subst|].
  destruct H as [Hst H]. apply Forall_cons_1 in Hf as [Hr Hf]. eapply IH; [done..|]. by eapply step_sound.
Qed.
Lemma linked_backing k A run : Custody k A → A ≠ fz_owner ctx → ∀ w w' b,
  linked ctx w run w' → Forall (λ x, in_range (snd x)) run → sound w →
  banks w !! k = Some b → vault_intact k A (tokens w) b →
  ∃ b', banks w' !! k = Some b' ∧ vault_intact k A (tokens w') b' ∧
    surplus (tokens w) b - run_slack k w run ≤ surplus (tokens w') b'.
Proof.
  intros HC HA. induction run as [|[clock w1] run IH]; simpl; intros w w' b H Hf Hs Hb Hv.
  { subst w'. exists b. split_and!; [done..|lia]. }
  destruct H as [Hst H]. apply Forall_cons_1 in Hf as [Hr Hf]. simpl in Hr.
  pose proof (step_sound _ _ _ Hst Hr Hs) as Hs1.
  destruct (step_backing k A _ _ _ HC HA Hst Hr Hs b Hb Hv) as (b1 & Hb1 & Hv1 & Hsur).
  destruct (IH _ _ _ H Hf Hs1 Hb1 Hv1) as (b' & Hb' & Hv' & Hsur'). exists b'.
  split_and!; [done..|]. rewrite Hb, Hb1. lia.
Qed.

(** The vault of the bank covers what the bank owes. *)
Definition covered (w : World) (b : BankAccounts) (A : Pubkey) : Prop :=
  ∃ k, banks w !! fb_bank b = Some k ∧ vault_intact (fb_bank b) A (tokens w) k ∧ 0 ≤ surplus (tokens w) k.

(** The figures the final check compares, from the bank's surplus. *)
Lemma end_balances_surplus ts k x y :
  Bank.wf k → end_balances k (ts !! Bank.liquidity_vault k) = Ok (x, y) →
  surplus ts k - SCALE ≤ SCALE * (x - y).
Proof.
  intros Hwf H. unfold end_balances in H. apply bind_ok in H as (f1 & H1%op_add_ok & H).
  apply bind_ok in H as (f & H2%op_add_ok & H). apply bind_ok in H as (dep & Hd & H).
  apply bind_ok in H as (debts & Hl & H). apply bind_ok in H as (net & Hn%op_sub_ok & H).
  apply bind_ok in H as (v & Hv%unwrap_ok & H). apply bind_ok in H as (nf & Hx%op_sub_ok & H). injection H as <- <-.
  apply Bank.get_asset_amount_nn in Hd as [-> _]; [|apply Hwf..].
  apply Bank.get_liability_amount_nn in Hl as [-> _]; [|apply Hwf|by apply Z.lt_le_incl, Bank.wf_lsv_pos].
  pose proof (fmul_exact (Bank.total_asset_shares k) (Bank.asset_share_value k)).
  pose proof (fmul_exact (Bank.total_liability_shares k) (Bank.liability_share_value k)).
  unfold surplus, obligations, exact, token_amount. rewrite Hv. subst. simpl. lia.
Qed.
End RunSolvency.

(** ** Theorems *)
Section Theorems.
Context {F : FixedOps} {L : FixedLaws F} {T : TokenSdk} {TL : TokenLaws T} {O : OracleSdk} {PN : PricesNonneg O}
        {R : Runtime} {PB : PriceAccountBytes} {D : Debris} {DL : DebrisLaws D}.
Context (ctx : MarginfiFuzzContext).

Lemma outcome_failed metric s s' :
  outcome_of ctx metric s s' → counts (metrics s') metric false ≠ counts (metrics s) metric false →
  rtc reordered (world s) (world s').
Proof.
  intros [Ho _|w _ _ Hc] Hne; [done|]. destruct Hne. rewrite Hc, update_metric_counts. rewrite decide_False; naive_solver.
Qed.


(** C20: What the fuzzer tests is what the chain would run: every sequence
    of actions is a sequence of instructions of the program, constraints of the
    accounts structures included, signed by the owner of the accounts, between
    which balances change places.  The accounts stay the harness's, and the
    invariants of the program hold throughout. *)
Theorem fuzzed_actions_are_instructions actions s s' :
  fuzz_ready ctx (world s) → Forall action_ok actions → run_actions ctx actions s = Ok s' →
  fuzz_ready ctx (world s') ∧
  ∃ run, linked ctx (world s) run (world s') ∧
    (sound (world s) → Forall (λ x, in_range (snd x)) run → sound (world s')).
Proof.
  intros Hr Hn H. apply (actions_linked ctx) in H as [run Hl]; [|done..]. split; [by eapply linked_ready|].
  exists run. split; [done|]. intros Hs Hf. by eapply linked_sound.
Qed.

End Theorems.

(** ** Setting up *)
(** The canonical bump gives the canonical address. *)
Class CanonicalPda (R : Runtime) : Prop := {
  canonical_pda s keys a bump :
    find_program_address s keys = (a, bump) → create_program_address s keys bump = Some a
}.
Definition vaults_of {R : Runtime} (ks : list (Pubkey * Pubkey * Pubkey)) : list Pubkey :=
  flat_map (λ '(bank, _, _), (λ t, fst (get_vault_address bank t)) <$> [VLiquidity; VInsurance; VFee]) ks.
(** No key is drawn twice. *)
Record fresh_keys {R : Runtime} (ks : RandomKeys) : Prop := {
  fk_banks : NoDup ((λ x, fst (fst x)) <$> rk_banks ks);
  fk_vaults : NoDup (vaults_of (rk_banks ks));
  fk_accounts : NoDup (fst <$> rk_accounts ks);
  fk_tokens a l k : (a, l) ∈ rk_accounts ks → k ∈ l → k ∉ vaults_of (rk_banks ks)
}.

(** A bank nobody has used, with its empty vault. *)
Definition unused {T : TokenSdk} {R : Runtime} (w : World) (b : BankAccounts) : Prop :=
  ∃ k mint, banks w !! fb_bank b = Some k ∧ obligations k = 0 ∧
    Bank.liquidity_vault k = fst (get_vault_address (fb_bank b) VLiquidity) ∧
    Bank.liquidity_vault_bump k = snd (get_vault_address (fb_bank b) VLiquidity) ∧
    tokens w !! fst (get_vault_address (fb_bank b) VLiquidity)
      = Some (mkTokenAccount mint (fst (get_vault_authority (fb_bank b) VLiquidity)) 0).
(** Between the banks [bks] and the accounts [acs] and the rest of the setup. *)
Record prepared {F : FixedOps} {T : TokenSdk} {R : Runtime} (bks acs : list Pubkey) (ctx : MarginfiFuzzContext)
    (w : World) : Prop := {
  pr_group : ∃ g, groups w = {[fz_marginfi_group ctx := g]} ∧
    program_fee_fixed (MarginfiGroup.fee_state_cache g) = 0 ∧ program_fee_rate (MarginfiGroup.fee_state_cache g) = 0;
  pr_ready : fuzz_ready ctx w;
  pr_invariant : invariant w;
  pr_rates k b : banks w !! k = Some b →
    BankConfig.interest_rate_config (Bank.config b) = fuzz_rates ∧ 0 ≤ Bank.asset_share_value b;
  pr_tokens k t : tokens w !! k = Some t → is_u64 (ta_amount t);
  pr_banks k : is_Some (banks w !! k) → k ∈ bks;
  pr_keys : fb_bank <$> fz_banks ctx = bks;
  pr_accounts a : is_Some (accounts w !! a) → a ∈ acs;
  pr_unused b : b ∈ fz_banks ctx → unused w b
}.

Section Setup.
Context {F : FixedOps} {L : FixedLaws F} {T : TokenSdk} {TL : TokenLaws T} {O : OracleSdk} {R : Runtime} {CP : CanonicalPda R}
        {PB : PriceAccountBytes} {D : Debris} {DL : DebrisLaws D} {M : NewMints}.

Lemma prepared_sound bks acs ctx w : prepared bks acs ctx w → sound w.
Proof.
  intros [(g & Hg & Hf & Hr) _ Hi Hrt Ht _ _ _ _]. split; [done|..].
  - intros k b g' Hb Hg'. destruct (Hrt _ _ Hb) as [Hc _]. rewrite Hg in Hg'.
    apply lookup_singleton_Some in Hg' as [_ <-]. unfold Bank.rates_wf, Bank.ir_calc. rewrite Hc.
    unfold InterestRateCalc.curve_wf, InterestRateCalc.fees_wf. simpl. rewrite Hf, Hr.
    vm_compute. split_and!; congruence.
  - split; [|done|].
    + intros k b Hb. by destruct (Hrt _ _ Hb).
    + intros k g' Hg'. rewrite Hg in Hg'. apply lookup_singleton_Some in Hg' as [_ <-]. rewrite Hr. by vm_compute.
Qed.
Lemma unused_covered w b A : unused w b → Custody (fb_bank b) A → covered w b A.
Proof.
  intros (k & mint & Hk & Ho & Hv & Hbump & Ht) HC. exists k. split; [done|]. split.
  - split.
    + rewrite Hv. eexists. split; [exact Ht|]. exact (cu_address _ _ HC).
    + rewrite Hv, Hbump. apply (cu_canonical _ _ HC). unfold get_vault_address. by rewrite <- surjective_pairing.
  - unfold surplus, token_amount. rewrite Ho, Hv, Ht. simpl. by vm_compute.
Qed.

Lemma set_up_each_inv {A B} (f : A → B → MarginfiResult B) (P : list A → B → Prop) l x x' :
  (∀ done a rest x x', l = done ++ a :: rest → P done x → f a x = Ok x' → P (done ++ [a]) x') →
  P [] x → set_up_each f l x = Ok x' → P l x'.
Proof.
  intros Hf. assert (∀ r d y, l = d ++ r → P d y → set_up_each f r y = Ok x' → P l x') as K; [|by apply (K l [])].
  induction r as [|a r IH]; simpl; intros d y Hl Hy H.
  - injection H as <-. by rewrite Hl, app_nil_r.
  - apply bind_ok in H as (x1 & H1 & H). apply (IH (d ++ [a]) x1); [by rewrite <- app_assoc| |done]. by eapply Hf.
Qed.

Lemma initial_prepared ks :
  prepared [] [] (mkContext (rk_group ks) (fst (find_program_address FEE_STATE_SEED [])) (rk_wallet ks) [] [] (rk_admin ks))
    (initial_world ks).
Proof.
  split; simpl.
  - eexists. by split_and!.
  - split; simpl; [rewrite lookup_singleton_eq; eauto|by intros b []%not_elem_of_nil..].
  - assert (∀ A (m : gmap Z A) k x, m = ∅ → m !! k ≠ Some x) as He by (intros A m k x ->; by rewrite lookup_empty).
    split; [|intros k b H; by destruct (He _ _ _ _ eq_refl H)|intros a m k b H; by destruct (He _ _ _ _ eq_refl H)].
    split; [intros k b H|intros k b H|intros k b i p H|intros side k b H]; by destruct (He _ _ _ _ eq_refl H).
  - by intros k b []%lookup_empty_Some.
  - by intros k t []%lookup_empty_Some.
  - intros k. rewrite lookup_empty. by intros [? ?].
  - done.
  - intros k. rewrite lookup_empty. by intros [? ?].
  - by intros b []%not_elem_of_nil.
Qed.
(** Token accounts and mints do not matter, the vaults apart. *)
Lemma prepared_outside bks acs ctx w w' :
  banks w' = banks w → accounts w' = accounts w → groups w' = groups w →
  (∀ k t, tokens w' !! k = Some t → is_u64 (ta_amount t)) → (∀ b, b ∈ fz_banks ctx → unused w' b) →
  prepared bks acs ctx w → prepared bks acs ctx w'.
Proof.
  intros Eb Ea Eg Ht Hu [? [] [Hb Hc Hg] ? ? ? ? ? ?].
  split; rewrite ?Eb, ?Ea, ?Eg; try done.
  - split; rewrite ?Eb, ?Ea, ?Eg; done.
  - split; [by eapply books_ext|..].
    + intros k b. rewrite Eb. apply Hc.
    + intros a m k b. rewrite Eb, Ea. apply Hg.
Qed.
Lemma new_token_prepared bks acs ctx w k mint owner n :
  is_u64 n → (∀ b, b ∈ fz_banks ctx → k ≠ fst (get_vault_address (fb_bank b) VLiquidity)) →
  prepared bks acs ctx w → prepared bks acs ctx (new_token_account k mint owner n w).
Proof.
  intros Hn Hk Hp. eapply prepared_outside, Hp; [done..| |]; simpl.
  - intros j t [[<- <-]|[_ Hj]]%lookup_insert_Some; [done|]. by eapply pr_tokens.
  - intros b Hb. destruct (pr_unused _ _ _ _ Hp b Hb) as (x & m & H1 & H2 & H3 & H4 & H5). exists x, m. split_and!; try done.
    simpl. rewrite lookup_insert_ne; [done|]. by apply Hk.
Qed.

(** A bank is added. *)
Lemma new_bank_prepared bks ctx w bank oracle mint tp dec k :
  let address t := fst (get_vault_address bank t) in
  let authority t := fst (get_vault_authority bank t) in
  let bk := mkBankAccounts bank oracle (address VLiquidity) (authority VLiquidity) (address VInsurance)
    (authority VInsurance) (address VFee) (authority VFee) mint tp dec in
  prepared bks [] ctx w → bank ∉ bks → unused (set_bank bank k w) bk → bank_matches ctx bk k → Bank.wf k →
  BankConfig.valid (Bank.config k) → BankConfig.interest_rate_config (Bank.config k) = fuzz_rates →
  prepared (bks ++ [bank]) []
    (mkContext (fz_marginfi_group ctx) (fz_fee_state ctx) (fz_fee_state_wallet ctx) (fz_banks ctx ++ [bk])
       (fz_accounts ctx) (fz_owner ctx)) (set_bank bank k w).
Proof.
  intros address authority bk [Hg [Hr1 Hr2 Hr3] [Hb Hc Hp] Hrt Ht Hk Hkeys Ha Hu] Hn Hun Hm Hwf Hval Hrates.
  assert (banks w !! bank = None) as Hnone by (rewrite eq_None_not_Some; auto).
  assert (∀ b, b ∈ fz_banks ctx → bank ≠ fb_bank b) as Hne
    by (intros b Hb' ->; apply Hn; rewrite <- Hkeys; by apply list_elem_of_fmap_2).
  split; simpl; try done.
  - split; simpl; [done| |done]. intros b [Hb'| ->%list_elem_of_singleton]%elem_of_app.
    + destruct (Hr2 _ Hb') as (k' & Hk' & Hm'). exists k'. rewrite lookup_insert_ne by auto.
      split; [done|]. by destruct Hm'.
    + exists k. simpl. rewrite lookup_insert_eq. split; [done|]. by destruct Hm.
  - split; [by apply new_bank_books|unfold valid_configs|unfold positions_in_group]; simpl.
    + intros j b [[<- <-]|[_ Hj]]%lookup_insert_Some; [done|]. by eapply Hc.
    + intros a m j b Hm'. by assert (a ∈ []) as []%not_elem_of_nil by (apply Ha; eauto).
  - intros j b [[<- <-]|[_ Hj]]%lookup_insert_Some; [|eauto]. split; [done|apply Hwf].
  - intros j [<-|[_ Hj]]%lookup_insert_is_Some; rewrite elem_of_app, list_elem_of_singleton; auto.
  - by rewrite fmap_app, Hkeys.
  - intros b [Hb'| ->%list_elem_of_singleton]%elem_of_app; [|done].
    destruct (Hu b Hb') as (x & m & H1 & H2). exists x, m. simpl. by rewrite lookup_insert_ne by auto.
Qed.

Lemma must_ok {A} (r : MarginfiResult A) a : must r = Ok a → r = Ok a.
Proof. by destruct r. Qed.
Lemma create_vault bank t : create_program_address (vault_seed t) [bank] (snd (get_vault_address bank t))
  = Some (fst (get_vault_address bank t)).
Proof. apply canonical_pda. unfold get_vault_address. apply surjective_pairing. Qed.
Lemma create_authority bank t :
  create_program_address (vault_authority_seed t) [bank] (snd (get_vault_authority bank t))
  = Some (fst (get_vault_authority bank t)).
Proof. apply canonical_pda. unfold get_vault_authority. apply surjective_pairing. Qed.

Lemma setup_bank_prepared bks bank mint oracle config ctx s ctx' s' :
  prepared bks [] ctx (world s) → bank ∉ bks →
  (∀ t b, b ∈ fz_banks ctx → fst (get_vault_address bank t) ≠ fst (get_vault_address (fb_bank b) VLiquidity)) →
  (∀ t, t ≠ VLiquidity → fst (get_vault_address bank t) ≠ fst (get_vault_address bank VLiquidity)) →
  setup_bank (bank, mint, oracle) config ctx s = Ok (ctx', s') → prepared (bks ++ [bank]) [] ctx' (world s').
Proof.
  intros Hp Hn Hother Hown H. unfold setup_bank in H. apply bind_ok in H as (g & _ & H).
  apply bind_ok in H as (fs & _ & H). apply bind_ok in H as (w & Hw%must_ok & H). injection H as <- <-.
  unfold add_bank_handler in Hw. apply bind_ok in Hw as (ls & _ & Hw). apply bind_ok in Hw as (u & Hv & Hw).
  apply BankConfig.validate_ok in Hv. apply bind_ok in Hw as (u' & _ & Hw). injection Hw as <-. cbn [world with_world].
  match goal with |- prepared _ _ _ (set_lamports _ (set_bank _ ?k ?w)) => set (w1 := w) in *; set (k1 := k) in * end.
  assert (prepared bks [] ctx w1) as Hp1.
  { do 3 (apply new_token_prepared; [by vm_compute|intros b Hb; by apply Hother|]).
    eapply prepared_outside, Hp; [done..|apply Hp|apply Hp]. }
  assert (tokens w1 !! fst (get_vault_address bank VLiquidity)
    = Some (mkTokenAccount mint (fst (get_vault_authority bank VLiquidity)) 0)) as Hvault.
  { simpl. rewrite !lookup_insert_ne by (by apply Hown). apply lookup_insert_eq. }
  pose proof (create_vault bank VLiquidity) as V1. pose proof (create_vault bank VInsurance) as V2.
  pose proof (create_authority bank VLiquidity) as V3. pose proof (create_authority bank VInsurance) as V4.
  assert (Bank.wf k1) as Hwf by apply new_bank_wf.
  match goal with |- prepared ?l ?a ?c _ => assert (prepared l a c (set_bank bank k1 w1)) as Hp2 end.
  { apply (new_bank_prepared bks ctx w1 bank oracle mint); try done.
    exists k1, mint. split_and!; [apply lookup_insert_eq|by vm_compute|done..]. }
  eapply prepared_outside, Hp2; [done..|exact (pr_tokens _ _ _ _ Hp2)|exact (pr_unused _ _ _ _ Hp2)].
Qed.

(** An account is opened, with its token accounts. *)
Lemma new_tokens_prepared bks acs ctx owner keys : ∀ mints w,
  (∀ k b, k ∈ keys → b ∈ fz_banks ctx → k ≠ fst (get_vault_address (fb_bank b) VLiquidity)) →
  prepared bks acs ctx w →
  prepared bks acs ctx (foldl (λ w '(k, mint), new_token_account k mint owner 100000000000000000 w) w (zip keys mints)).
Proof.
  induction keys as [|k keys IH]; intros [|m mints] w Hk Hp; simpl; try done.
  apply IH; [intros; apply Hk; [by right|done]|].
  apply new_token_prepared; [by vm_compute| |done]. intros b Hb. by apply Hk; [left|].
Qed.
Lemma create_account_prepared bks acs a keys mints ctx s ctx' s' :
  prepared bks acs ctx (world s) → a ∉ acs →
  (∀ k b, k ∈ keys → b ∈ fz_banks ctx → k ≠ fst (get_vault_address (fb_bank b) VLiquidity)) →
  create_marginfi_account (a, keys) mints ctx s = Ok (ctx', s') →
  prepared bks (acs ++ [a]) ctx' (world s') ∧ fz_banks ctx' = fz_banks ctx.
Proof.
  intros Hp Hn Hk H. unfold create_marginfi_account in H. apply bind_ok in H as (g & _ & H). injection H as <- <-.
  split; [|done]. cbn [world with_world].
  set (ctx' := mkContext _ _ _ _ _ _). set (w1 := set_account _ _ _).
  assert (prepared bks (acs ++ [a]) ctx' w1) as Hp1.
  { destruct Hp as [Hg [Hr1 Hr2 Hr3] [Hb Hc Hgr] Hrt Ht Hbk Hkeys Ha Hu].
    assert (accounts (world s) !! a = None) as Hnone by (rewrite eq_None_not_Some; auto).
    split; simpl; try done.
    - split; simpl; [done|intros b (k & ? & [])%Hr2; by exists k|]. intros u [Hu'| ->%list_elem_of_singleton]%elem_of_app.
      + destruct (Hr3 _ Hu') as (m & Hm & ?). exists m. rewrite lookup_insert_ne; [done|]. congruence.
      + eexists. simpl. by rewrite lookup_insert_eq.
    - split; [by apply new_account_books|done|]. intros b m k bk Hm Hh Hbk'. simpl in Hm.
      apply lookup_insert_Some in Hm as [[<- <-]|[_ Hm]]; [by apply zeroed_holds in Hh|]. by eapply Hgr.
    - intros b [<-|[_ Hj]]%lookup_insert_is_Some; rewrite elem_of_app, list_elem_of_singleton; auto. }
  by apply new_tokens_prepared.
Qed.

Lemma zip_prefix {A B} (l : list A) (k : list B) : ∃ rest, l = (fst <$> zip l k) ++ rest.
Proof.
  revert k. induction l as [|a l IH]; intros [|b k]; simpl; [by exists []..|by exists (a :: l)|].
  destruct (IH k) as [rest E]. exists rest. simpl. by f_equal.
Qed.
Lemma vaults_of_app l k : vaults_of (l ++ k) = vaults_of l ++ vaults_of k.
Proof. unfold vaults_of. apply flat_map_app. Qed.
Lemma vault_elem l bank t : bank ∈ ((λ x, fst (fst x)) <$> l) → fst (get_vault_address bank t) ∈ vaults_of l.
Proof.
  intros ([[j m] o] & -> & Hx)%list_elem_of_fmap. apply list_elem_of_In, in_flat_map. exists (j, m, o).
  rewrite <- !list_elem_of_In. split; [done|].
  apply (list_elem_of_fmap_2 (λ t, fst (get_vault_address j t))). destruct t; set_solver.
Qed.

(** The harness's own vaults and banks are apart from those set up before. *)
Lemma next_bank_fresh (ks done rest : list (Pubkey * Pubkey * Pubkey)) bank mint oracle tail :
  NoDup ((λ x, fst (fst x)) <$> ks) → NoDup (vaults_of ks) → ks = (done ++ (bank, mint, oracle) :: rest) ++ tail →
  bank ∉ ((λ x, fst (fst x)) <$> done) ∧
  (∀ t j, j ∈ ((λ x, fst (fst x)) <$> done) →
     fst (get_vault_address bank t) ≠ fst (get_vault_address j VLiquidity)) ∧
  (∀ t, t ≠ VLiquidity → fst (get_vault_address bank t) ≠ fst (get_vault_address bank VLiquidity)).
Proof.
  intros Hb Hv ->. rewrite !fmap_app in Hb. apply list.NoDup_app in Hb as (Hb & _ & _). apply list.NoDup_app in Hb as (_ & Hb & _).
  rewrite !vaults_of_app in Hv. apply list.NoDup_app in Hv as (Hv & _ & _). apply list.NoDup_app in Hv as (_ & Hv & Hown).
  split_and!.
  - intros H. by apply (Hb _ H); left.
  - intros t j Hj E. apply (Hv (fst (get_vault_address j VLiquidity))); [by apply vault_elem|].
    rewrite <- E. apply vault_elem. by left.
  - intros t Ht E. change (vaults_of ((bank, mint, oracle) :: rest)) with
      (((λ t, fst (get_vault_address bank t)) <$> [VLiquidity; VInsurance; VFee]) ++ vaults_of rest) in Hown.
    apply list.NoDup_app in Hown as (Hown & _ & _). simpl in Hown. rewrite !list.NoDup_cons, !not_elem_of_cons in Hown.
    destruct Hown as [(H1 & H2 & _) _]. by destruct t.
Qed.

(** The three phases. *)
Lemma banks_prepared ks configs x x' :
  fresh_keys ks → prepared [] [] (fst x) (world (snd x)) →
  set_up_each (λ '(k, config) '(ctx, s), setup_bank k config ctx s) (zip (rk_banks ks) configs) x = Ok x' →
  prepared ((λ x, fst (fst x)) <$> (fst <$> zip (rk_banks ks) configs)) [] (fst x') (world (snd x')).
Proof.
  intros [Hb Hv _ _] Hp. destruct (zip_prefix (rk_banks ks) configs) as [tail E].
  refine (set_up_each_inv _ (λ l x, prepared ((λ x, fst (fst x)) <$> (fst <$> l)) [] (fst x) (world (snd x)))
            _ _ _ _ Hp).
  intros d [[[bank mint] oracle] config] rest [ctx s] [ctx' s'] Hall Hp' H. rewrite Hall in E.
  rewrite fmap_app in E. simpl in E.
  destruct (next_bank_fresh _ _ _ _ _ _ _ Hb Hv E) as (H1 & H2 & H3).
  rewrite !fmap_app. eapply setup_bank_prepared; [exact Hp'|done| |done|exact H].
  intros t b Hin. apply H2. rewrite <- (pr_keys _ _ _ _ Hp'). by apply list_elem_of_fmap_2.
Qed.
Lemma accounts_prepared ks bks n mints x x' :
  fresh_keys ks → prepared bks [] (fst x) (world (snd x)) → (∀ k, k ∈ bks → k ∈ ((λ x, fst (fst x)) <$> rk_banks ks)) →
  set_up_each (λ k '(ctx, s), must (create_marginfi_account k mints ctx s)) (take n (rk_accounts ks)) x = Ok x' →
  prepared bks (fst <$> take n (rk_accounts ks)) (fst x') (world (snd x')) ∧ fz_banks (fst x') = fz_banks (fst x).
Proof.
  intros [_ _ Ha Ht] Hp Hk.
  refine (set_up_each_inv _ (λ l y, prepared bks (fst <$> l) (fst y) (world (snd y)) ∧ fz_banks (fst y) = fz_banks (fst x))
            _ _ _ _ (conj Hp eq_refl)).
  intros d [a keys] rest [ctx s] [ctx' s'] Hall [Hp' E] H%must_ok. rewrite fmap_app. cbn [fst snd] in Hp', E |- *.
  rewrite <- (take_drop n (rk_accounts ks)), Hall, !fmap_app in Ha. apply list.NoDup_app in Ha as (Ha & _ & _).
  apply list.NoDup_app in Ha as (_ & Ha & _).
  apply (create_account_prepared bks (fst <$> d)) in H as [? ?]; [by split; [|congruence]|done| |].
  - intros Hin. apply (Ha a Hin). by left.
  - intros k b Hin Hb ->. assert ((a, keys) ∈ rk_accounts ks) as Hin'
      by (rewrite <- (take_drop n (rk_accounts ks)), Hall; set_solver).
    apply (Ht _ _ _ Hin' Hin), vault_elem, Hk. rewrite <- (pr_keys _ _ _ _ Hp'). by apply list_elem_of_fmap_2.
Qed.
Lemma seeds_linked ctx s l ctx' s' :
  fuzz_ready ctx (world s) → set_up_each seed_bank l (ctx, s) = Ok (ctx', s') →
  ctx' = ctx ∧ ∃ run, linked ctx (world s) run (world s').
Proof.
  intros Hr. refine (set_up_each_inv _ (λ _ y, fst y = ctx ∧ ∃ run, linked ctx (world s) run (world (snd y)))
    _ _ _ _ _); [|simpl; split; [done|by exists []]].
  intros _ i _ [c1 s1] [c2 s2] _ [E [run Hl]] H. simpl in E, Hl |- *. subst c1. simpl in H.
  apply bind_ok in H as (b & _ & H).
  apply bind_ok in H as (n & Hn%unwrap_ok%u64_checked_some & H). apply bind_ok in H as (s3 & Hd%must_ok & H).
  injection H as <- <-. split; [done|]. destruct Hn as [-> Hn].
  apply (deposit_outcome ctx) in Hd; [|by eapply linked_ready|done].
  apply outcome_linked in Hd as [run' Hl']. eexists. by eapply linked_app.
Qed.
Lemma unseeded_prepared ks started configs n ctx s :
  fresh_keys ks → setup_unseeded ks started configs n = Ok (ctx, s) → ∃ bks acs, prepared bks acs ctx (world s).
Proof.
  intros Hk H. unfold setup_unseeded in H. apply bind_ok in H as (s0 & Ht & H). apply advance_time_ok in Ht as [Hw _].
  apply bind_ok in H as ([c1 s1] & H1 & H2). apply banks_prepared in H1; [|done|]; simpl in H1.
  2: { simpl. rewrite Hw. apply initial_prepared. }
  destruct (zip_prefix (rk_banks ks) configs) as [tail E].
  apply (accounts_prepared ks) with (1 := Hk) (2 := H1) in H2 as [H2 _]; [eauto|].
  intros k Hin. rewrite E, fmap_app, elem_of_app. by left.
Qed.
End Setup.

(** C22: The setup of the harness is sound: with keys that are drawn once,
    the accounts it hands to the fuzzer are its own, and from the world before
    the banks are seeded, in which the invariants hold and every bank's empty
    vault covers it, only instructions of the program are run. *)
Theorem setup_is_sound {F : FixedOps} {L : FixedLaws F} {T : TokenSdk} {TL : TokenLaws T} {O : OracleSdk}
    {R : Runtime} {CP : CanonicalPda R} {PB : PriceAccountBytes} {D : Debris} {DL : DebrisLaws D} {M : NewMints}
    ks started configs n ctx s :
  fresh_keys ks → setup ks started configs n = Ok (ctx, s) →
  fuzz_ready ctx (world s) ∧
  ∃ s0 run, setup_unseeded ks started configs n = Ok (ctx, s0) ∧ linked ctx (world s0) run (world s) ∧
    fuzz_ready ctx (world s0) ∧ sound (world s0) ∧
    ∀ b A, b ∈ fz_banks ctx → Custody (fb_bank b) A → covered (world s0) b A.
Proof.
  intros Hk H. unfold setup in H. apply bind_ok in H as ([c2 s2] & H2 & H).
  destruct (unseeded_prepared _ _ _ _ _ _ Hk H2) as (bks & acs & Hp). pose proof (pr_ready _ _ _ _ Hp) as Hr.
  apply seeds_linked in H as [-> [run Hl]]; [|done]. split; [by eapply linked_ready|].
  exists s2, run. split_and!; [done..|by eapply prepared_sound|].
  intros b A Hb. apply unused_covered. by eapply pr_unused.
Qed.

(** ** The banks of a liquidation *)
(** The sort is ascending, and its first element is taken. *)
Lemma head_of_sorted {A} (f : A → Z) l x :
  head (sort_by (λ a b, f a <=? f b) l) = Some x → x ∈ l ∧ ∀ y, y ∈ l → f x ≤ f y.
Proof.
  pose proof (sort_by_perm (λ a b, f a <=? f b) l) as Hp.
  assert (Sorted.StronglySorted (λ a b, (f a <=? f b) = true) (sort_by (λ a b, f a <=? f b) l)) as Hs.
  { apply (sort_by_sorted (λ _, True)); [intros a b _ _|intros a b c|by apply list.Forall_forall];
      rewrite !Z.leb_le; lia. }
  destruct (sort_by _ l) as [|z k]; [done|]. intros [= ->]. inversion Hs as [|? ? _ Hall]; subst.
  split; [rewrite <-Hp; by left|]. intros y Hy. rewrite <-Hp in Hy. apply elem_of_cons in Hy as [->|Hy]; [lia|].
  rewrite list.Forall_forall in Hall. apply Z.leb_le. by apply Hall.
Qed.
Lemma position_in_list k banks n :
  position (λ b, fb_bank b =? k) banks = Some n → k ∈ fb_bank <$> banks.
Proof.
  intros (b & Hb & <-%Z.eqb_eq & _)%position_Some. apply list_elem_of_fmap_2. by eapply list_elem_of_lookup_2.
Qed.
(** What the code calls the best banks are those of the smallest position that is
    not dust on either side. *)
Lemma liquidation_takes_the_smallest {T : TokenSdk} w u banks i j :
  get_liquidation_banks w u banks = Some (i, j) →
  ∃ m a l, accounts w !! margin_account u = Some m ∧
    a ∈ MarginfiAccount.lending_account m ∧ Balance.is_empty a Assets = false ∧
    l ∈ MarginfiAccount.lending_account m ∧ Balance.is_empty l Liabilities = false ∧
    (∀ b, b ∈ MarginfiAccount.lending_account m → Balance.is_empty b Assets = false →
       Balance.asset_shares a ≤ Balance.asset_shares b) ∧
    (∀ b, b ∈ MarginfiAccount.lending_account m → Balance.is_empty b Liabilities = false →
       Balance.liability_shares l ≤ Balance.liability_shares b) ∧
    Balance.bank_pk a ∈ fb_bank <$> banks ∧ Balance.bank_pk l ∈ fb_bank <$> banks.
Proof.
  unfold get_liquidation_banks. intros H. apply bind_Some in H as (m & Hm & H). cbv zeta in H.
  apply bind_Some in H as (ka & (a & Ha & ->)%fmap_Some & H).
  apply bind_Some in H as (kl & (l & Hl & ->)%fmap_Some & H).
  apply bind_Some in H as (p & Hp & H). apply bind_Some in H as (q & Hq & _).
  apply head_of_sorted in Ha as [Ha Hamin], Hl as [Hl Hlmin].
  setoid_rewrite list_elem_of_filter in Ha. setoid_rewrite list_elem_of_filter in Hl.
  exists m, a, l. split_and!; [tauto..| | | |].
  - intros b Hb He. apply Hamin, list_elem_of_filter. done.
  - intros b Hb He. apply Hlmin, list_elem_of_filter. done.
  - by eapply position_in_list.
  - by eapply position_in_list.
Qed.

(** ** Random values *)
Definition index_below (n i : Z) : Prop := 0 ≤ i < n.
Definition well_formed (action : Action) : Prop :=
  match action with
  | Deposit a b n | Borrow a b n | Repay a b n _ | Withdraw a b n _ =>
      index_below N_USERS a ∧ index_below N_BANKS b ∧ ASSET_UNIT ≤ n ≤ 10 * ASSET_UNIT
  | UpdateOracle b p => index_below N_BANKS b ∧ 0 ≤ p ≤ 1000000000000
  | Liquidate a a' n => index_below N_USERS a ∧ index_below N_USERS a' ∧ ASSET_UNIT ≤ n ≤ 10 * ASSET_UNIT
  end.

Section Random.
Context {U : Unstructured} {UL : UnstructuredLaws U}.

Lemma arbitrary_account_ok u v u' : arbitrary_account_idx u = Ok (v, u') → index_below N_USERS v.
Proof. unfold arbitrary_account_idx. destruct (is_exhausted u); [done|]. intros H%int_in_range_spec. unfold index_below. lia. Qed.
Lemma arbitrary_bank_ok u v u' : arbitrary_bank_idx u = Ok (v, u') → index_below N_BANKS v.
Proof. unfold arbitrary_bank_idx. destruct (is_exhausted u); [done|]. intros H%int_in_range_spec. unfold index_below. lia. Qed.
Lemma arbitrary_amount_ok u v u' : arbitrary_asset_amount u = Ok (v, u') → ASSET_UNIT ≤ v ≤ 10 * ASSET_UNIT.
Proof.
  unfold arbitrary_asset_amount. destruct (is_exhausted u); [done|]. intros H. apply bind_ok in H as ([n u1] & H & Hr).
  injection Hr as <- <-. apply int_in_range_spec in H. unfold ASSET_UNIT. lia.
Qed.
Lemma arbitrary_price_ok u v u' : arbitrary_price_change u = Ok (v, u') → 0 ≤ v ≤ 1000000000000.
Proof. unfold arbitrary_price_change. destruct (is_exhausted u); [done|]. by intros H%int_in_range_spec. Qed.

Lemma arbitrary_action_ok u action u' : arbitrary_action u = Ok (action, u') → well_formed action.
Proof.
  unfold arbitrary_action. intros H. apply bind_ok in H as ([variant u1] & _ & H).
  destruct (variant =? 2); [|destruct (variant =? 5)].
  - apply bind_ok in H as ([b u2] & Hb%arbitrary_bank_ok & H).
    apply bind_ok in H as ([p u3] & Hp%arbitrary_price_ok & H). by injection H as <- <-.
  - apply bind_ok in H as ([a u2] & Ha%arbitrary_account_ok & H).
    apply bind_ok in H as ([a' u3] & Ha'%arbitrary_account_ok & H).
    apply bind_ok in H as ([n u4] & Hn%arbitrary_amount_ok & H). by injection H as <- <-.
  - apply bind_ok in H as ([a u2] & Ha%arbitrary_account_ok & H).
    apply bind_ok in H as ([b u3] & Hb%arbitrary_bank_ok & H).
    apply bind_ok in H as ([n u4] & Hn%arbitrary_amount_ok & H).
    destruct (variant =? 0); [by injection H as <- <-|]. destruct (variant =? 1); [by injection H as <- <-|].
    apply bind_ok in H as ([all u5] & _ & H). injection H as <- <-. by destruct (variant =? 3).
Qed.
Lemma well_formed_ok action : well_formed action → action_ok action.
Proof. unfold well_formed, action_ok, is_u64, U64_MAX, ASSET_UNIT. destruct action; lia. Qed.
Lemma arbitrary_actions_ok n : ∀ u l u',
  arbitrary_actions n u = Ok (l, u') → length l = n ∧ Forall well_formed l.
Proof.
  induction n as [|n IH]; simpl; intros u l u' H; [by injection H as <- <-|].
  apply bind_ok in H as (x & _ & H). apply bind_ok in H as ([a u1] & Ha%arbitrary_action_ok & H).
  apply bind_ok in H as ([l' u2] & Hl & H). injection H as <- <-. apply IH in Hl as [<- Hl]. split; [done|by constructor].
Qed.

(** The fuzzer's random inputs are well formed: a sequence has the
    number of actions asked for, each of them names accounts and banks that
    exist, and moves between one and ten units; and every random bank
    configuration is one the program accepts, with its borrow limit below its
    deposit limit and both within the type of amounts. *)
Theorem random_inputs_are_valid u :
  (∀ l u', arbitrary_action_sequence u = Ok (l, u') → length l = N_ACTIONS ∧ Forall (λ a, well_formed a ∧ action_ok a) l) ∧
  (∀ c u' oracle, arbitrary_bank_and_oracle_config u = Ok (c, u') →
     BankConfig.validate (bank_config_of c oracle) = Ok tt ∧
     0 < bo_borrow_limit c < bo_deposit_limit c ∧ is_u64 (bo_deposit_limit c) ∧ is_u64 (bo_oracle_native_price c)).
Proof.
  split.
  - intros l u' [Hn Hl]%arbitrary_actions_ok. split; [done|].
    eapply Forall_impl; [|exact Hl]. intros a Ha. split; [done|]. by apply well_formed_ok.
  - intros c u' oracle H. unfold arbitrary_bank_and_oracle_config in H.
    apply bind_ok in H as ([d u1] & Hd%int_in_range_spec & H). apply bind_ok in H as ([b1 u2] & H1%int_in_range_spec & H).
    apply bind_ok in H as ([b2 u3] & H2%int_in_range_spec & H). apply bind_ok in H as ([tier u4] & _ & H).
    apply bind_ok in H as ([tt' u5] & _ & H). apply bind_ok in H as ([p u6] & Hp%int_in_range_spec & H).
    injection H as <- <-. unfold is_u64, U64_MAX. cbn [bo_borrow_limit bo_deposit_limit bo_oracle_native_price].
    split; [by destruct tier|]. assert (10 ^ (d * 3) = 1000000 ∨ 10 ^ (d * 3) = 1000000000) as [-> | ->]; [|lia..].
    assert (d = 2 ∨ d = 3) as [-> | ->] by lia; [by left|by right].
Qed.
End Random.

(** ** Witnesses

    A bank and two accounts, set up by the harness; a failed handler wipes the
    accounts it could write. *)
#[local] Existing Instance i80f48.
#[local] Existing Instance demo_token_sdk.
#[local] Existing Instance demo_oracle_sdk.

Definition seed_number (s : Seed) : Z :=
  match s with
  | LIQUIDITY_VAULT_AUTHORITY_SEED => 0 | INSURANCE_VAULT_AUTHORITY_SEED => 1 | FEE_VAULT_AUTHORITY_SEED => 2
  | LIQUIDITY_VAULT_SEED => 3 | INSURANCE_VAULT_SEED => 4 | FEE_VAULT_SEED => 5
  | FEE_STATE_SEED => 6 | EMISSIONS_AUTH_SEED => 7 | EMISSIONS_TOKEN_ACCOUNT_SEED => 8
  end.
Definition fuzz_runtime : Runtime := {|
  program_id := 1000;
  create_program_address s keys _ := Some (100 * default 0 (head keys) + seed_number s);
  find_program_address s keys := (100 * default 0 (head keys) + seed_number s, 255);
  find_bank_address group mint seed := (10000 * group + 100 * mint + seed, 255);
  associated_token_address wallet mint _ := wallet + mint;
  end_flashloan_discriminator := [105; 124; 201; 106; 153; 2; 8; 156];
  system_transfer _ _ _ ls := Ok ls
|}.
#[local] Existing Instance fuzz_runtime.
#[local] Instance fuzz_canonical : CanonicalPda fuzz_runtime.
Proof. split. by intros s keys a bump [= <- <-]. Qed.
#[local] Instance fuzz_price_bytes : PriceAccountBytes := {|
  price_account_bytes p := [spa_agg_price p; spa_agg_conf p; spa_expo p; spa_ema_val p; spa_agg_conf p; spa_timestamp p]
|}.
#[local] Instance fuzz_debris : Debris := {|
  debris ks _ w := mkWorld (foldr delete (banks w) ks) (foldr delete (accounts w) ks) (groups w) (fee_state w)
                     (foldr delete (tokens w) ks) (mints w) (lamports w)
|}.
#[local] Instance fuzz_debris_laws : DebrisLaws fuzz_debris.
Proof.
  assert (∀ A (m : gmap Z A) ks k, k ∉ ks → foldr delete m ks !! k = m !! k) as Hd.
  { intros A m ks k. induction ks as [|j ks IH]; simpl; [done|]. rewrite not_elem_of_cons. intros [Hj Hk].
    rewrite lookup_delete_ne by done. by apply IH. }
  split. intros ks e w. split; try done; intros k Hk; by apply Hd.
Qed.
#[local] Instance fuzz_mints : NewMints := {|
  new_transfer_fee_config bps max := {| maximum_fee := max; transfer_fee_basis_points := bps |}
|}.

Definition fuzz_keys : RandomKeys := mkKeys 70 71 1 [(5, 15, 25); (6, 16, 26)] [(80, [81; 84]); (82, [83; 85])].
Definition fuzz_config : BankAndOracleConfig :=
  mkBankAndOracle 100000000 6 (fx_literal 5 10) (fx_literal 75 100) (fx_literal 15 10) (fx_literal 125 100)
    2000000000000 1000000000000 Tokenkeg false.
Definition fuzz_unseeded : MarginfiResult (MarginfiFuzzContext * FuzzState) :=
  setup_unseeded fuzz_keys 1700000000 [fuzz_config; fuzz_config] 1.
Definition fuzz_setup : MarginfiResult (MarginfiFuzzContext * FuzzState) := setup fuzz_keys 1700000000 [fuzz_config; fuzz_config] 1.
(** The context and a state of a setup. *)
Definition no_context : MarginfiFuzzContext := mkContext 0 0 0 [] [] 0.
Definition no_state : FuzzState := mkState _ (initial_world fuzz_keys) ∅ 0 default_metrics.
Definition fuzz_ctx : MarginfiFuzzContext := fst (ok_value (no_context, no_state) fuzz_unseeded).
Definition fuzz_start : FuzzState := snd (ok_value (no_context, no_state) fuzz_unseeded).
Lemma fuzz_unseeded_ok : fuzz_unseeded = Ok (fuzz_ctx, fuzz_start).
Proof.
  unfold fuzz_ctx, fuzz_start. rewrite <- surjective_pairing. apply ok_value_ok. by vm_compute.
Qed.
Lemma fuzz_keys_fresh : fresh_keys fuzz_keys.
Proof.
  assert (∀ l : list Z, bool_decide (NoDup l) = true → NoDup l) as Hd by (by intros l H%bool_decide_eq_true).
  split; [apply Hd; by vm_compute..|].
  intros a l k H Hk. assert (k ∈ [81; 84; 83; 85]) as Hin.
  { simpl in H. rewrite !elem_of_cons, elem_of_nil in H. destruct H as [[= -> ->]|[[= -> ->]|[]]]; set_solver. }
  clear H Hk. change (vaults_of (rk_banks fuzz_keys)) with [503; 504; 505; 603; 604; 605]. set_solver.
Qed.
Lemma fuzz_start_ready : fuzz_ready fuzz_ctx (world fuzz_start) ∧ sound (world fuzz_start).
Proof.
  destruct (unseeded_prepared _ _ _ _ _ _ fuzz_keys_fresh fuzz_unseeded_ok) as (bks & acs & Hp).
  split; [by eapply pr_ready|by eapply prepared_sound].
Qed.
(** A withdrawal from an account without a deposit. *)
Definition fuzz_failed : FuzzState :=
  ok_value no_state (process_action fuzz_ctx (Withdraw 0 0 1000000000 false) fuzz_start).


(** A deposit, and a loan of another bank's tokens. *)
Definition fuzz_actions : list Action := [Deposit 1 1 10000000000; Deposit 0 0 10000000000; Borrow 0 1 1000000000].
Definition fuzz_ran : FuzzState := ok_value no_state (run_actions fuzz_ctx fuzz_actions fuzz_start).

Lemma fuzzed_actions_are_instructions_witness :
  counts (metrics fuzz_ran) MDeposit true = 2 ∧ counts (metrics fuzz_ran) MBorrow true = 1 ∧
  fuzz_ready fuzz_ctx (world fuzz_ran) ∧ ∃ run, linked fuzz_ctx (world fuzz_start) run (world fuzz_ran).
Proof.
  split; [by vm_compute|split; [by vm_compute|]].
  destruct (fuzzed_actions_are_instructions fuzz_ctx fuzz_actions _ fuzz_ran (proj1 fuzz_start_ready)) as [H (run & Hl & _)].
  - repeat constructor; discriminate.
  - apply ok_value_ok. by vm_compute.
  - split; [exact H|exists run; exact Hl].
Defined.

Definition fuzz_seeded : MarginfiFuzzContext * FuzzState := ok_value (no_context, no_state) fuzz_setup.
Lemma setup_is_sound_witness :
  token_amount (tokens (world (snd fuzz_seeded))) 503 = 1000000000 ∧
  fuzz_ready (fst fuzz_seeded) (world (snd fuzz_seeded)).
Proof.
  split; [by vm_compute|].
  assert (fuzz_setup = Ok fuzz_seeded) as H by (apply ok_value_ok; by vm_compute).
  rewrite (surjective_pairing fuzz_seeded) in H.
  exact (proj1 (setup_is_sound _ _ _ _ _ _ fuzz_keys_fresh H)).
Defined.

(** The first bank is seeded: the account's balances are sorted, and it deposits. *)
Definition fuzz_bank : BankAccounts := default (mkBankAccounts 0 0 0 0 0 0 0 0 0 0 0) (head (fz_banks fuzz_ctx)).
Definition fuzz_seeder : UserAccount := default (mkUserAccount 0 []) (fz_accounts fuzz_ctx !! 1%nat).
Definition fuzz_deposit : LendingAccountDeposit := deposit_accounts fuzz_ctx fuzz_seeder fuzz_bank 83.
Definition fuzz_sorted : World := ok_value (world fuzz_start) (sort_balances (margin_account fuzz_seeder) (world fuzz_start)).
Definition fuzz_after : World :=
  ok_value fuzz_sorted (lending_account_deposit fuzz_sorted (sysvar_clock fuzz_start) fuzz_deposit 1000000000).
Definition fuzz_run : list (Clock * World) :=
  [(sysvar_clock fuzz_start, fuzz_sorted); (sysvar_clock fuzz_start, fuzz_after)].
Definition fuzz_after_bank : Bank := default Bank.demo_bank (banks fuzz_after !! 5).
Definition fuzz_group : MarginfiGroup := default MarginfiGroup.zeroed (groups fuzz_after !! 1).
Definition fuzz_accrued : Bank :=
  ok_value fuzz_after_bank (Bank.accrue_interest fuzz_after_bank (u64_as_i64 1700000000 + 3600) fuzz_group).
Definition fuzz_figures : I80F48 * I80F48 := ok_value (0, 0) (end_balances fuzz_accrued (tokens fuzz_after !! 503)).
Lemma is_some_default {A} (d : A) o : bool_decide (is_Some o) = true → o = Some (default d o).
Proof. by intros [x ->]%bool_decide_eq_true. Qed.
Lemma fuzz_run_linked : linked fuzz_ctx (world fuzz_start) fuzz_run fuzz_after.
Proof.
  split; [left|split; [right|done]].
  - apply (sort_balances_reorders (margin_account fuzz_seeder)), ok_value_ok. by vm_compute.
  - exists (IxDeposit fuzz_deposit 1000000000). split; [split; [by vm_compute|split; discriminate]|].
    intros tx. apply ok_value_ok. by vm_compute.
Qed.
Lemma fuzz_bank_in : fuzz_bank ∈ fz_banks fuzz_ctx.
Proof. apply head_Some_elem_of. by vm_compute. Qed.
Lemma fuzz_covered : Custody (fb_bank fuzz_bank) 500 → covered (world fuzz_start) fuzz_bank 500.
Proof.
  destruct (unseeded_prepared _ _ _ _ _ _ fuzz_keys_fresh fuzz_unseeded_ok) as (bks & acs & Hp).
  intros HC. apply unused_covered, HC. apply (pr_unused _ _ _ _ Hp), fuzz_bank_in.
Qed.
Lemma fuzz_custody : Custody (fb_bank fuzz_bank) 500.
Proof.
  assert (fb_bank fuzz_bank = 5) as -> by (by vm_compute).
  split.
  - done.
  - by intros v b [= <- <-].
  - intros s keys bump H. simpl in H. injection H as H. destruct keys as [|j keys]; simpl in *; destruct s; simpl in H;
      try lia. split; [done|]. f_equal. lia.
  - intros s keys H. simpl in H. destruct keys as [|j keys]; simpl in *; destruct s; simpl in H;
      try lia. split; [done|]. f_equal. lia.
  - exact (demo_signed 500).
  - exact (demo_no_fee 500).
Qed.


(** Random bytes as a list; the values wrap around. *)
#[local] Instance fuzz_bytes : Unstructured := {|
  Bytes := list Z;
  is_exhausted u := match u with [] => true | _ => false end;
  int_in_range lo hi u :=
    match u with [] => Panic | b :: u => if lo <=? hi then Ok (lo + b mod (hi - lo + 1), u) else Panic end;
  arbitrary_bool u := match u with [] => Panic | b :: u => Ok (Z.odd b, u) end;
  choose l u :=
    match u with [] => Panic | b :: u => match l !! Z.to_nat b with Some v => Ok (v, u) | None => Panic end end
|}.
#[local] Instance fuzz_bytes_laws : UnstructuredLaws fuzz_bytes.
Proof.
  split.
  - intros lo hi [|b u] v u'; [done|]. simpl. destruct (lo <=? hi) eqn:E; [|done]. intros [= <- <-]. bool_prop.
    pose proof (Z.mod_pos_bound b (hi - lo + 1)). lia.
  - intros l [|b u] v u'; [done|]. simpl. destruct (l !! Z.to_nat b) eqn:E; [|done]. intros [= <- <-].
    by eapply list_elem_of_lookup_2.
Qed.
Definition fuzz_input : list Z := concat (repeat [0; 1; 9; 3] 401).
Definition fuzz_sequence : list Action := fst (ok_value ([], []) (arbitrary_action_sequence (U := fuzz_bytes) fuzz_input)).

Lemma random_inputs_are_valid_witness :
  head fuzz_sequence = Some (Deposit 1 9 4000000000) ∧ length fuzz_sequence = N_ACTIONS ∧
  Forall (λ a, well_formed a ∧ action_ok a) fuzz_sequence.
Proof.
  split; [by vm_compute|].
  apply (proj1 (random_inputs_are_valid (U := fuzz_bytes) fuzz_input) fuzz_sequence
           (snd (ok_value ([], []) (arbitrary_action_sequence (U := fuzz_bytes) fuzz_input)))).
  unfold fuzz_sequence. rewrite <- surjective_pairing. apply ok_value_ok. by vm_compute.
Defined.
