(* ===== verification/Profiles.v ===== *)
(** * The command line client: profiles and configuration

    [clients/rust/marginfi-cli/src/profile.rs], [config.rs] and the profile
    commands of [processor/mod.rs] and [entrypoint.rs].  The client keeps its
    profiles as files, one per profile, in a directory of its own, and the name
    of the current one in [config.json].  [Disk] is that directory; a command
    is an [effect] on it, so a command that fails keeps the files it has
    already written.  A file holds the value that was serialized to it: the
    JSON library is taken to read back what it wrote.  A keypair is represented
    by its public key. *)
From stdpp Require Import strings sorting.
From S2P Require Import Prelude Errors Fixed Constants.

Inductive ClientError : Set :=
| BankNotInGroup | RpcError | IoError
| ProfilesNotConfigured | ProfileDoesNotExist | ProfileAlreadyExists
| NoDefaultProgram | NoDefaultLipProgram | MultisigAuthority
| GroupAlreadyExists | GroupNotSpecified | NotInGroup | NotAuthority | TransactionFailed | Aborted
| ProgramError (e : error).
Notation ClientResult := (outcome ClientError).

(** [anchor_client::Cluster]; the clusters the client has no defaults for are
    one value. *)
Inductive Cluster : Set := Localnet | Devnet | Mainnet | OtherCluster.
Inductive CommitmentLevel : Set := Processed | Confirmed | Finalized.
Record GlobalOptions := mkGlobalOptions {
  opt_dry_run : bool; skip_confirmation : bool; compute_unit_price : option Z
}.

(** ** [config.rs] *)
Module Config.
Inductive TxMode : Set := DryRun | Multisig | Normal.
Record Config := mkConfig {
  cluster : Cluster; fee_payer : Pubkey; multisig : option Pubkey; program_id : Pubkey;
  commitment : CommitmentLevel; dry_run : bool; lip_program : Pubkey
}.

Definition explicit_fee_payer (c : Config) : Pubkey := fee_payer c.
Definition authority (c : Config) : Pubkey :=
  match multisig c with Some multisig => multisig | None => fee_payer c end.
Definition get_tx_mode (c : Config) : TxMode :=
  if dry_run c then DryRun else if bool_decide (is_Some (multisig c)) then Multisig else Normal.
Definition get_signers (c : Config) (explicit_fee_payer : bool) : list Pubkey :=
  if explicit_fee_payer || bool_decide (multisig c = None) then [fee_payer c] else [].
Definition get_non_ms_authority_keypair (c : Config) : ClientResult Pubkey :=
  if bool_decide (multisig c = None) then Ok (fee_payer c) else Err MultisigAuthority.

(** Without a multisig the fee payer is the authority and signs. *)
Lemma own_authority c k : get_non_ms_authority_keypair c = Ok k →
  multisig c = None ∧ k = fee_payer c ∧ authority c = k ∧ get_signers c false = [k].
Proof.
  unfold get_non_ms_authority_keypair, authority, get_signers. case_bool_decide as E; [|done].
  intros [= <-]. by rewrite E.
Qed.
(** Transactions are sent only when the authority's keypair is at hand. *)
Lemma normal_mode c : get_tx_mode c = Normal → dry_run c = false ∧ multisig c = None.
Proof.
  unfold get_tx_mode. destruct (dry_run c); [done|]. case_bool_decide as E; [done|]. split; [done|].
  destruct (multisig c); [|done]. by destruct E.
Qed.
End Config.

(** ** [profile.rs] *)
Module Profile.
Record Profile := mkProfile {
  name : string; cluster : Cluster; keypair_path : string; multisig : option Pubkey; rpc_url : string;
  program_id : option Pubkey; commitment : option CommitmentLevel;
  marginfi_group : option Pubkey; marginfi_account : option Pubkey
}.

(** The arguments of [Profile::config]. *)
Record Update := mkUpdate {
  u_new_name : option string; u_cluster : option Cluster; u_keypair_path : option string;
  u_multisig : option Pubkey; u_rpc_url : option string; u_program_id : option Pubkey;
  u_commitment : option CommitmentLevel; u_group : option Pubkey; u_account : option Pubkey
}.
Definition updated (p : Profile) (u : Update) : Profile :=
  let set {A} (x : option A) (old : option A) := match x with Some _ => x | None => old end in
  mkProfile (default (name p) (u_new_name u)) (default (cluster p) (u_cluster u))
    (default (keypair_path p) (u_keypair_path u)) (set (u_multisig u) (multisig p))
    (default (rpc_url p) (u_rpc_url u)) (set (u_program_id u) (program_id p))
    (set (u_commitment u) (commitment p)) (set (u_group u) (marginfi_group p))
    (set (u_account u) (marginfi_account p)).
Definition set_account (account : Pubkey) : Update :=
  mkUpdate None None None None None None None None (Some account).

Definition get_marginfi_account (p : Profile) : ClientResult Pubkey := unwrap (marginfi_account p).

(** The default program ids: [Fg6P..], [mf2i..], [MFv2..], and [Lips..],
    [sexy..] of the incentive program. *)
Definition default_program_id (c : Cluster) : ClientResult Pubkey :=
  match c with
  | Localnet => Ok 0xda075cb2ff5ec6817613de530b692a8735477769da47430cbd8154335c4a8327
  | Devnet => Ok 0x0b708e414d832637671e83b26a10e2557a37ae878c68ef99191b5742f483057b
  | Mainnet => Ok 0x05307ad6454bbc5e1e4e92059253a18bb8c8868c58a6312ec86a39e6224e373b
  | OtherCluster => Err NoDefaultProgram
  end.
Definition default_lip_program_id (c : Cluster) : ClientResult Pubkey :=
  match c with
  | Mainnet => Ok 0x050d53de3e7151d25395b3490e5895a30a6a26b5ab9de735f9d058b335e18b63
  | Devnet => Ok 0x0cf9f7b4a476cc4f2696b526db2f4f0cf1a5b4c63ac513de1c7b67484d951acd
  | _ => Err NoDefaultLipProgram
  end.

Section GetConfig.
(** [read_keypair_file]: the key stored in a file. *)
Context (read_keypair_file : string → option Pubkey).

Definition get_config (p : Profile) (global_options : option GlobalOptions) : ClientResult Config.Config :=
  let? fee_payer := unwrap (read_keypair_file (keypair_path p)) in
  let dry_run := match global_options with Some o => opt_dry_run o | None => false end in
  let? program_id := match program_id p with
                     | Some pid => Ok pid
                     | None => default_program_id (cluster p)
                     end in
  let? lip_program := default_lip_program_id (cluster p) in
  Ok (Config.mkConfig (cluster p) fee_payer (multisig p) program_id
        (default Processed (commitment p)) dry_run lip_program).

(** [impl Debug]: printing a profile whose configuration cannot be built is a
    formatting error, which makes [println!] panic. *)
Definition fmt (p : Profile) : ClientResult unit :=
  match get_config p None with Ok _ => Ok tt | _ => Panic end.
End GetConfig.
End Profile.
Notation Profile := Profile.Profile.

(** ** The files *)
Module Disk.
Record Disk := mkDisk {
  home_config : bool;               (* ~/.config exists *)
  cli_config_dir : bool;            (* ~/.config/mfi-cli *)
  cli_config_file : option string;  (* mfi-cli/config.json: CliConfig.profile_name *)
  cli_profiles_dir : bool;          (* mfi-cli/profiles *)
  profile_files : gmap string Profile  (* profiles/<name>.json *)
}.
Notation cmd := (effect Disk ClientError).

Definition with_profiles (m : gmap string Profile) (d : Disk) : Disk :=
  mkDisk (home_config d) (cli_config_dir d) (cli_config_file d) (cli_profiles_dir d) m.
Definition with_config_file (n : string) (d : Disk) : Disk :=
  mkDisk (home_config d) (cli_config_dir d) (Some n) (cli_profiles_dir d) (profile_files d).

(** [fs::write] to a file of a directory: fails when there is none. *)
Definition write_profile (n : string) (p : Profile) : cmd unit := λ d,
  if cli_profiles_dir d then (Ok tt, with_profiles (<[n := p]> (profile_files d)) d) else (Err IoError, d).
Definition write_config (n : string) : cmd unit := λ d,
  if cli_config_dir d then (Ok tt, with_config_file n d) else (Err IoError, d).
(** [fs::create_dir]: fails when the parent does not exist. *)
Definition create_config_dir : cmd unit := λ d,
  if home_config d
  then (Ok tt, mkDisk true true (cli_config_file d) (cli_profiles_dir d) (profile_files d))
  else (Err IoError, d).
Definition create_profiles_dir : cmd unit := λ d,
  if cli_config_dir d
  then (Ok tt, mkDisk (home_config d) true (cli_config_file d) true (profile_files d))
  else (Err IoError, d).

Definition write_to_file (p : Profile) : cmd unit := write_profile (Profile.name p) p.
Definition config (p : Profile) (u : Profile.Update) : cmd Profile :=
  let p := Profile.updated p u in
  do! _ := write_to_file p in effect_ret p.
Definition set_marginfi_group (p : Profile) (address : Pubkey) : cmd unit :=
  write_to_file (Profile.updated p (Profile.mkUpdate None None None None None None None (Some address) None)).

Definition load_profile_by_name (n : string) : cmd Profile :=
  effect_reads (λ d, ok_or (profile_files d !! n) ProfileDoesNotExist).
Definition load_profile : cmd Profile :=
  effect_reads (λ d,
    let? profile_name := ok_or (cli_config_file d) ProfilesNotConfigured in
    ok_or (profile_files d !! profile_name) ProfileDoesNotExist).
Definition delete_profile_by_name (n : string) : cmd unit := λ d,
  match profile_files d !! n with
  | None => (Err ProfileDoesNotExist, d)
  | Some _ => (Ok tt, with_profiles (delete n (profile_files d)) d)
  end.

(** ** The commands *)
Section Commands.
Context (read_keypair_file : string → option Pubkey).

Definition create_profile (profile : Profile) : cmd unit :=
  do! d := effect_reads Ok in
  do! _ := if cli_config_dir d then effect_ret tt
           else do! _ := create_config_dir in write_config (Profile.name profile) in
  do! _ := if cli_profiles_dir d then effect_ret tt else create_profiles_dir in
  do! _ := effect_reads (λ d, if bool_decide (is_Some (profile_files d !! Profile.name profile))
                              then Err ProfileAlreadyExists else Ok tt) in
  do! _ := effect_lift (Profile.fmt read_keypair_file profile) in
  write_profile (Profile.name profile) profile.

Definition show_profile : cmd unit :=
  do! p := load_profile in effect_lift (Profile.fmt read_keypair_file p).

Definition set_profile (n : string) : cmd unit :=
  do! _ := effect_reads (λ d, ok_or (cli_config_file d) ProfilesNotConfigured) in
  do! _ := load_profile_by_name n in
  write_config n.

(** The names of the files, in the order of [profiles.sort()]. *)
Definition file_le (a b : string) : Prop := String.leb a b = true.
#[export] Instance file_le_dec : RelDecision file_le.
Proof. unfold file_le. solve_decision. Defined.
Definition list_profiles : cmd (string * list string) :=
  effect_reads (λ d,
    let? _ := if cli_profiles_dir d then Ok tt else Err ProfilesNotConfigured in
    let? profile_name := ok_or (cli_config_file d) IoError in
    Ok (profile_name, merge_sort file_le ((λ x, x.1 +:+ ".json") <$> map_to_list (profile_files d)))).

Definition configure_profile (n : string) (u : Profile.Update) : cmd unit :=
  do! p := load_profile_by_name n in
  do! _ := config p u in
  if bool_decide (is_Some (Profile.u_new_name u)) then delete_profile_by_name n else effect_ret tt.

Definition delete_profile (n : string) : cmd unit := delete_profile_by_name n.

(** [entrypoint.rs], [profile] *)
Inductive ProfileCommand : Type :=
| PCreate (p : Profile) | PShow | PList | PSet (n : string) | PUpdate (n : string) (u : Profile.Update)
| PDelete (n : string).
Definition profile (subcmd : ProfileCommand) : cmd unit :=
  match subcmd with
  | PCreate p => create_profile p
  | PShow => show_profile
  | PList => do! _ := list_profiles in effect_ret tt
  | PSet n => set_profile n
  | PUpdate n u => configure_profile n u
  | PDelete n => delete_profile n
  end.
End Commands.
End Disk.
Notation Disk := Disk.Disk.

(** ** What the commands keep *)
Module Import DiskFacts.
Import Disk.

(** Every file is named after the profile in it, and files are in existing
    directories. *)
Record wf (d : Disk) : Prop := {
  wf_named n p : profile_files d !! n = Some p → Profile.name p = n;
  wf_profiles : cli_profiles_dir d = false → profile_files d = ∅;
  wf_config : cli_config_dir d = false → cli_config_file d = None
}.
Definition keeps (d d' : Disk) : Prop := wf d → wf d'.
#[export] Instance keeps_reflexive : Reflexive keeps.
Proof. intros d H. exact H. Qed.
#[export] Instance keeps_transitive : Transitive keeps.
Proof. intros a b c. unfold keeps. auto. Qed.

Lemma write_to_file_keeps p : effect_within keeps (write_to_file p).
Proof.
  intros d Hd. unfold write_to_file, write_profile. destruct (cli_profiles_dir d) eqn:E; [|done].
  destruct Hd as [Hn Hp Hc]. split; simpl; [|congruence|done].
  intros n q [[<- <-]|[_ H]]%lookup_insert_Some; eauto.
Qed.
Lemma write_config_keeps n : effect_within keeps (write_config n).
Proof.
  intros d Hd. unfold write_config. destruct (cli_config_dir d) eqn:E; [|done].
  destruct Hd as [Hn Hp Hc]. split; simpl; [done|done|congruence].
Qed.
Lemma create_config_dir_keeps : effect_within keeps create_config_dir.
Proof. intros d [Hn Hp Hc]. unfold create_config_dir. by destruct (home_config d); split. Qed.
Lemma create_profiles_dir_keeps : effect_within keeps create_profiles_dir.
Proof.
  intros d Hd. unfold create_profiles_dir. destruct (cli_config_dir d) eqn:E; [|done].
  destruct Hd as [Hn Hp Hc]. by split.
Qed.
Lemma delete_profile_keeps n : effect_within keeps (delete_profile_by_name n).
Proof.
  intros d Hd. unfold delete_profile_by_name. destruct (profile_files d !! n) eqn:E; [|done].
  destruct Hd as [Hn Hp Hc]. split; simpl; [|intros H|done].
  - intros m q [_ H]%lookup_delete_Some. eauto.
  - rewrite (Hp H). apply delete_empty.
Qed.
#[local] Hint Resolve write_to_file_keeps write_config_keeps create_config_dir_keeps
  create_profiles_dir_keeps delete_profile_keeps : effects.
#[local] Hint Extern 1 (Reflexive keeps) => apply keeps_reflexive : effects.
#[local] Hint Extern 1 (Transitive keeps) => apply keeps_transitive : effects.
#[local] Hint Extern 2 (effect_within keeps (if ?b then _ else _)) => destruct b : effects.

Lemma config_keeps p u : effect_within keeps (config p u).
Proof. unfold config. eauto with effects. Qed.
Lemma set_marginfi_group_keeps p a : effect_within keeps (set_marginfi_group p a).
Proof. apply write_to_file_keeps. Qed.

Lemma profile_files_keep_names rk cmd : effect_within keeps (profile rk cmd).
Proof.
  unfold profile, create_profile, show_profile, list_profiles, set_profile, load_profile, load_profile_by_name,
    configure_profile, delete_profile.
  pose proof config_keeps.
  destruct cmd; repeat (apply effect_within_bind; [exact _| |intros ?]); eauto with effects.
  all: try (apply (write_to_file_keeps p)).
Qed.

(** A configuration can be built when the keypair is there and the cluster has
    a default program for the incentives. *)
Lemma get_config_ok rk p o c : Profile.get_config rk p o = Ok c →
  rk (Profile.keypair_path p) = Some (Config.fee_payer c) ∧ Config.multisig c = Profile.multisig p ∧
  (Profile.cluster p = Mainnet ∨ Profile.cluster p = Devnet) ∧
  Config.dry_run c = match o with Some o => opt_dry_run o | None => false end.
Proof.
  unfold Profile.get_config. intros (k & Hk & H)%bind_ok. apply unwrap_ok in Hk.
  apply bind_ok in H as (pid & _ & H). apply bind_ok in H as (lip & Hlip & H). injection H as <-.
  split_and!; [done|done| |done]. destruct (Profile.cluster p); try done; [by right|by left].
Qed.
Lemma fmt_ok rk p : Profile.fmt rk p = Ok tt ↔
  is_Some (rk (Profile.keypair_path p)) ∧ (Profile.cluster p = Mainnet ∨ Profile.cluster p = Devnet).
Proof.
  unfold Profile.fmt. split.
  - destruct (Profile.get_config rk p None) eqn:E; [|done..]. intros _.
    apply get_config_ok in E as (-> & _ & Hc & _). eauto.
  - intros [[k Hk] Hc]. unfold Profile.get_config. rewrite Hk. simpl.
    by destruct Hc as [-> | ->]; destruct (Profile.program_id p).
Qed.

(** The directory the client works in after a profile was created. *)
Definition created (d : Disk) (p : Profile) : Disk :=
  mkDisk (home_config d) true (if cli_config_dir d then cli_config_file d else Some (Profile.name p)) true
    (<[Profile.name p := p]> (profile_files d)).
Lemma create_profile_ok rk p d : wf d → home_config d = true →
  profile_files d !! Profile.name p = None → Profile.fmt rk p = Ok tt →
  create_profile rk p d = (Ok tt, created d p).
Proof.
  intros [_ Hp _] Hh Hn Hf. unfold create_profile, created, effect_bind, effect_lift, effect_reads, effect_ret.
  destruct (cli_config_dir d) eqn:Ec; simpl.
  - destruct (cli_profiles_dir d) eqn:Ep; unfold create_profiles_dir; rewrite ?Ec; simpl;
      rewrite bool_decide_eq_false_2, Hf by (rewrite Hn; by intros [? ?]);
      unfold write_profile; simpl; rewrite ?Ep; [destruct d; simpl in *; by subst|done].
  - unfold create_config_dir, write_config. rewrite Hh. simpl.
    destruct (cli_profiles_dir d) eqn:Ep; unfold create_profiles_dir; simpl;
      rewrite bool_decide_eq_false_2, Hf by (rewrite Hn; by intros [? ?]);
      unfold write_profile; simpl; by rewrite ?Ep.
Qed.

(** Creating a profile with a new name, a keypair
    that can be read and one of the two supported clusters succeeds; loading it
    by its name gives back what was created, as does loading the current
    profile after it was selected; the files of the other profiles are as they
    were. *)
Theorem created_profile_is_loaded rk p d : wf d → home_config d = true →
  is_Some (rk (Profile.keypair_path p)) → Profile.cluster p = Mainnet ∨ Profile.cluster p = Devnet →
  profile_files d !! Profile.name p = None →
  ∃ d', create_profile rk p d = (Ok tt, d') ∧ wf d' ∧
    load_profile_by_name (Profile.name p) d' = (Ok p, d') ∧
    (∀ n, n ≠ Profile.name p → profile_files d' !! n = profile_files d !! n) ∧
    (cli_config_dir d = false → load_profile d' = (Ok p, d')) ∧
    (is_Some (cli_config_file d') →
     ∃ d'', set_profile (Profile.name p) d' = (Ok tt, d'') ∧ load_profile d'' = (Ok p, d'')).
Proof.
  intros Hd Hh Hk Hc Hn. exists (created d p).
  assert (create_profile rk p d = (Ok tt, created d p)) as E by (apply create_profile_ok; [done..|by apply fmt_ok]).
  split_and!; [done| | | | |].
  - pose proof (profile_files_keep_names rk (PCreate p) d Hd) as H. simpl in H. by rewrite E in H.
  - unfold load_profile_by_name, effect_reads. simpl. by rewrite lookup_insert_eq.
  - intros n Hne. simpl. by rewrite lookup_insert_ne.
  - intros Hdir. unfold load_profile, effect_reads. simpl. rewrite Hdir. simpl. by rewrite lookup_insert_eq.
  - intros [n0 Hn0]. unfold set_profile, load_profile_by_name, effect_bind, effect_reads. simpl in *.
    rewrite Hn0. simpl. rewrite lookup_insert_eq. simpl. eexists. split; [done|].
    unfold load_profile, effect_reads. simpl. by rewrite lookup_insert_eq.
Qed.

(** What an update of the profile [n] leaves in the files. *)
Definition files_after (n : string) (p : Profile) (u : Profile.Update) (files : gmap string Profile)
    : gmap string Profile :=
  match Profile.u_new_name u with
  | None => <[n := Profile.updated p u]> files
  | Some m => if bool_decide (m = n) then delete n files else <[m := Profile.updated p u]> (delete n files)
  end.

Lemma configure_profile_ok n u p d : wf d → profile_files d !! n = Some p →
  configure_profile n u d = (Ok tt, with_profiles (files_after n p u (profile_files d)) d).
Proof.
  intros [Hn Hp _] Hl. unfold configure_profile, load_profile_by_name, config, write_to_file, write_profile,
    effect_bind, effect_reads, effect_ret. rewrite Hl. simpl.
  destruct (cli_profiles_dir d) eqn:Ed; [|by rewrite (Hp eq_refl) in Hl].
  unfold files_after, Profile.updated. destruct (Profile.u_new_name u) as [m|] eqn:Eu; simpl.
  - unfold delete_profile_by_name. simpl. case_bool_decide as Em.
    + subst m. rewrite lookup_insert_eq. unfold with_profiles. simpl.
      by rewrite delete_insert_eq.
    + rewrite lookup_insert_ne, Hl by done. unfold with_profiles. simpl.
      by rewrite delete_insert_ne.
  - by rewrite (Hn _ _ Hl).
Qed.

(** An update succeeds on every profile there is: the
    profile is then read back with the changes, under its new name if it was
    given one, the other files are as they were except the one of the new name,
    and no profile has the old name.  Given its own name as the new one, the
    profile is lost. *)
Theorem updated_profile_is_loaded n u p d : wf d → profile_files d !! n = Some p →
  let p' := Profile.updated p u in
  ∃ d', configure_profile n u d = (Ok tt, d') ∧ wf d' ∧
    (Profile.u_new_name u ≠ Some n → load_profile_by_name (Profile.name p') d' = (Ok p', d')) ∧
    (is_Some (Profile.u_new_name u) → load_profile_by_name n d' = (Err ProfileDoesNotExist, d')) ∧
    (∀ k, k ≠ n → k ≠ Profile.name p' → profile_files d' !! k = profile_files d !! k).
Proof.
  intros Hd Hl p'. eexists. split; [by apply configure_profile_ok|]. split_and!.
  - pose proof (profile_files_keep_names (λ _, None) (PUpdate n u) d Hd) as H. simpl in H.
    by rewrite (configure_profile_ok n u p d Hd Hl) in H.
  - pose proof (wf_named _ Hd _ _ Hl) as <-. unfold load_profile_by_name, effect_reads, files_after, p', Profile.updated. simpl.
    destruct (Profile.u_new_name u) as [m|]; intros Hne; simpl; [|by rewrite lookup_insert_eq].
    rewrite bool_decide_eq_false_2 by congruence. by rewrite lookup_insert_eq.
  - intros [m Hm]. unfold load_profile_by_name, effect_reads, files_after. simpl. rewrite Hm.
    case_bool_decide as E; [by rewrite lookup_delete_eq|]. by rewrite lookup_insert_ne, lookup_delete_eq.
  - pose proof (wf_named _ Hd _ _ Hl) as <-. intros k Hk. unfold files_after, p', Profile.updated. simpl.
    destruct (Profile.u_new_name u) as [m|]; simpl; intros Hk'; [|by rewrite lookup_insert_ne].
    case_bool_decide; rewrite ?lookup_insert_ne by done; by rewrite lookup_delete_ne.
Qed.

(** After the current profile was given another name,
    there is no current profile: [config.json] still has the old name, and
    every command that loads the profile fails. *)
Theorem renaming_the_current_profile_loses_it n m u p d d' r : wf d →
  cli_config_file d = Some n → profile_files d !! n = Some p → Profile.u_new_name u = Some m →
  configure_profile n u d = (r, d') → load_profile d' = (Err ProfileDoesNotExist, d').
Proof.
  intros Hd Hc Hp Hu H. rewrite (configure_profile_ok n u p d Hd Hp) in H. injection H as <- <-.
  unfold load_profile, effect_reads, files_after. simpl. rewrite Hc, Hu. simpl. case_bool_decide as E.
  - by rewrite lookup_delete_eq.
  - by rewrite lookup_insert_ne, lookup_delete_eq.
Qed.

(** The client has a default program for a local validator, but a profile of
    that cluster has no configuration, whatever program it names, and cannot be
    created. *)
Lemma localnet_unusable rk p o d c d' : Profile.cluster p = Localnet →
  Profile.get_config rk p o ≠ Ok c ∧ create_profile rk p d ≠ (Ok tt, d').
Proof.
  intros Hp. split.
  - intros (_ & _ & [H|H] & _)%get_config_ok; congruence.
  - unfold create_profile. intros (d0 & d1 & _ & H)%effect_bind_ok. do 3 apply effect_bind_ok in H as (? & ? & _ & H).
    apply effect_bind_ok in H as (u & d2 & Hf & _). injection Hf as Hf _. destruct u.
    apply fmt_ok in Hf as [_ [Hf|Hf]]; congruence.
Qed.
End DiskFacts.

(** ** Examples *)
Section Examples.
Import Disk.
#[local] Open Scope string_scope.

Definition demo_keys (path : string) : option Pubkey := if bool_decide (path = "id.json") then Some 70 else None.
Definition demo_main : Profile :=
  Profile.mkProfile "main" Mainnet "id.json" None "https://node" None None (Some 1) (Some 800).
Definition demo_disk : Disk := mkDisk true false None false ∅.
Definition demo_disk_main : Disk := created demo_disk demo_main.
Lemma demo_disk_wf : wf demo_disk.
Proof. split; [|done..]. intros n p H. simpl in H. by rewrite lookup_empty in H. Qed.
Lemma demo_disk_main_wf : wf demo_disk_main.
Proof.
  split; [|done..]. intros n p H. simpl in H.
  apply lookup_insert_Some in H as [[<- <-]|[_ H]]; [done|]. by rewrite lookup_empty in H.
Qed.

Lemma created_profile_is_loaded_witness :
  ∃ d', create_profile demo_keys demo_main demo_disk = (Ok tt, d') ∧ load_profile d' = (Ok demo_main, d').
Proof.
  destruct (created_profile_is_loaded demo_keys demo_main demo_disk) as (d' & H & _ & _ & _ & Hl & _).
  - apply demo_disk_wf.
  - reflexivity.
  - eexists. reflexivity.
  - left. reflexivity.
  - reflexivity.
  - exists d'. split; [exact H|]. apply Hl. reflexivity.
Defined.

Definition demo_rename (m : string) : Profile.Update :=
  Profile.mkUpdate (Some m) None None None None None None None None.
Lemma updated_profile_is_loaded_witness :
  (∃ d', configure_profile "main" (demo_rename "main") demo_disk_main = (Ok tt, d') ∧
    load_profile_by_name "main" d' = (Err ProfileDoesNotExist, d')) ∧
  ∃ d', configure_profile "main" (demo_rename "spare") demo_disk_main = (Ok tt, d') ∧
    load_profile_by_name "spare" d' = (Ok (Profile.updated demo_main (demo_rename "spare")), d').
Proof.
  split.
  - destruct (updated_profile_is_loaded "main" (demo_rename "main") demo_main demo_disk_main) as (d' & H & _ & _ & Hn & _);
      [apply demo_disk_main_wf|reflexivity|]. exists d'. split; [exact H|]. apply Hn. eexists. reflexivity.
  - destruct (updated_profile_is_loaded "main" (demo_rename "spare") demo_main demo_disk_main) as (d' & H & _ & Hn & _);
      [apply demo_disk_main_wf|reflexivity|]. exists d'. split; [exact H|]. apply Hn. discriminate.
Defined.

Lemma renaming_the_current_profile_loses_it_witness :
  load_profile (snd (configure_profile "main" (demo_rename "spare") demo_disk_main)) =
  (Err ProfileDoesNotExist, snd (configure_profile "main" (demo_rename "spare") demo_disk_main)).
Proof.
  apply (renaming_the_current_profile_loses_it "main" "spare" (demo_rename "spare") demo_main demo_disk_main _ (Ok tt));
    [apply demo_disk_main_wf|reflexivity..].
Defined.
End Examples.
