(* ===== verification/Client.v ===== *)
(** * The accounts the command line client passes

    [clients/rust/marginfi-cli/src/utils.rs] and the account commands of
    [processor/mod.rs]: which accounts the client passes to the instructions
    that read prices, built from the accounts it fetched.  The program reads
    them by position (Risk.v), so the client has to foresee the positions the
    account will have when its health is checked.

    The amounts are taken in native units.  Addresses derived from a feed id,
    the node the client asks, and the account the runtime loads for an address
    are parameters. *)
From S2P Require Import Prelude Errors Fixed Constants Utils GroupState InterestRate BankState Price Account BankAccount Risk World UserIx LiquidateIx BankruptcyIx Profiles.

Record AccountMeta := mkMeta { pubkey : Pubkey; is_signer : bool; is_writable : bool }.
(** [AccountMeta::new_readonly(key, false)] *)
Definition new_readonly (key : Pubkey) : AccountMeta := mkMeta key false false.

Class ClientSdk := {
  client_push_oracles :: PushOracles;
  (* rpc_client.get_account(key)?.owner *)
  account_owner : Pubkey → option Pubkey;
  (* the account the runtime passes to the program for an address *)
  account_info : Pubkey → AccountInfo;
  account_info_key k : ai_key (account_info k) = k
}.

(** [if !cond { bail!(..) }] *)
Definition check_with {E} (b : bool) (e : E) : outcome E unit := if b then Ok tt else Err e.

Section Ops.
Context {R : Runtime} {C : ClientSdk}.

Definition bank_to_oracle_key (c : BankConfig) (shard_id : Z) : ClientResult Pubkey :=
  let? oracle_key_or_price_feed_id := unwrap (head (BankConfig.oracle_keys c)) in
  match BankConfig.oracle_setup c with
  | PythPushOracle =>
      match BankConfig.get_pyth_push_oracle_feed_id c with
      | Ok (Some feed_id) => Ok (find_oracle_address shard_id feed_id)
      | _ => Panic
      end
  | _ => Ok oracle_key_or_price_feed_id
  end.

(** The banks of the active positions, the included ones, less the excluded. *)
Definition position_banks (l : LendingAccount) : list Pubkey :=
  map Balance.bank_pk (LendingAccount.active_balances l).
Definition include_bank (bank_pks : list Pubkey) (bank_pk : Pubkey) : list Pubkey :=
  if bool_decide (bank_pk ∈ bank_pks) then bank_pks else bank_pks ++ [bank_pk].
Definition observed_banks (l : LendingAccount) (include_banks exclude_banks : list Pubkey) : list Pubkey :=
  filter (λ k, k ∉ exclude_banks) (foldl include_bank (position_banks l) include_banks).

Fixpoint bank_metas (banks_map : gmap Z Bank) (bank_pks : list Pubkey) : ClientResult (list AccountMeta) :=
  match bank_pks with
  | [] => Ok []
  | bank_pk :: bank_pks =>
      let? k := unwrap (banks_map !! bank_pk) in
      let? oracle_key := bank_to_oracle_key (Bank.config k) PYTH_PUSH_PYTH_SPONSORED_SHARD_ID in
      let? metas := bank_metas banks_map bank_pks in
      Ok (new_readonly bank_pk :: new_readonly oracle_key :: metas)
  end.
Definition load_observation_account_metas (m : MarginfiAccount) (banks_map : gmap Z Bank)
    (include_banks exclude_banks : list Pubkey) : ClientResult (list AccountMeta) :=
  bank_metas banks_map (observed_banks (MarginfiAccount.lending_account m) include_banks exclude_banks).

(** What the program finds at the addresses of some metas. *)
Definition remaining_accounts (metas : list AccountMeta) : list AccountInfo :=
  map (λ x, account_info (pubkey x)) metas.

(** The banks of the group, as the node returns them. *)
Definition load_all_banks {T : TokenSdk} (w : World) (group : Pubkey) : gmap Z Bank :=
  filter (λ '(_, k), Bank.group k = group) (banks w).
(** The mint, passed when the token program is Token-2022. *)
Definition mint_metas {T : TokenSdk} (token_program : Pubkey) (k : Bank) : list AccountMeta :=
  if token_program =? token_2022_id then [new_readonly (Bank.mint k)] else [].
Definition liquidity_vault_authority (bank_pk : Pubkey) : Pubkey :=
  fst (find_program_address LIQUIDITY_VAULT_AUTHORITY_SEED [bank_pk]).

(** ** The commands *)
Context {T : TokenSdk}.

Definition marginfi_account_deposit (w : World) (p : Profile) (signer bank_pk : Pubkey)
    : ClientResult LendingAccountDeposit :=
  let? marginfi_account_pk := Profile.get_marginfi_account p in
  let? k := ok_or (banks w !! bank_pk) RpcError in
  let? group := unwrap (Profile.marginfi_group p) in
  let? _ := check_with (Bank.group k =? group) BankNotInGroup in
  let? token_program := ok_or (account_owner (Bank.mint k)) RpcError in
  Ok {| d_marginfi_group := group; d_marginfi_account := marginfi_account_pk; d_signer := signer;
        d_bank := bank_pk;
        d_signer_token_account := associated_token_address signer (Bank.mint k) token_program;
        d_bank_liquidity_vault := Bank.liquidity_vault k; d_token_program := token_program;
        d_remaining := remaining_accounts (mint_metas token_program k) |}.

(** The shape [marginfi_account_withdraw] and [marginfi_account_borrow] share. *)
Definition outflow_ix (w : World) (p : Profile) (signer bank_pk : Pubkey)
    (include_banks exclude_banks : list Pubkey) : ClientResult LendingAccountWithdraw :=
  let? marginfi_account_pk := Profile.get_marginfi_account p in
  let? group := unwrap (Profile.marginfi_group p) in
  let banks := load_all_banks w group in
  let? k := unwrap (banks !! bank_pk) in
  let? m := ok_or (accounts w !! marginfi_account_pk) RpcError in
  let? _ := check_with (Bank.group k =? group) BankNotInGroup in
  let? token_program := ok_or (account_owner (Bank.mint k)) RpcError in
  let? metas := load_observation_account_metas m banks include_banks exclude_banks in
  Ok {| wd_marginfi_group := group; wd_marginfi_account := marginfi_account_pk; wd_signer := signer;
        wd_bank := bank_pk;
        wd_destination_token_account := associated_token_address signer (Bank.mint k) token_program;
        wd_bank_liquidity_vault_authority := liquidity_vault_authority bank_pk;
        wd_bank_liquidity_vault := Bank.liquidity_vault k; wd_token_program := token_program;
        wd_remaining := remaining_accounts (mint_metas token_program k ++ metas) |}.
Definition marginfi_account_withdraw (w : World) (p : Profile) (signer bank_pk : Pubkey) (withdraw_all : bool)
    : ClientResult LendingAccountWithdraw :=
  outflow_ix w p signer bank_pk [] (if withdraw_all then [bank_pk] else []).
Definition marginfi_account_borrow (w : World) (p : Profile) (signer bank_pk : Pubkey)
    : ClientResult LendingAccountWithdraw :=
  outflow_ix w p signer bank_pk [bank_pk] [].

Definition marginfi_account_liquidate (w : World) (p : Profile)
    (signer liquidatee_marginfi_account_pk asset_bank_pk liability_bank_pk : Pubkey)
    : ClientResult LendingAccountLiquidate :=
  let? marginfi_account_pk := Profile.get_marginfi_account p in
  let? group := unwrap (Profile.marginfi_group p) in
  let banks := load_all_banks w group in
  let? asset_bank := unwrap (banks !! asset_bank_pk) in
  let? liability_bank := unwrap (banks !! liability_bank_pk) in
  let? m := ok_or (accounts w !! marginfi_account_pk) RpcError in
  let? liquidatee := ok_or (accounts w !! liquidatee_marginfi_account_pk) RpcError in
  let? _ := check_with (Bank.group asset_bank =? group) BankNotInGroup in
  let? _ := check_with (Bank.group liability_bank =? group) BankNotInGroup in
  let? token_program := ok_or (account_owner (Bank.mint liability_bank)) RpcError in
  let? asset_oracle := bank_to_oracle_key (Bank.config asset_bank) PYTH_PUSH_PYTH_SPONSORED_SHARD_ID in
  let? liab_oracle := bank_to_oracle_key (Bank.config liability_bank) PYTH_PUSH_PYTH_SPONSORED_SHARD_ID in
  let oracle_accounts := [new_readonly asset_oracle; new_readonly liab_oracle] in
  let? asset_key := index (BankConfig.oracle_keys (Bank.config asset_bank)) 0 in
  let? liab_key := index (BankConfig.oracle_keys (Bank.config liability_bank)) 0 in
  let? liquidator_metas :=
    load_observation_account_metas m banks [liability_bank_pk; asset_bank_pk] [] in
  let? liquidatee_metas := load_observation_account_metas liquidatee banks [] [] in
  Ok {| lq_marginfi_group := group; lq_asset_bank := asset_bank_pk; lq_liab_bank := liability_bank_pk;
        lq_liquidator_marginfi_account := marginfi_account_pk; lq_signer := signer;
        lq_liquidatee_marginfi_account := liquidatee_marginfi_account_pk;
        lq_bank_liquidity_vault_authority := liquidity_vault_authority liability_bank_pk;
        lq_bank_liquidity_vault := Bank.liquidity_vault liability_bank;
        lq_bank_insurance_vault := Bank.insurance_vault liability_bank;
        lq_token_program := token_program;
        lq_remaining := remaining_accounts
          (oracle_accounts ++ oracle_accounts ++ mint_metas token_program liability_bank ++
           [new_readonly asset_key; new_readonly liab_key] ++ liquidator_metas ++ liquidatee_metas) |}.

Definition make_bankruptcy_ix (p : Profile) (signer : Pubkey) (banks : gmap Z Bank)
    (marginfi_account_pk : Pubkey) (m : MarginfiAccount) (bank_pk : Pubkey)
    : ClientResult LendingPoolHandleBankruptcy :=
  let? k := unwrap (banks !! bank_pk) in
  let? token_program := ok_or (account_owner (Bank.mint k)) RpcError in
  let? group := unwrap (Profile.marginfi_group p) in
  let? metas := load_observation_account_metas m banks [bank_pk] [] in
  Ok {| hb_marginfi_group := group; hb_signer := signer; hb_bank := bank_pk;
        hb_marginfi_account := marginfi_account_pk;
        hb_liquidity_vault := fst (find_program_address LIQUIDITY_VAULT_SEED [bank_pk]);
        hb_insurance_vault := fst (find_program_address INSURANCE_VAULT_SEED [bank_pk]);
        hb_insurance_vault_authority := fst (find_program_address INSURANCE_VAULT_AUTHORITY_SEED [bank_pk]);
        hb_token_program := token_program;
        hb_remaining := remaining_accounts (mint_metas token_program k ++ metas) |}.
End Ops.

(** ** Lemmas on positions and their banks *)
Lemma active_split l i b :
  l !! i = Some b →
  LendingAccount.active_balances l =
  LendingAccount.active_balances (take i l) ++ (if Balance.active b then [b] else []) ++
  LendingAccount.active_balances (drop (S i) l).
Proof.
  intros Hi. unfold LendingAccount.active_balances. rewrite <- (take_drop_middle l i b Hi) at 1.
  rewrite list.filter_app, list.filter_cons. destruct (Balance.active b); by simpl.
Qed.
Lemma position_banks_split l i b :
  l !! i = Some b →
  position_banks l = position_banks (take i l) ++ (if Balance.active b then [Balance.bank_pk b] else []) ++
                     position_banks (drop (S i) l).
Proof.
  intros Hi. unfold position_banks. rewrite (active_split _ _ _ Hi), !map_app. by destruct (Balance.active b).
Qed.
Lemma position_banks_insert l i b :
  (i < length l)%nat →
  position_banks (<[i := b]> l) = position_banks (take i l) ++
    (if Balance.active b then [Balance.bank_pk b] else []) ++ position_banks (drop (S i) l).
Proof.
  intros Hi. rewrite (position_banks_split _ i b) by (by apply list_lookup_insert_eq).
  by rewrite take_insert_ge, drop_insert_lt by lia.
Qed.
Lemma position_banks_elem l k :
  k ∈ position_banks l ↔ ∃ i b, l !! i = Some b ∧ Balance.active b = true ∧ Balance.bank_pk b = k.
Proof.
  unfold position_banks, LendingAccount.active_balances. rewrite list_elem_of_fmap. split.
  - intros (b & -> & [Ha [i Hi]%list_elem_of_lookup]%list_elem_of_filter). eauto.
  - intros (i & b & Hi & Ha & <-). exists b. split; [done|]. apply list_elem_of_filter. split; [done|].
    by eapply list_elem_of_lookup_2.
Qed.
Lemma active_elem l b : b ∈ LendingAccount.active_balances l → ∃ i, l !! i = Some b ∧ Balance.active b = true.
Proof. intros [Ha [i Hi]%list_elem_of_lookup]%list_elem_of_filter. eauto. Qed.

(** ** The positions when health is checked *)
(** No empty slot comes before a position. *)
Definition no_gap (l : LendingAccount) : Prop :=
  ∀ i j b b', l !! i = Some b → l !! j = Some b' → (i < j)%nat → Balance.active b' = true → Balance.active b = true.

Lemma inactive_none l : (∀ i b, l !! i = Some b → Balance.active b = false) → position_banks l = [].
Proof.
  intros H. destruct (position_banks l) as [|k ks] eqn:E; [done|].
  assert (k ∈ position_banks l) as (i & b & Hi & Ha & _)%position_banks_elem by (rewrite E; by left).
  by rewrite (H i b Hi) in Ha.
Qed.

(** The positions of [l'] after an instruction on [l] that may open one for
    the banks [include] and close that of the banks [exclude]. *)
Inductive positions_after (l : LendingAccount) : list Pubkey → list Pubkey → LendingAccount → Prop :=
| positions_kept l' : position_banks l' = position_banks l → positions_after l [] [] l'
| position_opened k bk now i l1 ba l' :
    no_gap l → BankAccountWrapper.find_or_create k bk l now = Ok (i, l1, ba) →
    position_banks l' = position_banks l1 → positions_after l [k] [] l'
| position_closed k bk i ba :
    BankAccountWrapper.find k bk l = Ok (i, ba) →
    positions_after l [] [k] (<[i := Balance.empty_deactivated]> l).

Lemma filter_keeps {A} (P : A → Prop) `{!∀ x, Decision (P x)} (l : list A) : (∀ x, x ∈ l → P x) → filter P l = l.
Proof.
  induction l as [|x l IH]; intros Hl; [done|]. rewrite list.filter_cons_True by (apply Hl; by left).
  f_equal. apply IH. intros y Hy. apply Hl. by right.
Qed.
Lemma filter_nothing (l : list Pubkey) : filter (λ k, k ∉ []) l = l.
Proof. apply filter_keeps. intros x _. apply not_elem_of_nil. Qed.

Lemma opened_at l k bk now i l1 ba :
  LendingAccount.wf l → BankAccountWrapper.find_or_create k bk l now = Ok (i, l1, ba) → k ∉ position_banks l →
  (i < length l)%nat ∧ position_banks l = position_banks (take i l) ++ position_banks (drop (S i) l) ∧
  position_banks l1 = position_banks (take i l) ++ k :: position_banks (drop (S i) l) ∧
  (∃ b, l !! i = Some b ∧ Balance.active b = false) ∧
  (∀ j b, l !! j = Some b → (j < i)%nat → Balance.active b = true).
Proof.
  intros Hwf H Hk. assert (∀ j b, l !! j = Some b → (j < i)%nat → Balance.active b = true) as Hfirst.
  { unfold BankAccountWrapper.find_or_create in H. destruct (position (LendingAccount.is_position k) l) as [j|] eqn:E.
    - destruct Hk. apply position_Some in E as (b & Hb & Hp & _).
      apply BankAccountWrapper.is_position_true in Hp as [? ?]. apply position_banks_elem. eauto.
    - apply bind_ok in H as (j & Hj & H). injection H as <- _ _. apply ok_or_ok in Hj.
      apply position_Some in Hj as (b & Hb & _ & Hbefore). intros j' b' Hj' Hlt.
      specialize (Hbefore j' b' Hlt Hj'). by apply negb_false_iff in Hbefore. }
  pose proof (BankAccountWrapper.find_or_create_ok _ _ _ _ _ _ _ Hwf H)
    as (_ & Hi & _ & Ha & Hpk & [[-> Hl]|(_ & _ & -> & b & Hb & Hin)]).
  - destruct Hk. apply position_banks_elem. eauto.
  - pose proof (lookup_lt_Some _ _ _ Hb) as Hlt. split_and!; [done| | |by eauto|done].
    + by rewrite (position_banks_split _ _ _ Hb), Hin.
    + by rewrite position_banks_insert, Ha, Hpk by done.
Qed.
Lemma no_gap_after l i b : no_gap l → l !! i = Some b → Balance.active b = false → position_banks (drop (S i) l) = [].
Proof.
  intros Hg Hi Ha. apply inactive_none. intros j b' Hj. rewrite lookup_drop in Hj.
  destruct (Balance.active b') eqn:Ha'; [|done]. exfalso.
  rewrite (Hg i (S i + j)%nat b b' Hi Hj ltac:(lia) Ha') in Ha. done.
Qed.

(** The client foresees them. *)
Lemma observed_positions l include exclude l' :
  LendingAccount.wf l → positions_after l include exclude l' →
  observed_banks l include exclude = position_banks l'.
Proof.
  intros Hwf [l2 E|k bk now i l1 ba l2 Hg Hfc E|k bk i ba Hf]; unfold observed_banks; simpl.
  - by rewrite E, filter_nothing.
  - rewrite filter_nothing, E. unfold include_bank. case_bool_decide as Hk.
    + pose proof (BankAccountWrapper.find_or_create_ok _ _ _ _ _ _ _ Hwf Hfc)
        as (_ & _ & _ & _ & _ & [[-> _]|(Hno & _)]); [done|].
      apply position_banks_elem in Hk as (j & b & Hj & Ha & Hpk).
      specialize (Hno j b Hj). by rewrite (proj2 (BankAccountWrapper.is_position_true k b) (conj Ha Hpk)) in Hno.
    + destruct (opened_at _ _ _ _ _ _ _ Hwf Hfc Hk) as (Hlt & -> & -> & (b & Hb & Ha) & _).
      by rewrite (no_gap_after _ _ _ Hg Hb Ha), app_nil_r.
  - apply BankAccountWrapper.find_ok in Hf as (Hi & Ha & Hk & _).
    pose proof (lookup_lt_Some _ _ _ Hi) as Hlt. rewrite position_banks_insert by done. simpl.
    rewrite (position_banks_split _ _ _ Hi), Ha, Hk, !list.filter_app.
    assert (∀ (p : LendingAccount) f, (∀ j b, p !! j = Some b → l !! (f j) = Some b) → (∀ j, f j ≠ i) →
      filter (λ x, x ∉ [k]) (position_banks p) = position_banks p) as Hkeep.
    { intros p f Hp Hne. apply filter_keeps. intros x (j & b & Hj & Hab & <-)%position_banks_elem.
      rewrite list_elem_of_singleton. intros Hbk. apply (Hne j).
      eapply (LendingAccount.wf_unique _ Hwf); [by apply Hp|exact Hi|done|done|by rewrite Hbk]. }
    f_equal.
    + apply (Hkeep _ (λ j, if decide (j < i)%nat then j else S i)).
      * intros j b [Hj Hji]%lookup_take_Some. by rewrite decide_True.
      * intros j. case_decide; lia.
    + rewrite (list.filter_cons_False _ k) by set_solver.
      apply (Hkeep _ (λ j, S i + j)%nat); [intros j b; by rewrite lookup_drop|intros j; lia].
Qed.

Section Loading.
Context {F : FixedOps} {O : OracleSdk} {C : ClientSdk}.

Lemma bank_to_oracle_key_ok c shard key : bank_to_oracle_key c shard = Ok key →
  ∃ k, @index error _ (BankConfig.oracle_keys c) 0 = Ok k ∧
       key = match BankConfig.oracle_setup c with PythPushOracle => find_oracle_address shard k | _ => k end.
Proof.
  unfold bank_to_oracle_key, BankConfig.get_pyth_push_oracle_feed_id.
  destruct (BankConfig.oracle_keys c) as [|k ks]; [done|]. simpl. intros H. exists k. split; [done|].
  destruct (BankConfig.oracle_setup c); simpl in H; by injection H as <-.
Qed.

(** The bank as the client saw it, and as it is when health is checked:
    accruing interest and moving shares leave the configuration alone.  Reading
    the oracle account at the client's address may fail, but does not panic. *)
Record observed (banks_map banks : gmap Z Bank) (clock : Clock) (k : Pubkey) : Prop := {
  ob_bank b : banks_map !! k = Some b → ∃ b', banks !! k = Some b' ∧ Bank.config b' = Bank.config b;
  ob_oracle b key : banks_map !! k = Some b →
    bank_to_oracle_key (Bank.config b) PYTH_PUSH_PYTH_SPONSORED_SHARD_ID = Ok key →
    OraclePriceFeedAdapter.try_from_bank_config (Bank.config b) [account_info key] clock ≠ Panic
}.
(** The price feed is loaded from the address the client derived, which is the
    one the bank is configured with unless the feed is a push feed. *)
Definition fed (clock : Clock) (a : BankAccountWithPriceFeed.BankAccountWithPriceFeed) : Prop :=
  let c := Bank.config (BankAccountWithPriceFeed.bank a) in
  ∃ key, bank_to_oracle_key c PYTH_PUSH_PYTH_SPONSORED_SHARD_ID = Ok key ∧
    BankAccountWithPriceFeed.price_feed a =
      OraclePriceFeedAdapter.try_from_bank_config c [account_info key] clock ∧
    (BankConfig.oracle_setup c ≠ PythPushOracle → OraclePriceFeedAdapter.check_key (account_info key) c = Ok tt).

Lemma oracle_key_accepted c shard key :
  bank_to_oracle_key c shard = Ok key → BankConfig.oracle_setup c ≠ PythPushOracle →
  OraclePriceFeedAdapter.check_key (account_info key) c = Ok tt.
Proof.
  intros (k & Hk & ->)%bank_to_oracle_key_ok Hs. unfold OraclePriceFeedAdapter.check_key. rewrite Hk. simpl.
  rewrite account_info_key. destruct (BankConfig.oracle_setup c); [..|done|]; by rewrite ?Z.eqb_refl.
Qed.

Lemma remaining_length metas : length (remaining_accounts metas) = length metas.
Proof. apply length_map. Qed.
Lemma bank_metas_load banks_map banks clock bs : ∀ metas,
  bank_metas banks_map (map Balance.bank_pk bs) = Ok metas →
  (∀ b, b ∈ bs → observed banks_map banks clock (Balance.bank_pk b)) →
  length metas = (2 * length bs)%nat ∧
  ∃ es, BankAccountWithPriceFeed.load_all banks clock bs (remaining_accounts metas) = Ok es ∧
    map BankAccountWithPriceFeed.balance es = bs ∧ Forall (fed clock) es.
Proof.
  induction bs as [|b bs IH]; intros metas H Hob; simpl in H.
  { injection H as <-. split; [done|]. exists []. split_and!; [done|done|constructor]. }
  apply bind_ok in H as (k & Hk & H). apply unwrap_ok in Hk. apply bind_ok in H as (key & Hkey & H).
  apply bind_ok in H as (rest & Hrest & H). injection H as <-.
  destruct (IH _ Hrest) as (Hlen & es & Hes & Hmap & Hfed); [intros; apply Hob; by right|].
  destruct (Hob b) as [Hbank Horacle]; [by left|]. destruct (Hbank _ Hk) as (k' & Hk' & Hc).
  specialize (Horacle _ _ Hk Hkey). split; [simpl; lia|].
  exists (BankAccountWithPriceFeed.mkBA k'
    (OraclePriceFeedAdapter.try_from_bank_config (Bank.config k') [account_info key] clock) b :: es).
  split_and!; [|simpl; by rewrite Hmap|constructor; [|done]].
  - simpl. unfold BankAccountWithPriceFeed.load_one. rewrite account_info_key, Z.eqb_refl. simpl.
    rewrite Hk'. simpl. rewrite Hc, Hes. by destruct (OraclePriceFeedAdapter.try_from_bank_config _ _ _).
  - exists key. simpl. rewrite Hc. split_and!; [done|done|by eapply oracle_key_accepted].
Qed.

(** C30: The accounts the client passes are the ones the
    risk engine asks for.  When no empty slot comes before a position, the
    accounts built for the positions of an account, with the bank a new
    position may be opened for, or without the one whose position is closed,
    load as they are: every position the account then has, in order, with its
    bank and the feed of the bank's own oracle. *)
Theorem client_accounts_load m banks_map banks clock include exclude metas l' :
  LendingAccount.wf (MarginfiAccount.lending_account m) →
  positions_after (MarginfiAccount.lending_account m) include exclude l' →
  load_observation_account_metas m banks_map include exclude = Ok metas →
  (∀ k, k ∈ position_banks l' → observed banks_map banks clock k) →
  ∃ es, BankAccountWithPriceFeed.load banks clock l' (remaining_accounts metas) = Ok es ∧
    map BankAccountWithPriceFeed.balance es = LendingAccount.active_balances l' ∧
    Forall (fed clock) es.
Proof.
  intros Hwf Hpos H Hob. unfold load_observation_account_metas in H.
  rewrite (observed_positions _ _ _ _ Hwf Hpos) in H.
  apply (bank_metas_load _ banks clock) in H as (Hlen & es & Hes & Hmap & Hfed);
    [|intros b Hb; apply Hob; by apply list_elem_of_fmap_2].
  exists es. split_and!; [|done|done]. unfold BankAccountWithPriceFeed.load.
  rewrite (proj2 (Z.leb_le _ _)); [done|]. rewrite remaining_length, Hlen. lia.
Qed.
End Loading.

(** ** Instructions the program rejects *)
Section Rejected.
Context {F : FixedOps} {L : FixedLaws F} {T : TokenSdk} {TL : TokenLaws T} {O : OracleSdk} {R : Runtime} {C : ClientSdk}.

(** The bank addresses among some remaining accounts. *)
Fixpoint bank_keys (ais : list AccountInfo) : list Pubkey :=
  match ais with
  | bank_ai :: _ :: ais => ai_key bank_ai :: bank_keys ais
  | _ => []
  end.
Lemma load_all_keys banks clock bs : ∀ ais es,
  BankAccountWithPriceFeed.load_all banks clock bs ais = Ok es →
  map Balance.bank_pk bs = take (length bs) (bank_keys ais).
Proof.
  induction bs as [|b bs IH]; intros ais es H; [done|]. simpl in H.
  destruct ais as [|x [|y ais]]; [done..|]. apply bind_ok in H as (a & Ha & H).
  apply bind_ok in H as (l & Hl & _). unfold BankAccountWithPriceFeed.load_one in Ha.
  apply bind_ok in Ha as (u & Hu & _). apply check_ok, Z.eqb_eq in Hu. simpl. rewrite Hu. f_equal. by eapply IH.
Qed.
Lemma bank_metas_keys banks_map pks : ∀ metas,
  bank_metas banks_map pks = Ok metas → bank_keys (remaining_accounts metas) = pks.
Proof.
  induction pks as [|k pks IH]; intros metas H; simpl in H; [by injection H as <-|].
  apply bind_ok in H as (b & _ & H). apply bind_ok in H as (o & _ & H). apply bind_ok in H as (l & Hl & H).
  injection H as <-. simpl. rewrite account_info_key. f_equal. by apply IH.
Qed.

(** The mint the client passes is taken by the program. *)
Lemma mint_taken ms k tp metas mint rest :
  maybe_take_bank_mint ms (remaining_accounts (mint_metas tp k ++ metas)) (Bank.mint k) tp = Ok (mint, rest) →
  rest = remaining_accounts metas.
Proof.
  unfold maybe_take_bank_mint, mint_metas. pose proof token_ids_differ as Hne. intros H. destruct (Z.eqb_spec tp token_id) as [->|].
  - rewrite (proj2 (Z.eqb_neq _ _) Hne) in H. by injection H as _ <-.
  - destruct (Z.eqb_spec tp token_2022_id); [|done]. simpl in H.
    apply bind_ok in H as (u & _ & H). apply bind_ok in H as (x & _ & H). by injection H as _ <-.
Qed.

(** A borrowing keeps the slot of its position. *)
Lemma borrow_step_slot mint amount clock ba x ba' :
  borrow_step mint amount clock ba = Ok (x, ba') →
  Balance.active (BankAccountWrapper.balance ba') = Balance.active (BankAccountWrapper.balance ba) ∧
  Balance.bank_pk (BankAccountWrapper.balance ba') = Balance.bank_pk (BankAccountWrapper.balance ba).
Proof.
  unfold borrow_step. intros (p & _ & H)%bind_ok. apply bind_ok in H as ([fee n] & _ & H).
  apply bind_ok in H as (b & _ & H). apply bind_ok in H as (w1 & H & Hr). injection Hr as _ <-.
  unfold BankAccountWrapper.borrow, BankAccountWrapper.decrease_balance_internal in H.
  apply bind_ok in H as (w2 & Hc & H).
  assert (Balance.active (BankAccountWrapper.balance w2) = Balance.active (BankAccountWrapper.balance ba) ∧
          Balance.bank_pk (BankAccountWrapper.balance w2) = Balance.bank_pk (BankAccountWrapper.balance ba))
    as [<- <-].
  { unfold BankAccountWrapper.claim_emissions in Hc. apply bind_ok in Hc as ([v|] & _ & Hc); by inv_res. }
  unfold Balance.change_asset_shares, Balance.change_liability_shares in H. by inv_res.
Qed.

Lemma borrow_read w clock c amount w' :
  lending_account_borrow w clock c amount = Ok w' →
  ∃ k mint rest w1 x w2 m',
    banks w !! wd_bank c = Some k ∧
    maybe_take_bank_mint (mints w) (wd_remaining c) (Bank.mint k) (wd_token_program c) = Ok (mint, rest) ∧
    accrue w (wd_bank c) (wd_marginfi_group c) (unix_timestamp clock) = Ok w1 ∧
    with_position true w1 (wd_marginfi_account c) (wd_bank c) (unix_timestamp clock)
      (borrow_step mint amount clock) = Ok (x, w2) ∧
    accounts w2 !! wd_marginfi_account c = Some m' ∧
    RiskEngine.check_account_init_health (banks w') clock m' rest = Ok tt.
Proof.
  unfold lending_account_borrow, borrow_handler, withdraw_constraints. intros H. inv_res. constraints.
  match goal with H : transfer_out _ _ _ _ _ _ _ _ = Ok _ |- _ => apply transfer_out_ok in H as (ts & _ & ->) end.
  do 7 eexists. split_and!; done.
Qed.

(** What health is checked of: the account with the positions [find_or_create]
    left it. *)
Lemma borrow_positions w a k now mint amount clock x w2 m m' :
  LendingAccount.wf (MarginfiAccount.lending_account m) →
  with_position true w a k now (borrow_step mint amount clock) = Ok (x, w2) →
  accounts w !! a = Some m → accounts w2 !! a = Some m' →
  MarginfiAccount.get_flag m' IN_FLASHLOAN_FLAG = MarginfiAccount.get_flag m IN_FLASHLOAN_FLAG ∧
  ∃ bk i l1 ba, BankAccountWrapper.find_or_create k bk (MarginfiAccount.lending_account m) now = Ok (i, l1, ba) ∧
    position_banks (MarginfiAccount.lending_account m') = position_banks l1.
Proof.
  intros Hl H Hm Hm'. unfold with_position in H. apply bind_ok in H as (m0 & Hm0 & H).
  apply load_account_ok in Hm0. det_ok.
  apply bind_ok in H as (bk & Hk & H). apply bind_ok in H as ([[i l1] ba] & Hfc & H).
  apply bind_ok in H as ([y ba'] & Hstep & H). injection H as <- <-. simpl in Hm'.
  rewrite lookup_insert_eq in Hm'. injection Hm' as <-. split; [done|]. exists bk, i, l1, ba. split; [done|].
  pose proof (BankAccountWrapper.find_or_create_ok _ _ _ _ _ _ _ Hl Hfc) as (_ & Hi & _ & Ha & _).
  apply borrow_step_slot in Hstep as [Ha' Hpk]. simpl. unfold BankAccountWrapper.write_back.
  rewrite position_banks_insert by (by eapply lookup_lt_Some).
  by rewrite (position_banks_split _ _ _ Hi), Ha', Ha, Hpk.
Qed.

Lemma rotated_list (A D : list Pubkey) k : A ++ k :: D = (A ++ D) ++ [k] → D ≠ [] → k ∈ D.
Proof. rewrite <- app_assoc. intros E%app_inv_head. destruct D as [|d D]; [done|]. injection E as -> _. by left. Qed.

Lemma gap_rejected w w1 w2 a k g now mint amount clock x m m' banks_map metas banks' i j b b' :
  LendingAccount.wf (MarginfiAccount.lending_account m) → accrue w k g now = Ok w1 →
  with_position true w1 a k now (borrow_step mint amount clock) = Ok (x, w2) →
  accounts w !! a = Some m → accounts w2 !! a = Some m' →
  MarginfiAccount.get_flag m IN_FLASHLOAN_FLAG = false →
  MarginfiAccount.lending_account m !! i = Some b → Balance.active b = false →
  MarginfiAccount.lending_account m !! j = Some b' → Balance.active b' = true → (i < j)%nat →
  k ∉ position_banks (MarginfiAccount.lending_account m) →
  load_observation_account_metas m banks_map [k] [] = Ok metas →
  RiskEngine.check_account_init_health banks' clock m' (remaining_accounts metas) = Ok tt → False.
Proof.
  intros Hl Hacc Hp Hm Hm' Hflag Hi Hb Hj Hb' Hij Hk Hmetas Hh.
  apply accrue_frame in Hacc as (k' & ->).
  destruct (borrow_positions _ _ _ _ _ _ _ _ _ m m' Hl Hp Hm Hm') as (Hf & bk & i0 & l1 & ba & Hfc & Hpos).
  destruct (opened_at _ _ _ _ _ _ _ Hl Hfc Hk) as (Hlt & Hold & Hnew & _ & Hfirst).
  assert (i0 ≤ i)%nat as Hle.
  { destruct (decide (i0 ≤ i)%nat) as [|Hn]; [done|]. by rewrite (Hfirst i b Hi) in Hb by lia. }
  unfold RiskEngine.check_account_init_health in Hh. rewrite Hf, Hflag in Hh.
  apply bind_ok in Hh as (e & He & _). apply bind_ok in He as (es & Hes & _).
  unfold BankAccountWithPriceFeed.load in Hes. apply bind_ok in Hes as (u & _ & Hes).
  apply load_all_keys in Hes. change (map _ _) with (position_banks (MarginfiAccount.lending_account m')) in Hes.
  unfold load_observation_account_metas in Hmetas. rewrite (bank_metas_keys _ _ _ Hmetas), Hpos in Hes.
  assert (length (LendingAccount.active_balances (MarginfiAccount.lending_account m')) = length (position_banks l1))
    as Hlen by (rewrite <- Hpos; unfold position_banks; by rewrite length_map).
  rewrite Hlen in Hes. unfold observed_banks in Hes. simpl in Hes.
  unfold include_bank in Hes. rewrite bool_decide_eq_false_2, filter_nothing in Hes by done.
  rewrite (firstn_all2 (n := length (position_banks l1))) in Hes
    by (rewrite Hnew, Hold, !length_app; simpl; rewrite ?length_app; simpl; lia).
  rewrite Hnew, Hold in Hes.
  assert (Balance.bank_pk b' ∈ position_banks (drop (Datatypes.S i0) (MarginfiAccount.lending_account m))) as Hin.
  { apply position_banks_elem. exists (j - Datatypes.S i0)%nat, b'. rewrite lookup_drop. split_and!; [|done|done].
    by replace (Datatypes.S i0 + (j - Datatypes.S i0))%nat with j by lia. }
  apply Hk. rewrite Hold, elem_of_app. right. apply (rotated_list _ _ _ Hes). intros E. by rewrite E in Hin; apply elem_of_nil in Hin.
Qed.

Lemma outflow_ix_ok w p signer bank_pk inc exc c :
  outflow_ix w p signer bank_pk inc exc = Ok c →
  ∃ m k metas, accounts w !! wd_marginfi_account c = Some m ∧ banks w !! bank_pk = Some k ∧ wd_bank c = bank_pk ∧
    load_observation_account_metas m (load_all_banks w (wd_marginfi_group c)) inc exc = Ok metas ∧
    wd_remaining c = remaining_accounts (mint_metas (wd_token_program c) k ++ metas).
Proof.
  unfold outflow_ix. intros (a & _ & H)%bind_ok. apply bind_ok in H as (g & _ & H).
  apply bind_ok in H as (k & Hk & H). apply unwrap_ok in Hk. apply bind_ok in H as (m & Hm & H). apply ok_or_ok in Hm.
  apply bind_ok in H as (u & _ & H). apply bind_ok in H as (tp & _ & H). apply bind_ok in H as (metas & Hmetas & H).
  injection H as <-. simpl. unfold load_all_banks in Hk. apply map_lookup_filter_Some in Hk as [Hk _]. eauto 10.
Qed.

(** The client's order of accounts is not always
    the program's.  When a position was closed before another one of the
    account, so that an empty slot comes before a position, and the account
    borrows from a bank it has no position with, the instruction the client
    builds is refused: the program opens the position in the empty slot, while
    the client lists its bank last. *)
Theorem borrow_after_gap_rejected w clock p signer bank_pk c m i j b b' amount w' :
  books_balance w →
  marginfi_account_borrow w p signer bank_pk = Ok c → accounts w !! wd_marginfi_account c = Some m →
  MarginfiAccount.get_flag m IN_FLASHLOAN_FLAG = false →
  MarginfiAccount.lending_account m !! i = Some b → Balance.active b = false →
  MarginfiAccount.lending_account m !! j = Some b' → Balance.active b' = true → (i < j)%nat →
  bank_pk ∉ position_banks (MarginfiAccount.lending_account m) →
  lending_account_borrow w clock c amount ≠ Ok w'.
Proof.
  intros Hb Hc Hm Hflag Hi Hib Hj Hjb Hij Hnew H.
  apply outflow_ix_ok in Hc as (m0 & k0 & metas & Hm0 & Hk0 & <- & Hmetas & Hrem). det_ok.
  apply borrow_read in H as (k & mint & rest & w1 & x & w2 & m' & Hk & Hmint & Hacc & Hp & Hm' & Hh). det_ok.
  rewrite Hrem in Hmint. apply mint_taken in Hmint as ->.
  exact (gap_rejected _ _ _ _ _ _ _ _ _ _ _ _ _ _ _ _ _ _ _ _ (books_accounts _ Hb _ _ Hm0) Hacc Hp Hm0 Hm'
           Hflag Hi Hib Hj Hjb Hij Hnew Hmetas Hh).
Qed.

(** No liquidation the client builds goes
    through when the debt is in a Token-2022 token: the program takes the first
    remaining account for the mint, where the client puts the oracle of the
    collateral. *)
Theorem token_2022_liquidation_rejected w clock p signer liquidatee asset_bank liab_bank c ka kl key amount w' :
  marginfi_account_liquidate w p signer liquidatee asset_bank liab_bank = Ok c →
  lq_token_program c = token_2022_id →
  banks w !! asset_bank = Some ka → banks w !! liab_bank = Some kl →
  bank_to_oracle_key (Bank.config ka) PYTH_PUSH_PYTH_SPONSORED_SHARD_ID = Ok key → Bank.mint kl ≠ key →
  lending_account_liquidate w clock c amount ≠ Ok w'.
Proof.
  pose proof token_ids_differ as Hne. intros Hc Htp Ha Hl Hkey Hmint H.
  assert (∃ l, lq_remaining c = account_info key :: l ∧ lq_liab_bank c = liab_bank) as (l & Hrem & Hlb).
  { unfold marginfi_account_liquidate in Hc. do 2 apply bind_ok in Hc as (? & _ & Hc).
    apply bind_ok in Hc as (ka' & Hka & Hc). apply bind_ok in Hc as (kl' & Hkl & Hc).
    apply unwrap_ok in Hka, Hkl. unfold load_all_banks in Hka, Hkl.
    apply map_lookup_filter_Some in Hka as [Hka _], Hkl as [Hkl _]. det_ok.
    do 5 apply bind_ok in Hc as (? & _ & Hc). apply bind_ok in Hc as (ko & Hko & Hc). det_ok.
    do 5 apply bind_ok in Hc as (? & _ & Hc). injection Hc as <-. by eexists. }
  unfold lending_account_liquidate in H. apply bind_ok in H as ([[m1 m2] k] & Hcons & H).
  apply liquidate_constraints_ok in Hcons as (_ & _ & Hk & _). rewrite Hlb in Hk. det_ok.
  do 3 apply bind_ok in H as (? & _ & H). apply bind_ok in H as ([mint rest] & Hm & _).
  unfold maybe_take_bank_mint in Hm. rewrite Htp, Hrem, Z.eqb_refl in Hm.
  rewrite (proj2 (Z.eqb_neq _ _)) in Hm by done. apply bind_ok in Hm as (u & Hu & _).
  apply check_ok, Z.eqb_eq in Hu. by rewrite account_info_key in Hu.
Qed.
End Rejected.

(** ** Examples *)
#[local] Existing Instance demo_token_sdk.
#[local] Existing Instance demo_oracle_sdk.
#[local] Existing Instance demo_runtime.

Definition demo_account_info (k : Pubkey) : AccountInfo :=
  if k =? 900 then demo_pyth_ai else mkAccountInfo k 1 [].
Lemma demo_account_info_key k : ai_key (demo_account_info k) = k.
Proof. unfold demo_account_info. by destruct (Z.eqb_spec k 900) as [->|]. Qed.
(** A node that holds every mint for one token program. *)
Definition demo_client_sdk (owner : Pubkey) : ClientSdk := {|
  client_push_oracles := demo_push_oracles;
  account_owner key := Some owner;
  account_info := demo_account_info;
  account_info_key := demo_account_info_key
|}.
Definition demo_profile (account : Pubkey) : Profile :=
  Profile.updated demo_main (Profile.set_account account).

(** User 85 opens a position in the first bank. *)
Definition demo_opened : nat * LendingAccount * BankAccountWrapper.BankAccountWrapper :=
  ok_value (0%nat, [], BankAccountWrapper.mkWrapper Balance.empty_deactivated Bank.demo_bank)
    (BankAccountWrapper.find_or_create 600 (demo_bank_of 600) (MarginfiAccount.lending_account demo_liquidator) 30).

Lemma demo_liquidator_wf : LendingAccount.wf (MarginfiAccount.lending_account demo_liquidator).
Proof. apply demo_account_wf. split; try (vm_compute; discriminate). by right. Qed.
Lemma demo_liquidator_no_gap : no_gap (MarginfiAccount.lending_account demo_liquidator).
Proof.
  intros i [|j] b b' Hi Hj Hij Ha; [lia|]. simpl in Hj. apply (lookup_replicate 15) in Hj as [-> _]. done.
Qed.

Lemma client_accounts_load_witness :
  let C := demo_client_sdk token_id in
  let metas := ok_value [] (load_observation_account_metas demo_liquidator (banks (demo_world 10)) [600] []) in
  ∃ es, BankAccountWithPriceFeed.load (banks (demo_world 10)) demo_clock (snd (fst demo_opened))
          (remaining_accounts metas) = Ok es ∧
    map BankAccountWithPriceFeed.balance es = LendingAccount.active_balances (snd (fst demo_opened)) ∧
    Forall (fed demo_clock) es.
Proof.
  intros C metas. apply (client_accounts_load demo_liquidator (banks (demo_world 10)) _ demo_clock [600] []).
  - apply demo_liquidator_wf.
  - apply (position_opened _ 600 (demo_bank_of 600) 30 (fst (fst demo_opened)) (snd (fst demo_opened)) (snd demo_opened));
      [apply demo_liquidator_no_gap|reflexivity|done].
  - apply ok_value_ok. vm_compute. reflexivity.
  - intros k _. split; [by eauto|].
    intros b key [[-> ->]|[-> ->]]%lookup_two [= <-]; vm_compute; discriminate.
Defined.

(** An account whose first position is closed and which has a second. *)
Definition demo_gap_account : MarginfiAccount :=
  MarginfiAccount.mkMarginfiAccount 1 70
    (<[1%nat := Balance.mkBalance true 610 (from_num 100000000) 0 0 0]> LendingAccount.zeroed) 0.
Definition demo_gap_world : World := {|
  banks := banks (demo_world 10); accounts := <[800 := demo_gap_account]> ∅; groups := groups (demo_world 10);
  fee_state := None; tokens := <[570 := mkTokenAccount 500 70 0]> (tokens (demo_world 10));
  mints := ∅; lamports := ∅ |}.
Lemma demo_gap_only a m : accounts demo_gap_world !! a = Some m → a = 800 ∧ m = demo_gap_account.
Proof.
  unfold demo_gap_world. cbn [accounts]. intros [[<- <-]|[_ H]]%lookup_insert_Some; [done|].
  by rewrite lookup_empty in H.
Qed.
Lemma demo_gap_books : books_balance demo_gap_world.
Proof.
  assert (LendingAccount.wf (MarginfiAccount.lending_account demo_gap_account)) as Hl.
  { apply (LendingAccount.wf_insert LendingAccount.zeroed 1 Balance.empty_deactivated);
      [apply LendingAccount.zeroed_wf|done|split; try (vm_compute; discriminate); by right|].
    intros _ j c [-> _]%lookup_replicate. done. }
  split.
  - intros k b [[-> ->]|[-> ->]]%lookup_two; apply demo_bank_of_wf.
  - by intros a m [-> ->]%demo_gap_only.
  - intros a m i b [-> ->]%demo_gap_only Hi Ha.
    apply list_lookup_insert_Some in Hi as [(_ & <- & _)|[_ Hi]]; [by eexists|].
    apply lookup_replicate in Hi as [-> _]. done.
  - intros side k b Hk. simpl. rewrite all_shares_insert_new by done.
    unfold all_shares, map_sum. rewrite map_fold_empty.
    apply lookup_two in Hk as [[-> ->]|[-> ->]]; destruct side; vm_compute; discriminate.
Qed.

(** The same borrowing with the accounts in the order of the positions goes
    through. *)
Definition demo_gap_borrow : LendingAccountWithdraw := {|
  wd_marginfi_group := 1; wd_marginfi_account := 800; wd_signer := 70; wd_bank := 600;
  wd_destination_token_account := 570; wd_bank_liquidity_vault_authority := 604;
  wd_bank_liquidity_vault := 601; wd_token_program := token_id;
  wd_remaining := map demo_account_info [600; 900; 610; 900] |}.
Example demo_gap_borrow_accepted :
  is_ok (lending_account_borrow demo_gap_world demo_clock demo_gap_borrow 1000000) = true.
Proof. vm_compute. reflexivity. Qed.

Lemma borrow_after_gap_rejected_witness :
  let C := demo_client_sdk token_id in
  ∃ c, marginfi_account_borrow demo_gap_world (demo_profile 800) 70 600 = Ok c ∧
    ∀ w', lending_account_borrow demo_gap_world demo_clock c 1000000 ≠ Ok w'.
Proof.
  intros C. eexists. split; [vm_compute; reflexivity|]. intros w'.
  eapply (borrow_after_gap_rejected (F := i80f48) demo_gap_world demo_clock (demo_profile 800) 70 600 _
            demo_gap_account 0 1); [apply demo_gap_books|vm_compute; reflexivity|reflexivity..|lia|].
  intros Hin. vm_compute in Hin. set_solver.
Defined.

Lemma token_2022_liquidation_rejected_witness :
  let C := demo_client_sdk token_2022_id in
  ∃ c, marginfi_account_liquidate (demo_world 95) (demo_profile 850) 85 800 600 610 = Ok c ∧
    ∀ w', lending_account_liquidate (demo_world 95) demo_clock c 1000000 ≠ Ok w'.
Proof.
  intros C. eexists. split; [vm_compute; reflexivity|]. intros w'.
  eapply (token_2022_liquidation_rejected (F := i80f48) (demo_world 95) demo_clock (demo_profile 850) 85 800 600 610);
    [vm_compute; reflexivity|reflexivity..|vm_compute; discriminate].
Defined.
