(* ===== verification/Cli.v ===== *)
(** * The command line client: transactions and commands

    [clients/rust/marginfi-cli/src/]: how a command becomes a transaction
    ([utils.rs], [process_transaction]), the commands ([processor/mod.rs],
    [processor/admin.rs], [processor/emissions.rs]) and their dispatch
    ([entrypoint.rs]).  A command is an [effect] on the profile files and on
    the chain: it reads both, builds instructions of the program, and has the
    node run them, unless it is a dry run or the authority is a multisig.

    The node, the signing of transactions and the instructions of other
    programs are parameters.  Keys a command generates are arguments, and so is
    what the user types.  The node is taken to answer the reads; commands that
    only print are left out. *)
From stdpp Require Import strings.
From S2P Require Import Prelude Floats Errors Fixed Constants Utils GroupState InterestRate BankState Price Account BankAccount Risk World UserIx LiquidateIx BankruptcyIx GroupIx Frames System Profiles Client.
#[local] Open Scope Z_scope.

(** ** Transactions *)
(** Instructions of other programs. *)
Inductive OtherIx : Type :=
| SetComputeUnitPrice (micro_lamports : Z)
| SetComputeUnitLimit (units : Z)
| CreateAssociatedTokenAccountIdempotent (funder wallet mint token_program : Pubkey).
Inductive ClientIx : Type :=
| MfiIx (program : Pubkey) (ix : MarginfiIx)
| Other (ix : OtherIx).
(** [Message::new(ixs, payer)] with the keys that signed it. *)
Record Transaction := mkTransaction {
  tx_ixs : list ClientIx; tx_payer : option Pubkey; tx_signatures : list Pubkey
}.

(** The accounts [to_account_metas] marks as signers: those of the program's
    signers and the new accounts that are not derived addresses. *)
Definition mfi_signers (ix : MarginfiIx) : list Pubkey :=
  match ix with
  | IxGroupInitialize g _ _ => [g]
  | IxAddBank c _ => [ab_bank c]
  | IxAccountInitialize _ a _ => [a]
  | _ => []
  end ++ ix_signers ix.

Class CliSdk {R : Runtime} := {
  marginfi_id : Pubkey;                            (* marginfi::id() of the linked crate *)
  (* Pubkey::find_program_address([seed, keys..], program) *)
  find_pda : Seed → list Pubkey → Pubkey → Pubkey * Z;
  find_pda_own s ks : find_pda s ks program_id = find_program_address s ks;
  (* Pubkey::find_program_address([group, mint, seed.to_le_bytes()], program) *)
  find_bank_pda : Pubkey → Pubkey → Z → Pubkey → Pubkey * Z;
  find_bank_pda_own g m s : find_bank_pda g m s program_id = find_bank_address g m s;
  (* I80F48::from_num(f64), which panics when it does not fit *)
  i80f48_from_f64 : f64 → ClientResult I80F48;
  (* spl_token::ui_amount_to_amount(ui_amount, decimals) *)
  ui_amount_to_amount : f64 → Z → Z
}.

(** The node and the signing of transactions. *)
Class Node {T : TokenSdk} := {
  other_signers : OtherIx → list Pubkey;
  (* the signers Message::new(ixs, payer) asks for *)
  message_signers : list ClientIx → option Pubkey → list Pubkey;
  (* Transaction::partial_sign(keys, blockhash) does not panic *)
  can_sign : list Pubkey → list Pubkey → bool;
  (* Transaction::new_signed_with_payer(ixs, payer, keys, blockhash) does not panic *)
  signs_all : list Pubkey → list Pubkey → bool;
  simulate_transaction : World → Transaction → ClientResult unit;
  send_and_confirm : World → Transaction → option World;
  (* get_account_with_commitment(key)?.value.is_some() *)
  account_exists : World → Pubkey → bool
}.

(** What a list of instructions does to the chain: those of the program run
    one after the other, and other programs move tokens and lamports. *)
Section Runs.
Context {F : FixedOps} {T : TokenSdk} {O : OracleSdk} {R : Runtime}.
Inductive runs : World → list ClientIx → World → Prop :=
| runs_nil w : runs w [] w
| runs_mfi w clock tx ix ixs w1 w' :
    marginfi w clock tx ix = Ok w1 → runs w1 ixs w' → runs w (MfiIx program_id ix :: ixs) w'
| runs_foreign w program ix ixs ts ms ls w' :
    program ≠ program_id →
    runs (mkWorld (banks w) (accounts w) (groups w) (fee_state w) ts ms ls) ixs w' →
    runs w (MfiIx program ix :: ixs) w'
| runs_other w o ixs ts ms ls w' :
    runs (mkWorld (banks w) (accounts w) (groups w) (fee_state w) ts ms ls) ixs w' →
    runs w (Other o :: ixs) w'.
End Runs.

Definition client_signers {T : TokenSdk} {N : Node} (i : ClientIx) : list Pubkey :=
  match i with MfiIx _ ix => mfi_signers ix | Other o => other_signers o end.

(** The documented behaviour of the node and of the SDK: [partial_sign] panics
    on a key the message does not ask for, [new_signed_with_payer] also when a
    signature is missing, and a confirmed transaction was fully signed and ran. *)
Class NodeLaws {F : FixedOps} {T : TokenSdk} {O : OracleSdk} {R : Runtime} (N : Node) : Prop := {
  message_signers_spec ixs payer k :
    k ∈ message_signers ixs payer ↔ payer = Some k ∨ ∃ i, i ∈ ixs ∧ k ∈ client_signers i;
  can_sign_spec required keys : can_sign required keys = true ↔ (∀ k, k ∈ keys → k ∈ required);
  signs_all_spec required keys : signs_all required keys = true ↔ (∀ k, k ∈ keys ↔ k ∈ required);
  send_runs w tx w' : send_and_confirm w tx = Some w' →
    (∀ k, k ∈ message_signers (tx_ixs tx) (tx_payer tx) → k ∈ tx_signatures tx) ∧ runs w (tx_ixs tx) w'
}.

(** ** Numbers *)
(** [10u64.pow(decimals as u32)], with overflow checks. *)
Definition u64_pow10 (decimals : Z) : ClientResult Z :=
  unwrap (u64_checked (10 ^ decimals)).
Definition ui_to_native (ui_amount : f64) (decimals : Z) : ClientResult Z :=
  let? p := u64_pow10 decimals in Ok (f64_as_u64 (f64_mul ui_amount (f64_of p))).
Definition calc_emissions_rate (ui_rate : f64) (emissions_mint_decimals : Z) : ClientResult Z :=
  let? p := u64_pow10 emissions_mint_decimals in Ok (f64_as_u64 (f64_mul ui_rate (f64_of p))).
(** The client's own table of powers. *)
Definition CLI_EXP_10_I80F48 : list I80F48 := (λ i : nat, from_num (10 ^ Z.of_nat i)) <$> seq 0 15.

Definition create_oracle_key_array (oracle_key : Pubkey) : list Pubkey :=
  [oracle_key; default_pubkey; default_pubkey; default_pubkey; default_pubkey].
(** [deposit_limit_ui * 10_u64.pow(mint.decimals as u32)] *)
Definition native_limit (limit_ui decimals : Z) : ClientResult Z :=
  let? p := u64_pow10 decimals in unwrap (u64_checked (limit_ui * p)).

Section Commands.
Context {F : FixedOps} {T : TokenSdk} {O : OracleSdk} {R : Runtime} {C : ClientSdk} {S : CliSdk} {N : Node}.

(** ** The state, and how transactions are processed *)
Record CliState := mkCliState { disk : Disk; chain : World }.
Notation cli := (effect CliState ClientError).

Definition on_disk {A} (m : Disk.cmd A) : cli A :=
  λ s, let '(r, d) := m (disk s) in (r, mkCliState d (chain s)).
Definition on_chain {A} (f : World → ClientResult A) : cli A := effect_reads (λ s, f (chain s)).

Definition process_transaction (tx : Transaction) (tx_mode : Config.TxMode) : cli unit :=
  match tx_mode with
  | Config.DryRun => on_chain (λ w, simulate_transaction w tx)
  | Config.Multisig => effect_ret tt
  | Config.Normal => λ s,
      match send_and_confirm (chain s) tx with
      | Some w => (Ok tt, mkCliState (disk s) w)
      | None => (Err TransactionFailed, s)
      end
  end.

Definition partial_sign (ixs : list ClientIx) (payer : option Pubkey) (keys : list Pubkey) : ClientResult Transaction :=
  if can_sign (message_signers ixs payer) keys then Ok (mkTransaction ixs payer keys) else Panic.
Definition new_signed_with_payer (ixs : list ClientIx) (payer : Pubkey) (keys : list Pubkey) : ClientResult Transaction :=
  if signs_all (message_signers ixs (Some payer)) keys then Ok (mkTransaction ixs (Some payer) keys) else Panic.

(** [match process_transaction(..) { Ok(..) => .., Err(err) => println!(..) }] *)
Definition reported (m : cli unit) : cli unit :=
  λ s, match m s with (Err _, s') => (Ok tt, s') | r => r end.
(** Sign with the configured keys and process. *)
Definition submit (c : Config.Config) (ixs : list ClientIx) (payer : option Pubkey) (keys : list Pubkey) : cli unit :=
  do! tx := effect_lift (partial_sign ixs payer keys) in
  process_transaction tx (Config.get_tx_mode c).
Definition submit_signed (c : Config.Config) (ixs : list ClientIx) (payer : Pubkey) (keys : list Pubkey) : cli unit :=
  do! tx := effect_lift (new_signed_with_payer ixs payer keys) in
  process_transaction tx (Config.get_tx_mode c).

(** ** Derived addresses *)
Definition find_bank_vault_pda (bank_pk : Pubkey) (t : BankVaultType) (program : Pubkey) : Pubkey * Z :=
  find_pda (get_seed t) [bank_pk] program.
Definition find_bank_vault_authority_pda (bank_pk : Pubkey) (t : BankVaultType) (program : Pubkey) : Pubkey * Z :=
  find_pda (get_authority_seed t) [bank_pk] program.
Definition find_bank_emssions_auth_pda (bank emissions_mint program : Pubkey) : Pubkey * Z :=
  find_pda EMISSIONS_AUTH_SEED [bank; emissions_mint] program.
Definition find_bank_emssions_token_account_pda (bank emissions_mint program : Pubkey) : Pubkey * Z :=
  find_pda EMISSIONS_TOKEN_ACCOUNT_SEED [bank; emissions_mint] program.
Definition find_fee_state_pda (program : Pubkey) : Pubkey * Z := find_pda FEE_STATE_SEED [] program.

(** ** Groups *)
Definition group_create (c : Config.Config) (p : Profile) (admin : option Pubkey)
    (override_existing_profile_group : bool) (marginfi_group_keypair : Pubkey) : cli unit :=
  let admin := default (Config.authority c) admin in
  do! _ := effect_lift (check_with (negb (bool_decide (is_Some (Profile.marginfi_group p)) &&
                                          negb override_existing_profile_group)) GroupAlreadyExists) in
  do! _ := submit c [MfiIx (Config.program_id c)
                       (IxGroupInitialize marginfi_group_keypair admin (fst (find_fee_state_pda marginfi_id)))]
             (Some (Config.authority c)) (Config.get_signers c false ++ [marginfi_group_keypair]) in
  on_disk (Disk.set_marginfi_group p marginfi_group_keypair).

Definition group_configure (c : Config.Config) (p : Profile) (admin : option Pubkey) : cli unit :=
  do! group := effect_lift (ok_or (Profile.marginfi_group p) GroupNotSpecified) in
  do! _ := effect_lift (unwrap (head (Config.get_signers c false))) in
  reported (submit c [MfiIx (Config.program_id c)
                        (IxGroupConfigure group (Config.authority c) (MarginfiGroup.mkGroupConfig admin))]
              (Some (Config.authority c)) (Config.get_signers c false)).

(** *** Adding a bank *)
(** [OracleTypeArg] *)
Inductive OracleTypeArg : Set := ArgPythLegacy | ArgSwitchboardLegacy | ArgPythPushOracle | ArgSwitchboardPull.
Definition oracle_setup_of (x : OracleTypeArg) : OracleSetup :=
  match x with
  | ArgPythLegacy => PythLegacy
  | ArgSwitchboardLegacy => SwitchboardV2
  | ArgPythPushOracle => PythPushOracle
  | ArgSwitchboardPull => SwitchboardPull
  end.
Record AddBankArgs := mkAddBankArgs {
  a_bank_mint : Pubkey; a_seed : bool; a_oracle_key : Pubkey; a_feed_id : option Pubkey;
  a_oracle_setup : OracleTypeArg;
  a_asset_weight_init : f64; a_asset_weight_maint : f64;
  a_liability_weight_init : f64; a_liability_weight_maint : f64;
  a_deposit_limit_ui : Z; a_borrow_limit_ui : Z;
  a_optimal_utilization_rate : f64; a_plateau_interest_rate : f64;
  a_max_interest_rate : f64; a_insurance_fee_fixed_apr : f64;
  a_insurance_ir_fee : f64; a_group_fixed_fee_apr : f64; a_group_ir_fee : f64;
  a_risk_tier : RiskTier; a_oracle_max_age : Z; a_global_fee_wallet : Pubkey
}.

(** The weights and rates, as fixed-point numbers. *)
Definition bank_rates (a : AddBankArgs)
    : ClientResult (I80F48 * I80F48 * I80F48 * I80F48 * InterestRateConfig.InterestRateConfig) :=
  let? asset_weight_init := i80f48_from_f64 (a_asset_weight_init a) in
  let? asset_weight_maint := i80f48_from_f64 (a_asset_weight_maint a) in
  let? liability_weight_init := i80f48_from_f64 (a_liability_weight_init a) in
  let? liability_weight_maint := i80f48_from_f64 (a_liability_weight_maint a) in
  let? optimal_utilization_rate := i80f48_from_f64 (a_optimal_utilization_rate a) in
  let? plateau_interest_rate := i80f48_from_f64 (a_plateau_interest_rate a) in
  let? max_interest_rate := i80f48_from_f64 (a_max_interest_rate a) in
  let? insurance_fee_fixed_apr := i80f48_from_f64 (a_insurance_fee_fixed_apr a) in
  let? insurance_ir_fee := i80f48_from_f64 (a_insurance_ir_fee a) in
  let? group_fixed_fee_apr := i80f48_from_f64 (a_group_fixed_fee_apr a) in
  let? group_ir_fee := i80f48_from_f64 (a_group_ir_fee a) in
  Ok (asset_weight_init, asset_weight_maint, liability_weight_init, liability_weight_maint,
      InterestRateConfig.mkInterestRateConfig optimal_utilization_rate plateau_interest_rate max_interest_rate
        insurance_fee_fixed_apr insurance_ir_fee group_fixed_fee_apr group_ir_fee 0).
(** The configuration both kinds of bank are created with. *)
Definition bank_config_of (a : AddBankArgs) (decimals : Z) : ClientResult BankConfig.BankConfigCompact :=
  let? '(asset_weight_init, asset_weight_maint, liability_weight_init, liability_weight_maint,
         interest_rate_config) := bank_rates a in
  let? deposit_limit := native_limit (a_deposit_limit_ui a) decimals in
  let? borrow_limit := native_limit (a_borrow_limit_ui a) decimals in
  map_err (λ _, RpcError) (BankConfig.to_compact
    (BankConfig.mkBankConfig asset_weight_init asset_weight_maint liability_weight_init liability_weight_maint
       deposit_limit interest_rate_config Operational (oracle_setup_of (a_oracle_setup a))
       (create_oracle_key_array (default (a_oracle_key a) (a_feed_id a))) borrow_limit (a_risk_tier a)
       TOTAL_ASSET_VALUE_INIT_LIMIT_INACTIVE (a_oracle_max_age a))).

(** The accounts of [LendingPoolAddBank] and [LendingPoolAddBankWithSeed]. *)
Definition add_bank_accounts (c : Config.Config) (group bank token_program fee_payer : Pubkey)
    (a : AddBankArgs) : LendingPoolAddBank := {|
  ab_marginfi_group := group; ab_admin := Config.authority c; ab_fee_payer := fee_payer;
  ab_fee_state := fst (find_fee_state_pda (Config.program_id c));
  ab_global_fee_wallet := a_global_fee_wallet a; ab_bank_mint := a_bank_mint a; ab_bank := bank;
  ab_liquidity_vault_authority := fst (find_bank_vault_authority_pda bank Liquidity (Config.program_id c));
  ab_liquidity_vault := fst (find_bank_vault_pda bank Liquidity (Config.program_id c));
  ab_insurance_vault_authority := fst (find_bank_vault_authority_pda bank Insurance (Config.program_id c));
  ab_insurance_vault := fst (find_bank_vault_pda bank Insurance (Config.program_id c));
  ab_fee_vault_authority := fst (find_bank_vault_authority_pda bank Fee (Config.program_id c));
  ab_fee_vault := fst (find_bank_vault_pda bank Fee (Config.program_id c));
  ab_token_program := token_program; ab_remaining := [account_info (a_oracle_key a)] |}.

Definition create_bank_ix (c : Config.Config) (p : Profile) (token_program : Pubkey) (decimals : Z) (bank_keypair : Pubkey)
    (a : AddBankArgs) : ClientResult ClientIx :=
  let? group := unwrap (Profile.marginfi_group p) in
  let? cfg := bank_config_of a decimals in
  Ok (MfiIx (Config.program_id c)
        (IxAddBank (add_bank_accounts c group bank_keypair token_program (Config.explicit_fee_payer c) a) cfg)).

(** The loop over the seeds [i], [i + 1], ..; [n] bounds the number of turns,
    [u64::MAX] in the code.  A loop that finds none leaves the defaults. *)
Fixpoint free_bank_seed (c : Config.Config) (w : World) (group mint : Pubkey) (n : nat) (i : Z) : Pubkey * Z :=
  match n with
  | 0%nat => (default_pubkey, 0)
  | Datatypes.S n =>
      let pda := fst (find_bank_pda group mint i (Config.program_id c)) in
      if account_exists w pda then free_bank_seed c w group mint n (i + 1) else (pda, i)
  end.
Definition create_bank_ix_with_seed (n : nat) (c : Config.Config) (p : Profile) (w : World)
    (token_program : Pubkey) (decimals : Z) (a : AddBankArgs) : ClientResult ClientIx :=
  let? group := unwrap (Profile.marginfi_group p) in
  let '(bank_pda, bank_seed) := free_bank_seed c w group (a_bank_mint a) n 0 in
  let? cfg := bank_config_of a decimals in
  Ok (MfiIx (Config.program_id c)
        (IxAddBankWithSeed (add_bank_accounts c group bank_pda token_program (Config.authority c) a) cfg bank_seed)).

Definition group_add_bank (seed_tries : nat) (c : Config.Config) (p : Profile) (a : AddBankArgs)
    (compute_unit_price : option Z) (bank_keypair : Pubkey) : cli unit :=
  do! _ := effect_lift (ok_or (Profile.marginfi_group p) GroupNotSpecified) in
  do! _ := effect_lift (bank_rates a) in
  do! mint := on_chain (λ w, ok_or (mints w !! a_bank_mint a) RpcError) in
  let signing_keypairs := Config.get_signers c false ++ (if a_seed a then [] else [bank_keypair]) in
  do! add_bank_ix := on_chain (λ w,
    if a_seed a then create_bank_ix_with_seed seed_tries c p w (mint_owner mint) (mint_dec mint) a
    else create_bank_ix c p (mint_owner mint) (mint_dec mint) bank_keypair a) in
  reported (submit c [Other (SetComputeUnitPrice (default 1 compute_unit_price)); add_bank_ix] None signing_keypairs).

(** *** Bankruptcies *)
(** The banks an account has a debt with, in the order of its positions. *)
Fixpoint banks_in_debt (banks : gmap Z Bank) (l : LendingAccount) : ClientResult (list Pubkey) :=
  match l with
  | [] => Ok []
  | b :: l =>
      let? in_debt :=
        if Balance.active b then
          let? k := unwrap (banks !! Balance.bank_pk b) in
          match Bank.get_liability_amount k (Balance.liability_shares b) with
          | Ok amount => Ok (is_positive_with_tolerance amount ZERO_AMOUNT_THRESHOLD)
          | _ => Panic
          end
        else Ok false in
      let? pks := banks_in_debt banks l in
      Ok (if in_debt : bool then Balance.bank_pk b :: pks else pks)
  end.

(** [make_bankruptcy_ix(..).unwrap()] for each of them. *)
Fixpoint bankruptcy_ixs (c : Config.Config) (p : Profile) (banks : gmap Z Bank) (account : Pubkey)
    (m : MarginfiAccount) (bank_pks : list Pubkey) : ClientResult (list ClientIx) :=
  match bank_pks with
  | [] => Ok []
  | bank_pk :: bank_pks =>
      match make_bankruptcy_ix p (Config.fee_payer c) banks account m bank_pk with
      | Ok ix =>
          let? ixs := bankruptcy_ixs c p banks account m bank_pks in
          Ok (MfiIx (Config.program_id c) (IxHandleBankruptcy ix) :: ixs)
      | _ => Panic
      end
  end.
Fixpoint all_bankruptcy_ixs (c : Config.Config) (p : Profile) (w : World) (banks : gmap Z Bank)
    (accs : list Pubkey) : ClientResult (list ClientIx) :=
  match accs with
  | [] => Ok []
  | account :: accs =>
      let? m := unwrap (accounts w !! account) in
      let? bank_pks := banks_in_debt banks (MarginfiAccount.lending_account m) in
      let? ixs := bankruptcy_ixs c p banks account m bank_pks in
      let? more := all_bankruptcy_ixs c p w banks accs in
      Ok (ixs ++ more)
  end.
Definition BANKRUPTCY_CHUNKS : nat := 4.
(** One transaction after the other, whatever becomes of each. *)
Definition bankruptcy_batch (c : Config.Config) (chunk : list ClientIx) : cli unit :=
  reported (submit c (Other (SetComputeUnitLimit 1400000) :: chunk) (Some (Config.authority c))
              (Config.get_signers c false)).
Definition handle_bankruptcy_for_accounts (c : Config.Config) (p : Profile) (accs : list Pubkey) : cli unit :=
  do! group := effect_lift (unwrap (Profile.marginfi_group p)) in
  do! ixs := on_chain (λ w, all_bankruptcy_ixs c p w (load_all_banks w group) accs) in
  effect_each (bankruptcy_batch c) (chunks BANKRUPTCY_CHUNKS ixs).

(** *** Flags and fees *)
Definition process_set_user_flag (c : Config.Config) (p : Profile) (marginfi_account_pk : Pubkey) (flag : Z) : cli unit :=
  do! group := effect_lift (unwrap (Profile.marginfi_group p)) in
  reported (submit c [MfiIx (Config.program_id c)
                        (IxSetAccountFlag group marginfi_account_pk (Config.authority c) flag)]
              (Some (Config.authority c)) (Config.get_signers c false)).

Definition initialize_fee_state (c : Config.Config) (admin fee_wallet : Pubkey) (bank_init_flat_sol_fee : Z)
    (program_fee_fixed program_fee_rate : f64) : cli unit :=
  do! fixed := effect_lift (i80f48_from_f64 program_fee_fixed) in
  do! rate := effect_lift (i80f48_from_f64 program_fee_rate) in
  submit c [MfiIx (Config.program_id c)
              (IxInitFeeState (Config.authority c) (fst (find_fee_state_pda (Config.program_id c))) admin
                 fee_wallet bank_init_flat_sol_fee fixed rate)]
    (Some (Config.authority c)) (Config.get_signers c false).
Definition edit_fee_state (c : Config.Config) (fee_wallet : Pubkey) (bank_init_flat_sol_fee : Z)
    (program_fee_fixed program_fee_rate : f64) : cli unit :=
  do! fixed := effect_lift (i80f48_from_f64 program_fee_fixed) in
  do! rate := effect_lift (i80f48_from_f64 program_fee_rate) in
  submit c [MfiIx (Config.program_id c)
              (IxEditFeeState (Config.authority c) (fst (find_fee_state_pda (Config.program_id c)))
                 fee_wallet bank_init_flat_sol_fee fixed rate)]
    (Some (Config.authority c)) (Config.get_signers c false).
(** The address is derived for the program of the profile, which it may not
    name. *)
Definition config_group_fee (c : Config.Config) (p : Profile) (flag : Z) : cli unit :=
  do! group := effect_lift (ok_or (Profile.marginfi_group p) GroupNotSpecified) in
  do! program := effect_lift (unwrap (Profile.program_id p)) in
  submit c [MfiIx (Config.program_id c)
              (IxConfigGroupFee group (Config.authority c) (fst (find_fee_state_pda program)) flag)]
    (Some (Config.authority c)) (Config.get_signers c false).
Definition propagate_fee (c : Config.Config) (marginfi_group : Pubkey) : cli unit :=
  submit c [MfiIx (Config.program_id c)
              (IxPropagateFee (fst (find_fee_state_pda (Config.program_id c))) marginfi_group)]
    None (Config.get_signers c false).

(** *** Emissions *)
Definition emissions_flags (deposits borrows : bool) : Z :=
  Z.lor (if deposits then EMISSIONS_FLAG_LENDING_ACTIVE else 0) (if borrows then EMISSIONS_FLAG_BORROW_ACTIVE else 0).
(** [confirmed]: the user typed [y]. *)
Definition bank_setup_emissions (c : Config.Config) (p : Profile) (bank : Pubkey) (deposits borrows : bool)
    (mint : Pubkey) (rate total : f64) (confirmed : bool) : cli unit :=
  do! emissions_mint := on_chain (λ w, unwrap (mints w !! mint)) in
  let token_program := mint_owner emissions_mint in
  do! total_emissions := effect_lift (ui_to_native total (mint_dec emissions_mint)) in
  do! rate := effect_lift (calc_emissions_rate rate (mint_dec emissions_mint)) in
  if confirmed then
    do! group := effect_lift (unwrap (Profile.marginfi_group p)) in
    reported (submit c [MfiIx (Config.program_id c) (IxSetupEmissions {|
        se_marginfi_group := group; se_admin := Config.authority c; se_bank := bank; se_emissions_mint := mint;
        se_emissions_auth := fst (find_bank_emssions_auth_pda bank mint (Config.program_id c));
        se_emissions_token_account := fst (find_bank_emssions_token_account_pda bank mint (Config.program_id c));
        se_emissions_funding_account := associated_token_address (Config.authority c) mint token_program;
        se_token_program := token_program |} (emissions_flags deposits borrows) rate total_emissions)]
      (Some (Config.authority c)) (Config.get_signers c false))
  else effect_ret tt.

(** The emissions of a bank whose mint is of the token program. *)
Definition bank_update_emissions (c : Config.Config) (p : Profile) (bank_pk : Pubkey)
    (deposits borrows disable : bool) (rate additional_emissions : option f64) (confirmed : bool) : cli unit :=
  do! _ := effect_lift (rust_assert (negb (disable && (deposits || borrows)))) in
  do! bank := on_chain (λ w, unwrap (banks w !! bank_pk)) in
  let emission_mint := Bank.emissions_mint bank in
  do! mint := on_chain (λ w, unwrap (mints w !! emission_mint)) in
  let convert {A} (f : A → Z → ClientResult Z) (x : option A) : cli (option Z) :=
    match x with
    | Some x => do! n := effect_lift (f x (mint_dec mint)) in effect_ret (Some n)
    | None => effect_ret None
    end in
  do! emissions_rate := convert calc_emissions_rate rate in
  do! additional := convert ui_to_native additional_emissions in
  let flags := if disable then Some 0
               else if deposits || borrows then Some (emissions_flags deposits borrows) else None in
  if confirmed then
    do! group := effect_lift (unwrap (Profile.marginfi_group p)) in
    reported (submit c [MfiIx (Config.program_id c) (IxUpdateEmissions {|
        se_marginfi_group := group; se_admin := Config.authority c; se_bank := bank_pk;
        se_emissions_mint := emission_mint; se_emissions_auth := default_pubkey;
        se_emissions_token_account := fst (find_bank_emssions_token_account_pda bank_pk emission_mint (Config.program_id c));
        se_emissions_funding_account := associated_token_address (Config.authority c) emission_mint token_id;
        se_token_program := token_id |} flags emissions_rate additional)]
      (Some (Config.authority c)) (Config.get_signers c false))
  else effect_ret tt.

(** [emissions.rs], [claim_all_emissions_for_bank]: the transactions are sent
    whatever the mode; the first that fails ends the command. *)
Definition EMISSIONS_CHUNK_SIZE : nat := 22.
Definition holders_of (w : World) (group bank_pk : Pubkey) : list Pubkey :=
  fst <$> filter (λ x, MarginfiAccount.group x.2 = group ∧
    existsb (LendingAccount.is_position bank_pk) (MarginfiAccount.lending_account x.2) = true)
    (map_to_list (accounts w)).
Definition send (ixs : list ClientIx) (payer : Pubkey) (keys : list Pubkey) : cli unit :=
  do! tx := effect_lift (partial_sign ixs (Some payer) keys) in
  process_transaction tx Config.Normal.
Definition claim_all_emissions_for_bank (c : Config.Config) (p : Profile) (bank_pk : Pubkey) : cli unit :=
  do! group := effect_lift (unwrap (Profile.marginfi_group p)) in
  do! holders := on_chain (λ w, Ok (holders_of w group bank_pk)) in
  effect_each (λ chunk, send chunk (Config.authority c) (Config.get_signers c false))
    (chunks EMISSIONS_CHUNK_SIZE ((λ a, MfiIx marginfi_id (IxSettleEmissions a bank_pk)) <$> holders)).

(** *** Configuring a bank *)
Record BankUpdateArgs := mkBankUpdateArgs {
  bu_asset_weight_init : option f64; bu_asset_weight_maint : option f64;
  bu_liability_weight_init : option f64; bu_liability_weight_maint : option f64;
  bu_deposit_limit_ui : option f64; bu_borrow_limit_ui : option f64;
  bu_operational_state : option BankOperationalState;
  bu_opr_ur : option f64; bu_p_ir : option f64; bu_m_ir : option f64;
  bu_if_fa : option f64; bu_if_ir : option f64; bu_pf_fa : option f64;
  bu_pf_ir : option f64; bu_pf_or : option f64;
  bu_risk_tier : option RiskTier; bu_oracle_type : option OracleTypeArg; bu_oracle_key : option Pubkey;
  bu_usd_init_limit : option Z; bu_oracle_max_age : option Z;
  bu_permissionless_bad_debt_settlement : option bool
}.
(** [x.map(|x| I80F48::from_num(x).into())] *)
Definition rate_opt (x : option f64) : ClientResult (option I80F48) :=
  match x with Some x => let? r := i80f48_from_f64 x in Ok (Some r) | None => Ok None end.
(** [BankCommand::Update]: the options of the instruction. *)
Definition bank_config_opt_of (a : BankUpdateArgs) (mint_decimals : Z) : ClientResult BankConfig.BankConfigOpt :=
  let? asset_weight_init := rate_opt (bu_asset_weight_init a) in
  let? asset_weight_maint := rate_opt (bu_asset_weight_maint a) in
  let? liability_weight_init := rate_opt (bu_liability_weight_init a) in
  let? liability_weight_maint := rate_opt (bu_liability_weight_maint a) in
  let? oracle :=
    match bu_oracle_key a with
    | Some key =>
        let? setup := unwrap (bu_oracle_type a) in
        Ok (Some (mkOracleConfig (oracle_setup_of setup) (create_oracle_key_array key)))
    | None => Ok None
    end in
  let? opr_ur := rate_opt (bu_opr_ur a) in
  let? p_ir := rate_opt (bu_p_ir a) in
  let? m_ir := rate_opt (bu_m_ir a) in
  let? if_fa := rate_opt (bu_if_fa a) in
  let? if_ir := rate_opt (bu_if_ir a) in
  let? pf_fa := rate_opt (bu_pf_fa a) in
  let? pf_ir := rate_opt (bu_pf_ir a) in
  let? pf_or := rate_opt (bu_pf_or a) in
  Ok (BankConfig.mkBankConfigOpt asset_weight_init asset_weight_maint liability_weight_init liability_weight_maint
        ((λ x, ui_amount_to_amount x mint_decimals) <$> bu_deposit_limit_ui a)
        ((λ x, ui_amount_to_amount x mint_decimals) <$> bu_borrow_limit_ui a)
        (bu_operational_state a) oracle
        (Some (InterestRateConfig.mkInterestRateConfigOpt opr_ur p_ir m_ir if_fa if_ir pf_fa pf_ir pf_or))
        (bu_risk_tier a) (bu_usd_init_limit a) (bu_oracle_max_age a) (bu_permissionless_bad_debt_settlement a)).

Definition with_oracle (oracle : OracleConfig) (o : BankConfig.BankConfigOpt) : BankConfig.BankConfigOpt :=
  BankConfig.mkBankConfigOpt (BankConfig.o_asset_weight_init o) (BankConfig.o_asset_weight_maint o)
    (BankConfig.o_liability_weight_init o) (BankConfig.o_liability_weight_maint o)
    (BankConfig.o_deposit_limit o) (BankConfig.o_borrow_limit o) (BankConfig.o_operational_state o)
    (Some oracle) (BankConfig.o_interest_rate_config o) (BankConfig.o_risk_tier o)
    (BankConfig.o_total_asset_value_init_limit o) (BankConfig.o_oracle_max_age o)
    (BankConfig.o_permissionless_bad_debt_settlement o).
(** The oracle account goes with the instruction; for a push feed, which is
    named by its feed id, the id is read from the account. *)
Definition resolve_oracle (o : BankConfig.BankConfigOpt)
    : ClientResult (BankConfig.BankConfigOpt * list AccountInfo) :=
  match BankConfig.o_oracle o with
  | None => Ok (o, [])
  | Some oracle =>
      let? oracle_address := unwrap (head (oc_keys oracle)) in
      let extra_accounts := [account_info oracle_address] in
      match oc_setup oracle with
      | PythPushOracle =>
          let? _ := ok_or (account_owner oracle_address) RpcError in
          let? feed_id := map_err ProgramError (PythPushOraclePriceFeed.peek_feed_id (account_info oracle_address)) in
          Ok (with_oracle (mkOracleConfig PythPushOracle (<[0%nat := feed_id]> (oc_keys oracle))) o, extra_accounts)
      | _ => Ok (o, extra_accounts)
      end
  end.
Definition bank_configure (c : Config.Config) (p : Profile) (bank_pk : Pubkey) (o : BankConfig.BankConfigOpt) : cli unit :=
  do! x := effect_lift (resolve_oracle o) in
  do! group := effect_lift (unwrap (Profile.marginfi_group p)) in
  submit c [MfiIx (Config.program_id c) (IxConfigureBank group (Config.authority c) bank_pk (fst x) (snd x))]
    (Some (Config.authority c)) (Config.get_signers c false).

(** *** [admin.rs] *)
Definition process_collect_fees (c : Config.Config) (bank_pk fee_ata : Pubkey) : cli unit :=
  do! bank := on_chain (λ w, ok_or (banks w !! bank_pk) RpcError) in
  reported (submit c [MfiIx marginfi_id (IxCollectFees {|
      cf_marginfi_group := Bank.group bank; cf_bank := bank_pk;
      cf_liquidity_vault_authority := fst (find_pda LIQUIDITY_VAULT_AUTHORITY_SEED [bank_pk] marginfi_id);
      cf_liquidity_vault := Bank.liquidity_vault bank; cf_insurance_vault := Bank.insurance_vault bank;
      cf_fee_vault := Bank.fee_vault bank; cf_fee_state := fst (find_fee_state_pda marginfi_id);
      cf_fee_ata := fee_ata; cf_token_program := token_id;
      cf_remaining := remaining_accounts [new_readonly (Bank.mint bank)] |})]
    (Some (Config.authority c)) (Config.get_signers c false)).

(** The two withdrawals differ in the vault. *)
Definition withdraw_from (t : BankVaultType) (vault : Bank → Pubkey) (make_ix : LendingPoolWithdrawFees → Z → MarginfiIx)
    (c : Config.Config) (bank_pk : Pubkey) (amount_ui : f64) (dst_address : option Pubkey) : cli unit :=
  do! bank := on_chain (λ w, ok_or (banks w !! bank_pk) RpcError) in
  do! amount := effect_lift (ui_to_native amount_ui (Bank.mint_decimals bank)) in
  let dst_address := default (Config.authority c) dst_address in
  let create_ata_ix := Other (CreateAssociatedTokenAccountIdempotent (Config.authority c) (Config.authority c)
                                (Bank.mint bank) token_id) in
  let ix := MfiIx marginfi_id (make_ix {|
      wf_marginfi_group := Bank.group bank; wf_bank := bank_pk; wf_admin := Config.authority c;
      wf_vault := vault bank; wf_vault_authority := fst (find_pda (get_authority_seed t) [bank_pk] marginfi_id);
      wf_dst_token_account := associated_token_address dst_address (Bank.mint bank) token_id;
      wf_token_program := token_id; wf_remaining := remaining_accounts [new_readonly (Bank.mint bank)] |} amount) in
  reported (submit c [create_ata_ix; ix] (Some (Config.authority c)) (Config.get_signers c false)).
Definition process_withdraw_fees : Config.Config → Pubkey → f64 → option Pubkey → cli unit :=
  withdraw_from Fee Bank.fee_vault IxWithdrawFees.
Definition process_withdraw_insurance : Config.Config → Pubkey → f64 → option Pubkey → cli unit :=
  withdraw_from Insurance Bank.insurance_vault IxWithdrawInsurance.

(** *** Accounts *)
(** [(I80F48::from_num(ui_amount) * EXP_10_I80F48[decimals]).floor().to_num::<u64>()] *)
Definition native_amount (ui_amount : f64) (mint_decimals : Z) : ClientResult Z :=
  let? x := i80f48_from_f64 ui_amount in
  let? e := index CLI_EXP_10_I80F48 mint_decimals in
  let? x := unwrap (checked_mul x e) in
  let? x := unwrap (checked_floor x) in
  unwrap (checked_to_u64 x).

Definition use_account (c : Config.Config) (p : Profile) (marginfi_account_pk : Pubkey) : cli unit :=
  do! group := effect_lift (unwrap (Profile.marginfi_group p)) in
  do! m := on_chain (λ w, ok_or (accounts w !! marginfi_account_pk) RpcError) in
  do! _ := effect_lift (check_with (MarginfiAccount.group m =? group) NotInGroup) in
  do! _ := effect_lift (check_with (MarginfiAccount.authority m =? Config.authority c) NotAuthority) in
  do! _ := on_disk (Disk.config p (Profile.set_account marginfi_account_pk)) in effect_ret tt.

Definition create_ata (signer mint token_program : Pubkey) : ClientIx :=
  Other (CreateAssociatedTokenAccountIdempotent signer signer mint token_program).
Definition deposit_command (c : Config.Config) (p : Profile) (bank_pk : Pubkey) (ui_amount : f64) : cli unit :=
  do! signer := effect_lift (Config.get_non_ms_authority_keypair c) in
  do! _ := effect_lift (Profile.get_marginfi_account p) in
  do! bank := on_chain (λ w, ok_or (banks w !! bank_pk) RpcError) in
  do! amount := effect_lift (native_amount ui_amount (Bank.mint_decimals bank)) in
  do! ix := on_chain (λ w, marginfi_account_deposit w p signer bank_pk) in
  reported (submit_signed c [MfiIx (Config.program_id c) (IxDeposit ix amount)] signer [signer]).
(** [make] builds the instruction of the withdrawal or the borrowing. *)
Definition outflow_command (make : World → Profile → Pubkey → ClientResult LendingAccountWithdraw)
    (make_ix : LendingAccountWithdraw → Z → MarginfiIx)
    (c : Config.Config) (p : Profile) (bank_pk : Pubkey) (ui_amount : f64) : cli unit :=
  do! signer := effect_lift (Config.get_non_ms_authority_keypair c) in
  do! account := effect_lift (Profile.get_marginfi_account p) in
  do! group := effect_lift (unwrap (Profile.marginfi_group p)) in
  do! bank := on_chain (λ w, unwrap (load_all_banks w group !! bank_pk)) in
  do! _ := on_chain (λ w, ok_or (accounts w !! account) RpcError) in
  do! amount := effect_lift (native_amount ui_amount (Bank.mint_decimals bank)) in
  do! ix := on_chain (λ w, make w p signer) in
  reported (submit_signed c [create_ata signer (Bank.mint bank) (wd_token_program ix);
                             MfiIx (Config.program_id c) (make_ix ix amount)] signer [signer]).
Definition withdraw_command (c : Config.Config) (p : Profile) (bank_pk : Pubkey) (ui_amount : f64)
    (withdraw_all : bool) : cli unit :=
  outflow_command (λ w p signer, marginfi_account_withdraw w p signer bank_pk withdraw_all)
    (λ ix amount, IxWithdraw ix amount (if withdraw_all then Some true else None)) c p bank_pk ui_amount.
Definition borrow_command (c : Config.Config) (p : Profile) (bank_pk : Pubkey) (ui_amount : f64) : cli unit :=
  outflow_command (λ w p signer, marginfi_account_borrow w p signer bank_pk) IxBorrow c p bank_pk ui_amount.
Definition liquidate_command (c : Config.Config) (p : Profile)
    (liquidatee asset_bank_pk liability_bank_pk : Pubkey) (ui_asset_amount : f64) : cli unit :=
  do! signer := effect_lift (Config.get_non_ms_authority_keypair c) in
  do! account := effect_lift (Profile.get_marginfi_account p) in
  do! group := effect_lift (unwrap (Profile.marginfi_group p)) in
  do! asset_bank := on_chain (λ w, unwrap (load_all_banks w group !! asset_bank_pk)) in
  do! _ := on_chain (λ w, unwrap (load_all_banks w group !! liability_bank_pk)) in
  do! _ := on_chain (λ w, ok_or (accounts w !! account) RpcError) in
  do! _ := on_chain (λ w, ok_or (accounts w !! liquidatee) RpcError) in
  do! amount := effect_lift (native_amount ui_asset_amount (Bank.mint_decimals asset_bank)) in
  do! ix := on_chain (λ w, marginfi_account_liquidate w p signer liquidatee asset_bank_pk liability_bank_pk) in
  reported (submit_signed c [MfiIx (Config.program_id c) (IxLiquidate ix amount); Other (SetComputeUnitLimit 1400000)]
              signer [signer]).
(** The profile is pointed at the new account whether or not it was created. *)
Definition create_command (c : Config.Config) (p : Profile) (marginfi_account_key : Pubkey) : cli unit :=
  do! signer := effect_lift (Config.get_non_ms_authority_keypair c) in
  do! group := effect_lift (unwrap (Profile.marginfi_group p)) in
  do! _ := reported (submit_signed c [MfiIx (Config.program_id c) (IxAccountInitialize group marginfi_account_key signer)]
                       signer [signer; marginfi_account_key]) in
  do! _ := on_disk (Disk.config p (Profile.set_account marginfi_account_key)) in effect_ret tt.

(** ** [entrypoint.rs] *)
(** The commands that change something, and for each kind one that only
    prints. *)
Inductive GroupCommand : Type :=
| GGet | GCreate (admin : option Pubkey) (override : bool) (new_group : Pubkey) | GUpdate (admin : option Pubkey)
| GAddBank (seed_tries : nat) (a : AddBankArgs) (new_bank : Pubkey)
| GHandleBankruptcy (accs : list Pubkey)
| GInitFeeState (admin fee_wallet : Pubkey) (flat : Z) (fixed rate : f64)
| GEditFeeState (fee_wallet : Pubkey) (flat : Z) (fixed rate : f64)
| GConfigGroupFee (flag : Z) | GPropagateFee (marginfi_group : Pubkey).
Inductive BankCommand : Type :=
| BGet | BUpdate (bank_pk : Pubkey) (a : BankUpdateArgs)
| BSetupEmissions (bank : Pubkey) (deposits borrows : bool) (mint : Pubkey) (rate total : f64)
| BUpdateEmissions (bank : Pubkey) (deposits borrows disable : bool) (rate additional : option f64)
| BSettleAllEmissions (bank : Pubkey)
| BCollectFees (bank fee_ata : Pubkey)
| BWithdrawFees (bank : Pubkey) (amount : f64) (dst : option Pubkey)
| BWithdrawInsurance (bank : Pubkey) (amount : f64) (dst : option Pubkey).
Inductive AccountCommand : Type :=
| AGet | AUse (account : Pubkey)
| ADeposit (bank : Pubkey) (ui_amount : f64)
| AWithdraw (bank : Pubkey) (ui_amount : f64) (withdraw_all : bool)
| ABorrow (bank : Pubkey) (ui_amount : f64)
| ALiquidate (liquidatee asset_bank liability_bank : Pubkey) (ui_asset_amount : f64)
| ACreate (new_account : Pubkey)
| ASetFlag (account : Pubkey) (flashloans_enabled account_migration_enabled : bool).
Inductive Command : Type :=
| CGroup (g : GroupCommand) | CBank (b : BankCommand) | CAccount (a : AccountCommand)
| CProfile (p : Disk.ProfileCommand).

(** What the user types: the name of the profile, and [y]. *)
Record UserInput := mkUserInput { typed_name : string; typed_yes : bool }.
Context (read_keypair_file : string → option Pubkey).

(** [get_consent]: exits unless the name of the profile was typed; printing
    the profile panics when it has no configuration. *)
Definition get_consent (u : UserInput) (p : Profile) : ClientResult unit :=
  let? _ := Profile.fmt read_keypair_file p in
  if bool_decide (typed_name u = Profile.name p) then Ok tt else Err Aborted.
Definition load_config (o : GlobalOptions) : cli (Profile * Config.Config) :=
  do! p := on_disk Disk.load_profile in
  do! c := effect_lift (Profile.get_config read_keypair_file p (Some o)) in
  effect_ret (p, c).
Definition consent (o : GlobalOptions) (u : UserInput) (only_prints : bool) (p : Profile) : cli unit :=
  effect_lift (if skip_confirmation o || only_prints then Ok tt else get_consent u p).

Definition group (o : GlobalOptions) (u : UserInput) (g : GroupCommand) : cli unit :=
  do! x := load_config o in
  let p := fst x in
  let c := snd x in
  do! _ := consent o u (match g with GGet => true | _ => false end) p in
  match g with
  | GGet => effect_ret tt
  | GCreate admin override new_group => group_create c p admin override new_group
  | GUpdate admin => group_configure c p admin
  | GAddBank n a new_bank => group_add_bank n c p a (compute_unit_price o) new_bank
  | GHandleBankruptcy accs => handle_bankruptcy_for_accounts c p accs
  | GInitFeeState admin wallet flat fixed rate => initialize_fee_state c admin wallet flat fixed rate
  | GEditFeeState wallet flat fixed rate => edit_fee_state c wallet flat fixed rate
  | GConfigGroupFee flag => config_group_fee c p flag
  | GPropagateFee g => propagate_fee c g
  end.
Definition bank (o : GlobalOptions) (u : UserInput) (b : BankCommand) : cli unit :=
  do! x := load_config o in
  let p := fst x in
  let c := snd x in
  do! _ := consent o u (match b with BGet => true | _ => false end) p in
  match b with
  | BGet => effect_ret tt
  | BUpdate bank_pk a =>
      do! k := on_chain (λ w, unwrap (banks w !! bank_pk)) in
      do! opt := effect_lift (bank_config_opt_of a (Bank.mint_decimals k)) in
      bank_configure c p bank_pk opt
  | BSetupEmissions k d b mint rate total => bank_setup_emissions c p k d b mint rate total (typed_yes u)
  | BUpdateEmissions k d b dis rate extra => bank_update_emissions c p k d b dis rate extra (typed_yes u)
  | BSettleAllEmissions k => claim_all_emissions_for_bank c p k
  | BCollectFees k fee_ata => process_collect_fees c k fee_ata
  | BWithdrawFees k amount dst => process_withdraw_fees c k amount dst
  | BWithdrawInsurance k amount dst => process_withdraw_insurance c k amount dst
  end.
Definition process_account_subcmd (o : GlobalOptions) (u : UserInput) (a : AccountCommand) : cli unit :=
  do! x := load_config o in
  let p := fst x in
  let c := snd x in
  do! _ := consent o u (match a with AGet => true | _ => false end) p in
  match a with
  | AGet => effect_ret tt
  | AUse k => use_account c p k
  | ADeposit k amount => deposit_command c p k amount
  | AWithdraw k amount all => withdraw_command c p k amount all
  | ABorrow k amount => borrow_command c p k amount
  | ALiquidate liquidatee ka kl amount => liquidate_command c p liquidatee ka kl amount
  | ACreate key => create_command c p key
  | ASetFlag k flashloan migration =>
      let flag := Z.lor (if flashloan then FLASHLOAN_ENABLED_FLAG else 0)
                        (if migration then TRANSFER_AUTHORITY_ALLOWED_FLAG else 0) in
      if flag =? 0 then effect_lift (Err Aborted) else process_set_user_flag c p k flag
  end.
Definition entry (o : GlobalOptions) (u : UserInput) (cmd : Command) : cli unit :=
  match cmd with
  | CGroup g => group o u g
  | CBank b => bank o u b
  | CAccount a => process_account_subcmd o u a
  | CProfile p => on_disk (Disk.profile read_keypair_file p)
  end.
End Commands.
