(* ===== verification/CliSpec.v ===== *)
(** * What the commands of the client do

    The theorems about [Cli.v]: what a command can change and on whose behalf,
    that the instructions the client builds are the ones the program accepts,
    and the commands that do not do what they are for. *)
From stdpp Require Import strings.
From S2P Require Import Prelude Floats Errors Fixed Constants Utils GroupState InterestRate BankState Price Account BankAccount Risk World UserIx LiquidateIx BankruptcyIx GroupIx Frames System Profiles Client Cli.
#[local] Open Scope Z_scope.

Section Reach.
Context {F : FixedOps} {T : TokenSdk} {O : OracleSdk} {R : Runtime} {C : ClientSdk} {S : CliSdk} {N : Node}.
Context (rk : string → option Pubkey).
Notation cli := (effect CliState ClientError).

(** ** The keys a command signs with *)
(** The fee payer of the current profile, when there is one. *)
Definition own_keys (o : GlobalOptions) (s : CliState) : list Pubkey :=
  match fst (load_config rk o s) with Ok x => [Config.fee_payer (snd x)] | _ => [] end.
(** The keys the command generates. *)
Definition new_keys (cmd : Command) : list Pubkey :=
  match cmd with
  | CGroup (GCreate _ _ k) | CGroup (GAddBank _ _ k) | CAccount (ACreate k) => [k]
  | _ => []
  end.
(** The only command that sends whatever the mode. *)
Definition settles_all (cmd : Command) : bool :=
  match cmd with CBank (BSettleAllEmissions _) => true | _ => false end.

(** ** What commands do to the chain *)
Section Within.
Context (Q : relation World) `{!Reflexive Q, !Transitive Q} (K : list Pubkey) (c : Config.Config).
Definition chain_moves (s s' : CliState) : Prop := Q (chain s) (chain s').
#[local] Instance chain_moves_reflexive : Reflexive chain_moves.
Proof. intros s. unfold chain_moves. reflexivity. Qed.
#[local] Instance chain_moves_transitive : Transitive chain_moves.
Proof. intros s1 s2 s3. unfold chain_moves. apply transitivity. Qed.

(** What a transaction sent with keys among [K] does is in [Q]. *)
Definition sends_in : Prop := ∀ w tx w',
  (∀ k, k ∈ tx_signatures tx → k ∈ K) → send_and_confirm w tx = Some w' → Q w w'.
Definition keys_ok (keys : list Pubkey) : Prop := ∀ k, k ∈ keys → k ∈ K.
Context (Hpayer : Config.fee_payer c ∈ K) (Hsend : Config.get_tx_mode c = Config.Normal → sends_in).

Lemma bind_within {A B} (f : A → cli B) (m : cli A) :
  effect_within chain_moves m → (∀ a, effect_within chain_moves (f a)) → effect_within chain_moves (effect_bind f m).
Proof. apply effect_within_bind. exact _. Qed.
Lemma lift_within {A} (r : ClientResult A) : effect_within chain_moves (effect_lift r).
Proof. apply effect_within_lift. exact _. Qed.
Lemma ret_within {A} (a : A) : effect_within chain_moves (effect_ret a : cli A).
Proof. apply effect_within_ret. exact _. Qed.
Lemma chain_within {A} (f : World → ClientResult A) : effect_within chain_moves (on_chain f).
Proof. apply effect_within_reads. exact _. Qed.
Lemma disk_within {A} (m : Disk.cmd A) : effect_within chain_moves (on_disk m).
Proof. intros s. unfold chain_moves, on_disk. destruct (m (disk s)). simpl. reflexivity. Qed.
Lemma reported_within (m : cli unit) : effect_within chain_moves m → effect_within chain_moves (reported m).
Proof. intros H s. specialize (H s). unfold reported. by destruct (m s) as [[]]. Qed.
Lemma each_within {A} (f : A → cli unit) l :
  (∀ x, effect_within chain_moves (f x)) → effect_within chain_moves (effect_each f l).
Proof. apply effect_within_each; exact _. Qed.
Lemma process_within tx mode :
  (∀ k, k ∈ tx_signatures tx → k ∈ K) → (mode = Config.Normal → sends_in) →
  effect_within chain_moves (process_transaction tx mode).
Proof.
  intros Hk Hm. destruct mode; [apply chain_within|apply ret_within|]. intros s. unfold chain_moves. simpl.
  destruct (send_and_confirm (chain s) tx) eqn:E; simpl; [|reflexivity]. by eapply (Hm eq_refl).
Qed.
Lemma signed_bind_within (r : ClientResult Transaction) keys mode :
  (∀ tx, r = Ok tx → tx_signatures tx = keys) → keys_ok keys → (mode = Config.Normal → sends_in) →
  effect_within chain_moves (do! tx := effect_lift r in process_transaction tx mode).
Proof.
  intros Hr Hk Hm s. unfold effect_bind, effect_lift. destruct r as [tx|e|]; [|apply (lift_within (Err e))|apply (lift_within Panic)].
  apply process_within; [|done]. by rewrite (Hr _ eq_refl).
Qed.
Lemma partial_sign_keys ixs payer keys tx : partial_sign ixs payer keys = Ok tx → tx_signatures tx = keys.
Proof. unfold partial_sign. destruct (can_sign _ _); [|done]. by intros [= <-]. Qed.
Lemma new_signed_keys ixs payer keys tx : new_signed_with_payer ixs payer keys = Ok tx → tx_signatures tx = keys.
Proof. unfold new_signed_with_payer. destruct (signs_all _ _); [|done]. by intros [= <-]. Qed.
Lemma submit_within ixs payer keys : keys_ok keys → effect_within chain_moves (submit c ixs payer keys).
Proof. intros Hk. eapply signed_bind_within; [apply partial_sign_keys|done|exact Hsend]. Qed.
Lemma submit_signed_within ixs payer keys : keys_ok keys → effect_within chain_moves (submit_signed c ixs payer keys).
Proof. intros Hk. eapply signed_bind_within; [apply new_signed_keys|done|exact Hsend]. Qed.
Lemma send_within ixs payer keys : sends_in → keys_ok keys → effect_within chain_moves (send ixs payer keys).
Proof. intros Hs Hk. eapply signed_bind_within; [apply partial_sign_keys|done|done]. Qed.

Lemma signers_ok : keys_ok (Config.get_signers c false).
Proof. intros k. unfold Config.get_signers. simpl. case_bool_decide; set_solver. Qed.
Lemma signers_app_ok l : keys_ok l → keys_ok (Config.get_signers c false ++ l).
Proof. intros Hl k [Hk|Hk]%elem_of_app; [by apply signers_ok|by apply Hl]. Qed.
Lemma keys_nil_ok : keys_ok [].
Proof. intros k H. by apply elem_of_nil in H. Qed.
Lemma keys_cons_ok k l : k ∈ K → keys_ok l → keys_ok (k :: l).
Proof. intros Hk Hl x [->|Hx]%elem_of_cons; [done|by apply Hl]. Qed.

Lemma own_keypair_within {A} (f : Pubkey → cli A) :
  effect_within chain_moves (f (Config.fee_payer c)) →
  effect_within chain_moves (do! signer := effect_lift (Config.get_non_ms_authority_keypair c) in f signer).
Proof.
  intros Hf s. unfold effect_bind, effect_lift. destruct (Config.get_non_ms_authority_keypair c) as [k|e|] eqn:E;
    [|apply (lift_within (Err e))|apply (lift_within Panic)].
  apply Config.own_authority in E as (_ & -> & _). apply Hf.
Qed.

(** Peels a command down to its reads, its writes to the files and its
    transactions, whose keys are left to be checked. *)
Ltac within :=
  repeat first
    [ match goal with |- ∀ _, effect_within _ _ => intros ? end
    | apply lift_within | apply chain_within | apply disk_within | apply ret_within
    | apply submit_within | apply submit_signed_within | apply send_within
    | apply own_keypair_within | apply bind_within | apply reported_within | apply each_within
    | match goal with
      | |- effect_within _ (if ?b then _ else _) => destruct b
      | |- effect_within _ (match ?x with _ => _ end) => destruct x
      end ];
  repeat first
    [ apply signers_app_ok | exact signers_ok | apply keys_cons_ok | exact keys_nil_ok | done
    | match goal with |- keys_ok (if ?b then _ else _) => destruct b end ].

Lemma group_commands_within p o g (new : ∀ k, k ∈ new_keys (CGroup g) → k ∈ K) :
  effect_within chain_moves
    (match g with
     | GGet => effect_ret tt
     | GCreate admin override new_group => group_create c p admin override new_group
     | GUpdate admin => group_configure c p admin
     | GAddBank n a new_bank => group_add_bank n c p a (compute_unit_price o) new_bank
     | GHandleBankruptcy accs => handle_bankruptcy_for_accounts c p accs
     | GInitFeeState admin wallet flat fixed rate => initialize_fee_state c admin wallet flat fixed rate
     | GEditFeeState wallet flat fixed rate => edit_fee_state c wallet flat fixed rate
     | GConfigGroupFee flag => config_group_fee c p flag
     | GPropagateFee g => propagate_fee c g
     end).
Proof.
  destruct g; simpl in new; unfold group_create, group_configure, group_add_bank, handle_bankruptcy_for_accounts,
    bankruptcy_batch, initialize_fee_state, edit_fee_state, config_group_fee, propagate_fee;
    within; apply new; by left.
Qed.
Lemma bank_commands_within p u b : (settles_all (CBank b) = true → sends_in) →
  effect_within chain_moves
    (match b with
     | BGet => effect_ret tt
     | BUpdate bank_pk a =>
         do! k := on_chain (λ w, unwrap (banks w !! bank_pk)) in
         do! opt := effect_lift (bank_config_opt_of a (Bank.mint_decimals k)) in
         bank_configure c p bank_pk opt
     | BSetupEmissions k d b mint rate total => bank_setup_emissions c p k d b mint rate total (typed_yes u)
     | BUpdateEmissions k d b dis rate extra => bank_update_emissions c p k d b dis rate extra (typed_yes u)
     | BSettleAllEmissions k => claim_all_emissions_for_bank c p k
     | BCollectFees k fee_ata => process_collect_fees c k fee_ata
     | BWithdrawFees k amount dst => process_withdraw_fees c k amount dst
     | BWithdrawInsurance k amount dst => process_withdraw_insurance c k amount dst
     end).
Proof.
  intros Hs. destruct b; unfold bank_configure, bank_setup_emissions, bank_update_emissions, process_collect_fees,
    process_withdraw_fees, process_withdraw_insurance, withdraw_from, claim_all_emissions_for_bank; within.
  by apply Hs.
Qed.
Lemma account_commands_within p a (new : ∀ k, k ∈ new_keys (CAccount a) → k ∈ K) :
  effect_within chain_moves
    (match a with
     | AGet => effect_ret tt
     | AUse k => use_account c p k
     | ADeposit k amount => deposit_command c p k amount
     | AWithdraw k amount all => withdraw_command c p k amount all
     | ABorrow k amount => borrow_command c p k amount
     | ALiquidate liquidatee ka kl amount => liquidate_command c p liquidatee ka kl amount
     | ACreate key => create_command c p key
     | ASetFlag k flashloan migration =>
         let flag := Z.lor (if flashloan then FLASHLOAN_ENABLED_FLAG else 0)
                           (if migration then TRANSFER_AUTHORITY_ALLOWED_FLAG else 0) in
         if flag =? 0 then effect_lift (Err Aborted) else process_set_user_flag c p k flag
     end).
Proof.
  destruct a; simpl in new; unfold use_account, deposit_command, withdraw_command, borrow_command, outflow_command,
    liquidate_command, create_command, process_set_user_flag; within; apply new; by left.
Qed.
End Within.

Lemma load_config_keeps o s : snd (load_config rk o s) = s.
Proof.
  unfold load_config, effect_bind, on_disk, effect_lift, Disk.load_profile, effect_reads. destruct s as [d w]. simpl.
  destruct (outcome_bind _ _) as [p|e|]; simpl; [|done..]. by destruct (Profile.get_config rk p (Some o)).
Qed.
Lemma load_config_ok o s p c : fst (load_config rk o s) = Ok (p, c) → Profile.get_config rk p (Some o) = Ok c.
Proof.
  unfold load_config, effect_bind, on_disk, effect_lift, Disk.load_profile, effect_reads. destruct s as [d w]. simpl.
  destruct (outcome_bind _ _) as [q|e|]; simpl; [|done..].
  destruct (Profile.get_config rk q (Some o)) eqn:E; simpl; [|done..]. by intros [= <- <-].
Qed.
(** A command that starts by loading the profile. *)
Lemma load_config_within Q `{!Reflexive Q, !Transitive Q} o s (f : Profile * Config.Config → cli unit) :
  (∀ p c, fst (load_config rk o s) = Ok (p, c) → chain_moves Q s (snd (f (p, c) s))) →
  chain_moves Q s (snd (effect_bind f (load_config rk o) s)).
Proof.
  intros H. unfold effect_bind. pose proof (load_config_keeps o s) as Hk.
  destruct (load_config rk o s) as [[[p c]|e|] s1]; simpl in Hk; subst s1; [by apply H|unfold chain_moves; reflexivity..].
Qed.

Lemma entry_within Q `{!Reflexive Q, !Transitive Q} K o u cmd s :
  (∀ k, k ∈ new_keys cmd → k ∈ K) → (settles_all cmd = true → sends_in Q K) →
  (∀ p c, fst (load_config rk o s) = Ok (p, c) →
     Config.fee_payer c ∈ K ∧ (Config.get_tx_mode c = Config.Normal → sends_in Q K)) →
  Q (chain s) (chain (snd (entry rk o u cmd s))).
Proof.
  intros Hnew Hset Hc. change (chain_moves Q s (snd (entry rk o u cmd s))).
  destruct cmd as [g|b|a|d]; simpl; [| | |by apply disk_within].
  - apply load_config_within; [done..|]. intros p c Hl. destruct (Hc p c Hl) as [Hp Hs].
    apply (bind_within Q); [by apply lift_within|intros _]. by eapply group_commands_within.
  - apply load_config_within; [done..|]. intros p c Hl. destruct (Hc p c Hl) as [Hp Hs].
    apply (bind_within Q); [by apply lift_within|intros _]. by eapply bank_commands_within.
  - apply load_config_within; [done..|]. intros p c Hl. destruct (Hc p c Hl) as [Hp Hs].
    apply (bind_within Q); [by apply lift_within|intros _]. by eapply account_commands_within.
Qed.

(** ** Dry runs, multisigs and signatures *)
(** The current profile's authority is a multisig. *)
Definition multisig_profile (o : GlobalOptions) (s : CliState) : Prop :=
  ∃ p c m, fst (load_config rk o s) = Ok (p, c) ∧ Config.multisig c = Some m.

(** A dry run leaves the chain as it was, and so does
    a command of a profile whose authority is a multisig, which only prints the
    transaction; the one command excepted is the settlement of all emissions,
    which sends its transactions in every mode. *)
Theorem dry_runs_leave_the_chain o u cmd s :
  opt_dry_run o = true ∨ multisig_profile o s → settles_all cmd = false →
  chain (snd (entry rk o u cmd s)) = chain s.
Proof.
  intros Ho Hs. symmetry.
  apply (entry_within eq (match fst (load_config rk o s) with Ok x => Config.fee_payer (snd x) :: new_keys cmd
                          | _ => new_keys cmd end)).
  - intros k Hk. destruct (fst (load_config rk o s)); [by right|done..].
  - congruence.
  - intros p c Hl. rewrite Hl. split; [by left|]. intros Hm%Config.normal_mode. destruct Hm as [Hd Hm]. exfalso.
    destruct Ho as [Ho|(p' & c' & m & Hl' & Hc')]; [|congruence].
    apply load_config_ok in Hl. apply DiskFacts.get_config_ok in Hl as (_ & _ & _ & Hdry). congruence.
Qed.

Section Signed.
Context {NL : NodeLaws N}.
(** A transaction ran whose every required signer is among [K]. *)
Inductive sent (K : list Pubkey) (w w' : World) : Prop :=
| sent_ixs ixs : runs w ixs w' → (∀ i k, i ∈ ixs → k ∈ client_signers i → k ∈ K) → sent K w w'.

Lemma sends_signed K : sends_in (rtc (sent K)) K.
Proof.
  intros w tx w' Hk H. apply send_runs in H as [Hs Hr]. apply rtc_once. exists (tx_ixs tx); [done|].
  intros i k Hi Hik. apply Hk, Hs, message_signers_spec. eauto.
Qed.

End Signed.
End Reach.

(** ** The instructions are the ones the program accepts *)
Section Accepted.
Context {F : FixedOps} {T : TokenSdk} {O : OracleSdk} {R : Runtime} {C : ClientSdk} {S : CliSdk} {N : Node}.

(** *** The addresses of a new bank *)
Lemma free_bank_seed_least c w group mint j : ∀ n i,
  i ≤ j < i + Z.of_nat n →
  account_exists w (fst (find_bank_pda group mint j (Config.program_id c))) = false →
  (∀ k, i ≤ k < j → account_exists w (fst (find_bank_pda group mint k (Config.program_id c))) = true) →
  free_bank_seed c w group mint n i = (fst (find_bank_pda group mint j (Config.program_id c)), j).
Proof.
  induction n as [|n IH]; intros i Hj Hfree Hused; [lia|]. cbn [free_bank_seed].
  destruct (decide (i = j)) as [->|Hne]; [by rewrite Hfree|].
  rewrite Hused by lia. apply IH; [lia|done|]. intros k Hk. apply Hused. lia.
Qed.

(** The bank's derived addresses are unused, and different. *)
Record vaults_free (w : World) (bank : Pubkey) : Prop := {
  vf_liquidity : tokens w !! fst (find_program_address LIQUIDITY_VAULT_SEED [bank]) = None;
  vf_insurance : tokens w !! fst (find_program_address INSURANCE_VAULT_SEED [bank]) = None;
  vf_fee : tokens w !! fst (find_program_address FEE_VAULT_SEED [bank]) = None;
  vf_distinct : NoDup [fst (find_program_address LIQUIDITY_VAULT_SEED [bank]);
                       fst (find_program_address INSURANCE_VAULT_SEED [bank]);
                       fst (find_program_address FEE_VAULT_SEED [bank])]
}.
(** What the chain has to be like for the bank [a] to be added by the authority
    of [c]: its group, the fee state and the fee, the mint, and an oracle account
    the configuration accepts. *)
Record can_add_bank (w : World) (c : Config.Config) (group bank fee_payer : Pubkey) (a : AddBankArgs)
    (mint : Mint) (cfg : BankConfig.BankConfigCompact) (fs : FeeState) : Prop := {
  cb_program : Config.program_id c = program_id;
  cb_admin : ∃ g, groups w !! group = Some g ∧ MarginfiGroup.admin g = Config.authority c;
  cb_fee_state : fee_state w = Some fs;
  cb_wallet : fs_global_fee_wallet fs = a_global_fee_wallet a;
  cb_fee : 0 < bank_init_flat_sol_fee fs →
    is_ok (system_transfer fee_payer (a_global_fee_wallet a) (bank_init_flat_sol_fee fs) (lamports w)) = true;
  cb_mint : mints w !! a_bank_mint a = Some mint;
  cb_token_program : mint_owner mint = token_id ∨ mint_owner mint = token_2022_id;
  cb_bank : banks w !! bank = None;
  cb_vaults : vaults_free w bank;
  cb_config : bank_config_of a (mint_dec mint) = Ok cfg;
  cb_valid : BankConfig.validate (BankConfig.of_compact cfg) = Ok tt;
  cb_oracle : OraclePriceFeedAdapter.validate_bank_config (BankConfig.of_compact cfg)
                [account_info (a_oracle_key a)] = Ok tt
}.

Lemma init_token_succeeds seed keys mint authority w : tokens w !! fst (find_program_address seed keys) = None →
  init_token seed keys (fst (find_program_address seed keys)) mint authority w =
  Ok (snd (find_program_address seed keys),
      set_tokens (<[fst (find_program_address seed keys) := mkTokenAccount mint authority 0]> (tokens w)) w).
Proof.
  intros H. unfold init_token, check_canonical_pda, check_new. rewrite Z.eqb_refl. simpl. by rewrite H.
Qed.
Lemma create_vaults_succeeds w c group bank token_program fee_payer a :
  Config.program_id c = program_id → vaults_free w bank →
  ∃ b1 b2 b3 b4 b5 b6 ts,
    create_vaults w (add_bank_accounts c group bank token_program fee_payer a) = Ok (b1, b2, b3, b4, b5, b6, set_tokens ts w).
Proof.
  intros Hp [Hl Hi Hf Hd]. do 2 (apply list.NoDup_cons in Hd as [? Hd]).
  unfold create_vaults, add_bank_accounts, find_bank_vault_pda, find_bank_vault_authority_pda, check_canonical_pda. simpl.
  rewrite Hp, !find_pda_own. rewrite !Z.eqb_refl. simpl.
  rewrite init_token_succeeds by done. simpl.
  rewrite init_token_succeeds by (simpl; rewrite lookup_insert_ne; [done|set_solver]). simpl.
  rewrite init_token_succeeds by (simpl; rewrite !lookup_insert_ne; [done|set_solver..]). simpl.
  by do 7 eexists.
Qed.

Lemma add_bank_succeeds w clock c group bank fee_payer a mint cfg fs :
  can_add_bank w c group bank fee_payer a mint cfg fs →
  ∃ w' b, add_bank w clock (add_bank_accounts c group bank (mint_owner mint) fee_payer a) cfg (Ok tt) = Ok w' ∧
    banks w' = <[bank := b]> (banks w) ∧ Bank.group b = group ∧ Bank.mint b = a_bank_mint a ∧
    Bank.config b = BankConfig.of_compact cfg.
Proof.
  intros [Hp (g & Hg & Ha) Hfs Hw Hfee Hm Htp Hb Hv Hcfg Hval Hor].
  destruct (create_vaults_succeeds w c group bank (mint_owner mint) fee_payer a Hp Hv)
    as (b1 & b2 & b3 & b4 & b5 & b6 & ts & Hcv).
  unfold add_bank, add_bank_handler, check_admin, load_group, check_fee_state, load_fee_state, check_new, check_token_program.
  rewrite Hcv. simpl. rewrite Hg. simpl. rewrite Ha, Z.eqb_refl, Hfs. simpl.
  unfold check_canonical_pda, find_fee_state_pda. rewrite Hp, find_pda_own, Z.eqb_refl. simpl.
  rewrite Hw, Z.eqb_refl. simpl. rewrite Hm. simpl. rewrite Hb. simpl.
  assert ((mint_owner mint =? token_id) || (mint_owner mint =? token_2022_id) = true) as ->.
  { apply orb_true_iff. rewrite !Z.eqb_eq. tauto. }
  simpl. destruct (0 <? bank_init_flat_sol_fee fs) eqn:E.
  - apply Z.ltb_lt in E. apply is_ok_true in Hfee as [ls Hls]; [|done]. rewrite Hls. simpl. rewrite Hval. simpl.
    rewrite Hor. simpl. by do 2 eexists.
  - simpl. rewrite Hval. simpl. rewrite Hor. simpl. by do 2 eexists.
Qed.

Lemma native_limit_ok limit decimals n : native_limit limit decimals = Ok n → n = limit * 10 ^ decimals ∧ is_u64 n.
Proof.
  unfold native_limit, u64_pow10. intros (p & Hp & H)%bind_ok. apply unwrap_ok, u64_checked_some in Hp as [-> _].
  by apply unwrap_ok, u64_checked_some in H as [-> H].
Qed.
Lemma bank_config_of_ok a decimals cfg : bank_config_of a decimals = Ok cfg →
  BankConfig.deposit_limit (BankConfig.of_compact cfg) = a_deposit_limit_ui a * 10 ^ decimals ∧
  BankConfig.borrow_limit (BankConfig.of_compact cfg) = a_borrow_limit_ui a * 10 ^ decimals ∧
  BankConfig.oracle_setup (BankConfig.of_compact cfg) = oracle_setup_of (a_oracle_setup a) ∧
  BankConfig.oracle_keys (BankConfig.of_compact cfg) = create_oracle_key_array (default (a_oracle_key a) (a_feed_id a)) ∧
  BankConfig.operational_state (BankConfig.of_compact cfg) = Operational.
Proof.
  unfold bank_config_of. intros ([[[[w1 w2] w3] w4] irc] & _ & H)%bind_ok.
  apply bind_ok in H as (d & [-> _]%native_limit_ok & H). apply bind_ok in H as (b & [-> _]%native_limit_ok & H).
  apply map_err_ok in H. unfold BankConfig.to_compact in H. apply bind_ok in H as (k & Hk & [= <-]).
  simpl in Hk. apply index_ok in Hk as [_ [= <-]]. done.
Qed.

(** C39: The bank the client asks for is the bank the program
    creates.  When the group's admin adds a bank, at a new key or at the address
    of the least seed that is free, with an oracle account its configuration
    accepts, the instruction the client builds goes through: the new bank is in
    the group, on the mint, with the limits in native units, the oracle given,
    and open. *)
Theorem added_bank_is_accepted w clock tx c p group bank a mint cfg fs n j :
  Profile.marginfi_group p = Some group →
  can_add_bank w c group bank (if a_seed a then Config.authority c else Config.explicit_fee_payer c) a mint cfg fs →
  (a_seed a = true →
     bank = fst (find_bank_address group (a_bank_mint a) j) ∧ 0 ≤ j < Z.of_nat n ∧ account_exists w bank = false ∧
     ∀ k, 0 ≤ k < j → account_exists w (fst (find_bank_address group (a_bank_mint a) k)) = true) →
  ∃ ix w' b,
    (if a_seed a then create_bank_ix_with_seed n c p w (mint_owner mint) (mint_dec mint) a
     else create_bank_ix c p (mint_owner mint) (mint_dec mint) bank a) = Ok (MfiIx program_id ix) ∧
    marginfi w clock tx ix = Ok w' ∧ banks w' = <[bank := b]> (banks w) ∧
    Bank.group b = group ∧ Bank.mint b = a_bank_mint a ∧
    BankConfig.deposit_limit (Bank.config b) = a_deposit_limit_ui a * 10 ^ mint_dec mint ∧
    BankConfig.borrow_limit (Bank.config b) = a_borrow_limit_ui a * 10 ^ mint_dec mint ∧
    BankConfig.oracle_setup (Bank.config b) = oracle_setup_of (a_oracle_setup a) ∧
    BankConfig.oracle_keys (Bank.config b) = create_oracle_key_array (default (a_oracle_key a) (a_feed_id a)) ∧
    BankConfig.operational_state (Bank.config b) = Operational.
Proof.
  intros Hg Hcan Hseed. pose proof (cb_config _ _ _ _ _ _ _ _ _ Hcan) as Hcfg.
  pose proof (cb_program _ _ _ _ _ _ _ _ _ Hcan) as Hp.
  destruct (add_bank_succeeds w clock _ _ _ _ _ _ _ _ Hcan) as (w' & b & Hadd & Hb & Hbg & Hbm & Hbc).
  apply bank_config_of_ok in Hcfg as Hlim. rewrite <- Hbc in Hlim.
  unfold create_bank_ix, create_bank_ix_with_seed. rewrite Hg. simpl. destruct (a_seed a).
  - destruct (Hseed eq_refl) as (-> & Hj & Hfree & Hused).
    rewrite (free_bank_seed_least c w group (a_bank_mint a) j); [|lia| |].
    + rewrite Hcfg, Hp, find_bank_pda_own. simpl. do 3 eexists. split; [done|]. split; [|done].
      simpl. unfold lending_pool_add_bank_with_seed. rewrite Z.eqb_refl. exact Hadd.
    + by rewrite Hp, find_bank_pda_own.
    + intros k Hk. rewrite Hp, find_bank_pda_own. by apply Hused.
  - rewrite Hcfg, Hp. simpl. do 3 eexists. split; [done|]. split; [|done]. exact Hadd.
Qed.

(** *** Bankruptcies *)
(** A position owes its bank more than the threshold. *)
Definition owes (banks : gmap Z Bank) (b : Balance) : bool :=
  Balance.active b &&
  match banks !! Balance.bank_pk b with
  | Some k => match Bank.get_liability_amount k (Balance.liability_shares b) with
              | Ok amount => is_positive_with_tolerance amount ZERO_AMOUNT_THRESHOLD
              | _ => false
              end
  | None => false
  end.
(** The debts of some accounts: an account and a bank each. *)
Definition debts (w : World) (banks : gmap Z Bank) (accs : list Pubkey) : list (Pubkey * Pubkey) :=
  concat ((λ a, match accounts w !! a with
                | Some m => (λ b, (a, Balance.bank_pk b)) <$> List.filter (owes banks) (MarginfiAccount.lending_account m)
                | None => []
                end) <$> accs).
Lemma banks_in_debt_ok banks l : ∀ pks, banks_in_debt banks l = Ok pks →
  pks = Balance.bank_pk <$> List.filter (owes banks) l.
Proof.
  induction l as [|b l IH]; intros pks H; simpl in H; [by injection H as <-|].
  apply bind_ok in H as (d & Hd & H). apply bind_ok in H as (pks' & Hl & [= <-]).
  rewrite (IH _ Hl). simpl. assert (owes banks b = d) as ->; [|by destruct d].
  unfold owes. destruct (Balance.active b); [|by injection Hd as <-]. simpl.
  apply bind_ok in Hd as (k & Hk & Hd). apply unwrap_ok in Hk. rewrite Hk.
  destruct (Bank.get_liability_amount _ _); [|done..]. by injection Hd as <-.
Qed.

(** An instruction of the command: the debt it is for, and the addresses it
    names. *)
Definition handles (c : Config.Config) (group : Pubkey) (debt : Pubkey * Pubkey) (ix : ClientIx) : Prop :=
  ∃ h, ix = MfiIx (Config.program_id c) (IxHandleBankruptcy h) ∧
    (hb_marginfi_account h, hb_bank h) = debt ∧ hb_marginfi_group h = group ∧ hb_signer h = Config.fee_payer c ∧
    hb_liquidity_vault h = fst (find_program_address LIQUIDITY_VAULT_SEED [hb_bank h]) ∧
    hb_insurance_vault h = fst (find_program_address INSURANCE_VAULT_SEED [hb_bank h]) ∧
    hb_insurance_vault_authority h = fst (find_program_address INSURANCE_VAULT_AUTHORITY_SEED [hb_bank h]).
Lemma bankruptcy_ixs_ok c p group banks a m : Profile.marginfi_group p = Some group → ∀ pks ixs,
  bankruptcy_ixs c p banks a m pks = Ok ixs → Forall2 (handles c group) ((λ k, (a, k)) <$> pks) ixs.
Proof.
  intros Hg. induction pks as [|k pks IH]; intros ixs H; simpl in H; [injection H as <-; constructor|].
  destruct (make_bankruptcy_ix _ _ _ _ _ _) as [h|e|] eqn:E; [|done..].
  apply bind_ok in H as (l & Hl & [= <-]). simpl. constructor; [|by apply IH].
  unfold make_bankruptcy_ix in E. rewrite Hg in E. do 2 apply bind_ok in E as (? & _ & E).
  apply bind_ok in E as (g & [= <-] & E). apply bind_ok in E as (metas & _ & [= <-]). by eexists.
Qed.
Lemma all_bankruptcy_ixs_ok c p group w banks : Profile.marginfi_group p = Some group → ∀ accs ixs,
  all_bankruptcy_ixs c p w banks accs = Ok ixs → Forall2 (handles c group) (debts w banks accs) ixs.
Proof.
  intros Hg. induction accs as [|a accs IH]; intros ixs H; simpl in H; [injection H as <-; constructor|].
  apply bind_ok in H as (m & Hm & H). apply unwrap_ok in Hm. apply bind_ok in H as (pks & Hpks & H).
  apply bind_ok in H as (l & Hl & H). apply bind_ok in H as (more & Hmore & [= <-]).
  unfold debts. rewrite fmap_cons, Hm. simpl. apply Forall2_app; [|by apply IH].
  apply banks_in_debt_ok in Hpks as ->. apply (bankruptcy_ixs_ok _ _ _ _ _ _ Hg) in Hl.
  by rewrite <- list_fmap_compose in Hl.
Qed.

(** The bankruptcy command handles every debt of the
    accounts it is given, once: its instructions are one per position that owes
    more than the threshold, in the order of the accounts and their positions,
    each for the group of the profile and with the vaults of the position's
    bank, and its transactions carry them all, at most four each. *)
Theorem bankruptcies_cover_every_debt c p group w accs ixs :
  Profile.marginfi_group p = Some group →
  all_bankruptcy_ixs c p w (load_all_banks w group) accs = Ok ixs →
  Forall2 (handles c group) (debts w (load_all_banks w group) accs) ixs ∧
  concat (chunks BANKRUPTCY_CHUNKS ixs) = ixs ∧
  Forall (λ chunk, chunk ≠ [] ∧ (length chunk ≤ 4)%nat) (chunks BANKRUPTCY_CHUNKS ixs) ∧
  ∀ d, handle_bankruptcy_for_accounts c p accs (mkCliState d w) =
       effect_each (bankruptcy_batch c) (chunks BANKRUPTCY_CHUNKS ixs) (mkCliState d w).
Proof.
  intros Hg H. split; [by apply (all_bankruptcy_ixs_ok _ p)|].
  destruct (chunks_spec BANKRUPTCY_CHUNKS ixs) as [Hc Hf]; [unfold BANKRUPTCY_CHUNKS; lia|].
  split_and!; [done|done|]. intros d. unfold handle_bankruptcy_for_accounts, effect_bind, effect_lift, on_chain, effect_reads.
  rewrite Hg. simpl. by rewrite H.
Qed.

(** *** The oracle of a bank *)
Lemma with_oracle_setup_keys c o oc :
  BankConfig.oracle_setup (Bank.configure_fields c (with_oracle oc o)) = oc_setup oc ∧
  BankConfig.oracle_keys (Bank.configure_fields c (with_oracle oc o)) = oc_keys oc.
Proof. done. Qed.
(** An account the program takes for a feed of the kind. *)
Definition oracle_account_ok (setup : OracleSetup) (ai : AccountInfo) : Prop :=
  match setup with
  | OracleNone => False
  | PythLegacy => PythLegacyPriceFeed.check_ais ai = Ok tt
  | SwitchboardV2 => SwitchboardV2PriceFeed.check_ais ai = Ok tt
  | SwitchboardPull => SwitchboardPullPriceFeed.check_ais ai = Ok tt
  | PythPushOracle => is_ok (PythPushOraclePriceFeed.load_price_update_v2_checked ai) = true
  end.

(** Setting the oracle of a bank to an account that is a
    feed of the kind named is accepted: the configuration and the account the
    client sends, which for a push feed name it by the feed id read from the
    account, are what the program checks of a bank's oracle.  Conversely a push
    feed whose account holds no price is refused before anything is sent. *)
Theorem configured_oracle_is_accepted o oracle key keys config :
  BankConfig.o_oracle o = Some oracle → oc_keys oracle = key :: keys → is_Some (account_owner key) →
  (oracle_account_ok (oc_setup oracle) (account_info key) →
   ∃ o' ais, resolve_oracle o = Ok (o', ais) ∧
     OraclePriceFeedAdapter.validate_bank_config (Bank.configure_fields config o') ais = Ok tt) ∧
  (oc_setup oracle = PythPushOracle → ¬ oracle_account_ok PythPushOracle (account_info key) →
   is_ok (resolve_oracle o) = false).
Proof.
  intros Ho Hk [own Hown]. unfold resolve_oracle. rewrite Ho, Hk. simpl. rewrite Hown. split.
  - intros Hok. unfold OraclePriceFeedAdapter.validate_bank_config.
    destruct (oc_setup oracle) eqn:E; [done|..|]; unfold oracle_account_ok in Hok; simpl.
    1,2,4: do 2 eexists; split; [done|]; unfold Bank.configure_fields; rewrite Ho; simpl; rewrite E; simpl;
      unfold OraclePriceFeedAdapter.check_key; simpl; rewrite ?Ho; simpl; rewrite Hk; simpl;
      by rewrite account_info_key, Z.eqb_refl.
    apply is_ok_true in Hok as [pu Hpu]. unfold PythPushOraclePriceFeed.peek_feed_id. rewrite Hpu. simpl.
    do 2 eexists. split; [done|]. simpl. unfold BankConfig.get_pyth_push_oracle_feed_id. simpl.
    unfold PythPushOraclePriceFeed.check_ai_and_feed_id. rewrite Hpu. simpl. by rewrite Z.eqb_refl.
  - intros -> Hno. simpl in *. unfold PythPushOraclePriceFeed.peek_feed_id.
    destruct (PythPushOraclePriceFeed.load_price_update_v2_checked _); [by destruct Hno|done..].
Qed.
End Accepted.

(** ** Commands that do not do what they are for *)
Section Failing.
Context {F : FixedOps} {T : TokenSdk} {O : OracleSdk} {R : Runtime} {C : ClientSdk} {S : CliSdk} {N : Node}.

(** Propagating the fee state asks for nobody's signature, and the fee payer
    signs: without a multisig the command always panics. *)
Theorem propagating_a_fee_panics {NL : NodeLaws N} c g s :
  Config.multisig c = None → propagate_fee c g s = (Panic, s).
Proof.
  intros Hm. unfold propagate_fee, submit, effect_bind, effect_lift, partial_sign, Config.get_signers. rewrite Hm. simpl.
  destruct (can_sign _ _) eqn:E; [|done]. exfalso.
  pose proof (proj1 (can_sign_spec _ _) E (Config.fee_payer c) ltac:(by left)) as E'.
  apply message_signers_spec in E' as [|(i & Hi & Hk)]; [done|].
  apply list_elem_of_singleton in Hi as ->. simpl in Hk. by apply elem_of_nil in Hk.
Qed.
(** Changing the admin of a group panics when the authority is a multisig. *)
Lemma multisig_cannot_configure_group c p group admin m s :
  Config.multisig c = Some m → Profile.marginfi_group p = Some group → group_configure c p admin s = (Panic, s).
Proof.
  intros Hm Hg. unfold group_configure, effect_bind, effect_lift, Config.get_signers. by rewrite Hg, Hm.
Qed.

Lemma signers_pay c k : k ∈ Config.get_signers c false → k = Config.authority c.
Proof.
  unfold Config.get_signers, Config.authority. simpl. case_bool_decide as E; [|by intros ?%elem_of_nil].
  rewrite E. by intros ->%list_elem_of_singleton.
Qed.
(** The creation of a group and of an account are signed by those they name. *)
Lemma group_create_signed {NL : NodeLaws N} c admin key fs :
  let ixs := [MfiIx (Config.program_id c) (IxGroupInitialize key admin fs)] in
  partial_sign ixs (Some (Config.authority c)) (Config.get_signers c false ++ [key]) =
  Ok (mkTransaction ixs (Some (Config.authority c)) (Config.get_signers c false ++ [key])).
Proof.
  intros ixs. unfold partial_sign. rewrite (proj2 (can_sign_spec _ _)); [done|].
  intros k [->%signers_pay|Hk]%elem_of_app; apply message_signers_spec; [by left|right].
  apply list_elem_of_singleton in Hk as ->. eexists. split; [by left|]. by left.
Qed.
Lemma create_account_signed {NL : NodeLaws N} c group key signer :
  let ixs := [MfiIx (Config.program_id c) (IxAccountInitialize group key signer)] in
  new_signed_with_payer ixs signer [signer; key] = Ok (mkTransaction ixs (Some signer) [signer; key]).
Proof.
  intros ixs. unfold new_signed_with_payer. rewrite (proj2 (signs_all_spec _ _)); [done|]. intros k.
  rewrite message_signers_spec, !elem_of_cons. split.
  - intros [->|[->|Hk]]; [by left| |by apply elem_of_nil in Hk]. right. eexists. split; [by left|]. by left.
  - intros [[= ->]|(i & Hi & Hk)]; [by left|]. apply list_elem_of_singleton in Hi as ->. simpl in Hk.
    unfold mfi_signers in Hk. simpl in Hk. rewrite !elem_of_cons in Hk. set_solver.
Qed.

(** A dry run of the creation of a group leaves the
    chain as it was, and makes the group, which does not exist, the group of the
    profile. *)
Theorem dry_run_saves_the_group {NL : NodeLaws N} c p admin key s :
  Config.dry_run c = true → Disk.cli_profiles_dir (disk s) = true →
  (∀ tx, simulate_transaction (chain s) tx = Ok tt) → groups (chain s) !! key = None →
  ∃ s', group_create c p admin true key s = (Ok tt, s') ∧ groups (chain s') !! key = None ∧
    ∃ p', Disk.profile_files (disk s') !! Profile.name p = Some p' ∧ Profile.marginfi_group p' = Some key.
Proof.
  intros Hd Hdir Hsim Hg. unfold group_create, effect_bind, effect_lift, submit. rewrite andb_false_r. simpl.
  unfold effect_bind, effect_lift. rewrite group_create_signed. unfold Config.get_tx_mode. rewrite Hd. simpl.
  unfold on_chain, effect_reads. rewrite Hsim.
  unfold on_disk, Disk.set_marginfi_group, Disk.write_to_file, Disk.write_profile. rewrite Hdir. simpl.
  eexists. split; [done|]. split; [done|]. simpl. rewrite lookup_insert_eq. by eexists.
Qed.
(** The creation of an account that the node refuses still makes it the account
    of the profile. *)
Lemma refused_account_is_saved {NL : NodeLaws N} c p group key s :
  Config.multisig c = None → Config.dry_run c = false → Profile.marginfi_group p = Some group →
  Disk.cli_profiles_dir (disk s) = true → (∀ tx, send_and_confirm (chain s) tx = None) →
  ∃ s', create_command c p key s = (Ok tt, s') ∧ chain s' = chain s ∧
    ∃ p', Disk.profile_files (disk s') !! Profile.name p = Some p' ∧ Profile.marginfi_account p' = Some key.
Proof.
  intros Hm Hd Hg Hdir Hsend. unfold create_command, effect_bind, effect_lift, Config.get_non_ms_authority_keypair.
  rewrite Hm, Hg. simpl. unfold reported, submit_signed, effect_bind, effect_lift.
  rewrite create_account_signed. unfold Config.get_tx_mode. rewrite Hd, Hm. simpl. rewrite Hsend.
  unfold on_disk, Disk.config, Disk.write_to_file, Disk.write_profile, effect_bind. rewrite Hdir. simpl.
  eexists. split; [done|]. split; [done|]. simpl. rewrite lookup_insert_eq. by eexists.
Qed.

(** The settlement of all emissions does not look at the mode. *)
Definition with_dry_run (d : bool) (c : Config.Config) : Config.Config :=
  Config.mkConfig (Config.cluster c) (Config.fee_payer c) (Config.multisig c) (Config.program_id c)
    (Config.commitment c) d (Config.lip_program c).
Lemma settlement_ignores_dry_run c p bank_pk d :
  claim_all_emissions_for_bank (with_dry_run d c) p bank_pk = claim_all_emissions_for_bank c p bank_pk.
Proof. reflexivity. Qed.

(** The account the withdrawal of fees creates is the authority's, while the
    tokens go to the account of the destination. *)
Lemma withdrawal_creates_the_wrong_account t vault make_ix c bank_pk amount_ui dst k n w d :
  banks w !! bank_pk = Some k → ui_to_native amount_ui (Bank.mint_decimals k) = Ok n →
  ∃ x, wf_dst_token_account x = associated_token_address dst (Bank.mint k) token_id ∧
    withdraw_from t vault make_ix c bank_pk amount_ui (Some dst) (mkCliState d w) =
    reported (submit c [create_ata (Config.authority c) (Bank.mint k) token_id; MfiIx marginfi_id (make_ix x n)]
      (Some (Config.authority c)) (Config.get_signers c false)) (mkCliState d w).
Proof.
  intros Hk Hn. unfold withdraw_from, on_chain, effect_reads, effect_lift, effect_bind at 1. simpl. rewrite Hk. simpl.
  unfold effect_bind at 1. rewrite Hn. simpl.
  match goal with |- context [make_ix ?x n] => exists x end. by split.
Qed.
End Failing.

(** An amount is cut, not rounded, after the product of doubles: 2.01 tokens
    with six decimals are 2009999 units. *)
Example amount_cut : ui_to_native (S754_finite false 0x10147ae147ae14 (-51)) 6 = Ok 2009999.
Proof. vm_compute. reflexivity. Qed.

(** ** Examples *)
Section Demo.
#[local] Existing Instance i80f48.
#[local] Existing Instance demo_token_sdk.
#[local] Existing Instance demo_oracle_sdk.
#[local] Existing Instance demo_runtime.

(** A node that runs a fully signed transaction, one instruction after the
    other; the seeds 0 to 9 of the first group's banks are used. *)
Definition demo_other_signers (o : OtherIx) : list Pubkey :=
  match o with CreateAssociatedTokenAccountIdempotent funder _ _ _ => [funder] | _ => [] end.
Definition demo_signers (i : ClientIx) : list Pubkey :=
  match i with MfiIx _ ix => mfi_signers ix | Other o => demo_other_signers o end.
Definition demo_message_signers (ixs : list ClientIx) (payer : option Pubkey) : list Pubkey :=
  option_list payer ++ (ixs ≫= demo_signers).
Fixpoint demo_run (w : World) (ixs : list ClientIx) : option World :=
  match ixs with
  | [] => Some w
  | MfiIx program ix :: ixs =>
      if decide (program = program_id)
      then match marginfi w demo_clock demo_tx ix with Ok w => demo_run w ixs | _ => None end
      else demo_run w ixs
  | Other _ :: ixs => demo_run w ixs
  end.
Definition demo_node : Node := {|
  other_signers := demo_other_signers;
  message_signers := demo_message_signers;
  can_sign required keys := bool_decide (Forall (λ k, k ∈ required) keys);
  signs_all required keys := bool_decide (Forall (λ k, k ∈ required) keys) && bool_decide (Forall (λ k, k ∈ keys) required);
  simulate_transaction _ _ := Ok tt;
  send_and_confirm w tx :=
    if decide (Forall (λ k, k ∈ tx_signatures tx) (demo_message_signers (tx_ixs tx) (tx_payer tx)))
    then demo_run w (tx_ixs tx) else None;
  account_exists _ k := (60000 <=? k) && (k <? 60010)
|}.
#[local] Existing Instance demo_node.

Lemma demo_run_runs ixs : ∀ w w', demo_run w ixs = Some w' → runs w ixs w'.
Proof.
  induction ixs as [|[program ix|o] ixs IH]; simpl; intros w w' H.
  - injection H as <-. constructor.
  - case_decide as E.
    + destruct (marginfi _ _ _ _) as [w1| |] eqn:Hw; [|done..]. subst program.
      change (runs w (MfiIx program_id ix :: ixs) w'). eapply runs_mfi; eauto.
    + apply (runs_foreign _ _ _ _ (tokens w) (mints w) (lamports w)); [done|]. destruct w. by apply IH.
  - apply (runs_other _ _ _ (tokens w) (mints w) (lamports w)). destruct w. by apply IH.
Qed.
Lemma demo_node_laws : NodeLaws demo_node.
Proof.
  split.
  - intros ixs payer k. simpl. unfold demo_message_signers. rewrite elem_of_app, list_elem_of_bind. split.
    + intros [H|(i & Hk & Hi)]; [left|right; eauto]. destruct payer; simpl in H; set_solver.
    + intros [->|(i & Hi & Hk)]; [left; by left|right; eauto].
  - intros required keys. simpl. by rewrite bool_decide_eq_true, list.Forall_forall.
  - intros required keys. simpl. rewrite andb_true_iff, !bool_decide_eq_true, !list.Forall_forall. split; [|naive_solver].
    intros [H1 H2] k. split; [apply H1|apply H2].
  - intros w tx w' H. simpl in H. case_decide as E; [|done]. split; [|by apply demo_run_runs].
    intros k Hk. rewrite list.Forall_forall in E. by apply E.
Qed.
#[local] Existing Instance demo_node_laws.

Definition demo_cli_sdk : CliSdk.
Proof.
  refine {|
    marginfi_id := 1000;
    find_pda s ks p := if p =? 1000 then find_program_address s ks else (0, 0);
    find_bank_pda g m s p := if p =? 1000 then find_bank_address g m s else (0, 0);
    i80f48_from_f64 x :=
      match x with
      | S754_finite s m e =>
          let v := if 0 <=? e + 48 then Z.pos m * 2 ^ (e + 48) else Z.pos m / 2 ^ (- (e + 48)) in
          Ok (if s then - v else v)
      | S754_zero _ => Ok 0
      | _ => Panic
      end;
    ui_amount_to_amount x d := f64_as_u64 (f64_mul x (f64_of (10 ^ d)))
  |}; done.
Defined.
#[local] Existing Instance demo_cli_sdk.
#[local] Definition demo_client : ClientSdk := demo_client_sdk token_id.
#[local] Existing Instance demo_client.
#[local] Open Scope string_scope.

(** The group's admin, key 5, with a profile of its own. *)
Definition demo_cli_keys (path : string) : option Pubkey :=
  if bool_decide (path = "admin.json") then Some 5 else None.
Definition demo_admin : Profile :=
  Profile.mkProfile "admin" Mainnet "admin.json" None "https://node" (Some 1000) None (Some 1) (Some 800).
Definition demo_cli_world : World := set_lamports (<[5 := 100]> (lamports demo_admin_world)) demo_admin_world.
Definition demo_cli_state : CliState := mkCliState (DiskFacts.created demo_disk demo_admin) demo_cli_world.
Definition demo_options (dry : bool) : GlobalOptions := mkGlobalOptions dry true None.
Definition demo_input : UserInput := mkUserInput "" true.
Definition demo_cli_config : Config.Config :=
  ok_value (Config.mkConfig Mainnet 0 None 0 Processed false 0)
    (Profile.get_config demo_cli_keys demo_admin (Some (demo_options false))).

(** The admin hands the group over to key 9: sent it has its effect, as a dry
    run it has none. *)
Definition demo_handover (dry : bool) : CliState :=
  snd (entry demo_cli_keys (demo_options dry) demo_input (CGroup (GUpdate (Some 9))) demo_cli_state).
Example demo_handover_done : MarginfiGroup.admin <$> (groups (chain (demo_handover false)) !! 1) = Some 9.
Proof. vm_compute. reflexivity. Qed.
Lemma dry_runs_leave_the_chain_witness : chain (demo_handover true) = chain demo_cli_state.
Proof. apply dry_runs_leave_the_chain; [left|]; reflexivity. Defined.


Definition demo_frac (a b : Z) : f64 := f64_div (f64_of a) (f64_of b).
Definition demo_args (seed : bool) : AddBankArgs :=
  mkAddBankArgs 500 seed 900 None ArgPythLegacy (demo_frac 8 10) (demo_frac 9 10) (demo_frac 12 10) (demo_frac 11 10)
    1000 500 (demo_frac 4 10) (demo_frac 4 10) (f64_of 3) (f64_of 0) (demo_frac 1 10) (demo_frac 1 100) (f64_of 0)
    Collateral 60 8.
Definition demo_cfg (seed : bool) : BankConfig.BankConfigCompact :=
  ok_value demo_compact (bank_config_of (demo_args seed) 6).
Lemma demo_can_add seed bank : bank = (if seed : bool then 60010 else 700) →
  can_add_bank demo_cli_world demo_cli_config 1 bank 5 (demo_args seed) (mkMint 500 token_id 6 None)
    (demo_cfg seed) (mkFeeState 2000 7 8 5 255 0 0).
Proof.
  intros ->. split; try (by destruct seed).
  - eexists. split; [reflexivity|]. by vm_compute.
  - by left.
  - destruct seed; split; try (vm_compute; reflexivity);
      apply (bool_decide_unpack _); vm_compute; exact I.
Qed.
(** Ten seeds are taken: the bank is created at the eleventh. *)
Lemma added_bank_is_accepted_witness :
  ∃ ix w' b, create_bank_ix_with_seed 20 demo_cli_config demo_admin demo_cli_world token_id 6 (demo_args true)
               = Ok (MfiIx program_id ix) ∧
    marginfi demo_cli_world demo_clock demo_tx ix = Ok w' ∧ banks w' = <[60010 := b]> (banks demo_cli_world) ∧
    BankConfig.deposit_limit (Bank.config b) = 1000 * 10 ^ 6.
Proof.
  destruct (added_bank_is_accepted demo_cli_world demo_clock demo_tx demo_cli_config demo_admin 1 60010 (demo_args true)
              (mkMint 500 token_id 6 None) (demo_cfg true) (mkFeeState 2000 7 8 5 255 0 0) 20 10)
    as (ix & w' & b & Hix & Hrun & Hb & _ & _ & Hd & _).
  - reflexivity.
  - apply demo_can_add. reflexivity.
  - intros _. split; [reflexivity|]. split; [lia|]. split; [reflexivity|]. intros k Hk.
    change (((60000 <=? 60000 + k)%Z && (60000 + k <? 60010)%Z) = true).
    apply andb_true_intro. split; [apply Z.leb_le|apply Z.ltb_lt]; lia.
  - exists ix, w', b. split; [exact Hix|]. split; [exact Hrun|]. split; [exact Hb|exact Hd].
Defined.

(** Account 800 is bankrupt in bank 610. *)
Definition demo_bankruptcy_ixs : list ClientIx :=
  ok_value [] (all_bankruptcy_ixs demo_cli_config demo_admin demo_bankrupt_world
                 (load_all_banks demo_bankrupt_world 1) [800]).
Lemma bankruptcies_cover_every_debt_witness :
  debts demo_bankrupt_world (load_all_banks demo_bankrupt_world 1) [800] = [(800, 610)] ∧
  Forall2 (handles demo_cli_config 1) [(800, 610)] demo_bankruptcy_ixs ∧
  concat (chunks BANKRUPTCY_CHUNKS demo_bankruptcy_ixs) = demo_bankruptcy_ixs.
Proof.
  destruct (bankruptcies_cover_every_debt demo_cli_config demo_admin 1 demo_bankrupt_world [800] demo_bankruptcy_ixs)
    as (H & Hc & _ & _).
  - reflexivity.
  - apply ok_value_ok. vm_compute. reflexivity.
  - split; [vm_compute; reflexivity|]. split; [exact H|exact Hc].
Defined.

Definition demo_oracle_opt : BankConfig.BankConfigOpt :=
  with_oracle (mkOracleConfig PythLegacy (create_oracle_key_array 900)) Bank.demo_opt.
Lemma configured_oracle_is_accepted_witness :
  ∃ o' ais, resolve_oracle demo_oracle_opt = Ok (o', ais) ∧
    OraclePriceFeedAdapter.validate_bank_config (Bank.configure_fields Bank.demo_config o') ais = Ok tt.
Proof.
  apply (configured_oracle_is_accepted demo_oracle_opt (mkOracleConfig PythLegacy (create_oracle_key_array 900)) 900
           [0; 0; 0; 0] Bank.demo_config).
  - reflexivity.
  - reflexivity.
  - eexists. reflexivity.
  - vm_compute. reflexivity.
Defined.

Lemma propagating_a_fee_panics_witness :
  propagate_fee demo_cli_config 1 demo_cli_state = (Panic, demo_cli_state).
Proof. apply propagating_a_fee_panics. reflexivity. Defined.

Lemma dry_run_saves_the_group_witness :
  let c := with_dry_run true demo_cli_config in
  ∃ s', group_create c demo_admin None true 2 demo_cli_state = (Ok tt, s') ∧ groups (chain s') !! 2 = None ∧
    ∃ p', Disk.profile_files (disk s') !! "admin" = Some p' ∧ Profile.marginfi_group p' = Some 2.
Proof. apply dry_run_saves_the_group; [reflexivity|reflexivity|reflexivity|reflexivity]. Defined.
End Demo.
