(* ===== verification/LookupTables.v ===== *)
(** * The address lookup tables of a group

    [clients/rust/marginfi-cli/src/processor/group.rs]: the client collects the
    addresses the instructions of a group use, and stores those that no lookup
    table holds yet in the tables it is given, as long as they have room, and in
    new ones.  The state is the lookup tables on chain, by address; the
    transactions that create and extend them are the node's. *)
From S2P Require Import Prelude Errors Fixed Constants Utils GroupState InterestRate BankState Price Account BankAccount Risk World Profiles Client Cli CliSpec.
#[local] Open Scope Z_scope.

(** A table and its addresses; [lut_authority] is not checked, only reported. *)
Notation Tables := (gmap Z (list Pubkey)).

(** Sending [create_lookup_table] and [extend_lookup_table]; [None] is a
    transaction that failed. *)
Class LutNode := {
  create_lookup_table : Tables → option (Pubkey * Tables);
  extend_lookup_table : Pubkey → list Pubkey → Tables → option Tables;
  system_program_id : Pubkey
}.
(** What the address lookup table program documents: a new table is empty and
    at a new address, extending one appends, up to 256 addresses. *)
Definition MAX_ADDRESSES : nat := 256.
Class LutLaws (L : LutNode) : Prop := {
  create_spec t a t' : create_lookup_table t = Some (a, t') → t !! a = None ∧ t' = <[a := []]> t;
  extend_spec a keys t t' : extend_lookup_table a keys t = Some t' →
    ∃ l, t !! a = Some l ∧ t' = <[a := l ++ keys]> t ∧ (length (l ++ keys) ≤ MAX_ADDRESSES)%nat
}.
(** A node that runs every transaction that can be run. *)
Class LutLive (L : LutNode) : Prop := {
  create_live t : is_Some (create_lookup_table t);
  extend_live a keys t l : t !! a = Some l → keys ≠ [] → (length (l ++ keys) ≤ MAX_ADDRESSES)%nat →
    is_Some (extend_lookup_table a keys t)
}.

Section LookupTables.
Context {T : TokenSdk} {R : Runtime} {S : CliSdk} {L : LutNode}.
Notation lut := (effect Tables ClientError).

Definition CHUNK_SIZE : nat := 22.
Definition KEY_BATCH_SIZE : nat := 20.

(** [get_multiple_accounts(chunk)?.into_iter().flatten()], chunk by chunk: the
    tables that exist, in order. *)
Definition load_tables (t : Tables) (existing : list Pubkey) : list (list Pubkey) :=
  concat (map (λ chunk, omap (λ a, t !! a) chunk) (chunks CHUNK_SIZE existing)).

Definition bank_addresses (x : Pubkey * Bank) : list Pubkey :=
  [fst x; Bank.liquidity_vault (snd x); fst (find_bank_vault_authority_pda (fst x) Liquidity marginfi_id)] ++
  List.filter (λ k, negb (k =? default_pubkey)) (BankConfig.oracle_keys (Bank.config (snd x))).
Definition group_addresses (c : Config.Config) (group : Pubkey) (banks : list (Pubkey * Bank)) : list Pubkey :=
  dedup ([Config.program_id c; group; token_id; system_program_id] ++ concat (bank_addresses <$> banks)).
Definition missing_keys (tables : list (list Pubkey)) (keys : list Pubkey) : list Pubkey :=
  List.filter (λ k, negb (existsb (λ l, bool_decide (k ∈ l)) tables)) keys.

(** [process_check_lookup_tables] reports the missing keys. *)
Definition process_check_lookup_tables (c : Config.Config) (p : Profile) (w : World) (existing : list Pubkey)
    : lut (list Pubkey) :=
  effect_reads (λ t,
    let? group := unwrap (Profile.marginfi_group p) in
    Ok (missing_keys (load_tables t existing) (group_addresses c group (map_to_list (load_all_banks w group))))).

(** The extensions of one table, a batch at a time. *)
Fixpoint extend_batches (address : Pubkey) (batches : list (list Pubkey)) : lut unit :=
  match batches with
  | [] => effect_ret tt
  | batch :: batches =>
      do! _ := (λ t, match extend_lookup_table address batch t with
                     | Some t' => (Ok tt, t')
                     | None => (Err TransactionFailed, t)
                     end) in
      extend_batches address batches
  end.
(** What is left of the missing keys. *)
Definition add_to_lut (missing : list Pubkey) (table_current_size : nat) (address : Pubkey) : lut (list Pubkey) :=
  if (table_current_size <=? 256)%nat then
    let n_keys_to_add_to_table := Nat.min (length missing) (256 - table_current_size) in
    do! _ := extend_batches address (chunks KEY_BATCH_SIZE (take n_keys_to_add_to_table missing)) in
    effect_ret (drop n_keys_to_add_to_table missing)
  else effect_lift Panic.
Definition create_new_lut : lut Pubkey := λ t,
  match create_lookup_table t with
  | Some (a, t') => (Ok a, t')
  | None => (Err TransactionFailed, t)
  end.

(** The tables are paired with the addresses they were asked for by position. *)
Fixpoint extend_existing (missing : list Pubkey) (tables : list (list Pubkey * Pubkey)) : lut (list Pubkey) :=
  match tables with
  | [] => effect_ret missing
  | (table, address) :: tables =>
      do! missing := add_to_lut missing (length table) address in
      extend_existing missing tables
  end.
(** [while !missing_keys.is_empty()]; [n] bounds the rounds. *)
Fixpoint fill_new_tables (n : nat) (missing : list Pubkey) : lut unit :=
  match missing, n with
  | [], _ => effect_ret tt
  | _, 0%nat => effect_lift Panic
  | _, Datatypes.S n =>
      do! lut_address := create_new_lut in
      do! missing := add_to_lut missing 0 lut_address in
      fill_new_tables n missing
  end.
Definition process_update_lookup_tables (c : Config.Config) (p : Profile) (w : World) (existing : list Pubkey)
    : lut unit :=
  do! group := effect_lift (unwrap (Profile.marginfi_group p)) in
  do! t := effect_reads Ok in
  let lookup_tables := load_tables t existing in
  let missing := missing_keys lookup_tables (group_addresses c group (map_to_list (load_all_banks w group))) in
  do! missing := extend_existing missing (zip lookup_tables existing) in
  fill_new_tables (length missing) missing.
End LookupTables.

(** ** Correctness *)
Section Complete.
Context {T : TokenSdk} {R : Runtime} {S : CliSdk} {L : LutNode} {LL : LutLaws L}.
Notation lut := (effect Tables ClientError).

(** When every table asked for exists, the tables loaded are those, in order. *)
Lemma load_tables_existing t existing : load_tables t existing = omap (λ a, t !! a) existing.
Proof.
  unfold load_tables. destruct (chunks_spec CHUNK_SIZE existing) as [E _]; [unfold CHUNK_SIZE; lia|].
  rewrite <- E at 2. clear E.
  induction (chunks CHUNK_SIZE existing) as [|c l IH]; [done|]. cbn [concat map]. by rewrite list.omap_app, IH.
Qed.

(** What the command may do to the tables: new ones appear, addresses are
    appended, none holds more than 256. *)
Record grown (t t' : Tables) : Prop := {
  grown_prefix a l : t !! a = Some l → ∃ l', t' !! a = Some (l ++ l');
  grown_bound a l : (∀ b m, t !! b = Some m → (length m ≤ MAX_ADDRESSES)%nat) →
    t' !! a = Some l → (length l ≤ MAX_ADDRESSES)%nat
}.
#[global] Instance grown_reflexive : Reflexive grown.
Proof. intros t. split; [intros a l H; exists []; by rewrite app_nil_r|intros a l Hb H; eauto]. Qed.
#[global] Instance grown_transitive : Transitive grown.
Proof.
  intros t1 t2 t3 [P1 B1] [P2 B2]. split.
  - intros a l (l1 & H1)%P1. destruct (P2 _ _ H1) as (l2 & H2). exists (l1 ++ l2). by rewrite app_assoc.
  - intros a l Hb H. eapply B2; [|exact H]. intros b m Hm. by eapply B1.
Qed.
Lemma extend_grown a keys t t' : extend_lookup_table a keys t = Some t' → grown t t'.
Proof.
  intros (l & Hl & -> & Hlen)%extend_spec. split.
  - intros b m Hb. destruct (decide (a = b)) as [<-|]; simplify_eq.
    + exists keys. by rewrite lookup_insert_eq.
    + exists []. by rewrite lookup_insert_ne, app_nil_r.
  - intros b m Hb [[<- <-]|[_ H]]%lookup_insert_Some; [done|]. by eapply Hb.
Qed.
Lemma create_grown a t t' : create_lookup_table t = Some (a, t') → grown t t'.
Proof.
  intros (Hn & ->)%create_spec. split.
  - intros b m Hb. exists []. rewrite app_nil_r, lookup_insert_ne; congruence.
  - intros b m Hb [[<- <-]|[_ H]]%lookup_insert_Some; [simpl; lia|]. by eapply Hb.
Qed.

(** *** Whatever the node answers *)
Lemma extend_batches_grown a batches : effect_within grown (extend_batches a batches).
Proof.
  induction batches as [|b bs IH]; [apply effect_within_ret; exact _|].
  simpl. apply effect_within_bind; [exact _| |by intros]. intros t.
  destruct (extend_lookup_table a b t) eqn:E; simpl; [by eapply extend_grown|reflexivity].
Qed.
Lemma add_to_lut_grown missing n a : effect_within grown (add_to_lut missing n a).
Proof.
  unfold add_to_lut. destruct (n <=? 256)%nat; [|apply effect_within_lift; exact _].
  apply effect_within_bind; [exact _|apply extend_batches_grown|intros _]. apply effect_within_ret. exact _.
Qed.
Lemma extend_existing_grown tables : ∀ missing, effect_within grown (extend_existing missing tables).
Proof.
  induction tables as [|[l a] tables IH]; intros missing; simpl; [apply effect_within_ret; exact _|].
  apply effect_within_bind; [exact _|apply add_to_lut_grown|done].
Qed.
Lemma create_new_lut_grown : effect_within grown create_new_lut.
Proof.
  intros t. unfold create_new_lut. destruct (create_lookup_table t) as [[a t']|] eqn:E; simpl; [|reflexivity].
  by eapply create_grown.
Qed.
Lemma fill_new_tables_grown n : ∀ missing, effect_within grown (fill_new_tables n missing).
Proof.
  induction n as [|n IH]; intros [|k missing]; simpl;
    [apply effect_within_ret|apply effect_within_lift|apply effect_within_ret|]; try exact _.
  apply effect_within_bind; [exact _|apply create_new_lut_grown|intros a].
  apply effect_within_bind; [exact _|apply add_to_lut_grown|done].
Qed.
Lemma update_grown c p w existing : effect_within grown (process_update_lookup_tables c p w existing).
Proof.
  unfold process_update_lookup_tables. apply effect_within_bind; [exact _|apply effect_within_lift; exact _|intros g].
  apply effect_within_bind; [exact _|apply effect_within_reads; exact _|intros t].
  apply effect_within_bind; [exact _|apply extend_existing_grown|intros m]. apply fill_new_tables_grown.
Qed.

(** *** When the node runs every transaction *)
Context {LV : LutLive L}.
(** A key is in some table among the addresses [P]. *)
Definition stored (P : Pubkey → Prop) (t : Tables) (k : Pubkey) : Prop :=
  ∃ a l, P a ∧ t !! a = Some l ∧ k ∈ l.
Lemma stored_grown P t t' k : grown t t' → stored P t k → stored P t' k.
Proof.
  intros [Hg _] (a & l & Ha & Hl & Hk). destruct (Hg _ _ Hl) as (l' & Hl'). exists a, (l ++ l'). set_solver.
Qed.

Lemma extend_batches_ok a batches : ∀ l t, t !! a = Some l → Forall (λ b, b ≠ []) batches →
  (length (l ++ concat batches) ≤ MAX_ADDRESSES)%nat →
  extend_batches a batches t = (Ok tt, <[a := l ++ concat batches]> t).
Proof.
  induction batches as [|b bs IH]; intros l t Hl Hne Hlen; simpl in *.
  { by rewrite app_nil_r, insert_id. }
  apply Forall_cons_1 in Hne as [Hb Hbs]. rewrite app_assoc in Hlen.
  destruct (extend_live a b t l Hl Hb) as [t1 Ht1]; [rewrite length_app in Hlen; lia|].
  unfold effect_bind. rewrite Ht1. apply extend_spec in Ht1 as (l0 & Hl0 & -> & _). simplify_eq.
  rewrite (IH (l ++ b)); [|by rewrite lookup_insert_eq|done|done].
  by rewrite insert_insert_eq, app_assoc.
Qed.
Lemma add_to_lut_ok missing l a t : t !! a = Some l → (length l ≤ MAX_ADDRESSES)%nat →
  let n := Nat.min (length missing) (256 - length l) in
  add_to_lut missing (length l) a t = (Ok (drop n missing), <[a := l ++ take n missing]> t).
Proof.
  intros Hl Hlen n. unfold add_to_lut. rewrite (proj2 (Nat.leb_le _ _)) by done. unfold effect_bind. fold n.
  destruct (chunks_spec KEY_BATCH_SIZE (take n missing)) as [Hc Hf]; [unfold KEY_BATCH_SIZE; lia|].
  rewrite (extend_batches_ok a _ l); [by rewrite Hc|done| |].
  - eapply list.Forall_impl; [exact Hf|]. by intros b [? _].
  - rewrite Hc, length_app, length_take. unfold MAX_ADDRESSES in *. lia.
Qed.

Lemma omap_insert_other (existing : list Pubkey) (t : Tables) a l : a ∉ existing →
  omap (λ b, <[a := l]> t !! b) existing = omap (λ b, t !! b) existing.
Proof.
  induction existing as [|b bs IH]; intros Ha; [done|]. apply not_elem_of_cons in Ha as [Hab Ha]. simpl.
  rewrite lookup_insert_ne by done. pose proof (IH Ha) as E. unfold omap in E. by rewrite E.
Qed.
Lemma extend_existing_ok existing : ∀ missing t, NoDup existing →
  (∀ a, a ∈ existing → ∃ l, t !! a = Some l ∧ (length l ≤ MAX_ADDRESSES)%nat) →
  ∃ rest t', extend_existing missing (zip (omap (λ a, t !! a) existing) existing) t = (Ok rest, t') ∧
    ∀ k, k ∈ missing → k ∈ rest ∨ stored (λ a, a ∈ existing) t' k.
Proof.
  induction existing as [|a existing IH]; intros missing t Hnd Hex; simpl.
  { exists missing, t. split; [done|]. by left. }
  apply list.NoDup_cons in Hnd as [Ha Hnd]. destruct (Hex a) as (l & Hl & Hlen); [by left|].
  rewrite Hl. simpl. unfold effect_bind. rewrite (add_to_lut_ok missing l a t Hl Hlen).
  set (n := Nat.min (length missing) (256 - length l)). set (t1 := <[a := l ++ take n missing]> t).
  change (list_omap Z (list Z) (λ b, t !! b) existing) with (omap (λ b, t !! b) existing).
  rewrite <- (omap_insert_other existing t a (l ++ take n missing)) by done. fold t1.
  destruct (IH (drop n missing) t1) as (rest & t' & Hrun & Hk); [done| |].
  { intros b Hb. unfold t1. rewrite lookup_insert_ne by set_solver. apply Hex. by right. }
  exists rest, t'. split; [done|]. intros k Hin. rewrite <- (take_drop n missing) in Hin.
  apply elem_of_app in Hin as [Hin|Hin].
  - right. apply (stored_grown _ t1).
    + pose proof (extend_existing_grown (zip (omap (λ a, t1 !! a) existing) existing) (drop n missing) t1) as Hg.
      by rewrite Hrun in Hg.
    + exists a, (l ++ take n missing). unfold t1. rewrite lookup_insert_eq. set_solver.
  - destruct (Hk k Hin) as [?|(b & m & Hb & Hm & Hkm)]; [by left|]. right. exists b, m. split; [by right|done].
Qed.

Lemma fill_new_tables_ok n : ∀ missing t, (length missing ≤ n)%nat →
  ∃ t', fill_new_tables n missing t = (Ok tt, t') ∧ ∀ k, k ∈ missing → stored (λ a, t !! a = None) t' k.
Proof.
  induction n as [|n IH]; intros [|k0 missing] t Hn; try (simpl in Hn; lia).
  1,2: exists t; split; [done|]; by intros k ?%elem_of_nil.
  cbn [fill_new_tables]. unfold effect_bind, create_new_lut. destruct (create_live t) as [[a t1] Ha]. rewrite Ha.
  pose proof (create_grown _ _ _ Ha) as Hg1. apply create_spec in Ha as [Hnew ->].
  pose proof (add_to_lut_ok (k0 :: missing) [] a (<[a := []]> t) ltac:(by rewrite lookup_insert_eq)
    ltac:(unfold MAX_ADDRESSES; simpl; lia)) as Hadd. cbv zeta in Hadd. rewrite Nat.sub_0_r in Hadd.
  cbn [length app] in Hadd. rewrite Hadd.
  set (m := Nat.min (Datatypes.S (length missing)) 256) in *.
  set (t1 := <[a := take m (k0 :: missing)]> (<[a := []]> t)) in *.
  destruct (IH (drop m (k0 :: missing)) t1) as (t' & Hrun & Hk).
  { rewrite length_drop. simpl in *. lia. }
  exists t'. split; [done|]. intros k Hin. rewrite <- (take_drop m (k0 :: missing)) in Hin.
  pose proof (fill_new_tables_grown n (drop m (k0 :: missing)) t1) as Hg. rewrite Hrun in Hg. simpl in Hg.
  apply elem_of_app in Hin as [Hin|Hin].
  - apply (stored_grown _ t1); [done|]. exists a, (take m (k0 :: missing)). unfold t1. by rewrite lookup_insert_eq.
  - destruct (Hk k Hin) as (b & l & Hb & Hl & Hkl). exists b, l. split_and!; [|done|done].
    unfold t1 in Hb. apply lookup_insert_None in Hb as [Hb Hne]. by rewrite lookup_insert_ne in Hb.
Qed.

Lemma missing_keys_elem tables keys k : k ∈ keys → k ∈ missing_keys tables keys ∨ ∃ l, l ∈ tables ∧ k ∈ l.
Proof.
  intros Hk. destruct (existsb (λ l, bool_decide (k ∈ l)) tables) eqn:E.
  - right. apply existsb_exists in E as (l & Hl & Hkl). exists l.
    split; [by apply list_elem_of_In|by apply bool_decide_eq_true in Hkl].
  - left. apply list_elem_of_In, filter_In. split; [by apply list_elem_of_In|by rewrite E].
Qed.
Lemma no_missing_keys tables keys : (∀ k, k ∈ keys → ∃ l, l ∈ tables ∧ k ∈ l) → missing_keys tables keys = [].
Proof.
  intros H. unfold missing_keys. induction keys as [|k ks IH]; [done|]. simpl.
  destruct (H k) as (l & Hl & Hk); [by left|].
  rewrite (proj2 (existsb_exists _ _)); [apply IH; intros k' Hk'; apply H; by right|].
  exists l. split; [by apply list_elem_of_In|by apply bool_decide_eq_true].
Qed.

(** [marginfi group update-lookup-table], when the tables it is given exist: it
    ends, no table loses an address or outgrows the table program's limit, every
    address of the group is in a table it was given or in one it created, and
    [check-lookup-table] of those tables then reports nothing missing. *)
Theorem lookup_tables_hold_every_address c p w g existing t :
  Profile.marginfi_group p = Some g → NoDup existing →
  (∀ a, a ∈ existing → ∃ l, t !! a = Some l ∧ (length l ≤ MAX_ADDRESSES)%nat) →
  ∃ t', process_update_lookup_tables c p w existing t = (Ok tt, t') ∧ grown t t' ∧
    (∀ k, k ∈ group_addresses c g (map_to_list (load_all_banks w g)) →
      stored (λ a, a ∈ existing ∨ t !! a = None) t' k) ∧
    (∀ tables, (∀ a, a ∈ existing ∨ t !! a = None ∧ is_Some (t' !! a) → a ∈ tables) →
      process_check_lookup_tables c p w tables t' = (Ok [], t')).
Proof.
  intros Hg Hnd Hex. pose proof (update_grown c p w existing t) as Hgr.
  unfold process_update_lookup_tables in *. rewrite Hg in *. cbn [unwrap effect_lift] in *.
  unfold effect_bind, effect_lift, effect_reads in *. rewrite load_tables_existing in *.
  set (keys := group_addresses c g (map_to_list (load_all_banks w g))) in *.
  destruct (extend_existing_ok existing (missing_keys (omap (λ a, t !! a) existing) keys) t) as (rest & t1 & E1 & K1);
    [done..|].
  rewrite E1 in *. destruct (fill_new_tables_ok (length rest) rest t1) as (t2 & E2 & K2); [lia|].
  pose proof (fill_new_tables_grown (length rest) rest t1) as G2. rewrite E2 in *. simpl in Hgr, G2.
  pose proof (extend_existing_grown (zip (omap (λ a, t !! a) existing) existing)
    (missing_keys (omap (λ a, t !! a) existing) keys) t) as G1. rewrite E1 in G1. simpl in G1.
  assert (∀ k, k ∈ keys → stored (λ a, a ∈ existing ∨ t !! a = None) t2 k) as Hall.
  { intros k Hk. destruct (missing_keys_elem (omap (λ a, t !! a) existing) keys k Hk) as [Hm|(l & Hl & Hkl)].
    - destruct (K1 k Hm) as [Hr|Hs].
      + destruct (K2 k Hr) as (a & l & Ha & Hl & Hkl). exists a, l. split_and!; [right|done..].
        destruct (t !! a) eqn:Ea; [|done]. destruct G1 as [G1 _]. destruct (G1 _ _ Ea) as [? ?]. congruence.
      + apply (stored_grown _ _ _ _ G2) in Hs as (a & l & Ha & Hl). exists a, l. split; [by left|done].
    - apply list_elem_of_omap in Hl as (a & Ha & Hal). destruct Hgr as [Hp _]. destruct (Hp _ _ Hal) as (l' & Hl').
      exists a, (l ++ l'). split_and!; [by left|done|]. set_solver. }
  exists t2. split_and!; [done|done|done|]. intros tables Ht. unfold process_check_lookup_tables, effect_reads.
  rewrite Hg. cbn [unwrap outcome_bind]. rewrite load_tables_existing. fold keys. rewrite no_missing_keys; [done|].
  intros k (a & l & Ha & Hl & Hkl)%Hall. exists l. split; [|done].
  apply list_elem_of_omap. exists a. split; [|done]. apply Ht. destruct Ha; eauto.
Qed.
End Complete.

(** ** Examples *)
Section Demo.
#[local] Existing Instance i80f48.
#[local] Existing Instance demo_token_sdk.
#[local] Existing Instance demo_runtime.
#[local] Existing Instance demo_cli_sdk.

(** A node that creates tables at unused addresses. *)
Definition demo_lut_node : LutNode := {|
  create_lookup_table t := let a := fresh (dom t) in Some (a, <[a := []]> t);
  extend_lookup_table a keys t :=
    l ← t !! a;
    if decide (length (l ++ keys) ≤ MAX_ADDRESSES)%nat then Some (<[a := l ++ keys]> t) else None;
  system_program_id := 0
|}.
#[local] Existing Instance demo_lut_node.
Lemma demo_lut_laws : LutLaws demo_lut_node.
Proof.
  split.
  - intros t a t' H. injection H as <- <-. split; [|done]. apply not_elem_of_dom, is_fresh.
  - intros a keys t t' H. simpl in H. apply bind_Some in H as (l & Hl & H). case_decide; [|done]. simplify_eq. eauto.
Qed.
Lemma demo_lut_live : LutLive demo_lut_node.
Proof.
  split; [by eexists|]. intros a keys t l Hl _ Hlen. simpl. rewrite Hl. simpl. by rewrite decide_True.
Qed.

(** Table 31 of the two given has room for two addresses: the rest of the
    group's go to a new table. *)
Definition demo_tables : Tables := {[ 30 := [0; 1]; 31 := seqZ 100000 254 ]}.
Lemma lookup_tables_hold_every_address_witness :
  ∃ t', process_update_lookup_tables demo_cli_config demo_admin demo_cli_world [31; 30] demo_tables = (Ok tt, t') ∧
    grown demo_tables t'.
Proof.
  destruct (lookup_tables_hold_every_address (LL := demo_lut_laws) (LV := demo_lut_live)
    demo_cli_config demo_admin demo_cli_world 1 [31; 30] demo_tables) as (t' & H & Hg & _).
  - reflexivity.
  - apply (bool_decide_unpack _). vm_compute. exact I.
  - intros a Ha. repeat (apply elem_of_cons in Ha as [->|Ha]); [| |by apply elem_of_nil in Ha];
      (eexists; split; [reflexivity|]); apply Nat.leb_le; vm_compute; reflexivity.
  - exists t'. split; [exact H|exact Hg].
Defined.

(** A table that does not exist shifts the pairing: the table that is
    counted is not the one that is extended, and the update fails although
    the node would run every transaction that can be run. *)
Example missing_table_shifts_the_pairing :
  fst (process_update_lookup_tables demo_cli_config demo_admin demo_cli_world [29; 30] demo_tables) =
  Err TransactionFailed.
Proof. vm_compute. reflexivity. Qed.
(** Banks that share an oracle put its address into the tables twice. *)
Example dedup_keeps_copies : dedup [1; 2; 2; 1] = [1; 2; 1].
Proof. reflexivity. Qed.
End Demo.
