(* ===== verification/SlotQueue.v ===== *)
(** * Updates that wait for their slot to be confirmed

    The services of the indexer ([commands/snapshot_accounts.rs],
    [commands/index_transactions.rs], [commands/index_accounts.rs]) share one
    queue discipline: what is received is kept by slot until the slot is known
    to be confirmed; only so many confirmed slots are remembered, and what is
    older than all of them is thrown away.  The contents [V] kept for a slot
    differ between the services. *)
From S2P Require Import Prelude.
From stdpp Require Import sorting.
#[local] Open Scope Z_scope.

(** [BTreeSet]s and [BTreeMap]s are iterated in ascending order. *)
Definition ascending (X : gset Z) : list Z := merge_sort Z.le (elements X).
Definition first (X : gset Z) : option Z := head (ascending X).
Definition last_of (X : gset Z) : option Z := last (ascending X).

(** A slot is remembered once it is confirmed or finalized, and the oldest is
    forgotten when there are more than [slots_buffer_size]. *)
Definition remember_slot (slots_buffer_size : Z) (latest : gset Z) (slot : Z) : gset Z :=
  let latest' := {[slot]} ∪ latest in
  if bool_decide (slot ∉ latest) && (slots_buffer_size <? Z.of_nat (size latest'))
  then match first latest' with Some oldest => latest' ∖ {[oldest]} | None => latest' end
  else latest'.

Section Queue.
Context {V : Type}.
Notation queue := (gmap Z V).

(** What is too old is dropped first. *)
Definition retain (latest : gset Z) (q : queue) : queue :=
  match first latest with
  | Some oldest => filter (λ '(slot, _), oldest ≤ slot) q
  | None => q
  end.
(** The loop over the slots of the queue: the contents of the confirmed ones,
    and the queue without them. *)
Fixpoint take_confirmed (latest : gset Z) (slots : list Z) (q : queue) : list (Z * V) * queue :=
  match slots with
  | [] => ([], q)
  | slot :: slots =>
      if match last_of latest with Some l => l <? slot | None => false end then ([], q)
      else if bool_decide (slot ∈ latest) then
        let '(more, q') := take_confirmed latest slots (delete slot q) in
        (match q !! slot with Some v => (slot, v) :: more | None => more end, q')
      else take_confirmed latest slots q
  end.
Definition drain (latest : gset Z) (q : queue) : list (Z * V) * queue :=
  let q := retain latest q in take_confirmed latest (ascending (dom q)) q.
End Queue.

(** ** Correctness *)
Lemma ascending_elem X x : x ∈ ascending X ↔ x ∈ X.
Proof. unfold ascending. by rewrite merge_sort_Permutation, elem_of_elements. Qed.
Lemma ascending_sorted X : StronglySorted Z.le (ascending X).
Proof. apply StronglySorted_merge_sort; apply _. Qed.
Lemma ascending_nodup X : NoDup (ascending X).
Proof. unfold ascending. rewrite merge_sort_Permutation. apply NoDup_elements. Qed.
Lemma first_le X l x : first X = Some l → x ∈ X → l ≤ x.
Proof.
  unfold first. intros Hl Hx%ascending_elem. pose proof (ascending_sorted X) as Hs.
  destruct (ascending X) as [|y ys]; [done|]. injection Hl as ->.
  apply StronglySorted_inv in Hs as [_ Hall]. rewrite list.Forall_forall in Hall.
  apply elem_of_cons in Hx as [->|Hx]; [lia|by apply Hall].
Qed.
Lemma first_elem X l : first X = Some l → l ∈ X.
Proof.
  unfold first. intros H. apply ascending_elem. destruct (ascending X); [done|]. injection H as ->. by left.
Qed.
Lemma first_none x X : first X = None → x ∉ X.
Proof.
  unfold first. intros H Hx%ascending_elem. destruct (ascending X); [by apply elem_of_nil in Hx|done].
Qed.
Lemma last_le X l x : last_of X = Some l → x ∈ X → x ≤ l.
Proof.
  unfold last_of. intros Hl Hx%ascending_elem. pose proof (ascending_sorted X) as Hs.
  induction (ascending X) as [|y ys IH]; [by apply elem_of_nil in Hx|].
  apply StronglySorted_inv in Hs as [Hs Hall]. rewrite list.Forall_forall in Hall.
  destruct ys as [|z zs]; [injection Hl as ->; apply list_elem_of_singleton in Hx; lia|].
  apply elem_of_cons in Hx as [->|Hx]; [|by apply IH]. apply Hall. by apply last_Some_elem_of.
Qed.
Lemma beyond_last latest slot slots :
  match last_of latest with Some l => l <? slot | None => false end = true →
  StronglySorted Z.le (slot :: slots) → ∀ x, x ∈ slot :: slots → x ∉ latest.
Proof.
  destruct (last_of latest) as [l|] eqn:El; [|done]. intros Hl%Z.ltb_lt Hs x Hx Hin.
  pose proof (last_le _ _ _ El Hin). apply StronglySorted_inv in Hs as [_ Hall]. rewrite list.Forall_forall in Hall.
  apply elem_of_cons in Hx as [->|Hx]; [lia|]. specialize (Hall x Hx). lia.
Qed.

(** No slot is forgotten but the oldest, and only when the buffer is full. *)
Lemma remember_slot_elem n latest slot x : x ∈ remember_slot n latest slot → x = slot ∨ x ∈ latest.
Proof.
  unfold remember_slot. destruct (_ && _); [|set_solver]. destruct (first _); set_solver.
Qed.
(** A slot is still remembered, or it is older than those that fill the
    buffer. *)
Definition accounted_for (n : Z) (latest : gset Z) (x : Z) : Prop :=
  x ∈ latest ∨ n ≤ Z.of_nat (size latest) ∧ ∀ y, y ∈ latest → x < y.
Lemma remember_slot_accounts n latest slot x :
  x = slot ∨ accounted_for n latest x → accounted_for n (remember_slot n latest slot) x.
Proof.
  intros Hx. unfold remember_slot, accounted_for in *. case_bool_decide as Hin; cbn [andb].
  - destruct (Z.ltb_spec n (Z.of_nat (size ({[slot]} ∪ latest)))) as [Hc|Hc].
    + destruct (first _) as [l|] eqn:E; [|exfalso; apply (first_none slot) in E; set_solver].
      pose proof (first_elem _ _ E) as Hl. pose proof (first_le _ _ slot E ltac:(set_solver)) as Hls.
      rewrite size_difference, size_singleton by set_solver.
      destruct (decide (x = slot ∨ x ∈ latest)) as [Hx'|Hx'].
      * destruct (decide (x = l)) as [->|]; [right|left; set_solver]. split; [lia|]. intros y Hy.
        pose proof (first_le _ _ y E ltac:(set_solver)). assert (y ≠ l) by set_solver. lia.
      * right. split; [lia|]. intros y Hy. destruct Hx as [?|[?|[_ Hx]]]; [tauto|tauto|].
        destruct (decide (y = slot)) as [->|]; [|apply Hx; set_solver].
        assert (l ∈ latest) as Hl' by set_solver. specialize (Hx l Hl'). lia.
    + destruct Hx as [->|[?|[Hn Hx]]]; [left; set_solver|left; set_solver|]. exfalso.
      rewrite size_union, size_singleton in Hc by set_solver. lia.
  - assert ({[slot]} ∪ latest = latest) as -> by set_solver. destruct Hx as [->|Hx]; [|done].
    left. by destruct (decide (slot ∈ latest)).
Qed.
Lemma remember_slot_size n latest slot : Z.of_nat (size latest) ≤ n →
  Z.of_nat (size (remember_slot n latest slot)) ≤ n.
Proof.
  intros Hs. unfold remember_slot. case_bool_decide as Hin; cbn [andb].
  - assert (size ({[slot]} ∪ latest) = S (size latest)) as Hsz.
    { rewrite size_union by set_solver. by rewrite size_singleton. }
    destruct (Z.ltb_spec n (Z.of_nat (size ({[slot]} ∪ latest)))) as [Hc|Hc]; [|done].
    destruct (first _) as [l|] eqn:E.
    + apply first_elem in E. rewrite size_difference by set_solver. rewrite Hsz, size_singleton. lia.
    + exfalso. apply (first_none slot) in E. set_solver.
  - by assert ({[slot]} ∪ latest = latest) as -> by set_solver.
Qed.

Section Facts.
Context {V : Type}.
Implicit Types q : gmap Z V.

(** The slot is older than every slot still remembered. *)
Definition too_old (latest : gset Z) (slot : Z) : bool :=
  match first latest with Some oldest => slot <? oldest | None => false end.
Lemma confirmed_recent latest slot : slot ∈ latest → too_old latest slot = false.
Proof.
  unfold too_old. intros Hs. destruct (first _) as [l|] eqn:E; [|done]. apply Z.ltb_ge. by eapply first_le.
Qed.
Lemma retain_lookup latest q slot : retain latest q !! slot = if too_old latest slot then None else q !! slot.
Proof.
  unfold retain, too_old. destruct (first _) as [l|]; [|done]. destruct (Z.ltb_spec slot l) as [Hl|Hl].
  - apply map_lookup_filter_None_2. right. intros m _ Hle. simpl in Hle. lia.
  - destruct (q !! slot) as [m|] eqn:E.
    + by apply map_lookup_filter_Some_2.
    + apply map_lookup_filter_None_2. by left.
Qed.

Lemma take_confirmed_spec latest slots : ∀ q out q',
  StronglySorted Z.le slots → NoDup slots → take_confirmed latest slots q = (out, q') →
  (∀ slot v, (slot, v) ∈ out ↔ slot ∈ slots ∧ slot ∈ latest ∧ q !! slot = Some v) ∧
  StronglySorted Z.le (fst <$> out) ∧ NoDup (fst <$> out) ∧
  (∀ slot, q' !! slot = if bool_decide (slot ∈ slots ∧ slot ∈ latest) then None else q !! slot).
Proof.
  induction slots as [|x slots IH]; intros q out q' Hs Hnd H; simpl in H.
  { injection H as <- <-. split_and!; [|constructor|constructor|].
    - intros slot v. rewrite !elem_of_nil. tauto.
    - intros slot. by rewrite bool_decide_eq_false_2 by (rewrite elem_of_nil; tauto). }
  destruct (match last_of latest with Some l => l <? x | None => false end) eqn:Eb.
  { injection H as <- <-. pose proof (beyond_last _ _ _ Eb Hs) as Hno. split_and!; [|constructor|constructor|].
    - intros slot v. rewrite elem_of_nil. split; [done|]. intros (Hin & Hl & _). by eapply Hno.
    - intros slot. rewrite bool_decide_eq_false_2; [done|]. intros [Hin Hl]. by eapply Hno. }
  pose proof Hs as [Hs' Hall]%StronglySorted_inv. rewrite list.Forall_forall in Hall.
  apply list.NoDup_cons in Hnd as [Hx Hnd]. case_bool_decide as Hlat.
  - destruct (take_confirmed latest slots (delete x q)) as [more q1] eqn:Et. injection H as <- <-.
    destruct (IH _ _ _ Hs' Hnd Et) as (Hmem & Hsort & Hdup & Hq).
    assert (∀ y, y ∈ fst <$> more → y ∈ slots) as Hsub.
    { intros y ([slot v] & -> & (Hy & _)%Hmem)%list_elem_of_fmap. done. }
    assert (∀ slot v, (slot, v) ∈ more ↔ slot ∈ slots ∧ slot ∈ latest ∧ q !! slot = Some v) as Hmem'.
    { intros slot v. rewrite Hmem, lookup_delete_Some. naive_solver. }
    split_and!.
    + intros slot v. destruct (q !! x) as [vx|] eqn:Ex; [rewrite elem_of_cons|]; rewrite Hmem', elem_of_cons.
      * split; [intros [[= -> ->]|(? & ? & ?)]; auto|]. intros ([->|Hin] & Hl & Hv); [left; congruence|auto].
      * split; [tauto|]. intros ([->|Hin] & Hl & Hv); [congruence|auto].
    + destruct (q !! x); simpl; [|done]. constructor; [done|]. apply list.Forall_forall. intros y Hy. by apply Hall, Hsub.
    + destruct (q !! x); simpl; [|done]. apply list.NoDup_cons. split; [|done]. intros Hin. by apply Hx, Hsub.
    + intros slot. rewrite Hq. destruct (decide (slot = x)) as [->|Hne].
      * rewrite bool_decide_eq_false_2 by tauto. rewrite bool_decide_eq_true_2 by (split; [by left|done]). apply lookup_delete_eq.
      * rewrite lookup_delete_ne by congruence. by rewrite (bool_decide_ext _ (slot ∈ x :: slots ∧ slot ∈ latest)) by (rewrite elem_of_cons; tauto).
  - destruct (IH _ _ _ Hs' Hnd H) as (Hmem & Hsort & Hdup & Hq). split_and!; [|done|done|].
    + intros slot v. rewrite Hmem, elem_of_cons. naive_solver.
    + intros slot. rewrite Hq. by rewrite (bool_decide_ext _ (slot ∈ x :: slots ∧ slot ∈ latest)) by (rewrite elem_of_cons; naive_solver).
Qed.

(** One turn of a consumer: it takes the contents of exactly the confirmed
    slots, in the order of the slots, and leaves those of the others, without
    the slots that are too old. *)
Lemma drain_spec latest q out q' : drain latest q = (out, q') →
  (∀ slot v, (slot, v) ∈ out ↔ slot ∈ latest ∧ q !! slot = Some v) ∧
  StronglySorted Z.le (fst <$> out) ∧ NoDup (fst <$> out) ∧
  (∀ slot, q' !! slot = if bool_decide (slot ∈ latest) || too_old latest slot then None else q !! slot).
Proof.
  intros H. apply take_confirmed_spec in H as (Hmem & Hsort & Hdup & Hq); [|apply ascending_sorted|apply ascending_nodup].
  split_and!; [|done|done|].
  - intros slot v. rewrite Hmem, ascending_elem, elem_of_dom, retain_lookup. split.
    + intros (_ & Hl & Hv). by rewrite (confirmed_recent _ _ Hl) in Hv.
    + intros [Hl Hv]. rewrite (confirmed_recent _ _ Hl), Hv. eauto.
  - intros slot. rewrite Hq. case_bool_decide as H1; [by rewrite bool_decide_eq_true_2 by apply H1|].
    rewrite ascending_elem, elem_of_dom, retain_lookup in H1. rewrite retain_lookup.
    destruct (too_old latest slot); [by rewrite orb_true_r|]. case_bool_decide as Hl; simpl; [|done].
    destruct (q !! slot) eqn:E; [|done]. destruct H1. eauto.
Qed.

(** Nothing is taken twice or lost: the queue is split into what is taken,
    what stays and what is thrown away. *)
Lemma drain_partition latest q out q' : drain latest q = (out, q') →
  map_to_list q ≡ₚ out ++ map_to_list q' ++
    map_to_list (filter (λ x, too_old latest x.1 = true) q).
Proof.
  intros H. destruct (drain_spec _ _ _ _ H) as (Hmem & _ & Hdup & Hq).
  apply NoDup_Permutation; [apply NoDup_map_to_list| |].
  - apply NoDup_app. split; [by apply NoDup_fmap_1 in Hdup|]. split.
    + intros [slot v] Ho Hin. apply Hmem in Ho as [Hl Hv].
      rewrite elem_of_app, !elem_of_map_to_list, map_lookup_filter_Some, Hq in Hin.
      rewrite bool_decide_eq_true_2 in Hin by done. destruct Hin as [?|[_ Ht]]; [done|].
      simpl in Ht. by rewrite confirmed_recent in Ht.
    + apply NoDup_app. split; [apply NoDup_map_to_list|]. split; [|apply NoDup_map_to_list].
      intros [slot v] Hin. rewrite !elem_of_map_to_list in *. rewrite Hq in Hin. rewrite map_lookup_filter_Some.
      intros [_ Ht]. simpl in Ht. rewrite Ht, orb_true_r in Hin. done.
  - intros [slot v]. rewrite !elem_of_app, Hmem, !elem_of_map_to_list, Hq, map_lookup_filter_Some. simpl.
    case_bool_decide; destruct (too_old latest slot); simpl; naive_solver.
Qed.
(** A confirmed slot that is no longer remembered is too old. *)
Lemma forgotten_too_old n latest x : 0 < n → accounted_for n latest x → x ∉ latest → too_old latest x = true.
Proof.
  intros Hn [?|[Hs H]] Hx; [done|]. unfold too_old.
  destruct (first latest) as [l|] eqn:E; [by apply Z.ltb_lt, H, first_elem|].
  assert (latest ≠ ∅) as Hne by (intros ->; rewrite size_empty in Hs; lia).
  apply set_choose_L in Hne as [y Hy]. by apply (first_none y) in E.
Qed.
Lemma too_old_spec latest slot : too_old latest slot = true → ∃ y, y ∈ latest ∧ slot < y.
Proof.
  unfold too_old. destruct (first latest) as [l|] eqn:E; [|done]. intros H%Z.ltb_lt. exists l.
  split; [by apply first_elem|done].
Qed.
End Facts.
