(* ===== verification/Indexer.v ===== *)
(** * The indexer's view of the program

    [observability/indexer/src/utils/]: the off-chain service that follows the
    program's accounts and publishes metrics of them.

    [Module RiskEngine2] (marginfi_account_dup.rs) is its own copy of the risk
    engine, on banks and price feeds it looks up in maps; [Module Snapshot]
    (snapshot.rs, swb_pull.rs) is the table of accounts it keeps up to date;
    [Module Queue] (commands/snapshot_accounts.rs) is how updates reach it once
    their slot is confirmed; [Module Metrics] (metrics.rs) is what it computes of the snapshot.

    Decoding an account's bytes (Anchor, the token program, switchboard), the
    RPC node and the order in which a [HashMap] is iterated are parameters.
    Double-precision numbers are those of [SpecFloat], rounded to nearest.  The
    row types, which only print the metrics, and the progress logs are left
    out. *)
From S2P Require Import Prelude Floats Errors Fixed Constants Utils GroupState InterestRate BankState Price Account BankAccount Risk SlotQueue.
From stdpp Require Import sorting.
#[local] Open Scope Z_scope.

(** The errors of [anyhow::Result]: those of the program's functions, and the
    indexer's own. *)
Inductive IndexerError : Set :=
| EProgram (e : error)
| EPriceFeedNotFound (price_feed bank : Pubkey)
| EGroupNotFound (group bank : Pubkey)
| EMath
| EAlignment
| EClient.
Notation IndexerResult := (outcome IndexerError).

(** [r?] on a result of the program, and [r.unwrap()]. *)
Definition lift {A} (m : MarginfiResult A) : IndexerResult A := map_err EProgram m.
Definition unwrap_result {E A} (m : outcome E A) : IndexerResult A :=
  match m with Ok a => Ok a | _ => Panic end.

Lemma lift_ok {A} (m : MarginfiResult A) a : lift m = Ok a ↔ m = Ok a.
Proof. unfold lift, map_err. destruct m; naive_solver. Qed.
Lemma unwrap_result_ok {E A} (m : outcome E A) a : unwrap_result m = Ok a → m = Ok a.
Proof. unfold unwrap_result. destruct m; naive_solver. Qed.

(** ** The copy of the risk engine *)
Module RiskEngine2.
Record BankAccountWithPriceFeed2 := mkBA2 {
  bank : Bank; price_feed : OraclePriceFeedAdapter.OraclePriceFeedAdapter; balance : Balance
}.
Record RiskEngine2 := mkRiskEngine2 { bank_accounts_with_price : list BankAccountWithPriceFeed2 }.

Section Ops.
Context {F : FixedOps} {O : OracleSdk}.

(** [BankAccountWithPriceFeed2::load] *)
Definition load_one (banks : gmap Z Bank) (price_feeds : gmap Z OraclePriceFeedAdapter.OraclePriceFeedAdapter)
    (b : Balance) : IndexerResult BankAccountWithPriceFeed2 :=
  let? k := unwrap (banks !! Balance.bank_pk b) in
  let? key := index (BankConfig.oracle_keys (Bank.config k)) 0 in
  let? f := unwrap (price_feeds !! key) in
  Ok (mkBA2 k f b).
Fixpoint load_all (banks : gmap Z Bank) (price_feeds : gmap Z OraclePriceFeedAdapter.OraclePriceFeedAdapter)
    (bs : list Balance) : IndexerResult (list BankAccountWithPriceFeed2) :=
  match bs with
  | [] => Ok []
  | b :: bs =>
      let? a := load_one banks price_feeds b in
      let? l := load_all banks price_feeds bs in
      Ok (a :: l)
  end.
Definition load (m : MarginfiAccount) (banks : gmap Z Bank)
    (price_feeds : gmap Z OraclePriceFeedAdapter.OraclePriceFeedAdapter) : IndexerResult RiskEngine2 :=
  let? l := load_all banks price_feeds
              (LendingAccount.active_balances (MarginfiAccount.lending_account m)) in
  Ok (mkRiskEngine2 l).

Definition calc_weighted_assets (a : BankAccountWithPriceFeed2) (requirement_type : RequirementType)
    : IndexerResult I80F48 :=
  let k := bank a in
  match BankConfig.risk_tier (Bank.config k) with
  | Collateral =>
      let asset_weight := BankConfig.get_weight (Bank.config k) requirement_type Assets in
      let? lower_price := lift (OraclePriceFeedAdapter.get_price_of_type (price_feed a)
                                  (get_oracle_price_type requirement_type) (Some Low)) in
      let? asset_weight :=
        match requirement_type with
        | Initial =>
            let? d := lift (Bank.maybe_get_asset_weight_init_discount k lower_price) in
            match d with
            | Some discount => ok_or (checked_mul asset_weight discount) EMath
            | None => Ok asset_weight
            end
        | _ => Ok asset_weight
        end in
      let? amount := lift (Bank.get_asset_amount k (Balance.asset_shares (balance a))) in
      unwrap_result (calc_value amount lower_price (Bank.mint_decimals k) (Some asset_weight))
  | Isolated => Ok ZERO
  end.

Definition calc_weighted_liabs (a : BankAccountWithPriceFeed2) (requirement_type : RequirementType)
    : IndexerResult I80F48 :=
  let k := bank a in
  let liability_weight := BankConfig.get_weight (Bank.config k) requirement_type Liabilities in
  let? higher_price := lift (OraclePriceFeedAdapter.get_price_of_type (price_feed a)
                               (get_oracle_price_type requirement_type) (Some High)) in
  let? amount := lift (Bank.get_liability_amount k (Balance.liability_shares (balance a))) in
  lift (calc_value amount higher_price (Bank.mint_decimals k) (Some liability_weight)).

Definition calc_weighted_assets_and_liabilities_values (a : BankAccountWithPriceFeed2)
    (requirement_type : RequirementType) : IndexerResult (I80F48 * I80F48) :=
  let? side := unwrap_result (Balance.get_side (balance a)) in
  match side with
  | Some Assets => let? v := calc_weighted_assets a requirement_type in Ok (v, ZERO)
  | Some Liabilities => let? v := calc_weighted_liabs a requirement_type in Ok (ZERO, v)
  | None => Ok (ZERO, ZERO)
  end.

(** The loop of both [get_account_health_components] and
    [get_equity_components]; a sum out of range panics. *)
Fixpoint sum_components (requirement_type : RequirementType) (l : list BankAccountWithPriceFeed2)
    (total_assets total_liabilities : I80F48) : IndexerResult (I80F48 * I80F48) :=
  match l with
  | [] => Ok (total_assets, total_liabilities)
  | a :: l =>
      let? '(assets, liabilities) := calc_weighted_assets_and_liabilities_values a requirement_type in
      let? total_assets := unwrap (checked_add total_assets assets) in
      let? total_liabilities := unwrap (checked_add total_liabilities liabilities) in
      sum_components requirement_type l total_assets total_liabilities
  end.
Definition get_account_health_components (e : RiskEngine2) (requirement_type : RequirementType)
    : IndexerResult (I80F48 * I80F48) :=
  sum_components requirement_type (bank_accounts_with_price e) ZERO ZERO.
Definition get_equity_components (e : RiskEngine2) : IndexerResult (I80F48 * I80F48) :=
  sum_components Equity (bank_accounts_with_price e) ZERO ZERO.
Definition get_account_health (e : RiskEngine2) (requirement_type : RequirementType) : IndexerResult I80F48 :=
  let? '(assets, liabilities) := get_account_health_components e requirement_type in
  unwrap (checked_sub assets liabilities).
End Ops.

(** ** Agreement with the program *)
Section Agreement.
Context {F : FixedOps} {L : FixedLaws F} {O : OracleSdk}.

(** The two computations return the same values; their errors may differ. *)
Definition same_values {A} (m : IndexerResult A) (m' : MarginfiResult A) : Prop :=
  ∀ a, m = Ok a ↔ m' = Ok a.

Lemma same_lift {A} (m : MarginfiResult A) : same_values (lift m) m.
Proof. intros a. apply lift_ok. Qed.
Lemma same_unwrap_result {A} (m : MarginfiResult A) : same_values (unwrap_result m) m.
Proof. intros a. split; [apply unwrap_result_ok|by intros ->]. Qed.
Lemma same_option {A} (o : option A) e : same_values (ok_or o e) (math o).
Proof. intros a. by rewrite ok_or_ok, math_ok. Qed.
Lemma same_unwrap {A} (o : option A) : same_values (unwrap o) (math o).
Proof. intros a. by rewrite unwrap_ok, math_ok. Qed.
Lemma same_ok {A} (a : A) : same_values (Ok a) (Ok a).
Proof. intros b. split; intros [= ->]; done. Qed.
Lemma same_bind {A B} (m : IndexerResult A) m' (f : A → IndexerResult B) f' :
  same_values m m' → (∀ a, same_values (f a) (f' a)) → same_values (outcome_bind f m) (outcome_bind f' m').
Proof.
  intros Hm Hf b. split; intros (a & Ha & Hb)%bind_ok; apply bind_ok; exists a;
    (split; [by apply Hm|by apply Hf]).
Qed.
Ltac same :=
  repeat first [apply same_lift | apply same_unwrap_result | apply same_option | apply same_unwrap | apply same_ok
               | apply same_bind; [|intros ?] | case_match; simplify_eq].

(** The same position with the feed the program loads. *)
Record counterpart (a2 : BankAccountWithPriceFeed2) (a : BankAccountWithPriceFeed) : Prop := {
  cp_bank : BankAccountWithPriceFeed.bank a = bank a2;
  cp_balance : BankAccountWithPriceFeed.balance a = balance a2;
  cp_feed f : BankAccountWithPriceFeed.price_feed a = Ok f → f = price_feed a2
}.
(** The program could load the feed. *)
Definition fresh (a : BankAccountWithPriceFeed) : Prop := is_ok (BankAccountWithPriceFeed.price_feed a) = true.

Lemma fresh_feed a2 a : counterpart a2 a → fresh a →
  BankAccountWithPriceFeed.try_get_price_feed a = Ok (price_feed a2).
Proof.
  intros [_ _ Hf] Hok. unfold fresh, BankAccountWithPriceFeed.try_get_price_feed in *.
  destruct (BankAccountWithPriceFeed.price_feed a) as [f| |]; [|done..]. by rewrite (Hf f eq_refl).
Qed.
Lemma same_assets a2 a req : counterpart a2 a → fresh a →
  same_values (calc_weighted_assets a2 req) (BankAccountWithPriceFeed.calc_weighted_assets a req).
Proof.
  intros Hc Hok. pose proof (fresh_feed _ _ Hc Hok) as Hf. destruct Hc as [Hb Hl _].
  unfold calc_weighted_assets, BankAccountWithPriceFeed.calc_weighted_assets. rewrite Hf, Hb, Hl.
  destruct (BankConfig.risk_tier _); [|apply same_ok]. destruct req; simpl; same.
Qed.
Lemma same_liabs a2 a req : counterpart a2 a → fresh a →
  same_values (calc_weighted_liabs a2 req) (BankAccountWithPriceFeed.calc_weighted_liabs a req).
Proof.
  intros Hc Hok. pose proof (fresh_feed _ _ Hc Hok) as Hf. destruct Hc as [Hb Hl _].
  unfold calc_weighted_liabs, BankAccountWithPriceFeed.calc_weighted_liabs. rewrite Hf, Hb, Hl. simpl. same.
Qed.
Lemma same_position a2 a req : counterpart a2 a → fresh a →
  same_values (calc_weighted_assets_and_liabilities_values a2 req)
    (BankAccountWithPriceFeed.calc_weighted_assets_and_liabilities_values a req).
Proof.
  intros Hc Hok. unfold calc_weighted_assets_and_liabilities_values,
    BankAccountWithPriceFeed.calc_weighted_assets_and_liabilities_values.
  rewrite (cp_balance _ _ Hc). apply same_bind; [apply same_unwrap_result|]. intros [[]|]; [| |apply same_ok].
  - apply same_bind; [by apply same_assets|intros; apply same_ok].
  - apply same_bind; [by apply same_liabs|intros; apply same_ok].
Qed.
Lemma same_sums req l2 l A B : Forall2 counterpart l2 l → Forall fresh l →
  same_values (sum_components req l2 A B) (RiskEngine.sum_components req l A B).
Proof.
  intros H. revert A B. induction H as [|a2 a l2 l Hc _ IH]; intros A B Hf; simpl; [apply same_ok|].
  inversion_clear Hf as [|? ? Ha Hf']. apply same_bind; [by apply same_position|]. intros [x y].
  apply same_bind; [apply same_unwrap|]. intros A'. apply same_bind; [apply same_unwrap|]. intros B'. by apply IH.
Qed.

(** A position whose feed the program could not load counts nothing for the
    initial requirement, and fails otherwise. *)
Lemma stale_position a2 a x2 y2 x y :
  counterpart a2 a → ¬ fresh a →
  calc_weighted_assets_and_liabilities_values a2 Initial = Ok (x2, y2) →
  BankAccountWithPriceFeed.calc_weighted_assets_and_liabilities_values a Initial = Ok (x, y) →
  x = 0 ∧ y = y2 ∧ (y2 = 0 ∨ x2 = 0).
Proof.
  intros Hc Hs H2 H. unfold calc_weighted_assets_and_liabilities_values in H2.
  unfold BankAccountWithPriceFeed.calc_weighted_assets_and_liabilities_values in H.
  rewrite (cp_balance _ _ Hc) in H. apply bind_ok in H2 as (side & Hside & H2).
  apply unwrap_result_ok in Hside.
  rewrite Hside in H. simpl in H.
  assert (∃ e, BankAccountWithPriceFeed.try_get_price_feed a = Err e ∨
               BankAccountWithPriceFeed.try_get_price_feed a = Panic) as (e & He).
  { unfold fresh, BankAccountWithPriceFeed.try_get_price_feed in *.
    destruct (BankAccountWithPriceFeed.price_feed a); [done|by eexists; left|by exists EBorshIo; right]. }
  destruct side as [[]|].
  - apply bind_ok in H2 as (v2 & _ & E2). apply bind_ok in H as (v & Hv & E).
    injection E2 as <- <-. injection E as <- <-. unfold BankAccountWithPriceFeed.calc_weighted_assets in Hv.
    destruct (BankConfig.risk_tier _); [destruct He as [He|He]; rewrite He in Hv; simpl in Hv|]; naive_solver.
  - apply bind_ok in H as (v & Hv & _). unfold BankAccountWithPriceFeed.calc_weighted_liabs in Hv.
    destruct He as [He|He]; by rewrite He in Hv.
  - injection H2 as <- <-. injection H as <- <-. auto.
Qed.

(** A well-formed bank and balance, and a price that is not negative. *)
Record sound (a2 : BankAccountWithPriceFeed2) : Prop := {
  so_bank : Bank.wf (bank a2);
  so_config : BankConfig.valid (Bank.config (bank a2));
  so_limit : 0 ≤ BankConfig.total_asset_value_init_limit (Bank.config (bank a2));
  so_balance : Balance.wf (balance a2);
  so_price p : OraclePriceFeedAdapter.get_price_of_type (price_feed a2) TimeWeighted (Some Low) = Ok p → 0 ≤ p
}.
Lemma sound_assets a2 v : sound a2 → calc_weighted_assets a2 Initial = Ok v → 0 ≤ v.
Proof.
  intros [Hk Hc Hl Hb Hp] H. unfold calc_weighted_assets in H.
  destruct (BankConfig.risk_tier _); [|by injection H as <-].
  apply bind_ok in H as (p & Hpr & H). apply lift_ok in Hpr. simpl in Hpr. specialize (Hp _ Hpr).
  apply bind_ok in H as (w & Hw & H). apply bind_ok in H as (amt & Ha & H). apply lift_ok in Ha.
  apply unwrap_result_ok in H. apply Bank.get_asset_amount_nn in Ha as [_ Ha]; [|apply Hb|apply Hk].
  assert (0 ≤ w) as Hw0; [|by apply calc_value_nn in H as [_ ?]; [|done|done|intros x [= <-]]].
  destruct Hc as ([Hi _] & _). apply bind_ok in Hw as (d & Hd & Hw). apply lift_ok in Hd.
  destruct d as [d|]; [|by injection Hw as <-]. apply RiskEngine.discount_range in Hd; [|done..].
  apply ok_or_ok, mul_some in Hw as [-> _]; [|simpl; lia..]. apply fmul_nonneg; simpl; lia.
Qed.
Lemma sound_nonneg a2 x y :
  sound a2 → calc_weighted_assets_and_liabilities_values a2 Initial = Ok (x, y) → 0 ≤ x.
Proof.
  intros Hs H. unfold calc_weighted_assets_and_liabilities_values in H. apply bind_ok in H as (side & _ & H).
  destruct side as [[]|]; [| |by injection H as <- _].
  - apply bind_ok in H as (v & Hv & E). injection E as <- _. by eapply sound_assets.
  - apply bind_ok in H as (v & _ & E). by injection E as <- _.
Qed.

Lemma sums_understated l2 l : Forall2 counterpart l2 l → Forall sound l2 → ∀ A2 B2 A B A2' B2' A' B',
  sum_components Initial l2 A2 B2 = Ok (A2', B2') → RiskEngine.sum_components Initial l A B = Ok (A', B') →
  A ≤ A2 → B = B2 → A' ≤ A2' ∧ B' = B2'.
Proof.
  induction 1 as [|a2 a l2 l Hc _ IH]; intros Hnn A2 B2 A B A2' B2' A' B' H2 H HA HB; simpl in H2, H.
  { injection H2 as <- <-. injection H as <- <-. done. }
  inversion_clear Hnn as [|? ? Hn Hnn']. apply bind_ok in H2 as ([x2 y2] & Hv2 & H2).
  apply bind_ok in H as ([x y] & Hv & H).
  apply bind_ok in H2 as (s2 & Hs2 & H2). apply bind_ok in H2 as (t2 & Ht2 & H2).
  apply bind_ok in H as (s & Hs & H). apply bind_ok in H as (t & Ht & H).
  apply unwrap_ok, add_some in Hs2 as [-> _]. apply unwrap_ok, add_some in Ht2 as [-> _].
  apply math_ok, add_some in Hs as [-> _]. apply math_ok, add_some in Ht as [-> _].
  pose proof (sound_nonneg _ _ _ Hn Hv2). assert (x ≤ x2 ∧ y = y2) as [Hx ->].
  { destruct (decide (fresh a)) as [Hf|Hs].
    - apply (same_position _ _ Initial Hc Hf) in Hv2. rewrite Hv2 in Hv. injection Hv as -> ->. done.
    - destruct (stale_position _ _ _ _ _ _ Hc Hs Hv2 Hv) as (-> & -> & _). done. }
  eapply (IH Hnn'); [exact H2|exact H|lia|lia].
Qed.

(** Loading. *)
Lemma load_all2_ok banks feeds bs l :
  load_all banks feeds bs = Ok l →
  Forall2 (λ b a, balance a = b ∧ banks !! Balance.bank_pk b = Some (bank a) ∧
    ∃ key, @index IndexerError _ (BankConfig.oracle_keys (Bank.config (bank a))) 0 = Ok key ∧
      feeds !! key = Some (price_feed a)) bs l.
Proof.
  revert l; induction bs as [|b bs IH]; intros l H; simpl in H; [injection H as <-; constructor|].
  apply bind_ok in H as (a & Ha & H). apply bind_ok in H as (l' & Hl & H). injection H as <-.
  constructor; [|by apply IH]. unfold load_one in Ha. apply bind_ok in Ha as (k & Hk & Ha).
  apply unwrap_ok in Hk.
  apply bind_ok in Ha as (key & Hkey & Ha). apply bind_ok in Ha as (f & Hf & Ha).
  apply unwrap_ok in Hf. injection Ha as <-. simpl. eauto.
Qed.

(** The feed the indexer keeps for a bank is the one the program loads, if it
    loads one. *)
Definition feeds_agree (feeds : gmap Z OraclePriceFeedAdapter.OraclePriceFeedAdapter)
    (l : list BankAccountWithPriceFeed) : Prop :=
  ∀ a key f f', a ∈ l →
    @index IndexerError _ (BankConfig.oracle_keys (Bank.config (BankAccountWithPriceFeed.bank a))) 0 = Ok key →
    feeds !! key = Some f → BankAccountWithPriceFeed.price_feed a = Ok f' → f' = f.

Lemma engines_counterparts banks clock m ais feeds e e2 :
  RiskEngine.new_no_flashloan_check banks clock m ais = Ok e → load m banks feeds = Ok e2 →
  feeds_agree feeds (RiskEngine.bank_accounts_with_price e) →
  Forall2 counterpart (bank_accounts_with_price e2) (RiskEngine.bank_accounts_with_price e).
Proof.
  unfold RiskEngine.new_no_flashloan_check, BankAccountWithPriceFeed.load, load.
  intros (l & Hl & E)%bind_ok (l2 & Hl2%load_all2_ok & E2)%bind_ok. injection E as <-. injection E2 as <-. simpl.
  apply bind_ok in Hl as (u & _ & Hl). apply RiskEngine.load_all_ok in Hl as [Hmap Hbk]. rewrite <- Hmap in Hl2.
  clear Hmap. intros Hag. revert l2 Hl2 Hbk Hag.
  induction l as [|a l IH]; intros l2 Hl2 Hbk Hag; inversion_clear Hl2 as [|? a2 ? l2' Ha Hrest]; constructor.
  - destruct Ha as (Hba & Hb & key & Hkey & Hf). rewrite (Hbk a) in Hb by (by left). injection Hb as Hb.
    split; [done..|]. intros f' Hf'. eapply Hag; [by left| | |done]; [by rewrite Hb|done].
  - apply (IH l2' Hrest); [intros; apply Hbk; by right|]. intros b key f f' Hin. apply (Hag b key f f'). by right.
Qed.

(** C31: The indexer's copy of the risk engine computes
    what the program does.  When the program can load every price feed of an
    account, and the indexer has the same ones, both get the same health
    components for every requirement, the same equity and the same health.
    When the program finds some oracle stale, it ignores the deposits concerned
    for the initial requirement, which the indexer does not: the indexer's
    assets are at least the program's, the liabilities the same. *)
Theorem indexer_engine_agrees banks clock m ais feeds e e2 :
  RiskEngine.new_no_flashloan_check banks clock m ais = Ok e → load m banks feeds = Ok e2 →
  feeds_agree feeds (RiskEngine.bank_accounts_with_price e) →
  (Forall fresh (RiskEngine.bank_accounts_with_price e) →
     (∀ req A B, get_account_health_components e2 req = Ok (A, B) ↔
                 RiskEngine.get_account_health_components e req = Ok (A, B)) ∧
     (∀ A B, get_equity_components e2 = Ok (A, B) ↔
             RiskEngine.get_account_health_components e Equity = Ok (A, B)) ∧
     (∀ req h, get_account_health e2 req = Ok h ↔ RiskEngine.get_account_health e req = Ok h)) ∧
  (Forall sound (bank_accounts_with_price e2) → ∀ A2 B2 A B,
     get_account_health_components e2 Initial = Ok (A2, B2) →
     RiskEngine.get_account_health_components e Initial = Ok (A, B) → A ≤ A2 ∧ B = B2).
Proof.
  intros He He2 Hag. pose proof (engines_counterparts _ _ _ _ _ _ _ He He2 Hag) as Hc. split.
  - intros Hf. pose proof (λ req, same_sums req _ _ 0 0 Hc Hf) as Hs. split_and!.
    + intros req A B. apply Hs.
    + intros A B. apply Hs.
    + intros req. apply same_bind; [apply Hs|]. intros [A B]. apply same_unwrap.
  - intros Hs A2 B2 A B H2 H. by eapply (sums_understated _ _ Hc Hs _ _ _ _ _ _ _ _ H2 H).
Qed.
End Agreement.
End RiskEngine2.

(** ** The snapshot *)
(** [solana_sdk::account::Account] *)
Record Account := mkAccount { ac_owner : Pubkey; ac_data : list Z }.
#[global] Instance account_eq_dec : EqDecision Account.
Proof. solve_decision. Defined.

(** What the snapshot calls: the RPC node, the decoders of account data, the
    addresses of the pyth push feeds.  [None] is an error. *)
Class IndexerSdk {O : OracleSdk} := {
  indexer_push_oracles :: PushOracles;
  get_program_accounts : Pubkey → option (list Pubkey);
  get_multiple_accounts : list Pubkey → option (list (option Account));
  bank_discriminator : list Z;
  marginfi_account_discriminator : list Z;
  marginfi_group_discriminator : list Z;
  bank_try_deserialize : list Z → option Bank;
  marginfi_account_try_deserialize : list Z → option MarginfiAccount;
  marginfi_group_try_deserialize : list Z → option MarginfiGroup;
  spl_unpack : list Z → option TokenAccount;
  (* PriceUpdateV2::get_price_unchecked *)
  get_price_unchecked : PriceUpdateV2 → Pubkey → outcome GetPriceError PythPrice;
  (* the memory of a PullFeedAccountData *)
  pull_feed_size : nat;
  pull_feed_aligned : list Z → bool;
  pull_feed_read : list Z → PullFeedAccountData
}.

Module Snapshot.
Record BankAccounts := mkBankAccounts {
  bank : Bank;
  liquidity_vault_token_account : TokenAccount;
  insurance_vault_token_account : TokenAccount;
  fee_vault_token_account : TokenAccount
}.
Inductive BankUpdateRoutingType : Set := State | LiquidityTokenAccount | InsuranceTokenAccount | FeeTokenAccount.
Inductive AccountRoutingType : Set :=
| RMarginfiGroup | RMarginfiAccount | RBank (bank_pk : Pubkey) (t : BankUpdateRoutingType)
| RPriceFeedPyth | RPriceFeedSwitchboard | RPriceFeedSwitchboardPull | RPriceFeedPythPushOracle.
Inductive OracleData : Type :=
| DPyth (f : PythLegacyPriceFeed.PythLegacyPriceFeed)
| DSwitchboard (f : SwitchboardV2PriceFeed.SwitchboardV2PriceFeed)
| DPythPush (f : PythPushOraclePriceFeed.PythPushOraclePriceFeed)
| DSwitchboardPull (f : SwitchboardPullPriceFeed.SwitchboardPullPriceFeed).
Record Snapshot := mkSnapshot {
  program_id : Pubkey;
  routing_lookup : gmap Z AccountRoutingType;
  marginfi_groups : gmap Z MarginfiGroup;
  banks : gmap Z BankAccounts;
  marginfi_accounts : gmap Z MarginfiAccount;
  price_feeds : gmap Z OracleData
}.

Definition new (program_id : Pubkey) : Snapshot := mkSnapshot program_id ∅ ∅ ∅ ∅ ∅.
Definition add_route (k : Pubkey) (r : AccountRoutingType) (s : Snapshot) : Snapshot :=
  mkSnapshot (program_id s) (<[k := r]> (routing_lookup s)) (marginfi_groups s) (banks s)
    (marginfi_accounts s) (price_feeds s).
Definition set_group (k : Pubkey) (g : MarginfiGroup) (s : Snapshot) : Snapshot :=
  mkSnapshot (program_id s) (routing_lookup s) (<[k := g]> (marginfi_groups s)) (banks s)
    (marginfi_accounts s) (price_feeds s).
Definition set_bank (k : Pubkey) (b : BankAccounts) (s : Snapshot) : Snapshot :=
  mkSnapshot (program_id s) (routing_lookup s) (marginfi_groups s) (<[k := b]> (banks s))
    (marginfi_accounts s) (price_feeds s).
Definition set_account (k : Pubkey) (m : MarginfiAccount) (s : Snapshot) : Snapshot :=
  mkSnapshot (program_id s) (routing_lookup s) (marginfi_groups s) (banks s)
    (<[k := m]> (marginfi_accounts s)) (price_feeds s).
Definition set_feed (k : Pubkey) (f : OracleData) (s : Snapshot) : Snapshot :=
  mkSnapshot (program_id s) (routing_lookup s) (marginfi_groups s) (banks s)
    (marginfi_accounts s) (<[k := f]> (price_feeds s)).
(** [SplAccount::default()] *)
Definition empty_token_account : TokenAccount := mkTokenAccount default_pubkey default_pubkey 0.
(** The field of the bank's entry a route refers to. *)
Definition with_token_account (t : BankUpdateRoutingType) (x : TokenAccount) (b : BankAccounts) : BankAccounts :=
  match t with
  | LiquidityTokenAccount => mkBankAccounts (bank b) x (insurance_vault_token_account b) (fee_vault_token_account b)
  | InsuranceTokenAccount => mkBankAccounts (bank b) (liquidity_vault_token_account b) x (fee_vault_token_account b)
  | FeeTokenAccount => mkBankAccounts (bank b) (liquidity_vault_token_account b) (insurance_vault_token_account b) x
  | State => b
  end.

Section Ops.
Context {F : FixedOps} {O : OracleSdk} {S : IndexerSdk}.

Definition to_adapter (d : OracleData) : OraclePriceFeedAdapter.OraclePriceFeedAdapter :=
  match d with
  | DPyth f => OraclePriceFeedAdapter.APythLegacy f
  | DSwitchboard f => OraclePriceFeedAdapter.ASwitchboardV2 f
  | DPythPush f => OraclePriceFeedAdapter.APythPushOracle f
  | DSwitchboardPull f => OraclePriceFeedAdapter.ASwitchboardPull f
  end.
(** [OracleData::get_price_of_type]: an error of the feed panics. *)
Definition get_price_of_type (d : OracleData) (t : OraclePriceType) (bias : option PriceBias)
    : IndexerResult I80F48 :=
  unwrap_result match d with
                | DPyth f => PythLegacyPriceFeed.get_price_of_type f t bias
                | DSwitchboard f => SwitchboardV2PriceFeed.get_price_of_type f t bias
                | DPythPush f => PythPushOraclePriceFeed.get_price_of_type f t bias
                | DSwitchboardPull f => SwitchboardPullPriceFeed.get_price_of_type f t bias
                end.

(** [PythPushOraclePriceFeed::load_unchecked] (state/price.rs, compiled for
    clients). *)
Definition load_unchecked (ai : AccountInfo) : MarginfiResult PythPushOraclePriceFeed.PythPushOraclePriceFeed :=
  let? price_feed_account := PythPushOraclePriceFeed.load_price_update_v2_checked ai in
  let m := price_message price_feed_account in
  let? price := map_err (λ e, match e with
                              | PriceTooOld => StaleOracle : error
                              | OtherPriceError => InvalidOracleAccount
                              end)
                  (get_price_unchecked price_feed_account (pm_feed_id m)) in
  Ok (PythPushOraclePriceFeed.mkFeed (mkPythPrice (pm_ema_price m) (pm_ema_conf m) (pm_exponent m)) price).

(** [load_swb_pull_account]: the slice of the bytes panics when they are too
    few; the value is the one read at its start. *)
Definition load_swb_pull_account (ai : AccountInfo) : IndexerResult PullFeedAccountData :=
  let bytes := ai_data ai in
  if negb (pull_feed_aligned bytes) then Err EAlignment
  else if Nat.ltb (length bytes) (pull_feed_size + 8) then Panic
  else Ok (pull_feed_read (take pull_feed_size (drop 8 bytes))).

(** [udpate_entry] *)
Definition update_entry (s : Snapshot) (account_pubkey : Pubkey) (account : Account) : IndexerResult Snapshot :=
  let? routing_info := unwrap (routing_lookup s !! account_pubkey) in
  let ai := mkAccountInfo account_pubkey (ac_owner account) (ac_data account) in
  match routing_info with
  | RPriceFeedPyth =>
      let? pf := unwrap_result (PythLegacyPriceFeed.load_checked ai 0 U64_MAX) in
      Ok (set_feed account_pubkey (DPyth pf) s)
  | RBank bank_pk State =>
      let? b := unwrap (banks s !! bank_pk) in
      let? k := unwrap (bank_try_deserialize (ac_data account)) in
      Ok (set_bank bank_pk (mkBankAccounts k (liquidity_vault_token_account b)
            (insurance_vault_token_account b) (fee_vault_token_account b)) s)
  | RBank bank_pk t =>
      let? b := unwrap (banks s !! bank_pk) in
      let? x := unwrap (spl_unpack (ac_data account)) in
      Ok (set_bank bank_pk (with_token_account t x b) s)
  | RMarginfiAccount =>
      let? m := unwrap (marginfi_account_try_deserialize (ac_data account)) in
      Ok (set_account account_pubkey m s)
  | RMarginfiGroup =>
      let? g := unwrap (marginfi_group_try_deserialize (ac_data account)) in
      Ok (set_group account_pubkey g s)
  | RPriceFeedSwitchboard =>
      let? pf := unwrap_result (SwitchboardV2PriceFeed.load_checked ai 0 U64_MAX) in
      Ok (set_feed account_pubkey (DSwitchboard pf) s)
  | RPriceFeedPythPushOracle =>
      let? pf := unwrap_result (load_unchecked ai) in
      let? feed_id := unwrap_result (PythPushOraclePriceFeed.peek_feed_id ai) in
      Ok (set_feed feed_id (DPythPush pf) s)
  | RPriceFeedSwitchboardPull =>
      let? pf := unwrap_result (load_swb_pull_account ai) in
      Ok (set_feed account_pubkey (DSwitchboardPull (SwitchboardPullPriceFeed.mkFeed (pf_result pf) (pf_feed_hash pf))) s)
  end.
Fixpoint update_entries (s : Snapshot) (l : list (Pubkey * Account)) : IndexerResult Snapshot :=
  match l with
  | [] => Ok s
  | (k, a) :: l => let? s := update_entry s k a in update_entries s l
  end.

(** The routes of a bank's oracle, in order. *)
Definition oracle_routes (c : BankConfig) : IndexerResult (list (Pubkey * AccountRoutingType)) :=
  match BankConfig.oracle_setup c with
  | OracleNone => Ok []
  | PythLegacy => let? k := index (BankConfig.oracle_keys c) 0 in Ok [(k, RPriceFeedPyth)]
  | SwitchboardV2 => let? k := index (BankConfig.oracle_keys c) 0 in Ok [(k, RPriceFeedSwitchboard)]
  | PythPushOracle =>
      let? feed_id := index (BankConfig.oracle_keys c) 0 in
      Ok [(find_oracle_address PYTH_PUSH_PYTH_SPONSORED_SHARD_ID feed_id, RPriceFeedPythPushOracle);
          (find_oracle_address PYTH_PUSH_MARGINFI_SPONSORED_SHARD_ID feed_id, RPriceFeedPythPushOracle)]
  | SwitchboardPull => let? k := index (BankConfig.oracle_keys c) 0 in Ok [(k, RPriceFeedSwitchboardPull)]
  end.
Definition add_routes (l : list (Pubkey * AccountRoutingType)) (s : Snapshot) : Snapshot :=
  foldl (λ s '(k, r), add_route k r s) s l.
(** The accounts the node returned, with their addresses. *)
Definition fetched (keys : list Pubkey) (answers : list (option Account)) : list (Pubkey * Account) :=
  omap (λ '(a, k), (λ a, (k, a)) <$> a) (zip answers keys).

(** A bank: its routes and those of its vaults and oracles, its entry, and the
    accounts fetched for it. *)
Definition accounts_to_fetch (k : Bank) (routes : list (Pubkey * AccountRoutingType)) : list Pubkey :=
  [Bank.liquidity_vault k; Bank.insurance_vault k; Bank.fee_vault k] ++ map fst routes.
Definition create_bank (s : Snapshot) (account_pubkey : Pubkey) (k : Bank) : IndexerResult Snapshot :=
  let s := add_routes
    [(account_pubkey, RBank account_pubkey State);
     (Bank.liquidity_vault k, RBank account_pubkey LiquidityTokenAccount);
     (Bank.insurance_vault k, RBank account_pubkey InsuranceTokenAccount);
     (Bank.fee_vault k, RBank account_pubkey FeeTokenAccount)] s in
  let? routes := oracle_routes (Bank.config k) in
  let s := add_routes routes s in
  let s := set_bank account_pubkey
             (mkBankAccounts k empty_token_account empty_token_account empty_token_account) s in
  let? accounts := unwrap (get_multiple_accounts (accounts_to_fetch k routes)) in
  update_entries s (fetched (accounts_to_fetch k routes) accounts).

Definition create_entry (s : Snapshot) (account_pubkey : Pubkey) (account : Account) : IndexerResult Snapshot :=
  if negb (ac_owner account =? program_id s) then Ok s
  else if Nat.ltb (length (ac_data account)) 8 then Panic
  else
    let discriminator := take 8 (ac_data account) in
    if bool_decide (discriminator = bank_discriminator) then
      let? k := unwrap (bank_try_deserialize (ac_data account)) in
      create_bank s account_pubkey k
    else if bool_decide (discriminator = marginfi_account_discriminator) then
      let? m := unwrap (marginfi_account_try_deserialize (ac_data account)) in
      Ok (set_account account_pubkey m (add_route account_pubkey RMarginfiAccount s))
    else if bool_decide (discriminator = marginfi_group_discriminator) then
      let? g := unwrap (marginfi_group_try_deserialize (ac_data account)) in
      Ok (set_group account_pubkey g (add_route account_pubkey RMarginfiGroup s))
    else Ok s.

(** [get_multiple_accounts_chunked2] (common.rs): a hundred addresses at a
    time; a chunk that fails is asked for again, and then fails the whole. *)
Fixpoint fetch_chunks (l : list (list Pubkey)) : IndexerResult (list (Pubkey * Account)) :=
  match l with
  | [] => Ok []
  | keys :: l =>
      let? accounts := ok_or (get_multiple_accounts keys) EClient in
      let? more := fetch_chunks l in
      Ok (fetched keys accounts ++ more)
  end.
Definition get_multiple_accounts_chunked2 (keys : list Pubkey) : IndexerResult (gmap Z Account) :=
  let? l := fetch_chunks (chunks 100 keys) in
  Ok (list_to_map (reverse l)).

(** [Snapshot::init] *)
Fixpoint create_entries (s : Snapshot) (l : list (Pubkey * Account)) : IndexerResult Snapshot :=
  match l with
  | [] => Ok s
  | (k, a) :: l => let? s := create_entry s k a in create_entries s l
  end.
Definition init {HO : HashOrder} (s : Snapshot) : IndexerResult Snapshot :=
  let? keys := ok_or (get_program_accounts (program_id s)) EClient in
  let? accounts := get_multiple_accounts_chunked2 keys in
  create_entries s (hash_iter accounts).
End Ops.

(** ** The table stays consistent *)
Section Consistency.
Context {F : FixedOps} {O : OracleSdk} {S : IndexerSdk}.

(** A route to a bank leads to an entry. *)
Definition routes_banks (s : Snapshot) : Prop :=
  ∀ k pk t, routing_lookup s !! k = Some (RBank pk t) → is_Some (banks s !! pk).
(** The account's data is what its route expects. *)
Definition decodes (r : AccountRoutingType) (k : Pubkey) (a : Account) : Prop :=
  let ai := mkAccountInfo k (ac_owner a) (ac_data a) in
  match r with
  | RMarginfiGroup => is_Some (marginfi_group_try_deserialize (ac_data a))
  | RMarginfiAccount => is_Some (marginfi_account_try_deserialize (ac_data a))
  | RBank _ State => is_Some (bank_try_deserialize (ac_data a))
  | RBank _ _ => is_Some (spl_unpack (ac_data a))
  | RPriceFeedPyth => is_ok (PythLegacyPriceFeed.load_checked ai 0 U64_MAX) = true
  | RPriceFeedSwitchboard => is_ok (SwitchboardV2PriceFeed.load_checked ai 0 U64_MAX) = true
  | RPriceFeedSwitchboardPull => is_ok (load_swb_pull_account ai) = true
  | RPriceFeedPythPushOracle => is_ok (load_unchecked ai) = true
  end.

(** What an update leaves alone. *)
Record extends (s s' : Snapshot) : Prop := {
  ex_program : program_id s' = program_id s;
  ex_routes : routing_lookup s' = routing_lookup s;
  ex_banks k : is_Some (banks s !! k) → is_Some (banks s' !! k);
  ex_feeds k : is_Some (price_feeds s !! k) → is_Some (price_feeds s' !! k)
}.
#[global] Instance extends_preorder : PreOrder extends.
Proof.
  split; [by split|]. intros s1 s2 s3 [P1 R1 B1 F1] [P2 R2 B2 F2].
  split; [by rewrite P2|by rewrite R2|auto..].
Qed.
Lemma extends_routes_banks s s' : extends s s' → routes_banks s → routes_banks s'.
Proof. intros [_ Hr Hb _] H k pk t. rewrite Hr. intros Hk. by eapply Hb, H. Qed.

Lemma insert_is_some {A} (m : gmap Z A) i j x : is_Some (m !! j) → is_Some (<[i := x]> m !! j).
Proof. intros H. apply lookup_insert_is_Some'. by right. Qed.
Lemma update_entry_extends s k a s' : update_entry s k a = Ok s' → extends s s'.
Proof.
  unfold update_entry. intros (r & _ & H)%bind_ok.
  destruct r as [| |pk []| | | |]; inv_res; split; simpl; auto using insert_is_some.
Qed.
Lemma update_entries_extends l : ∀ s s', update_entries s l = Ok s' → extends s s'.
Proof.
  induction l as [|[k a] l IH]; simpl; intros s s' H; [by injection H as <-|].
  apply bind_ok in H as (s1 & H1 & H). etrans; [by eapply update_entry_extends|by apply IH].
Qed.

Lemma add_routes_frame l : ∀ s, banks (add_routes l s) = banks s ∧ program_id (add_routes l s) = program_id s ∧
  price_feeds (add_routes l s) = price_feeds s ∧
  ∀ k r, routing_lookup (add_routes l s) !! k = Some r → (k, r) ∈ l ∨ routing_lookup s !! k = Some r.
Proof.
  induction l as [|[i x] l IH]; intros s; [by split_and!; auto|]. unfold add_routes in *. simpl.
  destruct (IH (add_route i x s)) as (-> & -> & -> & Hr). split_and!; [done..|]. intros k r Hk.
  destruct (Hr k r Hk) as [Hin|Hin]; [left; by right|]. simpl in Hin.
  apply lookup_insert_Some in Hin as [[-> ->]|[_ Hin]]; [left; by left|by right].
Qed.
Lemma oracle_routes_feeds c l k pk t : oracle_routes c = Ok l → (k, RBank pk t) ∉ l.
Proof.
  unfold oracle_routes. intros H Hin. destruct (BankConfig.oracle_setup c); inv_res; set_solver.
Qed.

Lemma create_bank_routes s k b s' : routes_banks s → create_bank s k b = Ok s' → routes_banks s'.
Proof.
  intros Hs H. unfold create_bank in H. apply bind_ok in H as (routes & Hroutes & H).
  apply bind_ok in H as (answers & _ & H). apply update_entries_extends in H.
  eapply extends_routes_banks; [exact H|]. clear H. intros j pk t Hj. cbn [set_bank routing_lookup banks] in *.
  destruct (decide (pk = k)) as [->|Hne]; [apply lookup_insert_is_Some'; by left|].
  apply insert_is_some. destruct (add_routes_frame routes (add_routes
    [(k, RBank k State); (Bank.liquidity_vault b, RBank k LiquidityTokenAccount);
     (Bank.insurance_vault b, RBank k InsuranceTokenAccount); (Bank.fee_vault b, RBank k FeeTokenAccount)] s))
    as (-> & _ & _ & Hr).
  destruct (add_routes_frame [(k, RBank k State); (Bank.liquidity_vault b, RBank k LiquidityTokenAccount);
     (Bank.insurance_vault b, RBank k InsuranceTokenAccount); (Bank.fee_vault b, RBank k FeeTokenAccount)] s)
    as (-> & _ & _ & Hr').
  apply Hr in Hj as [Hj|Hj]; [by eapply oracle_routes_feeds in Hj|].
  apply Hr' in Hj as [Hj|Hj]; [|by eapply Hs]. exfalso. set_solver.
Qed.
Lemma create_entry_routes s k a s' : routes_banks s → create_entry s k a = Ok s' → routes_banks s'.
Proof.
  intros Hs H. unfold create_entry in H. destruct (negb _); [by injection H as <-|].
  destruct (Nat.ltb _ _); [done|]. destruct (bool_decide _).
  { apply bind_ok in H as (b & _ & H). by eapply create_bank_routes. }
  assert (∀ r, (∀ pk t, r ≠ RBank pk t) → routes_banks (add_route k r s)) as Hadd.
  { intros r Hr j pk t Hj. simpl in Hj. apply lookup_insert_Some in Hj as [[_ E]|[_ Hj]]; [by destruct (Hr pk t)|by eapply Hs]. }
  destruct (bool_decide _); [inv_res; by apply Hadd|].
  destruct (bool_decide _); inv_res; [by apply Hadd|done].
Qed.

Lemma create_entries_routes l : ∀ s s', routes_banks s → create_entries s l = Ok s' → routes_banks s'.
Proof.
  induction l as [|[k a] l IH]; intros s s' Hs H; simpl in H; [by injection H as <-|].
  apply bind_ok in H as (s1 & H1 & H). eapply IH; [|done]. by eapply create_entry_routes.
Qed.
Lemma init_routes {HO : HashOrder} s s' : routes_banks s → init s = Ok s' → routes_banks s'.
Proof.
  intros Hs (keys & _ & H)%bind_ok. apply bind_ok in H as (m & _ & H). by eapply create_entries_routes.
Qed.

(** An update of a routed account whose data decodes goes through. *)
Lemma update_entry_succeeds s k a r :
  routes_banks s → routing_lookup s !! k = Some r → decodes r k a → ∃ s', update_entry s k a = Ok s'.
Proof.
  intros Hs Hr Hd. unfold update_entry. rewrite Hr. simpl. unfold decodes in Hd.
  destruct r as [| |pk t| | | |].
  - destruct Hd as [g ->]. by eexists.
  - destruct Hd as [m ->]. by eexists.
  - destruct (Hs _ _ _ Hr) as [b Hb]. destruct t; rewrite Hb; destruct Hd as [x ->]; by eexists.
  - destruct (PythLegacyPriceFeed.load_checked _ _ _); [by eexists|done..].
  - destruct (SwitchboardV2PriceFeed.load_checked _ _ _); [by eexists|done..].
  - destruct (load_swb_pull_account _); [by eexists|done..].
  - destruct (load_unchecked _) as [pf| |] eqn:E; [|done..]. simpl. unfold load_unchecked, PythPushOraclePriceFeed.peek_feed_id in *.
    apply bind_ok in E as (u & -> & _). by eexists.
Qed.

(** ** A tracked bank is priced *)
Lemma update_entries_split l k a : ∀ s s', update_entries s l = Ok s' → (k, a) ∈ l →
  ∃ s1 s2, extends s s1 ∧ update_entry s1 k a = Ok s2 ∧ extends s2 s'.
Proof.
  induction l as [|[j x] l IH]; simpl; intros s s' H Hin; [by apply elem_of_nil in Hin|].
  apply bind_ok in H as (s1 & H1 & H). apply elem_of_cons in Hin as [E|Hin].
  - injection E as -> ->. exists s, s1. split_and!; [done|done|by eapply update_entries_extends].
  - destruct (IH _ _ H Hin) as (s2 & s3 & He & Hu & He'). exists s2, s3. split_and!; [|done|done].
    etrans; [by eapply update_entry_extends|done].
Qed.
(** The node has the bank's oracle account; a pyth push account is one with
    the bank's feed id. *)
Definition oracle_fetched (b : Bank) (key : Pubkey) : Prop :=
  ∃ routes answers j r a,
    oracle_routes (Bank.config b) = Ok routes ∧
    get_multiple_accounts (accounts_to_fetch b routes) = Some answers ∧
    (j, r) ∈ routes ∧ (j, a) ∈ fetched (accounts_to_fetch b routes) answers ∧
    (BankConfig.oracle_setup (Bank.config b) = PythPushOracle →
     PythPushOraclePriceFeed.peek_feed_id (mkAccountInfo j (ac_owner a) (ac_data a)) = Ok key).
Lemma oracle_route c routes j r s key :
  oracle_routes c = Ok routes → @index IndexerError _ (BankConfig.oracle_keys c) 0 = Ok key → (j, r) ∈ routes →
  routing_lookup (add_routes routes s) !! j = Some r ∧
  (r = RPriceFeedPythPushOracle ∧ BankConfig.oracle_setup c = PythPushOracle ∨
   j = key ∧ (r = RPriceFeedPyth ∨ r = RPriceFeedSwitchboard ∨ r = RPriceFeedSwitchboardPull)).
Proof.
  intros H Hkey Hin. unfold oracle_routes in H. rewrite Hkey in H.
  destruct (BankConfig.oracle_setup c); simpl in H; injection H as <-; unfold add_routes; simpl;
    rewrite ?elem_of_cons in Hin;
    repeat match goal with
    | H : _ ∨ _ |- _ => destruct H as [H|H]
    | H : (_, _) = (_, _) |- _ => injection H as -> ->
    | H : _ ∈ [] |- _ => by apply elem_of_nil in H
    end; split; auto; try apply lookup_insert_eq.
  destruct (decide (find_oracle_address PYTH_PUSH_PYTH_SPONSORED_SHARD_ID key
                    = find_oracle_address PYTH_PUSH_MARGINFI_SPONSORED_SHARD_ID key)) as [->|].
  - apply lookup_insert_eq.
  - rewrite lookup_insert_ne by done. apply lookup_insert_eq.
Qed.
Lemma create_bank_priced s k b s' key :
  create_bank s k b = Ok s' → @index IndexerError _ (BankConfig.oracle_keys (Bank.config b)) 0 = Ok key →
  oracle_fetched b key → is_Some (price_feeds s' !! key).
Proof.
  intros H Hkey (routes & answers & j & r & a & Hroutes & Hans & Hin & Ha & Hpush). unfold create_bank in H.
  rewrite Hroutes in H. simpl in H. rewrite Hans in H. simpl in H.
  destruct (update_entries_split _ _ _ _ _ H Ha) as (s1 & s2 & [_ Hr _ _] & Hu & [_ _ _ Hf]). apply Hf.
  match type of Hr with _ = routing_lookup (set_bank _ _ (add_routes _ ?s0)) =>
    destruct (oracle_route _ _ _ _ s0 _ Hroutes Hkey Hin) as [Hrj Hcase] end.
  change (routing_lookup (set_bank _ _ ?x)) with (routing_lookup x) in Hr. rewrite <- Hr in Hrj.
  unfold update_entry in Hu. rewrite Hrj in Hu. simpl in Hu.
  destruct Hcase as [[-> Hs]|[-> [->|[->| ->]]]]; apply bind_ok in Hu as (pf & _ & Hu);
    [rewrite (Hpush Hs) in Hu|..]; injection Hu as <-; simpl; rewrite lookup_insert_eq; by eexists.
Qed.
End Consistency.
End Snapshot.

(** ** The queue of updates *)
Module Queue.
Import Snapshot.
(** The parts of [Context] the two tasks share: the updates received by slot
    and address, the latest slots known to be confirmed, the snapshot. *)
Record Context := mkContext {
  account_updates_queue : gmap Z (gmap Z Account);
  latest_slots_with_commitment : gset Z;
  account_snapshot : Snapshot
}.

Section Ops.
Context {F : FixedOps} {O : OracleSdk} {S : IndexerSdk} {HO : HashOrder}.

(** [process_update]: an account update replaces an earlier one of the same
    slot; a slot is remembered once it is confirmed or finalized, and the
    oldest is forgotten when there are more than [slots_buffer_size]. *)
Definition process_account_update (c : Context) (slot : Z) (address : Pubkey) (a : Account) : Context :=
  let updates := default ∅ (account_updates_queue c !! slot) in
  mkContext (<[slot := <[address := a]> updates]> (account_updates_queue c))
    (latest_slots_with_commitment c) (account_snapshot c).
Definition process_slot_update (slots_buffer_size : Z) (c : Context) (slot : Z) : Context :=
  mkContext (account_updates_queue c) (remember_slot slots_buffer_size (latest_slots_with_commitment c) slot)
    (account_snapshot c).

(** The updates of the slots taken, in the order of the slots. *)
Definition updates_of (out : list (Z * gmap Z Account)) : list (Z * (Pubkey * Account)) :=
  out ≫= λ '(slot, m), pair slot <$> hash_iter m.

Definition apply_update (s : Snapshot) (address : Pubkey) (a : Account) : IndexerResult Snapshot :=
  if bool_decide (is_Some (routing_lookup s !! address)) then update_entry s address a
  else create_entry s address a.
Fixpoint apply_updates (s : Snapshot) (l : list (Z * (Pubkey * Account))) : IndexerResult Snapshot :=
  match l with
  | [] => Ok s
  | (_, (k, a)) :: l => let? s := apply_update s k a in apply_updates s l
  end.

(** One turn of the loop of [update_account_map]. *)
Definition update_account_map (c : Context) : IndexerResult Context :=
  let '(out, queue) := drain (latest_slots_with_commitment c) (account_updates_queue c) in
  let? s := apply_updates (account_snapshot c) (updates_of out) in
  Ok (mkContext queue (latest_slots_with_commitment c) s).
End Ops.

(** ** Only confirmed slots reach the snapshot, in order *)
Section Theorems.
Context {F : FixedOps} {O : OracleSdk} {S : IndexerSdk} {HO : HashOrder}.

Lemma updates_of_elem out slot k a : (slot, (k, a)) ∈ updates_of out ↔ ∃ m, (slot, m) ∈ out ∧ m !! k = Some a.
Proof.
  unfold updates_of. rewrite list_elem_of_bind. split.
  - intros ([slot' m] & Hx & Hin). apply list_elem_of_fmap in Hx as ([k' a'] & E & Hk%hash_iter_elem).
    injection E as -> -> ->. eauto.
  - intros (m & Hin & Hk). exists (slot, m). split; [|done]. apply list_elem_of_fmap. exists (k, a).
    split; [done|by apply hash_iter_elem].
Qed.
Lemma updates_of_sorted out : StronglySorted Z.le (fst <$> out) → StronglySorted Z.le (fst <$> updates_of out).
Proof.
  induction out as [|[slot m] out IH]; intros Hs; [constructor|].
  apply StronglySorted_inv in Hs as [Hs Hall]. rewrite list.Forall_forall in Hall.
  change (updates_of ((slot, m) :: out)) with ((pair slot <$> hash_iter m) ++ updates_of out). rewrite fmap_app.
  apply StronglySorted_app_2; [| |by apply IH].
  - intros i j (x & -> & (z & -> & _)%list_elem_of_fmap)%list_elem_of_fmap
      ([slot' [k a]] & -> & (m' & Hin & _)%updates_of_elem)%list_elem_of_fmap.
    apply Hall. apply list_elem_of_fmap. by exists (slot', m').
  - induction (hash_iter m) as [|x l IHl]; simpl; constructor; [done|]. rewrite <- list_fmap_compose.
    apply Forall_fmap, list.Forall_forall. intros y _. simpl. lia.
Qed.

(** An update of a slot that is confirmed: the ones the turn is to apply. *)
Definition confirmed (c : Context) (slot : Z) (k : Pubkey) (a : Account) : Prop :=
  slot ∈ latest_slots_with_commitment c ∧
  ∃ m, account_updates_queue c !! slot = Some m ∧ m !! k = Some a.
(** What a turn applies, and the queue it leaves. *)
Lemma turn_inv c c' :
  update_account_map c = Ok c' ↔
  ∃ out queue' s',
    drain (latest_slots_with_commitment c) (account_updates_queue c) = (out, queue') ∧
    apply_updates (account_snapshot c) (updates_of out) = Ok s' ∧
    c' = mkContext queue' (latest_slots_with_commitment c) s'.
Proof.
  unfold update_account_map. destruct (drain _ _) as [out queue'] eqn:E. split.
  - intros (s' & Hs & H)%bind_ok. injection H as <-. eauto 10.
  - intros (o & q & s' & Eq & Hs & ->). injection Eq as <- <-. by rewrite Hs.
Qed.
Lemma turn_updates c out queue' :
  drain (latest_slots_with_commitment c) (account_updates_queue c) = (out, queue') →
  (∀ slot k a, (slot, (k, a)) ∈ updates_of out ↔ confirmed c slot k a) ∧
  StronglySorted Z.le (fst <$> updates_of out) ∧
  ∀ slot, queue' !! slot = if bool_decide (slot ∈ latest_slots_with_commitment c) ||
                              too_old (latest_slots_with_commitment c) slot then None
                           else account_updates_queue c !! slot.
Proof.
  intros (Hmem & Hsort & _ & Hq)%drain_spec. split_and!; [|by apply updates_of_sorted|done].
  intros slot k a. unfold confirmed. rewrite updates_of_elem. split.
  - intros (m & [Hl Hm]%Hmem & Ha). eauto.
  - intros (Hl & m & Hm & Ha). exists m. split; [by apply Hmem|done].
Qed.

Lemma apply_update_routes s k a s' : routes_banks s → apply_update s k a = Ok s' → routes_banks s'.
Proof.
  unfold apply_update. intros Hs. case_bool_decide; intros H'.
  - eapply extends_routes_banks; [by eapply update_entry_extends|done].
  - by eapply create_entry_routes.
Qed.
Lemma apply_updates_routes l : ∀ s s', routes_banks s → apply_updates s l = Ok s' → routes_banks s'.
Proof.
  induction l as [|[slot [k a]] l IH]; intros s s' Hs H; simpl in H; [by injection H as <-|].
  apply bind_ok in H as (s1 & H1 & H). eapply IH; [|done]. by eapply apply_update_routes.
Qed.

(** The states the service goes through: the tasks that receive updates and
    the one that applies them interleave, each holding the locks for its step. *)
Inductive running (slots_buffer_size : Z) : Context → Prop :=
| started program_id s : init (Snapshot.new program_id) = Ok s → running slots_buffer_size (mkContext ∅ ∅ s)
| received c slot k a : running slots_buffer_size c → running slots_buffer_size (process_account_update c slot k a)
| committed c slot :
    running slots_buffer_size c → running slots_buffer_size (process_slot_update slots_buffer_size c slot)
| turned c c' : running slots_buffer_size c → update_account_map c = Ok c' → running slots_buffer_size c'.
Lemma running_routes n c : running n c → routes_banks (account_snapshot c).
Proof.
  induction 1 as [pid s H| | |c c' _ IH (out & q & s' & _ & Hs & ->)%turn_inv]; [|done..|].
  - eapply init_routes; [|done]. intros k pk t Hk. simpl in Hk. by rewrite lookup_empty in Hk.
  - by eapply apply_updates_routes.
Qed.

(** A turn of the loop that keeps the snapshot
    up to date applies exactly the updates received for slots known to be
    confirmed, each in the order of the slots, and leaves in the queue the
    updates of the other slots, without those of slots older than every slot
    it remembers.  Every route of the snapshot to a bank still leads to one. *)
Theorem only_confirmed_updates_apply c c' :
  routes_banks (account_snapshot c) → update_account_map c = Ok c' →
  (∃ updates, apply_updates (account_snapshot c) updates = Ok (account_snapshot c') ∧
     (∀ slot k a, (slot, (k, a)) ∈ updates ↔ confirmed c slot k a) ∧
     StronglySorted Z.le (fst <$> updates)) ∧
  (∀ slot, account_updates_queue c' !! slot =
     if bool_decide (slot ∈ latest_slots_with_commitment c) || too_old (latest_slots_with_commitment c) slot then None
     else account_updates_queue c !! slot) ∧
  latest_slots_with_commitment c' = latest_slots_with_commitment c ∧
  routes_banks (account_snapshot c').
Proof.
  intros Hr (out & queue' & s' & Ht & Hs & ->)%turn_inv. apply turn_updates in Ht as (Hmem & Hsort & Hq).
  split_and!; [by exists (updates_of out)|done|done|by eapply apply_updates_routes].
Qed.

(** Updates of accounts already routed. *)
Definition routed (s : Snapshot) (l : list (Z * (Pubkey * Account))) : Prop :=
  ∀ slot k a, (slot, (k, a)) ∈ l → ∃ r, routing_lookup s !! k = Some r ∧ decodes r k a.
Lemma routed_step s s' x l : routed s (x :: l) → extends s s' → routed s' l.
Proof. intros H He slot k a Hin. rewrite (ex_routes _ _ He). apply (H slot). by right. Qed.
Lemma apply_routed s slot k a l : routes_banks s → routed s ((slot, (k, a)) :: l) →
  ∃ s', apply_update s k a = Ok s' ∧ update_entry s k a = Ok s' ∧ routes_banks s' ∧ routed s' l.
Proof.
  intros Hs Hr. destruct (Hr slot k a) as (r & Hk & Hd); [by left|].
  destruct (update_entry_succeeds _ _ _ _ Hs Hk Hd) as [s' Hu]. exists s'.
  pose proof (update_entry_extends _ _ _ _ Hu) as He. unfold apply_update.
  rewrite bool_decide_eq_true_2 by (by rewrite Hk). split_and!; [done|done| |by eapply routed_step].
  by eapply extends_routes_banks.
Qed.
Lemma apply_updates_succeed l : ∀ s, routes_banks s → routed s l → ∃ s', apply_updates s l = Ok s'.
Proof.
  induction l as [|[slot [k a]] l IH]; intros s Hs Hr; simpl; [by eexists|].
  destruct (apply_routed _ _ _ _ _ Hs Hr) as (s1 & -> & _ & Hs1 & Hr1). by apply IH.
Qed.
Lemma update_entry_accounts s k a s' : update_entry s k a = Ok s' →
  marginfi_accounts s' = marginfi_accounts s ∨
  ∃ m, marginfi_account_try_deserialize (ac_data a) = Some m ∧
       marginfi_accounts s' = <[k := m]> (marginfi_accounts s).
Proof.
  unfold update_entry. intros (r & _ & H)%bind_ok. destruct r as [| |pk []| | | |]; inv_res; simpl; eauto.
Qed.

Lemma update_account_entry s k a s' m :
  routing_lookup s !! k = Some RMarginfiAccount → marginfi_account_try_deserialize (ac_data a) = Some m →
  update_entry s k a = Ok s' → marginfi_accounts s' !! k = Some m.
Proof. unfold update_entry. intros -> Hm. simpl. rewrite Hm. simpl. intros [= <-]. apply lookup_insert_eq. Qed.

Lemma untouched_account l k : ∀ s s', routes_banks s → routed s l → (∀ slot a, (slot, (k, a)) ∉ l) →
  apply_updates s l = Ok s' → marginfi_accounts s' !! k = marginfi_accounts s !! k.
Proof.
  induction l as [|[slot [j a]] l IH]; intros s s' Hs Hr Hno H; simpl in H; [by injection H as <-|].
  destruct (apply_routed _ _ _ _ _ Hs Hr) as (s1 & E & Hu & Hs1 & Hr1). rewrite E in H. simpl in H.
  rewrite (IH _ _ Hs1 Hr1) by (done || set_solver).
  apply update_entry_accounts in Hu as [->|(m & _ & ->)]; [done|]. apply lookup_insert_ne.
  intros ->. apply (Hno slot a). by left.
Qed.

Lemma latest_update_wins l k slot a m : ∀ s s',
  routes_banks s → routed s l → StronglySorted Z.le (fst <$> l) → (slot, (k, a)) ∈ l →
  (∀ slot' a', (slot', (k, a')) ∈ l → slot' ≤ slot ∧ (slot' = slot → a' = a)) →
  routing_lookup s !! k = Some RMarginfiAccount → marginfi_account_try_deserialize (ac_data a) = Some m →
  apply_updates s l = Ok s' → marginfi_accounts s' !! k = Some m.
Proof.
  induction l as [|[slot0 [j b]] l IH]; intros s s' Hs Hr Hsort Hin Hlast Hk Hm H; [by apply elem_of_nil in Hin|].
  simpl in H, Hsort. apply StronglySorted_inv in Hsort as [Hsort Hall]. rewrite Forall_forall in Hall.
  destruct (apply_routed _ _ _ _ _ Hs Hr) as (s1 & E & Hu & Hs1 & Hr1). rewrite E in H. simpl in H.
  pose proof (update_entry_extends _ _ _ _ Hu) as He.
  destruct (decide ((slot, (k, a)) ∈ l)) as [Hl|Hl].
  { apply (IH s1); try done; [|by rewrite (ex_routes _ _ He)]. intros slot' a' Hin'. apply Hlast. by right. }
  apply elem_of_cons in Hin as [E0|Hin]; [|done]. injection E0 as <- <- <-.
  assert (∀ slot' a', (slot', (k, a')) ∉ l) as Hno.
  { intros slot' a' Hin'. destruct (Hlast slot' a') as [Hle Ha]; [by right|].
    assert (slot ≤ slot') by (apply Hall, list_elem_of_fmap; by eexists (_, _)).
    assert (slot' = slot) as -> by lia. by rewrite (Ha eq_refl) in Hin'. }
  rewrite (untouched_account l k s1 s' Hs1 Hr1 Hno H).
  by eapply update_account_entry.
Qed.

(** C33: No confirmed update is lost and no
    stale one wins within a turn.  When the updates of the confirmed slots are
    to accounts the snapshot routes and decode as their routes expect, the
    turn does not panic, and a margin account then is what its update of the
    latest of those slots says. *)
Theorem confirmed_update_reaches_snapshot c slot k a m :
  routes_banks (account_snapshot c) →
  (∀ slot' k' a', confirmed c slot' k' a' →
     ∃ r, routing_lookup (account_snapshot c) !! k' = Some r ∧ decodes r k' a') →
  confirmed c slot k a → (∀ slot' a', confirmed c slot' k a' → slot' ≤ slot) →
  routing_lookup (account_snapshot c) !! k = Some RMarginfiAccount →
  marginfi_account_try_deserialize (ac_data a) = Some m →
  ∃ c', update_account_map c = Ok c' ∧ marginfi_accounts (account_snapshot c') !! k = Some m.
Proof.
  intros Hs Hr Hc Hlast Hk Hm.
  destruct (drain (latest_slots_with_commitment c) (account_updates_queue c)) as [out queue'] eqn:Et.
  pose proof (turn_updates _ _ _ Et) as (Hmem & Hsort & _).
  assert (routed (account_snapshot c) (updates_of out)) as Hru by (intros slot' k' a' Hin%Hmem; by eapply Hr).
  destruct (apply_updates_succeed _ _ Hs Hru) as [s' Hs'].
  exists (mkContext queue' (latest_slots_with_commitment c) s'). split; [apply turn_inv; eauto 10|].
  eapply (latest_update_wins (updates_of out) k slot a m _ _ Hs Hru Hsort); [by apply Hmem| |done..].
  intros slot' a' Hin%Hmem. split; [by eapply Hlast|]. intros ->. destruct Hc as (_ & m1 & E1 & A1).
  destruct Hin as (_ & m2 & E2 & A2). simplify_eq. done.
Qed.
End Theorems.
End Queue.

(** ** The metrics *)
Module Metrics.
Import Snapshot.

(** Double-precision numbers: [to_num::<f64>()] and [as f64] round to nearest,
    ties to even. *)
Definition to_f64 (v : I80F48) : f64 := binary_normalize 53 1024 v (-48) false.
(** [x / 10i64.pow(mint_decimals as u32) as f64]; the power panics on
    overflow (the workspace is built with overflow checks). *)
Definition in_tokens (x : f64) (mint_decimals : Z) : IndexerResult f64 :=
  if 10 ^ mint_decimals <? 2 ^ 63 then Ok (f64_div x (f64_of (10 ^ mint_decimals))) else Panic.
(** [iter.count() as u32] *)
Definition count_u32 {A} (l : list A) : Z := Z.of_nat (length l) `mod` 2 ^ 32.

Record MarginfiGroupMetrics := mkGroupMetrics {
  gm_timestamp : Z;
  gm_pubkey : Pubkey;
  gm_marginfi_accounts_count : Z;
  gm_banks_count : Z;
  gm_mints_count : Z;
  gm_total_assets_in_usd : f64;
  gm_total_liabilities_in_usd : f64
}.
Record LendingPoolBankMetrics := mkBankMetrics {
  bm_timestamp : Z;
  bm_pubkey : Pubkey;
  bm_marginfi_group : Pubkey;
  bm_mint : Pubkey;
  bm_usd_price : f64;
  bm_operational_state : BankOperationalState;
  bm_asset_weight_maintenance : f64;
  bm_liability_weight_maintenance : f64;
  bm_asset_weight_initial : f64;
  bm_liability_weight_initial : f64;
  bm_deposit_limit_in_tokens : f64;
  bm_borrow_limit_in_tokens : f64;
  bm_deposit_limit_in_usd : f64;
  bm_borrow_limit_in_usd : f64;
  bm_lenders_count : Z;
  bm_borrowers_count : Z;
  bm_deposit_rate : f64;
  bm_borrow_rate : f64;
  bm_group_fee : f64;
  bm_insurance_fee : f64;
  bm_total_assets_in_tokens : f64;
  bm_total_liabilities_in_tokens : f64;
  bm_total_assets_in_usd : f64;
  bm_total_liabilities_in_usd : f64;
  bm_liquidity_vault_balance : f64;
  bm_insurance_vault_balance : f64;
  bm_fee_vault_balance : f64
}.
Record PositionsSummary := mkPosition {
  ps_bank : Pubkey;
  ps_mint : Pubkey;
  ps_is_asset : bool;
  ps_amount : f64;
  ps_usd_value : f64;
  ps_usd_value_maintenance : f64;
  ps_usd_value_initial : f64;
  ps_price : f64
}.
Record MarginfiAccountMetrics := mkAccountMetrics {
  am_timestamp : Z;
  am_pubkey : Pubkey;
  am_marginfi_group : Pubkey;
  am_owner : Pubkey;
  am_total_assets_in_usd : f64;
  am_total_liabilities_in_usd : f64;
  am_total_assets_in_usd_maintenance : f64;
  am_total_liabilities_in_usd_maintenance : f64;
  am_total_assets_in_usd_initial : f64;
  am_total_liabilities_in_usd_initial : f64;
  am_positions : list PositionsSummary
}.

Section Ops.
Context {F : FixedOps} {O : OracleSdk} {S : IndexerSdk} {HO : HashOrder}.

(** *** [MarginfiGroupMetrics::new] *)
Definition find_feed (s : Snapshot) (bank_pk : Pubkey) (k : Bank) : IndexerResult OracleData :=
  let? price_feed_pk := index (BankConfig.oracle_keys (Bank.config k)) 0 in
  ok_or (price_feeds s !! price_feed_pk) (EPriceFeedNotFound price_feed_pk bank_pk).

(** The closure of the fold, on one bank. *)
Definition add_bank_values (s : Snapshot) (sums : f64 * f64 * f64 * f64) (x : Pubkey * BankAccounts)
    : IndexerResult (f64 * f64 * f64 * f64) :=
  let '(bank_pk, bank_accounts) := x in
  let k := bank bank_accounts in
  let '(asset_weight, liability_weight) := BankConfig.get_weights (Bank.config k) Maintenance in
  let? oracle := find_feed s bank_pk k in
  let? real_price := get_price_of_type oracle RealTime None in
  let? maint_asset_price := get_price_of_type oracle RealTime (Some Low) in
  let? maint_liab_price := get_price_of_type oracle RealTime (Some High) in
  let? assets := lift (Bank.get_asset_amount k (Bank.total_asset_shares k)) in
  let? asset_value := lift (calc_value assets real_price (Bank.mint_decimals k) None) in
  let? asset_value_maint :=
    lift (calc_value assets maint_asset_price (Bank.mint_decimals k) (Some asset_weight)) in
  let? liabilities := lift (Bank.get_liability_amount k (Bank.total_liability_shares k)) in
  let? liability_value := lift (calc_value liabilities real_price (Bank.mint_decimals k) None) in
  let? liability_value_maint :=
    lift (calc_value liabilities maint_liab_price (Bank.mint_decimals k) (Some liability_weight)) in
  let '(s0, s1, s2, s3) := sums in
  Ok (f64_add s0 (to_f64 asset_value), f64_add s1 (to_f64 liability_value),
      f64_add s2 (to_f64 asset_value_maint), f64_add s3 (to_f64 liability_value_maint)).
Fixpoint sum_bank_values (s : Snapshot) (sums : f64 * f64 * f64 * f64) (l : list (Pubkey * BankAccounts))
    : IndexerResult (f64 * f64 * f64 * f64) :=
  match l with
  | [] => Ok sums
  | x :: l => let? sums := add_bank_values s sums x in sum_bank_values s sums l
  end.
Definition group_banks (s : Snapshot) (group_pk : Pubkey) : list (Pubkey * BankAccounts) :=
  filter (λ '(_, x), Bank.group (bank x) = group_pk) (hash_iter (banks s)).
Definition group_marginfi_accounts (s : Snapshot) (group_pk : Pubkey) : list (Pubkey * MarginfiAccount) :=
  filter (λ '(_, m), MarginfiAccount.group m = group_pk) (hash_iter (marginfi_accounts s)).
Definition group_metrics (timestamp : Z) (group_pk : Pubkey) (s : Snapshot) : IndexerResult MarginfiGroupMetrics :=
  let bs := group_banks s group_pk in
  let? '(total_assets_usd, total_liabilities_usd, _, _) :=
    sum_bank_values s (S754_zero false, S754_zero false, S754_zero false, S754_zero false) bs in
  Ok {| gm_timestamp := timestamp;
        gm_pubkey := group_pk;
        gm_marginfi_accounts_count := count_u32 (group_marginfi_accounts s group_pk);
        gm_banks_count := count_u32 bs;
        gm_mints_count := count_u32 (remove_dups (map (λ '(_, x), Bank.mint (bank x)) bs));
        gm_total_assets_in_usd := total_assets_usd;
        gm_total_liabilities_in_usd := total_liabilities_usd |}.

(** *** [LendingPoolBankMetrics::new] *)
(** An account with an active position of the bank whose shares on one side
    are more than dust. *)
Definition has_position (side : Balance → I80F48) (bank_pk : Pubkey) (m : MarginfiAccount) : bool :=
  existsb (λ b, Balance.active b && (ZERO_AMOUNT_THRESHOLD <? side b) && (Balance.bank_pk b =? bank_pk))
    (MarginfiAccount.lending_account m).
Definition count_positions (s : Snapshot) (side : Balance → I80F48) (bank_pk : Pubkey) : Z :=
  count_u32 (filter (λ '(_, m), has_position side bank_pk m = true) (hash_iter (marginfi_accounts s))).

(** The rates of the bank at its utilization. *)
Definition bank_rates (s : Snapshot) (bank_pk : Pubkey) (k : Bank) (asset_amount liability_amount : I80F48)
    : IndexerResult InterestRateCalc.ComputedInterestRates :=
  let? utilization_rate :=
    if 0 <? asset_amount then ok_or (checked_div liability_amount asset_amount) EMath else Ok ZERO in
  let? group := ok_or (marginfi_groups s !! Bank.group k) (EGroupNotFound (Bank.group k) bank_pk) in
  let ir_calc := InterestRateCalc.create_interest_rate_calculator
                   (BankConfig.interest_rate_config (Bank.config k)) group in
  let? r := lift (InterestRateCalc.calc_interest_rate ir_calc utilization_rate) in
  ok_or r EMath.

Definition bank_metrics (timestamp : Z) (bank_pk : Pubkey) (bank_accounts : BankAccounts) (s : Snapshot)
    : IndexerResult LendingPoolBankMetrics :=
  let k := bank bank_accounts in
  let c := Bank.config k in
  let decimals := Bank.mint_decimals k in
  let '(asset_weight_maintenance, liability_weight_maintenance) := BankConfig.get_weights c Maintenance in
  let '(asset_weight_initial, liability_weight_initial) := BankConfig.get_weights c Initial in
  let? oracle := find_feed s bank_pk k in
  let? price := get_price_of_type oracle RealTime None in
  let? deposit_limit_usd := lift (calc_value (from_num (BankConfig.deposit_limit c)) price decimals None) in
  let? borrow_limit_usd := lift (calc_value (from_num (BankConfig.borrow_limit c)) price decimals None) in
  let? asset_amount := lift (Bank.get_asset_amount k (Bank.total_asset_shares k)) in
  let? asset_value_usd := lift (calc_value asset_amount price decimals None) in
  let? liability_amount := lift (Bank.get_liability_amount k (Bank.total_liability_shares k)) in
  let? liability_value_usd := lift (calc_value liability_amount price decimals None) in
  let? rates := bank_rates s bank_pk k asset_amount liability_amount in
  let? deposit_limit_in_tokens := in_tokens (f64_of (BankConfig.deposit_limit c)) decimals in
  let? borrow_limit_in_tokens := in_tokens (f64_of (BankConfig.borrow_limit c)) decimals in
  let? total_assets_in_tokens := in_tokens (to_f64 asset_amount) decimals in
  let? total_liabilities_in_tokens := in_tokens (to_f64 liability_amount) decimals in
  let? liquidity := in_tokens (f64_of (ta_amount (liquidity_vault_token_account bank_accounts))) decimals in
  let? insurance := in_tokens (f64_of (ta_amount (insurance_vault_token_account bank_accounts))) decimals in
  let? fee := in_tokens (f64_of (ta_amount (fee_vault_token_account bank_accounts))) decimals in
  Ok {| bm_timestamp := timestamp;
        bm_pubkey := bank_pk;
        bm_marginfi_group := Bank.group k;
        bm_mint := Bank.mint k;
        bm_usd_price := to_f64 price;
        bm_operational_state := BankConfig.operational_state c;
        bm_asset_weight_maintenance := to_f64 asset_weight_maintenance;
        bm_liability_weight_maintenance := to_f64 liability_weight_maintenance;
        bm_asset_weight_initial := to_f64 asset_weight_initial;
        bm_liability_weight_initial := to_f64 liability_weight_initial;
        bm_deposit_limit_in_tokens := deposit_limit_in_tokens;
        bm_borrow_limit_in_tokens := borrow_limit_in_tokens;
        bm_deposit_limit_in_usd := to_f64 deposit_limit_usd;
        bm_borrow_limit_in_usd := to_f64 borrow_limit_usd;
        bm_lenders_count := count_positions s Balance.asset_shares bank_pk;
        bm_borrowers_count := count_positions s Balance.liability_shares bank_pk;
        bm_deposit_rate := to_f64 (InterestRateCalc.lending_rate_apr rates);
        bm_borrow_rate := to_f64 (InterestRateCalc.borrowing_rate_apr rates);
        bm_group_fee := to_f64 (InterestRateCalc.group_fee_apr rates);
        bm_insurance_fee := to_f64 (InterestRateCalc.insurance_fee_apr rates);
        bm_total_assets_in_tokens := total_assets_in_tokens;
        bm_total_liabilities_in_tokens := total_liabilities_in_tokens;
        bm_total_assets_in_usd := to_f64 asset_value_usd;
        bm_total_liabilities_in_usd := to_f64 liability_value_usd;
        bm_liquidity_vault_balance := liquidity;
        bm_insurance_vault_balance := insurance;
        bm_fee_vault_balance := fee |}.

(** *** [MarginfiAccountMetrics::new] *)
(** The summary of one active position; every failure panics.  A liability is
    converted with the value of the asset shares, as the code has it. *)
Definition position_summary (s : Snapshot) (balance : Balance) : IndexerResult PositionsSummary :=
  let? k := unwrap (bank <$> banks s !! Balance.bank_pk balance) in
  let '(asset_weight_maintenance, liability_weight_maintenance) :=
    BankConfig.get_weights (Bank.config k) Maintenance in
  let '(asset_weight_initial, liability_weight_initial) := BankConfig.get_weights (Bank.config k) Initial in
  let is_asset := fx_literal 1 10000 <? Balance.asset_shares balance in
  let? oracle_data := unwrap_result (find_feed s (Balance.bank_pk balance) k) in
  let price_bias := Some (if is_asset then Low else High) in
  let? maint_price := get_price_of_type oracle_data RealTime price_bias in
  let? init_price := get_price_of_type oracle_data TimeWeighted price_bias in
  let? real_price := get_price_of_type oracle_data RealTime None in
  let? '(amount, weight_maintenance, weight_initial) :=
    if is_asset then
      let? a := unwrap_result (Bank.get_asset_amount k (Balance.asset_shares balance)) in
      Ok (a, asset_weight_maintenance, asset_weight_initial)
    else
      let? a := unwrap_result (Bank.get_asset_amount k (Balance.liability_shares balance)) in
      Ok (a, liability_weight_maintenance, liability_weight_initial) in
  let? usd_value := unwrap_result (calc_value amount real_price (Bank.mint_decimals k) None) in
  let? usd_value_maintenance :=
    unwrap_result (calc_value amount maint_price (Bank.mint_decimals k) (Some weight_maintenance)) in
  let? usd_value_initial :=
    unwrap_result (calc_value amount init_price (Bank.mint_decimals k) (Some weight_initial)) in
  let? tokens := in_tokens (to_f64 amount) (Bank.mint_decimals k) in
  Ok {| ps_bank := Balance.bank_pk balance;
        ps_mint := Bank.mint k;
        ps_is_asset := is_asset;
        ps_amount := tokens;
        ps_usd_value := to_f64 usd_value;
        ps_usd_value_maintenance := to_f64 usd_value_maintenance;
        ps_usd_value_initial := to_f64 usd_value_initial;
        ps_price := to_f64 real_price |}.
Fixpoint positions_summary (s : Snapshot) (l : list Balance) : IndexerResult (list PositionsSummary) :=
  match l with
  | [] => Ok []
  | b :: l =>
      let? p := position_summary s b in
      let? ps := positions_summary s l in
      Ok (p :: ps)
  end.

Definition account_metrics (timestamp : Z) (account_pk : Pubkey) (m : MarginfiAccount) (s : Snapshot)
    : IndexerResult MarginfiAccountMetrics :=
  let? risk_engine := RiskEngine2.load m (bank <$> banks s) (to_adapter <$> price_feeds s) in
  let? '(assets, liabilities) := RiskEngine2.get_equity_components risk_engine in
  let? '(assets_maintenance, liabilities_maintenance) :=
    RiskEngine2.get_account_health_components risk_engine Maintenance in
  let? '(assets_initial, liabilities_initial) :=
    RiskEngine2.get_account_health_components risk_engine Initial in
  let? positions := positions_summary s
                      (LendingAccount.active_balances (MarginfiAccount.lending_account m)) in
  Ok {| am_timestamp := timestamp;
        am_pubkey := account_pk;
        am_marginfi_group := MarginfiAccount.group m;
        am_owner := MarginfiAccount.authority m;
        am_total_assets_in_usd := to_f64 assets;
        am_total_liabilities_in_usd := to_f64 liabilities;
        am_total_assets_in_usd_maintenance := to_f64 assets_maintenance;
        am_total_liabilities_in_usd_maintenance := to_f64 liabilities_maintenance;
        am_total_assets_in_usd_initial := to_f64 assets_initial;
        am_total_liabilities_in_usd_initial := to_f64 liabilities_initial;
        am_positions := positions |}.
End Ops.

Section Theorems.
Context {F : FixedOps} {L : FixedLaws F} {O : OracleSdk} {HO : HashOrder}.

Lemma position_summary_bank s b p : position_summary s b = Ok p → ps_bank p = Balance.bank_pk b.
Proof.
  unfold position_summary. intros (k & _ & H)%bind_ok.
  destruct (BankConfig.get_weights _ Maintenance), (BankConfig.get_weights _ Initial).
  repeat apply bind_ok in H as (? & _ & H); repeat case_match;
    repeat apply bind_ok in H as (? & _ & H); by injection H as <-.
Qed.


End Theorems.
End Metrics.

(** ** Examples

    The accounts of [Risk.v]'s examples, seen by the indexer. *)
#[local] Existing Instance demo_oracle_sdk.

(** A decoder whose account data are a number. *)
Definition demo_indexer_sdk : IndexerSdk (O := demo_oracle_sdk) := {|
  get_program_accounts program_id := Some [];
  get_multiple_accounts keys := Some (map (λ _, None) keys);
  bank_discriminator := [1; 1; 1; 1; 1; 1; 1; 1];
  marginfi_account_discriminator := [2; 2; 2; 2; 2; 2; 2; 2];
  marginfi_group_discriminator := [3; 3; 3; 3; 3; 3; 3; 3];
  bank_try_deserialize d := match d with [1] => Some Bank.demo_bank | _ => None end;
  marginfi_account_try_deserialize d := match d with [n] => Some (RiskEngine.demo_account n) | _ => None end;
  marginfi_group_try_deserialize d := None;
  spl_unpack d := match d with [m; o; n] => Some (mkTokenAccount m o n) | _ => None end;
  indexer_push_oracles := demo_push_oracles;
  get_price_unchecked d id := Err OtherPriceError;
  pull_feed_size := 3;
  pull_feed_aligned d := true;
  pull_feed_read d := match d with
                      | [v; s; t] => mkPullFeed (mkCurrentResult v s) t 0
                      | _ => mkPullFeed (mkCurrentResult 0 0) 0 0
                      end
|}.
#[local] Existing Instance demo_indexer_sdk.
#[export] Instance demo_hash_order : HashOrder := {|
  hash_iter A m := map_to_list m; hash_iter_perm A m := reflexivity _
|}.

Definition demo_feeds : gmap Z Snapshot.OracleData := {[900 := Snapshot.DPyth demo_feed]}.
Definition demo_bank_accounts : Snapshot.BankAccounts :=
  Snapshot.mkBankAccounts Bank.demo_bank Snapshot.empty_token_account Snapshot.empty_token_account
    Snapshot.empty_token_account.
Definition demo_snapshot : Snapshot.Snapshot :=
  Snapshot.mkSnapshot 1
    (<[70 := Snapshot.RMarginfiAccount]> (<[600 := Snapshot.RBank 600 Snapshot.State]> ∅)) ∅
    (<[600 := demo_bank_accounts]> (<[610 := demo_bank_accounts]> ∅))
    (<[70 := RiskEngine.demo_account 30]> ∅) demo_feeds.
Definition demo_engine2 (tokens : Z) : RiskEngine2.RiskEngine2 :=
  ok_value (RiskEngine2.mkRiskEngine2 [])
    (RiskEngine2.load (RiskEngine.demo_account tokens) (Snapshot.bank <$> Snapshot.banks demo_snapshot)
       (Snapshot.to_adapter <$> demo_feeds)).

Lemma demo_feeds_agree tokens :
  RiskEngine2.feeds_agree (Snapshot.to_adapter <$> demo_feeds)
    (RiskEngine.bank_accounts_with_price (RiskEngine.demo_engine tokens)).
Proof.
  intros a key f f' Ha Hkey Hf Hf'. apply lookup_fmap_Some in Hf as (d & <- & Hd).
  unfold demo_feeds in Hd. apply lookup_singleton_Some in Hd as [_ <-].
  repeat (apply elem_of_cons in Ha as [->|Ha]; [by injection Hf' as <-|]). by apply elem_of_nil in Ha.
Qed.
Lemma demo_fresh tokens :
  Forall RiskEngine2.fresh (RiskEngine.bank_accounts_with_price (RiskEngine.demo_engine tokens)).
Proof. repeat constructor. Qed.
Lemma demo_loads :
  RiskEngine.new_no_flashloan_check (Snapshot.bank <$> Snapshot.banks demo_snapshot) demo_clock
    (RiskEngine.demo_account 30) RiskEngine.demo_remaining = Ok (RiskEngine.demo_engine 30) ∧
  RiskEngine2.load (RiskEngine.demo_account 30) (Snapshot.bank <$> Snapshot.banks demo_snapshot)
    (Snapshot.to_adapter <$> demo_feeds) = Ok (demo_engine2 30).
Proof. split; vm_compute; reflexivity. Qed.

Lemma indexer_engine_agrees_witness :
  let e := RiskEngine.demo_engine 30 in
  (∀ req A B, RiskEngine2.get_account_health_components (demo_engine2 30) req = Ok (A, B) ↔
              RiskEngine.get_account_health_components e req = Ok (A, B)) ∧
  (∀ A B, RiskEngine2.get_equity_components (demo_engine2 30) = Ok (A, B) ↔
          RiskEngine.get_account_health_components e Equity = Ok (A, B)) ∧
  (∀ req h, RiskEngine2.get_account_health (demo_engine2 30) req = Ok h ↔
            RiskEngine.get_account_health e req = Ok h).
Proof.
  apply (proj1 (RiskEngine2.indexer_engine_agrees (F := i80f48) _ demo_clock (RiskEngine.demo_account 30)
    RiskEngine.demo_remaining _ _ _ (proj1 demo_loads) (proj2 demo_loads) (demo_feeds_agree 30))).
  apply demo_fresh.
Defined.

Definition demo_metrics : Metrics.MarginfiAccountMetrics :=
  ok_value (Metrics.mkAccountMetrics 0 0 0 0 S754_nan S754_nan S754_nan S754_nan S754_nan S754_nan [])
    (Metrics.account_metrics 0 70 (RiskEngine.demo_account 30) demo_snapshot).


(** Slots 5 and 6 are confirmed, 7 is not, 4 has been forgotten. *)
Definition demo_update (n : Z) : gmap Z Account := {[70 := mkAccount 1 [n]]}.
Definition demo_context : Queue.Context :=
  Queue.mkContext
    (<[4 := demo_update 10]> (<[5 := demo_update 30]> (<[6 := demo_update 40]> (<[7 := demo_update 50]> ∅))))
    {[5; 6]} demo_snapshot.
Definition demo_next : Queue.Context := ok_value demo_context (Queue.update_account_map demo_context).

Lemma demo_routes : Snapshot.routes_banks demo_snapshot.
Proof.
  intros k pk t H. unfold demo_snapshot in H. simpl in H.
  apply lookup_insert_Some in H as [[_ ?]|[_ H]]; [done|].
  apply lookup_insert_Some in H as [[_ E]|[_ H]]; [injection E as <- <-; by eexists|by rewrite lookup_empty in H].
Qed.
Lemma demo_confirmed slot k a : Queue.confirmed demo_context slot k a →
  k = 70 ∧ (slot = 5 ∧ a = mkAccount 1 [30] ∨ slot = 6 ∧ a = mkAccount 1 [40]).
Proof.
  intros ([->%elem_of_singleton| ->%elem_of_singleton]%elem_of_union & m & Hm & Ha);
    [change (Some (demo_update 30) = Some m) in Hm|change (Some (demo_update 40) = Some m) in Hm];
    injection Hm as <-; unfold demo_update in Ha; apply lookup_singleton_Some in Ha as [<- <-]; auto.
Qed.

Lemma only_confirmed_updates_apply_witness :
  (∃ updates, Queue.apply_updates demo_snapshot updates = Ok (Queue.account_snapshot demo_next) ∧
     (∀ slot k a, (slot, (k, a)) ∈ updates ↔ Queue.confirmed demo_context slot k a) ∧
     StronglySorted Z.le (fst <$> updates)) ∧
  (∀ slot, Queue.account_updates_queue demo_next !! slot =
     if bool_decide (slot ∈ Queue.latest_slots_with_commitment demo_context) || too_old (Queue.latest_slots_with_commitment demo_context) slot
     then None else Queue.account_updates_queue demo_context !! slot) ∧
  Queue.latest_slots_with_commitment demo_next = {[5; 6]} ∧
  Snapshot.routes_banks (Queue.account_snapshot demo_next).
Proof.
  apply (Queue.only_confirmed_updates_apply demo_context demo_next).
  - apply demo_routes.
  - vm_compute. reflexivity.
Defined.

Lemma confirmed_update_reaches_snapshot_witness :
  ∃ c', Queue.update_account_map demo_context = Ok c' ∧
    Snapshot.marginfi_accounts (Queue.account_snapshot c') !! 70 = Some (RiskEngine.demo_account 40).
Proof.
  apply (Queue.confirmed_update_reaches_snapshot demo_context 6 70 (mkAccount 1 [40])).
  - apply demo_routes.
  - intros slot k a (-> & [[_ ->]|[_ ->]])%demo_confirmed; exists Snapshot.RMarginfiAccount; split;
      try reflexivity; by eexists.
  - split; [vm_compute; reflexivity|]. eexists. split; reflexivity.
  - intros slot a (_ & [[-> _]|[-> _]])%demo_confirmed; lia.
  - reflexivity.
  - reflexivity.
Defined.
