(* ===== verification/Streams.v ===== *)
(** * The indexer: transactions and accounts streamed from a node

    [commands/index_transactions.rs] ([Module Transactions]) and
    [commands/index_accounts.rs] ([Module Accounts]): a task receives the
    updates of a geyser stream and keeps them by slot ([SlotQueue.v]); another
    one takes those of the confirmed slots and hands them to the publisher.
    The tasks interleave between their critical sections, which are the
    functions below.  Decoding an update is the geyser client's; the text of
    the messages, the progress logs and the connection are left out. *)
From S2P Require Import Prelude Constants SlotQueue.
From stdpp Require Import sorting.
#[local] Open Scope Z_scope.

(** [CommitmentLevel::Confirmed as i32], [CommitmentLevel::Finalized as i32] *)
Definition CONFIRMED : Z := 1.
Definition FINALIZED : Z := 2.
Inductive StreamError : Set := MissingTransaction.

(** Updates of a stream that carry contents [U]. *)
Inductive UpdateOneof (U : Type) : Type :=
| UpdateContents (slot : Z) (contents : option U)
| UpdateSlot (slot status : Z)
| UpdatePing
| UpdateOther.
Arguments UpdateContents {U}. Arguments UpdateSlot {U}. Arguments UpdatePing {U}. Arguments UpdateOther {U}.

(** What the tasks of either service share. *)
Record Context (V : Type) := mkContext {
  queue : gmap Z V; latest_slots_with_commitment : gset Z; counter : Z;
  stream_disconnection_count : Z; update_processing_error_count : Z
}.
Arguments mkContext {V}. Arguments queue {V}. Arguments latest_slots_with_commitment {V}. Arguments counter {V}.
Arguments stream_disconnection_count {V}. Arguments update_processing_error_count {V}.
Definition new_context {V} : Context V := mkContext ∅ ∅ 0 0 0.

Section Shared.
Context {V U : Type}.
(** What a service does with contents received for a slot. *)
Context (store : gmap Z V → Z → U → outcome StreamError (gmap Z V)) (slots_buffer_size : Z).

Definition with_queue (q : gmap Z V) (c : Context V) : Context V :=
  mkContext q (latest_slots_with_commitment c) (counter c) (stream_disconnection_count c) (update_processing_error_count c).
Definition process_update (c : Context V) (update : UpdateOneof U) : outcome StreamError (Context V) :=
  match update with
  | UpdateContents slot (Some u) => let? q := store (queue c) slot u in Ok (with_queue q c)
  | UpdateContents _ None => Err MissingTransaction
  | UpdateSlot slot status =>
      Ok (if (status =? CONFIRMED) || (status =? FINALIZED)
          then mkContext (queue c) (remember_slot slots_buffer_size (latest_slots_with_commitment c) slot) (counter c)
                 (stream_disconnection_count c) (update_processing_error_count c)
          else c)
  | UpdatePing | UpdateOther => Ok c
  end.
(** The body of [while let Some(received) = stream.next().await]; [None] is an
    update without contents, and the last case the end of the stream. *)
Definition received (c : Context V) (update : option (UpdateOneof U)) : outcome StreamError (Context V) :=
  match update with
  | Some update =>
      match process_update c update with
      | Err _ => Ok (mkContext (queue c) (latest_slots_with_commitment c) (counter c) (stream_disconnection_count c)
                       (update_processing_error_count c + 1))
      | r => r
      end
  | None => Ok c
  end.
Definition disconnected (c : Context V) : Context V :=
  mkContext (queue c) (latest_slots_with_commitment c) (counter c) (stream_disconnection_count c + 1)
    (update_processing_error_count c).
End Shared.

(** ** [index_transactions.rs] *)
Module Transactions.
(** [create_tx_with_meta], which fails on malformed updates and may find no
    metadata. *)
Class Geyser := {
  TransactionInfo : Type;
  VersionedTransaction : Type;
  info_signature : TransactionInfo → Z;
  create_tx_with_meta : TransactionInfo → option (option VersionedTransaction)
}.

Section Ops.
Context {G : Geyser}.
Record TransactionData := mkTransactionData {
  slot : Z; signature : Z; indexing_addresses : list Z; transaction : VersionedTransaction
}.
(** The fields of the message that tell it apart from others. *)
Record Message := mkMessage { m_signature : Z; m_indexing_address : Z; m_slot : Z; m_transaction : VersionedTransaction }.

(** The slot gets its list before the metadata is looked at. *)
Definition store (filters : list Z) (q : gmap Z (list TransactionData)) (at_slot : Z) (info : TransactionInfo)
    : outcome StreamError (gmap Z (list TransactionData)) :=
  let? transaction := unwrap (create_tx_with_meta info) in
  let slot_transactions := default [] (q !! at_slot) in
  Ok (<[at_slot := match transaction with
                   | None => slot_transactions
                   | Some tx => slot_transactions ++ [mkTransactionData at_slot (info_signature info) filters tx]
                   end]> q).
Definition messages_of (t : TransactionData) : list Message :=
  (λ a, mkMessage (signature t) a (slot t) (transaction t)) <$> indexing_addresses t.
(** One turn of [push_transactions_to_pubsub]: what it hands to the publisher. *)
Definition push_transactions (c : Context (list TransactionData)) : list TransactionData * Context (list TransactionData) :=
  let '(out, q) := drain (latest_slots_with_commitment c) (queue c) in
  let transactions_data := out ≫= snd in
  (transactions_data,
   mkContext q (latest_slots_with_commitment c) (counter c + Z.of_nat (length transactions_data))
     (stream_disconnection_count c) (update_processing_error_count c)).
Definition published (ts : list TransactionData) : list Message := ts ≫= messages_of.
End Ops.
End Transactions.

(** ** [index_accounts.rs] *)
Module Accounts.
Section Ops.
(** [convert_account] and the contents of an account. *)
Context {AccountInfo Account : Type} (info_pubkey : AccountInfo → Pubkey) (info_write_version : AccountInfo → Z)
  (info_signature : AccountInfo → option Z) (convert_account : AccountInfo → option Account) {HO : HashOrder}.
Record AccountUpdateData := mkAccountUpdateData {
  slot : Z; address : Pubkey; txn_signature : option Z; write_version : option Z; account_data : Account
}.
(** A later update of the same account in the slot replaces the earlier one. *)
Definition store (q : gmap Z (gmap Z AccountUpdateData)) (update_slot : Z) (info : AccountInfo)
    : outcome StreamError (gmap Z (gmap Z AccountUpdateData)) :=
  let? data := unwrap (convert_account info) in
  Ok (<[update_slot := <[info_pubkey info := mkAccountUpdateData update_slot (info_pubkey info) (info_signature info)
                           (Some (info_write_version info)) data]> (default ∅ (q !! update_slot))]> q).
Definition push_account_updates (c : Context (gmap Z AccountUpdateData))
    : list AccountUpdateData * Context (gmap Z AccountUpdateData) :=
  let '(out, q) := drain (latest_slots_with_commitment c) (queue c) in
  let account_updates_data := out ≫= λ x, snd <$> hash_iter (snd x) in
  (account_updates_data,
   mkContext q (latest_slots_with_commitment c) (counter c + Z.of_nat (length account_updates_data))
     (stream_disconnection_count c) (update_processing_error_count c)).
End Ops.
End Accounts.

(** ** Every transaction is published once, or thrown away with its slot *)
Module Import TransactionFacts.
Import Transactions.
Section Facts.
Context {G : Geyser} (slots_buffer_size : Z).
Implicit Types c : Context (list TransactionData).

(** The transaction an update brings, and the slot it confirms. *)
Definition brought (filters : list Z) (update : option (UpdateOneof TransactionInfo)) : list TransactionData :=
  match update with
  | Some (UpdateContents s (Some info)) =>
      match create_tx_with_meta info with
      | Some (Some tx) => [mkTransactionData s (info_signature info) filters tx]
      | _ => []
      end
  | _ => []
  end.
Definition confirms (update : option (UpdateOneof TransactionInfo)) : gset Z :=
  match update with
  | Some (UpdateSlot s status) => if (status =? CONFIRMED) || (status =? FINALIZED) then {[s]} else ∅
  | _ => ∅
  end.
Definition contents (q : gmap Z (list TransactionData)) : list TransactionData := map_to_list q ≫= snd.
Definition pending c : list TransactionData := contents (queue c).
Definition thrown c : list TransactionData :=
  contents (filter (λ x, too_old (latest_slots_with_commitment c) x.1 = true) (queue c)).

(** A run of the service: what it received, published and threw away so far,
    and the slots it was told are confirmed. *)
Inductive runs : Context (list TransactionData) → list TransactionData → list TransactionData →
    list TransactionData → gset Z → Prop :=
| runs_start : runs new_context [] [] [] ∅
| runs_update c c' r p d k filters update :
    runs c r p d k → received (store filters) slots_buffer_size c update = Ok c' →
    runs c' (r ++ brought filters update) p d (k ∪ confirms update)
| runs_disconnected c r p d k : runs c r p d k → runs (disconnected c) r p d k
| runs_turn c c' ts r p d k :
    runs c r p d k → push_transactions c = (ts, c') → runs c' r (p ++ ts) (d ++ thrown c) k.

Lemma contents_slot q s : contents q ≡ₚ default [] (q !! s) ++ contents (delete s q).
Proof.
  unfold contents. destruct (q !! s) as [l|] eqn:E; simpl.
  - by rewrite <- (map_to_list_delete q s l E).
  - by rewrite delete_id.
Qed.
Lemma contents_insert q s l : contents (<[s := l]> q) ≡ₚ l ++ contents (delete s q).
Proof. rewrite (contents_slot _ s), lookup_insert_eq, delete_insert_eq. done. Qed.
Lemma contents_elem q t : t ∈ contents q ↔ ∃ s l, q !! s = Some l ∧ t ∈ l.
Proof.
  unfold contents. rewrite list_elem_of_bind. split.
  - intros ([s l] & Ht & Hin%elem_of_map_to_list). eauto.
  - intros (s & l & Hin & Ht). exists (s, l). split; [done|by apply elem_of_map_to_list].
Qed.

Lemma received_ok c c' filters update : received (store filters) slots_buffer_size c update = Ok c' →
  pending c' ≡ₚ pending c ++ brought filters update ∧ counter c' = counter c ∧
  latest_slots_with_commitment c' =
    match update with
    | Some (UpdateSlot s status) =>
        if (status =? CONFIRMED) || (status =? FINALIZED)
        then remember_slot slots_buffer_size (latest_slots_with_commitment c) s else latest_slots_with_commitment c
    | _ => latest_slots_with_commitment c
    end ∧
  (∀ s l t, queue c' !! s = Some l → t ∈ l → t ∈ brought filters update ∧ slot t = s ∨ ∃ l0, queue c !! s = Some l0 ∧ t ∈ l0).
Proof.
  destruct update as [[s [info|]|s status| |]|]; simpl; intros H; try (injection H as <-; simpl; rewrite app_nil_r; by eauto 8).
  - unfold store in H. destruct (create_tx_with_meta info) as [tx|] eqn:Ei; [|done]. injection H as <-. simpl.
    unfold pending, with_queue. simpl. rewrite contents_insert, (contents_slot (queue c) s). split_and!; [|done|done|].
    + destruct tx; [by solve_Permutation|by rewrite app_nil_r].
    + intros s' l t [[<- <-]|[_ Hl]]%lookup_insert_Some Ht; [|by eauto].
      destruct tx as [tx|]; [apply elem_of_app in Ht as [Ht| ->%list_elem_of_singleton]; [|by left; split; [left|]]|];
        right; (destruct (queue c !! s); [by eauto|by apply elem_of_nil in Ht]).
  - destruct ((status =? CONFIRMED) || (status =? FINALIZED)); injection H as <-; simpl; rewrite app_nil_r; by eauto 8.
Qed.
Lemma push_ok c c' ts : push_transactions c = (ts, c') →
  pending c ≡ₚ ts ++ pending c' ++ thrown c ∧ counter c' = counter c + Z.of_nat (length ts) ∧
  latest_slots_with_commitment c' = latest_slots_with_commitment c ∧
  (∀ t, t ∈ ts ↔ ∃ s l, s ∈ latest_slots_with_commitment c ∧ queue c !! s = Some l ∧ t ∈ l) ∧
  ∀ s, queue c' !! s = if bool_decide (s ∈ latest_slots_with_commitment c) || too_old (latest_slots_with_commitment c) s
                       then None else queue c !! s.
Proof.
  unfold push_transactions. destruct (drain _ _) as [out q] eqn:E. intros [= <- <-]. simpl.
  pose proof (drain_spec _ _ _ _ E) as (Hmem & _ & _ & Hq). split_and!; [|done|done| |done].
  - unfold pending, thrown, contents. simpl. rewrite (drain_partition _ _ _ _ E). by rewrite !bind_app.
  - intros t. rewrite list_elem_of_bind. split.
    + intros ([s l] & Ht & [Hs Hl]%Hmem). eauto.
    + intros (s & l & Hs & Hl & Ht). exists (s, l). split; [done|by apply Hmem].
Qed.
(** In the order of the slots. *)
Lemma push_sorted c c' ts : (∀ s l t, queue c !! s = Some l → t ∈ l → slot t = s) →
  push_transactions c = (ts, c') → StronglySorted Z.le (slot <$> ts).
Proof.
  unfold push_transactions. destruct (drain _ _) as [out q] eqn:E. intros Hslot [= <- _].
  apply drain_spec in E as (Hmem & Hs & _ & _).
  assert (∀ s l t, (s, l) ∈ out → t ∈ l → slot t = s) as Hout by (intros s l t [_ ?]%Hmem ?; by eapply Hslot).
  clear Hmem Hslot. induction out as [|[s l] out IH]; [constructor|].
  apply StronglySorted_inv in Hs as [Hs Hall]. rewrite list.Forall_forall in Hall.
  change (((s, l) :: out) ≫= snd) with (l ++ (out ≫= snd)). rewrite fmap_app. apply StronglySorted_app_2.
  - intros i j (t & -> & Ht)%list_elem_of_fmap (t' & -> & ([s' l'] & Ht' & Hin)%list_elem_of_bind)%list_elem_of_fmap.
    rewrite (Hout s l t), (Hout s' l' t'); [|by right|done|by left|done].
    apply Hall. apply list_elem_of_fmap. by exists (s', l').
  - assert (∀ t, t ∈ l → slot t = s) as Hl by (intros t Ht; eapply Hout; [by left|done]). clear -Hl.
    induction l as [|t l IH]; simpl; constructor; [apply IH; intros ? ?; apply Hl; by right|].
    apply Forall_fmap, list.Forall_forall. intros t' Ht'. simpl. rewrite !Hl; [done|by right|by left].
  - apply IH; [done|]. intros s' l' t Hin. apply Hout. by right.
Qed.

(** What holds of a run. *)
Record accounted c r p d (k : gset Z) : Prop := {
  ac_once : r ≡ₚ p ++ pending c ++ d;
  ac_published t : t ∈ p → slot t ∈ k;
  ac_thrown t : t ∈ d → ∃ y, y ∈ k ∧ slot t < y;
  ac_counter : counter c = Z.of_nat (length p);
  ac_slot s l t : queue c !! s = Some l → t ∈ l → slot t = s;
  ac_latest : latest_slots_with_commitment c ⊆ k;
  ac_remembered x : x ∈ k → accounted_for slots_buffer_size (latest_slots_with_commitment c) x
}.

Lemma latest_update c c' filters update (k : gset Z) : received (store filters) slots_buffer_size c update = Ok c' →
  latest_slots_with_commitment c ⊆ k →
  (∀ x, x ∈ k → accounted_for slots_buffer_size (latest_slots_with_commitment c) x) →
  latest_slots_with_commitment c' ⊆ k ∪ confirms update ∧
  ∀ x, x ∈ k ∪ confirms update → accounted_for slots_buffer_size (latest_slots_with_commitment c') x.
Proof.
  intros (_ & _ & -> & _)%received_ok Hk Ha.
  assert (confirms update = ∅ → latest_slots_with_commitment c ⊆ k ∪ confirms update ∧
    ∀ x, x ∈ k ∪ confirms update → accounted_for slots_buffer_size (latest_slots_with_commitment c) x) as Hno.
  { intros ->. rewrite (right_id_L ∅ (∪)). by split. }
  destruct update as [[s u|s status| |]|]; try (by apply Hno). simpl in *.
  destruct ((status =? CONFIRMED) || (status =? FINALIZED)); [|by apply Hno]. split.
  - intros x [->|Hx]%remember_slot_elem; apply elem_of_union; [right; by apply elem_of_singleton|left; by apply Hk].
  - intros x [Hx| ->%elem_of_singleton]%elem_of_union; apply remember_slot_accounts; [right; by apply Ha|by left].
Qed.
Lemma accounted_update c c' r p d k filters update : accounted c r p d k →
  received (store filters) slots_buffer_size c update = Ok c' →
  accounted c' (r ++ brought filters update) p d (k ∪ confirms update).
Proof.
  intros [H1 H2 H3 H4 H5 H6 H7] H. destruct (latest_update _ _ _ _ k H H6 H7) as [Hk Ha].
  apply received_ok in H as (Hp & Hc & _ & Hq). split.
  - rewrite H1, Hp. solve_Permutation.
  - intros t Ht. apply elem_of_union. left. by apply H2.
  - intros t Ht. destruct (H3 t Ht) as (y & Hy & ?). exists y. split; [apply elem_of_union; by left|done].
  - congruence.
  - intros s l t Hs Ht. destruct (Hq s l t Hs Ht) as [[_ ?]|(l0 & ? & ?)]; [done|by eapply H5].
  - done.
  - done.
Qed.
Lemma accounted_turn c c' ts r p d k : accounted c r p d k → push_transactions c = (ts, c') →
  accounted c' r (p ++ ts) (d ++ thrown c) k.
Proof.
  intros [H1 H2 H3 H4 H5 H6 H7] H. apply push_ok in H as (Hp & Hc & Hl & Hts & Hq). split.
  - rewrite H1, Hp. solve_Permutation.
  - intros t [Ht|(s & l & Hs & Hsl & Ht)%Hts]%elem_of_app; [by apply H2|].
    rewrite (H5 s l t Hsl Ht). by apply H6.
  - intros t [Ht|(s & l & [Hsl Hold]%map_lookup_filter_Some & Ht)%contents_elem]%elem_of_app; [by apply H3|].
    apply too_old_spec in Hold as (y & Hy & Hlt). exists y. rewrite (H5 s l t Hsl Ht). split; [by apply H6|done].
  - rewrite Hc, H4, length_app. lia.
  - intros s l t Hs Ht. rewrite Hq in Hs. destruct (_ || _); [done|by eapply H5].
  - by rewrite Hl.
  - intros x Hx. rewrite Hl. by apply H7.
Qed.
Lemma runs_accounted c r p d k : runs c r p d k → accounted c r p d k.
Proof.
  induction 1.
  - split; try done; by intros ? ?%elem_of_nil.
  - by eapply accounted_update.
  - destruct IHruns as [H1 H2 H3 H4 H5 H6 H7]. by split.
  - by eapply accounted_turn.
Qed.

(** The service that indexes transactions, whatever the order in which its
    tasks run: each transaction it received is published, waiting or thrown
    away, once; what it published is of slots it was told are confirmed, what
    it threw away of slots before one; and a turn publishes, in the order of
    the slots, what waits for the slots it remembers, and leaves nothing of
    a confirmed slot waiting. *)
Theorem transactions_are_published_once c r p d k : 0 < slots_buffer_size → runs c r p d k →
  r ≡ₚ p ++ pending c ++ d ∧ counter c = Z.of_nat (length p) ∧
  (∀ t, t ∈ p → slot t ∈ k) ∧ (∀ t, t ∈ d → ∃ y, y ∈ k ∧ slot t < y) ∧
  ∀ ts c', push_transactions c = (ts, c') →
    StronglySorted Z.le (slot <$> ts) ∧
    (∀ t, t ∈ pending c → slot t ∈ latest_slots_with_commitment c → t ∈ ts) ∧
    ∀ t, t ∈ pending c' → slot t ∉ k.
Proof.
  intros Hn Hr. pose proof (runs_accounted _ _ _ _ _ Hr) as [H1 H2 H3 H4 H5 H6 H7].
  split_and!; [done..|]. intros ts c' Ht. split; [by eapply push_sorted|].
  apply push_ok in Ht as (_ & _ & _ & Hts & Hq). split.
  - intros t (s & l & Hs & Hin)%contents_elem Hl. apply Hts. rewrite (H5 s l t Hs Hin) in Hl. eauto.
  - intros t (s & l & Hs & Hin)%contents_elem Hk. rewrite Hq in Hs.
    case_bool_decide as Hl; [done|]. destruct (too_old _ s) eqn:Eo; [done|]. simpl in Hs.
    rewrite (H5 s l t Hs Hin) in Hk. apply H7 in Hk. by rewrite (forgotten_too_old _ _ _ Hn Hk Hl) in Eo.
Qed.
End Facts.
End TransactionFacts.

(** ** Accounts: the last update of a slot is published *)
Module Import AccountFacts.
Import Accounts.
Section Facts.
Context {AccountInfo Account : Type} (info_pubkey : AccountInfo → Pubkey) (info_write_version : AccountInfo → Z)
  (info_signature : AccountInfo → option Z) (convert_account : AccountInfo → option Account) {HO : HashOrder}.
Implicit Types c : Context (gmap Z (@AccountUpdateData Account)).
Notation store := (store info_pubkey info_write_version info_signature convert_account).

(** What waits for a slot and an account. *)
Definition waiting c (s : Z) (k : Pubkey) : option AccountUpdateData := m ← queue c !! s; m !! k.

Lemma store_waiting c slots_buffer_size s info data c' :
  convert_account info = Some data →
  received store slots_buffer_size c (Some (UpdateContents s (Some info))) = Ok c' →
  ∀ s' k, waiting c' s' k =
    if decide (s' = s ∧ k = info_pubkey info)
    then Some (mkAccountUpdateData s k (info_signature info) (Some (info_write_version info)) data)
    else waiting c s' k.
Proof.
  intros Hd H s' k. unfold received, process_update, Accounts.store in H. rewrite Hd in H. injection H as <-.
  unfold waiting. simpl. destruct (decide (s' = s)) as [->|Hs].
  - rewrite lookup_insert_eq. simpl. destruct (decide (k = info_pubkey info)) as [->|Hk].
    + rewrite lookup_insert_eq. by rewrite decide_True.
    + rewrite lookup_insert_ne by done. rewrite decide_False by tauto.
      destruct (queue c !! s); simpl; [done|apply lookup_empty].
  - rewrite lookup_insert_ne by done. by rewrite decide_False by tauto.
Qed.
(** A turn publishes what waits for the slots it remembers, and counts it. *)
Lemma push_accounts_ok c ds c' : push_account_updates c = (ds, c') →
  (∀ u, u ∈ ds ↔ ∃ s k, s ∈ latest_slots_with_commitment c ∧ waiting c s k = Some u) ∧
  counter c' = counter c + Z.of_nat (length ds) ∧
  ∀ s k, waiting c' s k = if bool_decide (s ∈ latest_slots_with_commitment c) ||
                              too_old (latest_slots_with_commitment c) s then None else waiting c s k.
Proof.
  unfold push_account_updates. destruct (drain _ _) as [out q] eqn:E. intros [= <- <-].
  apply drain_spec in E as (Hmem & _ & _ & Hq). split_and!; [|done|].
  - intros u. unfold waiting. rewrite list_elem_of_bind. split.
    + intros ([s m] & Hu & [Hs Hm]%Hmem). apply list_elem_of_fmap in Hu as ([k u'] & -> & Hk%hash_iter_elem).
      exists s, k. simpl. by rewrite Hm.
    + intros (s & k & Hs & (m & Hm & Hk)%bind_Some). exists (s, m). split; [|by apply Hmem].
      apply list_elem_of_fmap. exists (k, u). split; [done|by apply hash_iter_elem].
  - intros s k. unfold waiting. simpl. rewrite Hq. by destruct (_ || _).
Qed.
End Facts.
End AccountFacts.

(** ** Examples *)
Section Demo.
Import Transactions.
Definition demo_geyser : Geyser := {|
  TransactionInfo := Z; VersionedTransaction := Z; info_signature i := i; create_tx_with_meta i := Some (Some i)
|}.
#[local] Existing Instance demo_geyser.
Notation ctx := (Context (list TransactionData)).

(** A service that remembers one slot receives transaction 71 for slot 5, is
    told that slot 5 is confirmed, and publishes it. *)
Definition demo_feed (c : ctx) (update : UpdateOneof Z) : ctx :=
  ok_value c (received (store [9]) 1 c (Some update)).
Definition demo_confirmed : ctx := demo_feed (demo_feed new_context (UpdateContents 5 (Some 71))) (UpdateSlot 5 CONFIRMED).
Definition demo_published : ctx := snd (push_transactions demo_confirmed).
Lemma demo_runs :
  runs (G := demo_geyser) 1 demo_published [mkTransactionData 5 71 [9] 71] [mkTransactionData 5 71 [9] 71] [] {[5]}.
Proof.
  pose proof (runs_start (G := demo_geyser) 1) as H0.
  pose proof (runs_update 1 _ (demo_feed new_context (UpdateContents 5 (Some 71))) _ _ _ _ [9] (Some (UpdateContents 5 (Some 71)))
                H0 eq_refl) as H1.
  pose proof (runs_update 1 _ demo_confirmed _ _ _ _ [9] (Some (UpdateSlot 5 CONFIRMED)) H1 eq_refl) as H2.
  exact (runs_turn 1 _ demo_published [mkTransactionData 5 71 [9] 71] _ _ _ _ H2 eq_refl).
Qed.
Lemma transactions_are_published_once_witness :
  [mkTransactionData 5 71 [9] 71] ≡ₚ [mkTransactionData 5 71 [9] 71] ++ pending demo_published ++ [] ∧
  counter demo_published = 1.
Proof.
  destruct (transactions_are_published_once 1 _ _ _ _ _ eq_refl demo_runs) as (H1 & H2 & _).
  split; [exact H1|exact H2].
Defined.

(** A transaction of slot 5 that arrives after slot 6 was confirmed is thrown
    away, although slot 5 was confirmed as well. *)
Definition demo_late : ctx := demo_feed (demo_feed demo_published (UpdateSlot 6 CONFIRMED)) (UpdateContents 5 (Some 72)).
Example late_transaction_is_lost :
  pending demo_late = [mkTransactionData 5 72 [9] 72] ∧ fst (push_transactions demo_late) = [] ∧
  pending (snd (push_transactions demo_late)) = [].
Proof. vm_compute. split_and!; reflexivity. Qed.
End Demo.
