(* ===== verification/Crawler.v ===== *)
(** * The indexer: the transactions crawler

    [utils/transactions_crawler.rs] and the backfill command that runs it
    ([commands/backfill.rs]).  One task asks the node for pages of signatures
    of the targets, going back in time, and queues them; another fetches the
    queued transactions, a batch at a time and in order, and queues those the
    node returned; the transaction processor takes them.  [State] holds what the
    tasks share and the local variables they keep from one step to the next;
    each definition is what a task does between two points where the others can
    run.  Requests are answered by the node: its answers are arguments.

    Timing, logs and the monitor, which only reads, are left out, and so is
    what the backfill does with a transaction (a message per transaction, whose
    publication it does not retry). *)
From S2P Require Import Prelude Constants.
From stdpp Require Import sorting.
#[local] Open Scope Z_scope.

Notation Signature := Z (only parsing).
(** [common.rs] *)
Record Target := mkTarget { address : Pubkey; before : option Signature; until : option Signature }.
Definition DEFAULT_SIGNATURE_FETCH_LIMIT : nat := Z.to_nat 1000.
Definition DEFAULT_MAX_PENDING_SIGNATURES : nat := Z.to_nat 10000.
Record TransactionsCrawlerConfig := mkConfig {
  signature_fetch_limit : nat; max_pending_signatures : nat; targets : list Target
}.
Definition default_config (targets : list Target) : TransactionsCrawlerConfig :=
  mkConfig DEFAULT_SIGNATURE_FETCH_LIMIT DEFAULT_MAX_PENDING_SIGNATURES targets.

(** [RpcConfirmedTransactionStatusWithSignature]; whether it has an [err]. *)
Record SignatureStatus := mkStatus { st_signature : Signature; st_slot : Z; st_err : bool }.
Record SignatureData := mkSignatureData { sd_address : Pubkey; sd_signature : Signature }.
(** [EncodedConfirmedTransactionWithStatusMeta] *)
Class Transactions := {
  Transaction : Type; tx_signature : Transaction → Signature; tx_slot : Transaction → Z;
  tx_block_time : Transaction → option Z
}.
(** A page of signatures: the target, and the signature to go back from. *)
Notation SignaturesRpc := (Target → option Signature → option (list SignatureStatus)).

Section Crawler.
Context {TX : Transactions} {HO : HashOrder} (cfg : TransactionsCrawlerConfig).
Record TransactionData := mkTransactionData { td_address : Pubkey; td_transaction : Transaction }.
(** [ConcurrentQueue::bounded(1_000)] *)
Definition TRANSACTION_QUEUE_BOUND : nat := Z.to_nat 1000.

Record State := mkState {
  signature_queue : list SignatureData;
  transaction_queue : list TransactionData;
  minimum_slot_available : Z;
  oldest_slot_fetched : Z * Z;                             (* slot, timestamp *)
  transaction_counter : Z;
  last_fetched_signature : gmap Pubkey (option Signature); (* of the crawling task *)
  in_flight : list SignatureData;                          (* of the fetching task: *)
  signatures_to_retry : list SignatureData                 (* what it waits for, and what failed *)
}.
Definition start : State :=
  mkState [] [] 0 (0, 0) 0 (list_to_map (reverse ((λ t, (address t, before t)) <$> targets cfg))) [] [].

(** No errors, only panics. *)
Notation result := (outcome Empty_set).

(** ** [crawl_signatures_for_address] *)
(** The answers, by address; failed requests are discarded. *)
Definition new_signatures_per_address (rpc : SignaturesRpc) (s : State) : gmap Pubkey (list SignatureStatus) :=
  list_to_map (reverse (omap (λ t,
    match rpc t (default None (last_fetched_signature s !! address t)) with
    | Some signatures => Some (address t, signatures)
    | None => None
    end) (targets cfg))).
(** [sort_by(|s1, s2| s2.1.slot.cmp(&s1.1.slot))]: stable, newest first. *)
Definition sort_by_slot (l : list (Pubkey * SignatureStatus)) : list (Pubkey * SignatureStatus) :=
  sort_by (λ x y, st_slot (snd y) <=? st_slot (snd x)) l.
(** Without the failed transactions. *)
Definition signatures_to_push (new : gmap Pubkey (list SignatureStatus)) : list SignatureData :=
  (λ x, mkSignatureData (fst x) (st_signature (snd x))) <$>
    filter (λ x, st_err (snd x) = false) (sort_by_slot (hash_iter new ≫= λ '(a, l), pair a <$> l)).
Definition update_last_fetched (new : gmap Pubkey (list SignatureStatus)) (last_fetched : gmap Pubkey (option Signature))
    : gmap Pubkey (option Signature) :=
  foldr (λ '(a, signatures) m, match last signatures with
                               | Some last_sig => <[a := Some (st_signature last_sig)]> m
                               | None => m
                               end) last_fetched (hash_iter new).

Definition with_cursor (last_fetched : gmap Pubkey (option Signature)) (queue : list SignatureData) (s : State) : State :=
  mkState queue (transaction_queue s) (minimum_slot_available s) (oldest_slot_fetched s) (transaction_counter s)
    last_fetched (in_flight s) (signatures_to_retry s).
Definition with_minimum_slot (m : Z) (s : State) : State :=
  mkState (signature_queue s) (transaction_queue s) m (oldest_slot_fetched s) (transaction_counter s)
    (last_fetched_signature s) (in_flight s) (signatures_to_retry s).
(** One turn of the loop. *)
Definition crawl_signatures (rpc : SignaturesRpc) (minimum_ledger_slot : option Z) (s : State) : result State :=
  let new := new_signatures_per_address rpc s in
  let? m := unwrap minimum_ledger_slot in
  let s := with_minimum_slot m s in
  let to_push := signatures_to_push new in
  let last_fetched := update_last_fetched new (last_fetched_signature s) in
  if bool_decide (to_push = []) then Ok (with_cursor last_fetched (signature_queue s) s)
  else if (max_pending_signatures cfg <? length (signature_queue s) + length to_push)%nat then Ok s
  else Ok (with_cursor last_fetched (signature_queue s ++ to_push) s).

(** ** [fetch_transactions] *)
(** The queue is emptied. *)
Definition take_signatures (s : State) : State :=
  mkState [] (transaction_queue s) (minimum_slot_available s) (oldest_slot_fetched s) (transaction_counter s)
    (last_fetched_signature s) (signature_queue s) [].
(** The answer for the next signature of the batch; pushing onto a full queue
    is an error that is unwrapped. *)
Definition receive (answer : option Transaction) (s : State) : result State :=
  match in_flight s, answer with
  | [], _ => Ok s
  | x :: rest, Some transaction =>
      if (length (transaction_queue s) <? TRANSACTION_QUEUE_BOUND)%nat then
        Ok (mkState (signature_queue s) (transaction_queue s ++ [mkTransactionData (sd_address x) transaction])
              (minimum_slot_available s)
              (tx_slot transaction, i64_as_u64 (default 0 (tx_block_time transaction)))
              ((transaction_counter s + 1) mod 2 ^ 64) (last_fetched_signature s) rest (signatures_to_retry s))
      else Panic
  | x :: rest, None =>
      Ok (mkState (signature_queue s) (transaction_queue s) (minimum_slot_available s) (oldest_slot_fetched s)
            (transaction_counter s) (last_fetched_signature s) rest (signatures_to_retry s ++ [x]))
  end.
(** At the end of the batch. *)
Definition push_retries (s : State) : State :=
  mkState (signature_queue s ++ signatures_to_retry s) (transaction_queue s) (minimum_slot_available s)
    (oldest_slot_fetched s) (transaction_counter s) (last_fetched_signature s) (in_flight s) [].

(** ** [push_transactions_to_pubsub]: the processor empties its queue. *)
Definition take_transactions (s : State) : list TransactionData * State :=
  (transaction_queue s,
   mkState (signature_queue s) [] (minimum_slot_available s) (oldest_slot_fetched s) (transaction_counter s)
     (last_fetched_signature s) (in_flight s) (signatures_to_retry s)).
End Crawler.

(** ** The node's history *)
Section History.
Context (history : Pubkey → list SignatureStatus).

(** [getSignaturesForAddress]: newest first, older than [before], until
    [until]. *)
Fixpoint older_than (b : Signature) (h : list SignatureStatus) : list SignatureStatus :=
  match h with [] => [] | x :: h => if st_signature x =? b then h else older_than b h end.
Fixpoint up_to (u : Signature) (h : list SignatureStatus) : list SignatureStatus :=
  match h with [] => [] | x :: h => if st_signature x =? u then [] else x :: up_to u h end.
Definition range_from (t : Target) (b : option Signature) : list SignatureStatus :=
  let h := match b with Some b => older_than b (history (address t)) | None => history (address t) end in
  match until t with Some u => up_to u h | None => h end.
(** What there is to crawl for a target. *)
Definition range (t : Target) : list SignatureStatus := range_from t (before t).
Definition cursor_of (t : Target) (fetched : list SignatureStatus) : option Signature :=
  match last fetched with Some x => Some (st_signature x) | None => before t end.

Lemma older_than_app b l1 x l2 : st_signature x = b → b ∉ st_signature <$> l1 → older_than b (l1 ++ x :: l2) = l2.
Proof.
  intros Hx. induction l1 as [|y l1 IH]; simpl; intros Hb; [by rewrite Hx, Z.eqb_refl|].
  apply not_elem_of_cons in Hb as [Hy Hb]. destruct (Z.eqb_spec (st_signature y) b); [congruence|by apply IH].
Qed.
Lemma older_than_suffix b h : ∃ l, h = l ++ older_than b h.
Proof.
  induction h as [|x h [l IH]]; simpl; [by exists []|].
  destruct (st_signature x =? b); [by exists [x]|]. exists (x :: l). simpl. by f_equal.
Qed.
Lemma up_to_app u h f rest : up_to u h = f ++ rest → ∃ h', h = f ++ h' ∧ up_to u h' = rest.
Proof.
  revert h. induction f as [|y f IH]; intros h H; simpl in *; [by exists h|].
  destruct h as [|x h]; [done|]. simpl in H. destruct (st_signature x =? u); [done|].
  injection H as -> H. destruct (IH _ H) as (h' & -> & ?). by exists h'.
Qed.
(** Where a crawl that has fetched the first part of a range goes on. *)
Lemma range_resume t f rest : NoDup (st_signature <$> history (address t)) → range t = f ++ rest →
  range_from t (cursor_of t f) = rest.
Proof.
  intros Hnd H. unfold cursor_of. destruct (last f) as [x|] eqn:Ex; [|by apply last_None in Ex as ->].
  apply last_Some in Ex as [f' ->]. unfold range, range_from in H.
  set (h0 := match before t with Some b => older_than b (history (address t)) | None => history (address t) end) in H.
  assert (∃ l, history (address t) = l ++ h0) as [l Hl].
  { unfold h0. destruct (before t); [apply older_than_suffix|by exists []]. }
  assert (∃ h', h0 = (f' ++ [x]) ++ h' ∧ match until t with Some u => up_to u h' | None => h' end = rest) as (h' & Hh & Hr).
  { destruct (until t) as [u|]; [by apply up_to_app|]. by exists rest. }
  unfold range_from. rewrite Hl, Hh in *. rewrite <- app_assoc, app_assoc in *. simpl in *.
  rewrite older_than_app; [done|done|]. rewrite fmap_app in Hnd. simpl in Hnd.
  apply NoDup_app in Hnd as (_ & Hd & _). intros Hin. by apply (Hd _ Hin); left.
Qed.
End History.

(** ** Nothing is lost *)
Section Facts.
Context {TX : Transactions} {HO : HashOrder} (cfg : TransactionsCrawlerConfig) (history : Pubkey → list SignatureStatus).
Notation targets := (targets cfg).

(** The node answers as documented, or not at all. *)
Definition answers (rpc : SignaturesRpc) : Prop :=
  ∀ t b l, rpc t b = Some l → l = take (signature_fetch_limit cfg) (range_from history t b).
(** The steps of the tasks, with what the processor has taken so far. *)
Inductive step : State * list TransactionData → State * list TransactionData → Prop :=
| step_crawl rpc m s s' d : answers rpc → crawl_signatures cfg rpc m s = Ok s' → step (s, d) (s', d)
| step_take s d : in_flight s = [] → signatures_to_retry s = [] → step (s, d) (take_signatures s, d)
| step_receive answer s s' d :
    (∀ x rest tx, in_flight s = x :: rest → answer = Some tx → tx_signature tx = sd_signature x) →
    receive answer s = Ok s' → step (s, d) (s', d)
| step_retry s d : in_flight s = [] → step (s, d) (push_retries s, d)
| step_process s d : step (s, d) (snd (take_transactions s), d ++ fst (take_transactions s)).

(** The successful signatures among those fetched for a target. *)
Definition successes (a : Pubkey) (l : list SignatureStatus) : list SignatureData :=
  (λ x, mkSignatureData a (st_signature x)) <$> filter (λ x, st_err x = false) l.
Definition signature_of (t : TransactionData) : SignatureData := mkSignatureData (td_address t) (tx_signature (td_transaction t)).
Definition known (f : Pubkey → list SignatureStatus) : list SignatureData :=
  targets ≫= λ t, successes (address t) (f (address t)).
(** [f] is what was fetched for each target: a first part of its range, up to
    the cursor; and its successful transactions are each in one place. *)
Record crawled (f : Pubkey → list SignatureStatus) (s : State) (d : list TransactionData) : Prop := {
  cr_cursor t : t ∈ targets → (∃ rest, range history t = f (address t) ++ rest) ∧
    last_fetched_signature s !! address t = Some (cursor_of t (f (address t)));
  cr_once : known f ≡ₚ signature_queue s ++ in_flight s ++ signatures_to_retry s ++
                       (signature_of <$> transaction_queue s ++ d)
}.

Lemma bind_ext_in {A B} (g h : A → list B) (l : list A) : (∀ x, x ∈ l → g x = h x) → l ≫= g = l ≫= h.
Proof.
  induction l as [|x l IH]; intros H; [done|]. cbn [mbind list_bind]. rewrite H by (by left).
  f_equal. apply IH. intros y Hy. apply H. by right.
Qed.
Lemma to_push_perm new : signatures_to_push new ≡ₚ map_to_list new ≫= λ '(a, l), successes a l.
Proof.
  unfold signatures_to_push, sort_by_slot. rewrite sort_by_perm, hash_iter_perm.
  induction (map_to_list new) as [|[a l] m IH]; [done|].
  change (((a, l) :: m) ≫= λ '(a, l), pair a <$> l) with ((pair a <$> l) ++ (m ≫= λ '(a, l), pair a <$> l)).
  rewrite filter_app, fmap_app, IH. apply Permutation_app_tail. unfold successes.
  induction l as [|x l IHl]; simpl; [done|]. rewrite !list.filter_cons. simpl.
  case_decide; simpl; [by rewrite IHl|done].
Qed.

(** Targets have different addresses, and a history lists a signature once. *)
Context (Hdistinct : NoDup (address <$> targets))
  (Hhistory : ∀ t, t ∈ targets → NoDup (st_signature <$> history (address t))).

Lemma address_inj t t' : t ∈ targets → t' ∈ targets → address t = address t' → t = t'.
Proof.
  intros [i Hi]%list_elem_of_lookup [j Hj]%list_elem_of_lookup E.
  assert (i = j) as ->; [|congruence]. eapply (NoDup_lookup _ _ _ (address t) Hdistinct); rewrite list_lookup_fmap;
    [by rewrite Hi|by rewrite Hj, E].
Qed.
(** The page a round gets for a target. *)
Definition page (rpc : SignaturesRpc) (s : State) (t : Target) : list SignatureStatus :=
  default [] (rpc t (default None (last_fetched_signature s !! address t))).
Lemma new_perm rpc s : map_to_list (new_signatures_per_address cfg rpc s) ≡ₚ
  omap (λ t, match rpc t (default None (last_fetched_signature s !! address t)) with
             | Some l => Some (address t, l) | None => None end) targets.
Proof.
  unfold new_signatures_per_address. rewrite map_to_list_to_map; [apply reverse_Permutation|].
  rewrite fmap_reverse, reverse_Permutation. clear Hhistory. induction targets as [|t ts IH]; [constructor|].
  apply list.NoDup_cons in Hdistinct as [Ht Hts]. specialize (IH Hts). cbn [omap list_omap].
  destruct (rpc t _); [|exact IH]. apply list.NoDup_cons. split; [|exact IH].
  intros ([a l'] & Ha & (t' & Ht' & E)%list_elem_of_omap)%list_elem_of_fmap.
  destruct (rpc t' _); [|done]. injection E as E _. simpl in Ha. apply Ht, list_elem_of_fmap. exists t'. split; [congruence|done].
Qed.
Lemma new_lookup rpc s t : t ∈ targets →
  new_signatures_per_address cfg rpc s !! address t = rpc t (default None (last_fetched_signature s !! address t)).
Proof.
  intros Ht. apply option_eq. intros l. rewrite <- elem_of_map_to_list, new_perm, list_elem_of_omap. split.
  - intros (t' & Ht' & E). destruct (rpc t' _) eqn:Er; [|done]. injection E as Ha ->.
    assert (t' = t) as -> by (eapply address_inj; eauto). done.
  - intros E. exists t. by rewrite E.
Qed.

Lemma to_push_pages rpc s :
  signatures_to_push (new_signatures_per_address cfg rpc s) ≡ₚ targets ≫= λ t, successes (address t) (page rpc s t).
Proof.
  rewrite to_push_perm, new_perm. clear Hdistinct Hhistory. unfold page. induction targets as [|t ts IH]; [done|].
  cbn [omap list_omap mbind list_bind]. destruct (rpc t _) as [l|]; [|by rewrite IH].
  cbn [default mbind list_bind]. by rewrite IH.
Qed.
(** The cursors of the answered targets move to the end of their pages. *)
Lemma foldr_cursor (l : list (Pubkey * list SignatureStatus)) (m : gmap Pubkey (option Signature)) a : NoDup (fst <$> l) →
  foldr (λ '(a, signatures) m, match last signatures with
                               | Some last_sig => <[a := Some (st_signature last_sig)]> m
                               | None => m
                               end) m l !! a =
  match (list_to_map l : gmap Pubkey (list SignatureStatus)) !! a with
  | Some signatures => match last signatures with Some x => Some (Some (st_signature x)) | None => m !! a end
  | None => m !! a
  end.
Proof.
  induction l as [|[b sigs] l IH]; intros Hnd; [done|]. apply list.NoDup_cons in Hnd as [Hb Hnd]. specialize (IH Hnd).
  simpl. destruct (decide (a = b)) as [->|Hab].
  - rewrite lookup_insert_eq. apply (not_elem_of_list_to_map_1 (M := gmap Pubkey)) in Hb. simpl in Hb.
    rewrite Hb in IH.
    destruct (last sigs); [apply lookup_insert_eq|done].
  - rewrite lookup_insert_ne by done. rewrite <- IH. destruct (last sigs); [by rewrite lookup_insert_ne|done].
Qed.
Lemma update_last_fetched_lookup rpc s t : t ∈ targets →
  update_last_fetched (new_signatures_per_address cfg rpc s) (last_fetched_signature s) !! address t =
  match last (page rpc s t) with
  | Some x => Some (Some (st_signature x))
  | None => last_fetched_signature s !! address t
  end.
Proof.
  intros Ht. unfold update_last_fetched.
  assert (NoDup (fst <$> hash_iter (new_signatures_per_address cfg rpc s))) as Hnd.
  { rewrite hash_iter_perm. apply NoDup_fst_map_to_list. }
  rewrite foldr_cursor by done.
  assert (list_to_map (hash_iter (new_signatures_per_address cfg rpc s)) = new_signatures_per_address cfg rpc s) as ->.
  { rewrite <- (list_to_map_to_list (new_signatures_per_address cfg rpc s)) at 2.
    apply list_to_map_proper; [done|apply hash_iter_perm]. }
  rewrite new_lookup by done. unfold page. by destruct (rpc t _).
Qed.

(** What a round adds to what is known. *)
Lemma successes_app a l1 l2 : successes a (l1 ++ l2) = successes a l1 ++ successes a l2.
Proof. unfold successes. by rewrite filter_app, fmap_app. Qed.
Lemma known_app (f g : Pubkey → list SignatureStatus) :
  known (λ a, f a ++ g a) ≡ₚ known f ++ (targets ≫= λ t, successes (address t) (g (address t))).
Proof.
  unfold known. clear Hdistinct Hhistory. induction targets as [|t ts IH]; [done|]. cbn [mbind list_bind].
  rewrite IH, successes_app. solve_Permutation.
Qed.
Definition fetched_page rpc s (a : Pubkey) : list SignatureStatus :=
  default [] (new_signatures_per_address cfg rpc s !! a).
Lemma fetched_page_target rpc s t : t ∈ targets → fetched_page rpc s (address t) = page rpc s t.
Proof. intros Ht. unfold fetched_page, page. by rewrite new_lookup. Qed.
Lemma pages_known rpc s :
  targets ≫= (λ t, successes (address t) (fetched_page rpc s (address t))) = targets ≫= λ t, successes (address t) (page rpc s t).
Proof.
  apply bind_ext_in. intros t Ht. by rewrite fetched_page_target.
Qed.
Lemma cursor_app t f p : cursor_of t (f ++ p) = match last p with Some x => Some (st_signature x) | None => cursor_of t f end.
Proof. unfold cursor_of. rewrite last_app. by destruct (last p). Qed.

Lemma page_spec rpc f s d t : answers rpc → crawled f s d → t ∈ targets → ∀ rest, range history t = f (address t) ++ rest →
  page rpc s t = take (signature_fetch_limit cfg) rest ∨ page rpc s t = [].
Proof.
  intros Ha [Hc _] Ht rest Hr. unfold page. destruct (rpc t _) as [l|] eqn:E; [left|by right].
  simpl. destruct (Hc t Ht) as [_ Hl]. rewrite Hl in E. apply Ha in E. simpl in E.
  by rewrite (range_resume history t _ rest (Hhistory t Ht) Hr) in E.
Qed.
Lemma crawled_pushed rpc f s d s' q : answers rpc → crawled f s d →
  last_fetched_signature s' = update_last_fetched (new_signatures_per_address cfg rpc s) (last_fetched_signature s) →
  signature_queue s' ≡ₚ signature_queue s ++ q → q ≡ₚ signatures_to_push (new_signatures_per_address cfg rpc s) →
  in_flight s' = in_flight s → signatures_to_retry s' = signatures_to_retry s → transaction_queue s' = transaction_queue s →
  crawled (λ a, f a ++ fetched_page rpc s a) s' d.
Proof.
  intros Ha Hf Hl Hq Hp H1 H2 H3. pose proof Hf as [Hc Ho]. split.
  - intros t Ht. destruct (Hc t Ht) as [[rest Hr] Hcur]. rewrite fetched_page_target by done. split.
    + destruct (page_spec _ _ _ _ _ Ha Hf Ht _ Hr) as [-> | ->].
      * exists (drop (signature_fetch_limit cfg) rest). by rewrite <- app_assoc, take_drop.
      * exists rest. by rewrite app_nil_r.
    + rewrite Hl, update_last_fetched_lookup, cursor_app, Hcur by done. by destruct (last (page rpc s t)).
  - rewrite known_app, pages_known, <- to_push_pages, <- Hp, Ho, Hq, H1, H2, H3. solve_Permutation.
Qed.

(** Each step keeps the account. *)
Lemma crawl_pushes rpc m s s' f d : answers rpc → crawled f s d → crawl_signatures cfg rpc m s = Ok s' →
  crawled (λ a, f a ++ fetched_page rpc s a) s' d ∨ crawled f s' d.
Proof.
  unfold crawl_signatures. intros Ha Hf H. destruct m as [m|]; [|done]. cbn [unwrap outcome_bind] in H.
  set (new := new_signatures_per_address cfg rpc s) in *. case_bool_decide as Hp.
  - injection H as <-. left. eapply (crawled_pushed rpc f s d _ []); try done; [by rewrite app_nil_r|].
    fold new. by rewrite Hp.
  - destruct (_ <? _)%nat; injection H as <-.
    + right. destruct Hf as [Hc Ho]. by split.
    + left. by eapply (crawled_pushed rpc f s d _ (signatures_to_push new)).
Qed.
Lemma crawled_take f s d : in_flight s = [] → signatures_to_retry s = [] → crawled f s d → crawled f (take_signatures s) d.
Proof. intros H1 H2 [Hc Ho]. split; [done|]. rewrite Ho, H1, H2. simpl. solve_Permutation. Qed.
Lemma crawled_receive f answer s s' d :
  (∀ x rest tx, in_flight s = x :: rest → answer = Some tx → tx_signature tx = sd_signature x) →
  receive answer s = Ok s' → crawled f s d → crawled f s' d.
Proof.
  unfold receive. intros Hsig H [Hc Ho]. destruct (in_flight s) as [|x rest] eqn:Ei; [injection H as <-; by split; [|rewrite Ei]|].
  destruct answer as [tx|].
  - destruct (_ <? _)%nat; [|done]. injection H as <-. split; [done|]. rewrite Ho. simpl. rewrite !fmap_app. simpl.
    assert (signature_of (mkTransactionData (sd_address x) tx) = x) as ->; [|solve_Permutation].
    unfold signature_of. simpl. rewrite (Hsig x rest tx) by done. by destruct x.
  - injection H as <-. split; [done|]. rewrite Ho. simpl. solve_Permutation.
Qed.
Lemma crawled_retry f s d : crawled f s d → crawled f (push_retries s) d.
Proof. intros [Hc Ho]. split; [done|]. rewrite Ho. simpl. solve_Permutation. Qed.
Lemma crawled_process f s d : crawled f s d → crawled f (snd (take_transactions s)) (d ++ fst (take_transactions s)).
Proof. intros [Hc Ho]. split; [done|]. rewrite Ho. simpl. rewrite !fmap_app. solve_Permutation. Qed.
Lemma step_crawled x y : step x y → (∃ f, crawled f x.1 x.2) → ∃ f, crawled f y.1 y.2.
Proof.
  destruct 1 as [rpc m s s' d Ha H| | |s d H| ]; intros [f Hf]; simpl in *.
  - destruct (crawl_pushes _ _ _ _ _ _ Ha Hf H); eauto.
  - exists f. by apply crawled_take.
  - exists f. by eapply crawled_receive.
  - exists f. by apply crawled_retry.
  - exists f. by apply crawled_process.
Qed.
Lemma steps_crawled x y : rtc step x y → (∃ f, crawled f x.1 x.2) → ∃ f, crawled f y.1 y.2.
Proof. induction 1; eauto using step_crawled. Qed.
Lemma start_crawled : crawled (λ _, []) (start cfg) [].
Proof.
  split.
  - intros t Ht. split; [by eexists|]. simpl. unfold cursor_of. simpl. apply elem_of_list_to_map_1.
    + rewrite fmap_reverse, reverse_Permutation, <- list_fmap_compose. exact Hdistinct.
    + apply elem_of_reverse, list_elem_of_fmap. by exists t.
  - simpl. unfold known. clear. by induction targets.
Qed.

(** The crawler, whatever the order in which its tasks run and whatever
    requests fail: for each target it has fetched a first part of the range it
    was given, and resumes where that part ends; and each successful signature of
    those parts is queued, being fetched, to be retried, waiting for the
    processor or was handed to it, once. *)
Theorem crawler_loses_nothing s d : rtc step (start cfg, []) (s, d) →
  ∃ f, (∀ t, t ∈ targets → ∃ rest, range history t = f (address t) ++ rest ∧
          last_fetched_signature s !! address t = Some (cursor_of t (f (address t))) ∧
          range_from history t (cursor_of t (f (address t))) = rest) ∧
    (targets ≫= λ t, successes (address t) (f (address t))) ≡ₚ
      signature_queue s ++ in_flight s ++ signatures_to_retry s ++ (signature_of <$> transaction_queue s ++ d).
Proof.
  intros Hs. assert (∃ f, crawled f s d) as (f & Hc & Ho).
  { apply (steps_crawled _ _ Hs). eexists. apply start_crawled. }
  exists f. split; [|done]. intros t Ht. destruct (Hc t Ht) as [[rest Hr] Hl]. exists rest. split_and!; [done|done|].
  by apply range_resume; [apply Hhistory|].
Qed.

(** *** A node that answers every request *)
Context (get_transaction : Signature → Transaction) (Hget : ∀ x, tx_signature (get_transaction x) = x).
Definition answer_all : SignaturesRpc := λ t b, Some (take (signature_fetch_limit cfg) (range_from history t b)).
Definition idle (s : State) : Prop :=
  signature_queue s = [] ∧ in_flight s = [] ∧ signatures_to_retry s = [] ∧ transaction_queue s = [].

Lemma bind_length {A B} (g : A → list B) (l : list A) n : (∀ x, (length (g x) ≤ n)%nat) →
  (length (l ≫= g) ≤ length l * n)%nat.
Proof.
  intros H. induction l as [|x l IH]; [done|]. cbn [mbind list_bind]. rewrite length_app. specialize (H x). simpl. lia.
Qed.
Lemma to_push_length s : (length (signatures_to_push (new_signatures_per_address cfg answer_all s)) ≤
  length targets * signature_fetch_limit cfg)%nat.
Proof.
  rewrite to_push_pages. apply bind_length. intros t. unfold successes. rewrite length_fmap.
  etransitivity; [apply length_filter|]. unfold page, answer_all. simpl. rewrite length_take. lia.
Qed.
Lemma receive_all l : ∀ s d f, in_flight s = l → crawled f s d →
  (length (transaction_queue s) + length l ≤ TRANSACTION_QUEUE_BOUND)%nat →
  ∃ s', rtc step (s, d) (s', d) ∧ in_flight s' = [] ∧ signature_queue s' = signature_queue s ∧
        signatures_to_retry s' = signatures_to_retry s ∧ crawled f s' d.
Proof.
  induction l as [|x l IH]; intros s d f Hl Hf Hroom; [by exists s|]. simpl in Hroom.
  assert (∃ s1, receive (Some (get_transaction (sd_signature x))) s = Ok s1 ∧ in_flight s1 = l ∧
    signature_queue s1 = signature_queue s ∧ signatures_to_retry s1 = signatures_to_retry s ∧
    length (transaction_queue s1) = S (length (transaction_queue s))) as (s1 & H1 & Hl1 & Hq & Hr & Hn).
  { unfold receive. rewrite Hl. rewrite (proj2 (Nat.ltb_lt _ _)) by lia. eexists. split; [done|]. simpl.
    rewrite length_app. simpl. split_and!; try done. lia. }
  assert (∀ y rest tx, in_flight s = y :: rest → Some (get_transaction (sd_signature x)) = Some tx → tx_signature tx = sd_signature y)
    as Hsig by (intros y rest tx Hy [= <-]; rewrite Hl in Hy; injection Hy as -> _; apply Hget).
  destruct (IH s1 d f Hl1) as (s' & Hs & Hi & Hq' & Hr' & Hf'); [by eapply crawled_receive|lia|].
  exists s'. split_and!; [|done|congruence|congruence|done]. eapply rtc_l; [by eapply step_receive|done].
Qed.

Context (Hpending : (length targets * signature_fetch_limit cfg ≤ max_pending_signatures cfg)%nat)
  (Hroom : (length targets * signature_fetch_limit cfg ≤ TRANSACTION_QUEUE_BOUND)%nat).
(** One page of every target is crawled, fetched and processed. *)
Lemma full_round s d f : idle s → crawled f s d →
  ∃ s' d', rtc step (s, d) (s', d') ∧ idle s' ∧ crawled (λ a, f a ++ fetched_page answer_all s a) s' d'.
Proof.
  intros (Hq & Hi & Hr & Ht) Hf. set (f' := λ a, f a ++ fetched_page answer_all s a).
  assert (answers answer_all) as Ha by (by intros t b l [= <-]).
  pose proof (to_push_length s) as Hlen.
  set (new := new_signatures_per_address cfg answer_all s) in *.
  set (s1 := with_cursor (update_last_fetched new (last_fetched_signature s)) (signatures_to_push new) (with_minimum_slot 0 s)).
  assert (crawl_signatures cfg answer_all (Some 0) s = Ok s1) as H1.
  { unfold crawl_signatures. cbn [unwrap outcome_bind]. fold new. unfold s1. simpl. rewrite Hq.
    case_bool_decide as Hp; [by rewrite Hp|]. rewrite (proj2 (Nat.ltb_ge _ _)); [done|]. simpl. lia. }
  assert (crawled f' s1 d) as Hf1.
  { eapply (crawled_pushed answer_all f s d s1 (signatures_to_push new)); try done. simpl. by rewrite Hq. }
  assert (in_flight s1 = [] ∧ signatures_to_retry s1 = []) as [Hi1 Hr1] by done.
  pose proof (crawled_take f' s1 d Hi1 Hr1 Hf1) as Hf2.
  destruct (receive_all (in_flight (take_signatures s1)) (take_signatures s1) d f' eq_refl Hf2)
    as (s3 & H3 & Hi3 & Hq3 & Hr3 & Hf3).
  { simpl. rewrite Ht. simpl. lia. }
  exists (snd (take_transactions s3)), (d ++ fst (take_transactions s3)). split_and!.
  - eapply rtc_l; [by eapply step_crawl|]. eapply rtc_l; [by apply step_take|].
    eapply rtc_r; [exact H3|apply step_process].
  - by split_and!.
  - by apply crawled_process.
Qed.
End Facts.

(** ** What stops the crawler *)
Section Stops.
Context {TX : Transactions} {HO : HashOrder} (cfg : TransactionsCrawlerConfig).
(** A processor that falls behind: the fetching task panics on a full queue. *)
Lemma full_queue_stops_fetching s tx : in_flight s ≠ [] → (TRANSACTION_QUEUE_BOUND ≤ length (transaction_queue s))%nat →
  receive (Some tx) s = Panic.
Proof.
  unfold receive. intros Hi Hq. destruct (in_flight s); [done|]. by rewrite (proj2 (Nat.ltb_ge _ _)) by lia.
Qed.
(** One failed request for the minimum slot: the crawling task panics. *)
Lemma failed_minimum_slot_stops_crawling rpc s : crawl_signatures cfg rpc None s = Panic.
Proof. done. Qed.
(** Pages that together exceed the limit are never queued, even when the queue
    is empty: the next round asks for the same pages again. *)
Lemma oversized_pages_are_never_queued rpc m s :
  (max_pending_signatures cfg < length (signatures_to_push (new_signatures_per_address cfg rpc s)))%nat →
  crawl_signatures cfg rpc (Some m) s = Ok (with_minimum_slot m s).
Proof.
  unfold crawl_signatures. intros H. cbn [unwrap outcome_bind].
  case_bool_decide as Hp; [rewrite Hp in H; simpl in H; lia|]. by rewrite (proj2 (Nat.ltb_lt _ _)) by (simpl; lia).
Qed.
End Stops.

(** ** Examples *)
Section Demo.
#[local] Instance demo_transactions : Transactions :=
  {| Transaction := Z; tx_signature x := x; tx_slot x := x; tx_block_time _ := None |}.
#[local] Instance demo_order : HashOrder := {| hash_iter A m := map_to_list m; hash_iter_perm A m := reflexivity _ |}.
(** Two targets, a page of two signatures each; the second is crawled until
    signature 22. *)
Definition demo_history (a : Pubkey) : list SignatureStatus :=
  if a =? 1 then [mkStatus 15 50 false; mkStatus 14 40 true; mkStatus 13 30 false]
  else [mkStatus 24 45 false; mkStatus 23 35 false; mkStatus 22 25 false].
Definition demo_cfg : TransactionsCrawlerConfig := mkConfig 2 100 [mkTarget 1 None None; mkTarget 2 None (Some 22)].
Definition demo_first : State := ok_value (start demo_cfg) (crawl_signatures demo_cfg (answer_all demo_cfg demo_history) (Some 0) (start demo_cfg)).
Example demo_first_queue : sd_signature <$> signature_queue demo_first = [15; 24; 23].
Proof. vm_compute. reflexivity. Qed.
Lemma demo_distinct : NoDup (address <$> targets demo_cfg).
Proof. apply (bool_decide_unpack _). vm_compute. exact I. Qed.
Lemma demo_histories t : t ∈ targets demo_cfg → NoDup (st_signature <$> demo_history (address t)).
Proof.
  intros H. repeat (apply elem_of_cons in H as [->|H]); [| |by apply elem_of_nil in H];
    apply (bool_decide_unpack _); vm_compute; exact I.
Qed.
Lemma crawler_loses_nothing_witness :
  ∃ f, (targets demo_cfg ≫= λ t, successes (address t) (f (address t))) ≡ₚ
    signature_queue demo_first ++ in_flight demo_first ++ signatures_to_retry demo_first ++
    (signature_of <$> transaction_queue demo_first ++ []).
Proof.
  destruct (crawler_loses_nothing demo_cfg demo_history demo_distinct demo_histories demo_first []) as (f & _ & H).
  - apply rtc_once. apply (step_crawl demo_cfg demo_history (answer_all demo_cfg demo_history) (Some 0)).
    + intros t b l [= <-]. reflexivity.
    + vm_compute. reflexivity.
  - exists f. exact H.
Defined.
End Demo.
