(* ===== verification/Crossbar.v ===== *)
(** * The indexer: prices simulated by the crossbar service

    [utils/crossbar.rs], [utils/swb_pull.rs] and the task of
    [commands/snapshot_accounts.rs] that uses them: the indexer does not read
    the price of a Switchboard pull feed from the chain but asks a service to
    simulate the feed, keeps the answers in a cache ([CrossbarCache]) and every
    twenty seconds writes them over the prices of the snapshot.

    The service's answers are arguments, as is the conversion of a double to a
    fixed-point number.  A feed hash and its hexadecimal text are one number
    here.  The mutex of the cache is not held across the points where other
    tasks run; a panic while it is held ends the task for good. *)
From S2P Require Import Prelude Floats Errors Fixed Constants Utils Price SlotQueue Indexer.
From stdpp Require Import sorting.
Import Snapshot.
#[local] Open Scope Z_scope.

(** [I80F48::from_num(x)] on doubles, which panics ([None]) on what does not
    fit. *)
Class FixedFromF64 := { i80f48_from_f64 : f64 → option I80F48 }.
Class FixedFromF64Laws (C : FixedFromF64) : Prop := { from_f64_zero : i80f48_from_f64 (f64_of 0) = Some 0 }.

(** ** [crossbar.rs] *)
Record SwbPullFeedMeta := mkFeedMeta { feed_address : Pubkey; meta_feed_hash : Z }.
Record SimulatedPrice := mkSimulatedPrice { value : f64; std_dev : f64; timestamp : Z }.
Record SwbPullFeedInfo := mkFeedInfo { feed_meta : SwbPullFeedMeta; simulated_price : SimulatedPrice }.
(** [CrossbarCache::feeds] *)
Notation Feeds := (gmap Z SwbPullFeedInfo).

Inductive CrossbarError : Set := JoinError.
(** [SimulateFeedsResponse] *)
Record SimulatedFeed := mkSimulatedFeed { response_feed_hash : Z; results : list f64 }.
(** What the task of a chunk ends with: the service's answer, its refusal, or a
    panic. *)
Inductive RequestError : Set := RequestFailed.
Notation Simulation := (list Z → outcome RequestError (list SimulatedFeed)).

Definition track_feeds (cache : Feeds) (feeds : list SwbPullFeedMeta) : Feeds :=
  foldl (λ m feed, <[meta_feed_hash feed := mkFeedInfo feed (mkSimulatedPrice (f64_of 0) (f64_of 0) 0)]> m) cache feeds.

(** [numbers.sort_by(|a, b| a.partial_cmp(b).unwrap())]: of two numbers or more,
    each is compared at least once. *)
Definition sort_numbers (numbers : list f64) : outcome CrossbarError (list f64) :=
  if (2 <=? length numbers)%nat && existsb is_nan numbers then Panic else Ok (sort_by f64_le numbers).
Definition calculate_price (numbers : list f64) : outcome CrossbarError (option f64) :=
  match numbers with
  | [] => Ok None
  | _ :: _ =>
      let? sorted := sort_numbers numbers in
      let mid := (length sorted / 2)%nat in
      if Nat.even (length sorted) then
        let? a := unwrap (sorted !! (mid - 1)%nat) in
        let? b := unwrap (sorted !! mid) in
        Ok (Some (f64_div (f64_add a b) (f64_of 2)))
      else let? a := unwrap (sorted !! mid) in Ok (Some a)
  end.

Definition CHUNK_SIZE : nat := 20.
(** [try_join_all] of the tasks: only a panic is an error of the join. *)
Fixpoint join_chunks (l : list (outcome RequestError (list SimulatedFeed)))
    : outcome CrossbarError (list (option (list SimulatedFeed))) :=
  match l with
  | [] => Ok []
  | Panic :: _ => Err JoinError
  | Ok r :: l => let? rs := join_chunks l in Ok (Some r :: rs)
  | Err _ :: l => let? rs := join_chunks l in Ok (None :: rs)
  end.
(** The loop over the simulated prices. *)
Fixpoint set_prices (now : Z) (feeds : Feeds) (l : list SimulatedFeed) : outcome CrossbarError Feeds :=
  match l with
  | [] => Ok feeds
  | simulated_response :: l =>
      let? price := calculate_price (results simulated_response) in
      set_prices now
        match price, feeds !! response_feed_hash simulated_response with
        | Some price, Some feed =>
            <[response_feed_hash simulated_response :=
                mkFeedInfo (feed_meta feed) (mkSimulatedPrice price (f64_of 0) now)]> feeds
        | _, _ => feeds
        end l
  end.

Section Cache.
Context {HO : HashOrder}.
Definition feed_hashes (feeds : Feeds) : list Z := (λ x, meta_feed_hash (feed_meta (snd x))) <$> hash_iter feeds.
Definition refresh_prices (simulate : Simulation) (now : Z) (feeds : Feeds) : outcome CrossbarError Feeds :=
  if bool_decide (feeds = ∅) then Ok feeds
  else
    let? chunk_results := join_chunks (simulate <$> chunks CHUNK_SIZE (feed_hashes feeds)) in
    set_prices now feeds (chunk_results ≫= default []).
Definition get_prices_per_address (feeds : Feeds) : gmap Pubkey SimulatedPrice :=
  list_to_map (reverse ((λ x, (feed_address (feed_meta (snd x)), simulated_price (snd x))) <$> hash_iter feeds)).
End Cache.

(** ** [swb_pull.rs] *)
Section Overwrite.
Context {F : FixedOps} {O : OracleSdk} {C : FixedFromF64}.
(** [.checked_mul(EXP_10_I80F48[PRECISION]).unwrap().to_num::<i128>()] *)
Definition switchboard_value (x : f64) : IndexerResult Z :=
  let? x := unwrap (i80f48_from_f64 x) in
  let? scaling_factor := index EXP_10_I80F48 PRECISION in
  let? y := unwrap (checked_mul x scaling_factor) in
  Ok (Z.shiftr y 48).
Definition overwrite_price_from_sim (current_data : SwitchboardPullPriceFeed.SwitchboardPullPriceFeed)
    (simulated_price : SimulatedPrice) : IndexerResult SwitchboardPullPriceFeed.SwitchboardPullPriceFeed :=
  let? v := switchboard_value (value simulated_price) in
  let? d := switchboard_value (std_dev simulated_price) in
  Ok (SwitchboardPullPriceFeed.mkFeed (mkCurrentResult v d) (SwitchboardPullPriceFeed.feed_hash current_data)).
End Overwrite.

(** ** [snapshot_accounts.rs] *)
Section Task.
Context {F : FixedOps} {O : OracleSdk} {C : FixedFromF64} {HO : HashOrder}.
(** The feeds tracked are those of the first snapshot. *)
Definition swb_feeds (s : Snapshot) : list SwbPullFeedMeta :=
  omap (λ x, match snd x with
             | DSwitchboardPull feed => Some (mkFeedMeta (fst x) (SwitchboardPullPriceFeed.feed_hash feed))
             | _ => None
             end) (hash_iter (price_feeds s)).
Definition start_crossbar (simulate : Simulation) (now : Z) (s : Snapshot) : IndexerResult Feeds :=
  unwrap_result (refresh_prices simulate now (track_feeds ∅ (swb_feeds s))).

(** The attempts of one turn, numbered down; after the last the cache is used
    as it is. *)
Fixpoint refresh_retry (attempts : nat) (simulate : nat → Simulation) (now : nat → Z) (feeds : Feeds)
    : IndexerResult Feeds :=
  match attempts with
  | 0%nat => Ok feeds
  | S attempts =>
      match refresh_prices (simulate attempts) (now attempts) feeds with
      | Ok feeds => Ok feeds
      | Err _ => refresh_retry attempts simulate now feeds
      | Panic => Panic
      end
  end.
Definition write_price (s : Snapshot) (address : Pubkey) (price : SimulatedPrice) : IndexerResult Snapshot :=
  match price_feeds s !! address with
  | Some (DSwitchboardPull feed) =>
      let? feed := overwrite_price_from_sim feed price in Ok (set_feed address (DSwitchboardPull feed) s)
  | _ => Ok s
  end.
Fixpoint write_prices (s : Snapshot) (l : list (Pubkey * SimulatedPrice)) : IndexerResult Snapshot :=
  match l with
  | [] => Ok s
  | (address, price) :: l => let? s := write_price s address price in write_prices s l
  end.
(** One turn of the task. *)
Definition update_crossbar_cache (simulate : nat → Simulation) (now : nat → Z) (feeds : Feeds) (s : Snapshot)
    : IndexerResult (Feeds * Snapshot) :=
  let? feeds := refresh_retry 3 simulate now feeds in
  let? s := write_prices s (hash_iter (get_prices_per_address feeds)) in
  Ok (feeds, s).
End Task.

(** ** The median *)
(** The price of an odd number of answers is one of them, and at least half of
    them lie on each side. *)
Lemma sorted_middle (le : f64 → f64 → bool) l i m : (∀ x, x ∈ l → le x x = true) →
  StronglySorted (λ a b, le a b = true) l → l !! i = Some m →
  (i + 1 ≤ length (filter (λ x, le x m = true) l))%nat ∧ (length l - i ≤ length (filter (λ x, le m x = true) l))%nat.
Proof.
  intros Hrefl. revert i. induction l as [|x l IH]; intros i Hs Hi; [done|].
  apply StronglySorted_inv in Hs as [Hs Hall]. rewrite list.Forall_forall in Hall.
  rewrite !list.filter_cons. destruct i as [|i]; simpl in Hi.
  - injection Hi as ->. rewrite !decide_True by (apply Hrefl; by left).
    assert (filter (λ x, le m x = true) l = l) as ->.
    { clear -Hall. induction l as [|y l IH]; [done|]. rewrite list.filter_cons, decide_True by (apply Hall; by left).
      f_equal. apply IH. intros z Hz. apply Hall. by right. }
    simpl. lia.
  - destruct (IH (λ y Hy, Hrefl y ltac:(by right)) _ Hs Hi) as [H1 H2]. apply list_elem_of_lookup_2 in Hi.
    rewrite (decide_True (P := le x m = true)) by (by apply Hall). simpl. split; [lia|].
    case_decide; simpl; lia.
Qed.
Definition at_least_half (P : f64 → Prop) `{∀ x, Decision (P x)} (l : list f64) : Prop :=
  (length l ≤ 2 * length (filter P l))%nat.
Lemma median_is_in_the_middle numbers : Nat.odd (length numbers) = true → existsb is_nan numbers = false →
  ∃ m, calculate_price numbers = Ok (Some m) ∧ m ∈ numbers ∧
    at_least_half (λ x, f64_le x m = true) numbers ∧ at_least_half (λ x, f64_le m x = true) numbers.
Proof.
  intros Hodd Hnan. assert (Forall (λ x, is_nan x = false) numbers) as Hn.
  { apply list.Forall_forall. intros x Hx. destruct (is_nan x) eqn:E; [|done].
    rewrite (proj2 (existsb_exists is_nan numbers)) in Hnan; [done|]. exists x. by rewrite <- list_elem_of_In. }
  assert (∀ x, x ∈ sort_by f64_le numbers → f64_le x x = true) as Hrefl.
  { intros x. rewrite sort_by_perm. rewrite list.Forall_forall in Hn. intros Hx%Hn. by destruct (f64_le_total x x Hx Hx). }
  pose proof (sort_by_sorted (λ x, is_nan x = false) f64_le numbers f64_le_total f64_le_trans Hn) as Hs.
  pose proof (Permutation_length (sort_by_perm f64_le numbers)) as Hlen.
  assert (∃ m, sort_by f64_le numbers !! (length numbers / 2)%nat = Some m) as [m Hm].
  { apply lookup_lt_is_Some. rewrite Hlen. apply Nat.div_lt; [|lia]. by destruct numbers; simpl; [|lia]. }
  exists m. destruct (sorted_middle _ _ _ _ Hrefl Hs Hm) as [H1 H2].
  assert (∀ P `{∀ x, Decision (P x)}, length (filter P (sort_by f64_le numbers)) = length (filter P numbers)) as Hf
    by (intros; apply Permutation_length; by rewrite sort_by_perm).
  rewrite Hf in H1. rewrite Hf, Hlen in H2.
  apply Nat.odd_spec in Hodd as Hodd'. destruct Hodd' as [k Hk].
  assert (length numbers / 2 = k)%nat as Hmid by (rewrite Hk; symmetry; apply Nat.div_unique with 1%nat; lia).
  split_and!.
  - unfold calculate_price. destruct numbers as [|x0 l0]; [done|]. set (l := x0 :: l0) in *.
    assert (sort_numbers l = Ok (sort_by f64_le l)) as -> by (unfold sort_numbers; by rewrite Hnan, andb_false_r).
    cbn [outcome_bind]. by rewrite Hlen, <- Nat.negb_odd, Hodd, Hm.
  - apply list_elem_of_lookup_2 in Hm. by rewrite sort_by_perm in Hm.
  - unfold at_least_half. lia.
  - unfold at_least_half. lia.
Qed.
(** A number that is not one ends the task, unless it is alone. *)
Lemma nan_ends_the_task numbers : existsb is_nan numbers = true → (2 ≤ length numbers)%nat → calculate_price numbers = Panic.
Proof.
  intros Hn Hl. unfold calculate_price, sort_numbers. destruct numbers as [|x l]; [done|]. rewrite Hn.
  by rewrite (proj2 (Nat.leb_le 2 _)).
Qed.

(** ** What is tracked *)
(** The cache of a set of feeds: each under its hash, with an address of its
    own. *)
Record tracked (feeds : Feeds) : Prop := {
  tr_hash h i : feeds !! h = Some i → meta_feed_hash (feed_meta i) = h;
  tr_address h h' i i' : feeds !! h = Some i → feeds !! h' = Some i' →
    feed_address (feed_meta i) = feed_address (feed_meta i') → h = h'
}.
Definition same_feeds (feeds feeds' : Feeds) : Prop := ∀ h, feed_meta <$> feeds' !! h = feed_meta <$> feeds !! h.
#[global] Instance same_feeds_preorder : PreOrder same_feeds.
Proof. split; [done|]. intros a b c H1 H2 h. by rewrite H2. Qed.
Lemma same_feeds_tracked feeds feeds' : same_feeds feeds feeds' → tracked feeds → tracked feeds'.
Proof.
  intros Hsame [Hh Ha]. assert (∀ h i', feeds' !! h = Some i' → ∃ i, feeds !! h = Some i ∧ feed_meta i = feed_meta i') as Hb.
  { intros h i' E. specialize (Hsame h). rewrite E in Hsame. symmetry in Hsame.
    by apply fmap_Some in Hsame as (i & ? & ?); exists i. }
  split.
  - intros h i' (i & E & <-)%Hb. by apply Hh.
  - intros h h' i i' (j & E & <-)%Hb (j' & E' & <-)%Hb. by apply Ha.
Qed.

Lemma set_prices_same now l : ∀ feeds feeds', set_prices now feeds l = Ok feeds' → same_feeds feeds feeds'.
Proof.
  induction l as [|r l IH]; intros feeds feeds' H; simpl in H; [by injection H as <-|].
  inv_res. etransitivity; [|by apply IH]. destruct v as [p|]; [|done]. destruct (feeds !! _) as [i|] eqn:Ei; [|done].
  intros h. destruct (decide (h = response_feed_hash r)) as [->|]; [by rewrite lookup_insert_eq, Ei|].
  by rewrite lookup_insert_ne.
Qed.
(** The feeds of the cache are never changed: what the snapshot gets later is not
    tracked. *)
Lemma refresh_same {HO : HashOrder} simulate now feeds feeds' :
  refresh_prices simulate now feeds = Ok feeds' → same_feeds feeds feeds'.
Proof.
  unfold refresh_prices. case_bool_decide as Hne; [by intros [= <-]|]. intros H. inv_res. by eapply set_prices_same.
Qed.

Lemma tracked_insert m feed price : tracked m →
  (∀ h i, m !! h = Some i → feed_address (feed_meta i) ≠ feed_address feed) →
  tracked (<[meta_feed_hash feed := mkFeedInfo feed price]> m).
Proof.
  intros [Hh Ha] Hnew. split.
  - intros h i [[<- <-]|[_ E]]%lookup_insert_Some; [done|by apply Hh].
  - intros h h' i i' [[<- <-]|[_ E]]%lookup_insert_Some [[<- <-]|[_ E']]%lookup_insert_Some He; simpl in *; try done.
    + by apply Hnew in E'.
    + by apply Hnew in E.
    + by eapply Ha.
Qed.
Lemma track_feeds_tracked l : ∀ m, tracked m → NoDup (feed_address <$> l) →
  (∀ h i, m !! h = Some i → feed_address (feed_meta i) ∉ feed_address <$> l) → tracked (track_feeds m l).
Proof.
  induction l as [|feed l IH]; intros m Hm Hnd Hnew; [done|]. apply list.NoDup_cons in Hnd as [Hx Hnd].
  apply IH; [|done|].
  - apply tracked_insert; [done|]. intros h i E He. apply (Hnew h i E). rewrite He. by left.
  - intros h i [[_ <-]|[_ E]]%lookup_insert_Some; [done|]. intros Hin. apply (Hnew h i E). by right.
Qed.
(** The feeds tracked at the start each have an address of their own. *)
Lemma swb_feeds_tracked {HO : HashOrder} s : tracked (track_feeds ∅ (swb_feeds s)).
Proof.
  apply track_feeds_tracked.
  - split; intros h; intros; by rewrite lookup_empty in *.
  - assert (∀ l : list (Pubkey * OracleData), feed_address <$> omap (λ x, match snd x with
      | DSwitchboardPull feed => Some (mkFeedMeta (fst x) (SwitchboardPullPriceFeed.feed_hash feed))
      | _ => None end) l `sublist_of` fst <$> l) as Hsub.
    { induction l as [|[k d] l IH]; [constructor|]. cbn [omap list_omap snd fst]. destruct d; simpl; by constructor. }
    eapply sublist_NoDup; [|apply Hsub]. rewrite hash_iter_perm. apply NoDup_fst_map_to_list.
  - intros h i. by rewrite lookup_empty.
Qed.

(** ** What reaches the snapshot *)
Section Writing.
Context {F : FixedOps} {L : FixedLaws F} {O : OracleSdk} {OL : OracleLaws O} {C : FixedFromF64}
  {CL : FixedFromF64Laws C} {HO : HashOrder}.

(** A price that can be written, and the fixed-point number it is. *)
Definition writable (p : SimulatedPrice) (x : I80F48) : Prop :=
  i80f48_from_f64 (value p) = Some x ∧ 0 ≤ x ∧ x * 10 ^ 18 ≤ I80F48_MAX ∧ std_dev p = f64_of 0.
(** A feed whose price, with any bias, is [x] to the last bit. *)
Definition reads (f : SwitchboardPullPriceFeed.SwitchboardPullPriceFeed) (x : I80F48) : Prop :=
  ∃ q, x - 1 ≤ q ≤ x ∧ ∀ t bias, get_price_of_type (DSwitchboardPull f) t bias = Ok q.

Lemma precision_factor {E} : @index E _ EXP_10_I80F48 PRECISION = Ok (from_num (10 ^ 18)).
Proof. rewrite precision_18. vm_compute. reflexivity. Qed.
Lemma switchboard_value_ok v x : i80f48_from_f64 v = Some x → 0 ≤ x → x * 10 ^ 18 ≤ I80F48_MAX →
  switchboard_value v = Ok (x * 10 ^ 18 / SCALE).
Proof.
  intros Hv Hx Hmax. unfold switchboard_value. rewrite Hv. cbn [unwrap outcome_bind].
  rewrite precision_factor. cbn [outcome_bind]. assert (fmul x (from_num (10 ^ 18)) = x * 10 ^ 18) as Hf.
  { unfold fmul, from_num. rewrite Z.mul_assoc. by apply Z.div_mul. }
  rewrite mul_ok, Hf by (rewrite ?Hf; unfold from_num; pose proof SCALE_pos; lia).
  simpl. by rewrite Z.shiftr_div_pow2.
Qed.
Lemma written_price_ok f x : 0 ≤ x → x * 10 ^ 18 ≤ I80F48_MAX →
  cr_value (SwitchboardPullPriceFeed.result f) = x * 10 ^ 18 / SCALE →
  ∃ q, x - 1 ≤ q ≤ x ∧ 0 ≤ q ∧ SwitchboardPullPriceFeed.get_price f = Ok q.
Proof.
  intros Hx Hmax Hv. pose proof SCALE_pos. assert (SCALE = 2 ^ 48) as HS by done.
  pose proof (div_bounds (x * 10 ^ 18) SCALE ltac:(lia)) as Hb. set (v := x * 10 ^ 18 / SCALE) in *.
  pose proof (div_bounds (v * SCALE) (10 ^ 18) ltac:(lia)) as Hq.
  assert (0 ≤ v) by (apply Z.div_pos; lia).
  assert (fdiv (v * SCALE) (from_num (10 ^ 18)) = v * SCALE / 10 ^ 18) as Hd.
  { unfold fdiv, from_num. by rewrite Z.div_mul_cancel_r by lia. }
  exists (v * SCALE / 10 ^ 18). split; [nia|]. split; [apply Z.div_pos; nia|].
  unfold SwitchboardPullPriceFeed.get_price. rewrite Hv.
  rewrite from_i128_spec by (unfold is_i80f48, I80F48_MIN; nia). cbn [outcome_bind].
  rewrite precision_factor. cbn [outcome_bind]. rewrite div_ok, Hd; [done|nia|unfold from_num; lia|]. rewrite Hd. nia.
Qed.
Lemma no_interval f q : 0 ≤ q ≤ I80F48_MAX → cr_std_dev (SwitchboardPullPriceFeed.result f) = 0 →
  SwitchboardPullPriceFeed.get_price f = Ok q →
  SwitchboardPullPriceFeed.get_confidence_interval f = Ok 0.
Proof.
  intros Hq Hd Hp. unfold SwitchboardPullPriceFeed.get_confidence_interval, cap_confidence.
  rewrite Hd, Hp, from_i128_spec by done. change (0 * SCALE) with 0. cbn [outcome_bind].
  rewrite (mul_ok 0 STD_DEV_MULTIPLE) by (rewrite ?fmul_0_l; done). rewrite fmul_0_l. cbn [math ok_or outcome_bind].
  pose proof (fmul_nonneg q MAX_CONF_INTERVAL ltac:(lia) ltac:(done)) as Hnn.
  pose proof (fmul_le_l q MAX_CONF_INTERVAL ltac:(lia) ltac:(done)) as Hle.
  rewrite mul_ok by (lia || done). cbn [math ok_or outcome_bind].
  rewrite (proj2 (Z.leb_le ZERO (fmul q MAX_CONF_INTERVAL)) Hnn). simpl. by rewrite Z.min_l.
Qed.
(** A simulated price that fits is read back to the last bit, whatever the bias:
    there is no interval around it. *)
Lemma overwrite_reads f p x : writable p x → ∃ f', overwrite_price_from_sim f p = Ok f' ∧ reads f' x.
Proof.
  intros (Hv & Hx & Hmax & Hsd). unfold overwrite_price_from_sim.
  rewrite (switchboard_value_ok _ _ Hv Hx Hmax), Hsd, (switchboard_value_ok _ _ from_f64_zero) by done.
  eexists. split; [done|]. set (f' := SwitchboardPullPriceFeed.mkFeed _ _).
  destruct (written_price_ok f' x Hx Hmax eq_refl) as (q & Hq & Hq0 & Hp). exists q. split; [done|].
  assert (q ≤ I80F48_MAX) as Hqm by (unfold I80F48_MAX in *; lia).
  intros t bias. unfold get_price_of_type, SwitchboardPullPriceFeed.get_price_of_type, apply_bias.
  rewrite (no_interval f' q) by done. rewrite Hp. cbn [outcome_bind]. destruct bias as [[]|]; [..|done]; cbn [outcome_bind].
  - rewrite sub_ok, Z.sub_0_r by (unfold is_i80f48, I80F48_MIN; lia). done.
  - rewrite add_ok, Z.add_0_r by (unfold is_i80f48, I80F48_MIN; lia). done.
Qed.
(** From 604463 dollars on, the conversion overflows and the task ends. *)
Lemma large_price_ends_the_task f p x : i80f48_from_f64 (value p) = Some x → I80F48_MAX < x * 10 ^ 18 →
  overwrite_price_from_sim f p = Panic.
Proof.
  intros Hv Hx. unfold overwrite_price_from_sim, switchboard_value. rewrite Hv. cbn [unwrap outcome_bind].
  rewrite precision_factor. cbn [outcome_bind]. destruct (checked_mul x (from_num (10 ^ 18))) as [c|] eqn:E; [|done]. exfalso.
  unfold I80F48_MAX in Hx. pose proof SCALE_pos.
  apply mul_some in E as [-> Hc]; [|lia|unfold from_num; lia].
  unfold fmul, from_num, is_i80f48, I80F48_MAX in Hc. rewrite Z.mul_assoc, Z.div_mul in Hc by done. lia.
Qed.

Lemma write_prices_spec l : ∀ s, NoDup (fst <$> l) → (∀ a p, (a, p) ∈ l → ∃ x, writable p x) →
  ∃ s', write_prices s l = Ok s' ∧
    (∀ a, a ∉ fst <$> l → price_feeds s' !! a = price_feeds s !! a) ∧
    (∀ a p x f, (a, p) ∈ l → writable p x → price_feeds s !! a = Some (DSwitchboardPull f) →
       ∃ f', price_feeds s' !! a = Some (DSwitchboardPull f') ∧ reads f' x).
Proof.
  induction l as [|[a p] l IH]; intros s Hnd Hw; simpl.
  { exists s. split_and!; [done..|]. intros a p x f Hin. by apply elem_of_nil in Hin. }
  apply list.NoDup_cons in Hnd as [Ha Hnd]. destruct (Hw a p) as [x0 Hx0]; [by left|].
  assert (∃ s1, write_price s a p = Ok s1 ∧ (∀ b, b ≠ a → price_feeds s1 !! b = price_feeds s !! b) ∧
    ∀ x f, writable p x → price_feeds s !! a = Some (DSwitchboardPull f) →
      ∃ f', price_feeds s1 !! a = Some (DSwitchboardPull f') ∧ reads f' x) as (s1 & E & Ho & Hs).
  { unfold write_price. destruct (price_feeds s !! a) as [[| | |f]|] eqn:Ef; try by exists s.
    destruct (overwrite_reads f p x0 Hx0) as (f' & -> & Hr). eexists. split; [done|]. split.
    - intros b Hb. simpl. by rewrite lookup_insert_ne.
    - intros x f1 Hx [= <-]. exists f'. simpl. rewrite lookup_insert_eq. split; [done|].
      assert (x = x0) as -> by (destruct Hx as [Hx _], Hx0 as [Hx0 _]; congruence). done. }
  rewrite E. cbn [outcome_bind]. destruct (IH s1 Hnd) as (s' & E' & Ho' & Hs').
  { intros b q Hin. apply (Hw b). by right. }
  exists s'. split; [done|]. split.
  - intros b [Hb Hbl]%not_elem_of_cons. rewrite Ho' by done. by apply Ho.
  - intros b q x f [[= -> ->]|Hin]%elem_of_cons Hx Hf.
    + destruct (Hs x f Hx Hf) as (f' & E1 & Hr). exists f'. by rewrite Ho'.
    + apply (Hs' b q x f Hin Hx). rewrite Ho; [done|]. intros ->. apply Ha. by apply (list_elem_of_fmap_2 fst) in Hin.
Qed.

Lemma prices_per_address feeds : tracked feeds →
  ∀ a p, get_prices_per_address feeds !! a = Some p ↔
    ∃ h i, feeds !! h = Some i ∧ feed_address (feed_meta i) = a ∧ simulated_price i = p.
Proof.
  intros [_ Ha] a p. unfold get_prices_per_address. rewrite <- elem_of_list_to_map.
  - rewrite elem_of_reverse, list_elem_of_fmap. split.
    + intros ([h i] & [= -> ->] & Hin%hash_iter_elem). eauto.
    + intros (h & i & Hi & <- & <-). exists (h, i). by rewrite hash_iter_elem.
  - rewrite reverse_Permutation, <- list_fmap_compose. apply NoDup_fmap_2_strong.
    + intros [h i] [h' i'] Hi%hash_iter_elem Hi'%hash_iter_elem He. simpl in He.
      assert (h = h') as -> by (by eapply Ha). by simplify_eq.
    + rewrite hash_iter_perm. apply NoDup_map_to_list.
Qed.
End Writing.

(** ** A refresh that is answered *)
Section Refreshing.
Context {HO : HashOrder} (simulate : Simulation) (price : Z → f64).
(** The service answers for each feed it is asked about, up to a chunk of them,
    with numbers whose median is [price]. *)
Definition answered : Prop := ∀ l, (length l ≤ CHUNK_SIZE)%nat → ∃ rs, simulate l = Ok rs ∧
  (∀ h, h ∈ l → h ∈ response_feed_hash <$> rs) ∧
  (∀ r, r ∈ rs → calculate_price (results r) = Ok (Some (price (response_feed_hash r)))).
Context (Hanswered : answered).

Lemma join_answered cs : Forall (λ c, (length c ≤ CHUNK_SIZE)%nat) cs →
  ∃ outs, join_chunks (simulate <$> cs) = Ok outs ∧
    (∀ h, h ∈ concat cs → h ∈ response_feed_hash <$> outs ≫= default []) ∧
    (∀ r, r ∈ outs ≫= default [] → calculate_price (results r) = Ok (Some (price (response_feed_hash r)))).
Proof.
  induction 1 as [|c cs Hc _ (outs & E & Hin & Hp)].
  { exists []. split; [done|]. split; [by intros h ?%elem_of_nil|by intros r ?%elem_of_nil]. }
  destruct (Hanswered c Hc) as (rs & Er & Hin' & Hp'). exists (Some rs :: outs).
  rewrite fmap_cons, Er. cbn [join_chunks concat]. rewrite E. split; [done|].
  change ((Some rs :: outs) ≫= default []) with (rs ++ (outs ≫= default [])). split.
  - intros h [?|?]%elem_of_app; rewrite fmap_app, elem_of_app; auto.
  - intros r [?|?]%elem_of_app; auto.
Qed.
Definition refreshed (now h : Z) (i : SwbPullFeedInfo) : SwbPullFeedInfo :=
  mkFeedInfo (feed_meta i) (mkSimulatedPrice (price h) (f64_of 0) now).
Lemma set_prices_answered now l : ∀ feeds,
  (∀ r, r ∈ l → calculate_price (results r) = Ok (Some (price (response_feed_hash r)))) →
  ∃ feeds', set_prices now feeds l = Ok feeds' ∧
    ∀ h, feeds' !! h = if bool_decide (h ∈ response_feed_hash <$> l) then refreshed now h <$> feeds !! h else feeds !! h.
Proof.
  induction l as [|r l IH]; intros feeds Hp; cbn [set_prices fmap list_fmap].
  { exists feeds. split; [done|]. intros h. by rewrite bool_decide_eq_false_2 by apply not_elem_of_nil. }
  rewrite (Hp r) by (by left). cbn [outcome_bind]. set (feeds1 := match feeds !! response_feed_hash r with
    | Some feed => _ | None => _ end).
  destruct (IH feeds1) as (feeds' & E & Hf); [intros r' Hr'; apply Hp; by right|].
  exists feeds'. split; [done|]. intros h. rewrite Hf. unfold feeds1. case_bool_decide as H1.
  - rewrite bool_decide_eq_true_2 by (by right). destruct (decide (h = response_feed_hash r)) as [->|Hne].
    + destruct (feeds !! response_feed_hash r) as [i|] eqn:Ei; rewrite ?lookup_insert_eq, ?Ei; done.
    + destruct (feeds !! response_feed_hash r) as [i|]; by rewrite ?lookup_insert_ne by done.
  - destruct (decide (h = response_feed_hash r)) as [->|Hne].
    + rewrite bool_decide_eq_true_2 by (by left).
      destruct (feeds !! response_feed_hash r) as [i|] eqn:Ei; rewrite ?lookup_insert_eq, ?Ei; done.
    + rewrite bool_decide_eq_false_2 by (by rewrite not_elem_of_cons).
      destruct (feeds !! response_feed_hash r) as [i|]; by rewrite ?lookup_insert_ne by done.
Qed.
Lemma refresh_answered now feeds : tracked feeds →
  ∃ feeds', refresh_prices simulate now feeds = Ok feeds' ∧ ∀ h, feeds' !! h = refreshed now h <$> feeds !! h.
Proof.
  intros [Hh _]. unfold refresh_prices. case_bool_decide as He; [subst; exists ∅; split; [done|intros h; by rewrite lookup_empty]|].
  destruct (chunks_spec CHUNK_SIZE (feed_hashes feeds)) as [Hc Hs]; [unfold CHUNK_SIZE; lia|].
  destruct (join_answered (chunks CHUNK_SIZE (feed_hashes feeds))) as (outs & -> & Hin & Hp).
  { eapply list.Forall_impl; [exact Hs|]. by intros c []. }
  cbn [outcome_bind]. destruct (set_prices_answered now _ feeds Hp) as (feeds' & -> & Hf).
  exists feeds'. split; [done|]. intros h. rewrite Hf. case_bool_decide as Hb; [done|].
  destruct (feeds !! h) as [i|] eqn:Ei; [|done]. exfalso. apply Hb, Hin. rewrite Hc. unfold feed_hashes.
  apply list_elem_of_fmap. exists (h, i). split; [symmetry; by apply Hh|by apply hash_iter_elem].
Qed.
End Refreshing.


(** ** Concrete values *)
#[local] Existing Instance demo_oracle_sdk.
#[export] Instance demo_from_f64 : FixedFromF64 := {|
  i80f48_from_f64 x := match x with
                       | S754_zero _ => Some 0
                       | S754_finite s m e => fits (Z.shiftl (if s then Z.neg m else Z.pos m) (e + 48))
                       | _ => None
                       end
|}.
#[export] Instance demo_from_f64_laws : FixedFromF64Laws demo_from_f64.
Proof. split. reflexivity. Qed.

Definition demo_pull_feed (hash : Z) : SwitchboardPullPriceFeed.SwitchboardPullPriceFeed :=
  SwitchboardPullPriceFeed.mkFeed (mkCurrentResult (29 * 10 ^ 18) (10 ^ 16)) hash.
Definition demo_pull_snapshot : Snapshot :=
  mkSnapshot 1 ∅ ∅ ∅ ∅ {[900 := DSwitchboardPull (demo_pull_feed 7)]}.
Definition demo_cache : Feeds := track_feeds ∅ (swb_feeds demo_pull_snapshot).
Definition demo_simulate : Simulation :=
  λ l, Ok ((λ h, mkSimulatedFeed h [f64_of 35; f64_of 30; f64_of 31]) <$> l).
Definition demo_turn (simulate : Simulation) (s : Snapshot) : IndexerResult (Feeds * Snapshot) :=
  update_crossbar_cache (λ _, simulate) (λ _, 1000) (track_feeds ∅ (swb_feeds s)) s.
Definition price_after (r : IndexerResult (Feeds * Snapshot)) (a : Pubkey) : IndexerResult I80F48 :=
  let? r := r in
  let? f := unwrap (price_feeds (snd r) !! a) in
  get_price_of_type f RealTime (Some Low).


(** When the service never answers for a feed its price becomes zero, although
    the chain has one. *)
Example failed_chunk_prices_at_zero :
  price_after (Ok (demo_cache, demo_pull_snapshot)) 900 ≠ Ok 0 ∧
  start_crossbar (λ _, Err RequestFailed) 1000 demo_pull_snapshot = Ok demo_cache ∧
  price_after (demo_turn (λ _, Err RequestFailed) demo_pull_snapshot) 900 = Ok 0.
Proof. vm_compute. split_and!; [discriminate|reflexivity|reflexivity]. Qed.
(** Of two feeds with the same jobs, only one gets its price. *)
Example shared_hash_drops_a_feed :
  let s := mkSnapshot 1 ∅ ∅ ∅ ∅ {[900 := DSwitchboardPull (demo_pull_feed 7); 901 := DSwitchboardPull (demo_pull_feed 7)]} in
  price_after (demo_turn demo_simulate s) 900 ≠ price_after (demo_turn demo_simulate s) 901.
Proof. vm_compute. discriminate. Qed.
(** A token worth 700000 dollars ends the task. *)
Example expensive_token_ends_the_task :
  demo_turn (λ l, Ok ((λ h, mkSimulatedFeed h [f64_of 700000]) <$> l)) demo_pull_snapshot = Panic.
Proof. vm_compute. reflexivity. Qed.
