(* ===== verification/Service.v ===== *)
(** * The indexer: the snapshot service

    [commands/snapshot_accounts.rs] around the snapshot ([Indexer.v]): what the
    service asks the geyser node to stream, which follows the accounts the
    snapshot routes, and the rows it writes of the metrics.  A service is the
    context its tasks share; the node's side of the stream ([subscribed]) is part
    of the state.  A definition is what a task does while it holds its locks, so
    the tasks interleave between definitions ([runs]).

    Connecting, decoding an update and the wait before the first rows are left
    out; what BigQuery answers changes nothing. *)
From S2P Require Import Prelude Floats Errors Fixed Constants Utils Price SlotQueue Indexer.
From stdpp Require Import sorting.
Import Snapshot.
#[local] Open Scope Z_scope.

(** ** The subscription *)
(** [(updated, accounts)] of [geyser_subscription_config]: whether the node has
    still to be told, and the accounts besides those of the program. *)
Notation SubscriptionConfig := (bool * list Pubkey)%type.
Definition non_program (r : AccountRoutingType) : bool :=
  match r with
  | RMarginfiGroup | RMarginfiAccount | RBank _ State => false
  | _ => true
  end.

Section Subscription.
Context {HO : HashOrder} (additional_accounts : list Pubkey).
(** The keys of a map are unique as they are. *)
Definition non_program_accounts (s : Snapshot) : list Pubkey :=
  fst <$> filter (λ x, non_program (snd x) = true) (hash_iter (routing_lookup s)).
Definition compute_geyser_config (non_program_pubkeys : list Pubkey) : list Pubkey :=
  dedup (sort_by Z.leb (additional_accounts ++ non_program_pubkeys)).
End Subscription.

(** ** The service *)
Record Service := mkService {
  context : Queue.Context;
  timestamp : Z;
  geyser_subscription_config : SubscriptionConfig;
  subscribed : option (list Pubkey);        (* what the node streams while connected *)
  stream_disconnection_count : Z;
  update_processing_error_count : Z
}.
(** An update of the stream. *)
Inductive UpdateOneof : Type :=
| UpdateAccount (slot : Z) (account : option (Pubkey * Account))
| UpdateSlot (slot status : Z)
| UpdateBlockMeta (block_time : option Z)
| UpdatePing
| UpdateOther.

Section Ops.
Context {F : FixedOps} {O : OracleSdk} {S : IndexerSdk} {HO : HashOrder}.
Context (additional_accounts : list Pubkey) (slots_buffer_size : Z).

Definition start_service (program_id : Pubkey) : IndexerResult Service :=
  let? s := unwrap_result (init (Snapshot.new program_id)) in
  Ok (mkService (Queue.mkContext ∅ ∅ s) 0 (false, compute_geyser_config additional_accounts (non_program_accounts s)) None 0 0).

(** [listen_to_updates]: the node is told at the start of a connection, ... *)
Definition connect (v : Service) : Service :=
  mkService (context v) (timestamp v) (geyser_subscription_config v) (Some (snd (geyser_subscription_config v)))
    (stream_disconnection_count v) (update_processing_error_count v).
Definition disconnect (v : Service) : Service :=
  mkService (context v) (timestamp v) (geyser_subscription_config v) None (stream_disconnection_count v + 1)
    (update_processing_error_count v).
(** ... and when something is received; whether that was sent is only logged. *)
Definition update_subscription (sent : bool) (v : Service) : Service :=
  let '(updated, accounts) := geyser_subscription_config v in
  if updated then
    mkService (context v) (timestamp v) (false, accounts) (if sent then Some accounts else subscribed v)
      (stream_disconnection_count v) (update_processing_error_count v)
  else v.
Definition with_context (c : Queue.Context) (v : Service) : Service :=
  mkService c (timestamp v) (geyser_subscription_config v) (subscribed v) (stream_disconnection_count v)
    (update_processing_error_count v).
(** [None]: an update that should have had contents. *)
Definition process_update (v : Service) (update : UpdateOneof) : option Service :=
  match update with
  | UpdateAccount slot (Some (address, a)) => Some (with_context (Queue.process_account_update (context v) slot address a) v)
  | UpdateAccount _ None => None
  | UpdateSlot slot status =>
      Some (if (status =? 1) || (status =? 2)   (* Confirmed, Finalized *)
            then with_context (Queue.process_slot_update slots_buffer_size (context v) slot) v else v)
  | UpdateBlockMeta (Some block_time) =>
      Some (mkService (context v) block_time (geyser_subscription_config v) (subscribed v) (stream_disconnection_count v)
              (update_processing_error_count v))
  | UpdateBlockMeta None | UpdatePing | UpdateOther => Some v
  end.
(** The body of [while let Some(received) = stream.next().await]. *)
Definition received (sent : bool) (update : option UpdateOneof) (v : Service) : Service :=
  let v := update_subscription sent v in
  match update with
  | Some update =>
      match process_update v update with
      | Some v => v
      | None => mkService (context v) (timestamp v) (geyser_subscription_config v) (subscribed v)
                  (stream_disconnection_count v) (update_processing_error_count v + 1)
      end
  | None => v
  end.

(** The loop over the confirmed updates: an account that is new to the snapshot
    changes what to subscribe to. *)
Definition apply_update (x : Snapshot * SubscriptionConfig) (address : Pubkey) (a : Account)
    : IndexerResult (Snapshot * SubscriptionConfig) :=
  let '(s, g) := x in
  if bool_decide (is_Some (routing_lookup s !! address)) then
    let? s := update_entry s address a in Ok (s, g)
  else
    let? s := create_entry s address a in
    Ok (s, (true, compute_geyser_config additional_accounts (non_program_accounts s))).
Fixpoint apply_updates (x : Snapshot * SubscriptionConfig) (l : list (Z * (Pubkey * Account)))
    : IndexerResult (Snapshot * SubscriptionConfig) :=
  match l with
  | [] => Ok x
  | (_, (k, a)) :: l => let? x := apply_update x k a in apply_updates x l
  end.
Definition update_account_map (v : Service) : IndexerResult Service :=
  let c := context v in
  let '(out, queue) := drain (Queue.latest_slots_with_commitment c) (Queue.account_updates_queue c) in
  let? '(s, g) := apply_updates (Queue.account_snapshot c, geyser_subscription_config v) (Queue.updates_of out) in
  Ok (mkService (Queue.mkContext queue (Queue.latest_slots_with_commitment c) s) (timestamp v) g (subscribed v)
        (stream_disconnection_count v) (update_processing_error_count v)).
End Ops.

(** ** [push_transactions_to_bigquery] *)
Section Rows.
Context {F : FixedOps} {O : OracleSdk} {S : IndexerSdk} {HO : HashOrder}.
(** The rows of the entries whose metrics could be computed; a panic of one ends
    the task. *)
Fixpoint rows {A} (l : list (IndexerResult A)) : IndexerResult (list A) :=
  match l with
  | [] => Ok []
  | Panic :: _ => Panic
  | Err _ :: l => rows l
  | Ok metrics :: l => let? l := rows l in Ok (metrics :: l)
  end.
Fixpoint rows_of_chunks {A} (l : list (list (IndexerResult A))) : IndexerResult (list (list A)) :=
  match l with
  | [] => Ok []
  | chunk :: l => let? r := rows chunk in let? more := rows_of_chunks l in Ok (r :: more)
  end.
Definition ACCOUNT_ROWS : nat := Z.to_nat 7000.
Record Requests := mkRequests {
  group_rows : list Metrics.MarginfiGroupMetrics;
  bank_rows : list Metrics.LendingPoolBankMetrics;
  account_rows : list (list Metrics.MarginfiAccountMetrics)   (* a request each *)
}.
Definition insert_requests (v : Service) : IndexerResult Requests :=
  let s := Queue.account_snapshot (context v) in
  let all_group_metrics := (λ x, Metrics.group_metrics (timestamp v) (fst x) s) <$> hash_iter (marginfi_groups s) in
  let all_bank_metrics := (λ x, Metrics.bank_metrics (timestamp v) (fst x) (snd x) s) <$> hash_iter (banks s) in
  let all_account_metrics := (λ x, Metrics.account_metrics (timestamp v) (fst x) (snd x) s) <$> hash_iter (marginfi_accounts s) in
  let? groups := rows all_group_metrics in
  let? banks := rows all_bank_metrics in
  let? accounts := rows_of_chunks (chunks ACCOUNT_ROWS all_account_metrics) in
  Ok (mkRequests groups banks accounts).
End Rows.

(** ** The stream follows the snapshot *)
Section Following.
Context {F : FixedOps} {O : OracleSdk} {S : IndexerSdk} {HO : HashOrder}.
Context (additional_accounts : list Pubkey) (slots_buffer_size : Z).
Notation snapshot v := (Queue.account_snapshot (context v)).

Lemma non_program_elem s k : k ∈ non_program_accounts s ↔ ∃ r, routing_lookup s !! k = Some r ∧ non_program r = true.
Proof.
  unfold non_program_accounts. rewrite list_elem_of_fmap. split.
  - intros ([k' r] & -> & [Hr Hk%hash_iter_elem]%list_elem_of_filter). eauto.
  - intros (r & Hk & Hr). exists (k, r). split; [done|]. apply list_elem_of_filter. by rewrite hash_iter_elem.
Qed.
(** What the service wants to be told about: the accounts it was configured with
    and those of other programs it routes, each once. *)
Definition wanted (s : Snapshot) (l : list Pubkey) : Prop :=
  StronglySorted Z.lt l ∧
  ∀ k, k ∈ l ↔ k ∈ additional_accounts ∨ ∃ r, routing_lookup s !! k = Some r ∧ non_program r = true.
Lemma config_wanted s : wanted s (compute_geyser_config additional_accounts (non_program_accounts s)).
Proof.
  split.
  - apply dedup_sorted, sort_leb_sorted.
  - intros k. unfold compute_geyser_config. by rewrite dedup_elem, sort_by_perm, elem_of_app, non_program_elem.
Qed.
Lemma wanted_routes s s' l : routing_lookup s' = routing_lookup s → wanted s l → wanted s' l.
Proof. intros E. unfold wanted. by rewrite E. Qed.

(** The loop is that of the snapshot alone, and keeps the subscription right. *)
Lemma apply_updates_follow l : ∀ s g s' g', wanted s (snd g) →
  apply_updates additional_accounts (s, g) l = Ok (s', g') →
  Queue.apply_updates s l = Ok s' ∧ wanted s' (snd g') ∧ (g' = g ∨ fst g' = true).
Proof.
  induction l as [|[slot [k a]] l IH]; intros s g s' g' Hw H; [injection H as <- <-; auto|].
  cbn [apply_updates Queue.apply_updates] in *. apply bind_ok in H as ([s1 g1] & H1 & H).
  assert (Queue.apply_update s k a = Ok s1 ∧ wanted s1 (snd g1) ∧ (g1 = g ∨ fst g1 = true)) as (E & Hw1 & Hg1).
  { unfold apply_update in H1. unfold Queue.apply_update. case_bool_decide; apply bind_ok in H1 as (s2 & Es & [= <- <-]).
    - split_and!; [done| |by left]. eapply wanted_routes; [|done]. by apply update_entry_extends in Es as [].
    - split_and!; [done|apply config_wanted|by right]. }
  rewrite E. cbn [outcome_bind]. destruct (IH _ _ _ _ Hw1 H) as (? & ? & Hg'). split_and!; [done..|].
  destruct Hg' as [->|?]; [done|by right].
Qed.
Lemma turn_follows v v' : wanted (snapshot v) (snd (geyser_subscription_config v)) →
  update_account_map additional_accounts v = Ok v' →
  Queue.update_account_map (context v) = Ok (context v') ∧
  wanted (snapshot v') (snd (geyser_subscription_config v')) ∧ subscribed v' = subscribed v ∧
  (geyser_subscription_config v' = geyser_subscription_config v ∨ fst (geyser_subscription_config v') = true).
Proof.
  intros Hw H. unfold update_account_map in H. unfold Queue.update_account_map. destruct (drain _ _) as [out queue].
  apply bind_ok in H as ([s g] & Hs & [= <-]). simpl. destruct (apply_updates_follow _ _ _ _ _ Hw Hs) as (-> & ? & ?). done.
Qed.

(** The states of the service; whether the node has missed the subscription
    since it was last told. *)
Inductive runs : Service → bool → Prop :=
| runs_start program_id v : start_service additional_accounts program_id = Ok v → runs v false
| runs_connect v missed : runs v missed → runs (connect v) false
| runs_disconnect v missed : runs v missed → runs (disconnect v) false
| runs_received v missed sent update : runs v missed → is_Some (subscribed v) →
    runs (received slots_buffer_size sent update v) (if fst (geyser_subscription_config v) then negb sent else missed)
| runs_turn v v' missed : runs v missed → update_account_map additional_accounts v = Ok v' → runs v' missed.

Lemma update_subscription_context sent v : context (update_subscription sent v) = context v ∧
  snd (geyser_subscription_config (update_subscription sent v)) = snd (geyser_subscription_config v).
Proof. unfold update_subscription. by destruct (geyser_subscription_config v) as [[]] eqn:E; rewrite ?E. Qed.
Lemma process_update_keeps v update v' : process_update slots_buffer_size v update = Some v' →
  geyser_subscription_config v' = geyser_subscription_config v ∧ subscribed v' = subscribed v ∧
  snapshot v' = snapshot v ∧ (Queue.running slots_buffer_size (context v) → Queue.running slots_buffer_size (context v')).
Proof.
  unfold process_update. destruct update as [slot [[k a]|]|slot status|[t|]| |]; intros H; try done; simplify_eq; try done.
  - simpl. split_and!; [done..|]. by apply Queue.received.
  - destruct (_ || _); simpl; [|done]. split_and!; [done..|]. by apply Queue.committed.
Qed.
Lemma received_keeps sent update v :
  let v' := received slots_buffer_size sent update v in
  geyser_subscription_config v' = (false, snd (geyser_subscription_config v)) ∧
  subscribed v' = (if fst (geyser_subscription_config v) && sent then Some (snd (geyser_subscription_config v)) else subscribed v) ∧
  snapshot v' = snapshot v ∧ (Queue.running slots_buffer_size (context v) → Queue.running slots_buffer_size (context v')).
Proof.
  intros v'. set (v1 := update_subscription sent v).
  assert (geyser_subscription_config v1 = (false, snd (geyser_subscription_config v)) ∧ context v1 = context v ∧
    subscribed v1 = if fst (geyser_subscription_config v) && sent then Some (snd (geyser_subscription_config v)) else subscribed v)
    as (Hg & Hc & Hs).
  { unfold v1, update_subscription. destruct (geyser_subscription_config v) as [[] l] eqn:E; simpl; [by destruct sent|].
    by rewrite E. }
  subst v'. unfold received. fold v1. rewrite <- Hc, <- Hg, <- Hs. destruct update as [u|]; [|done].
  destruct (process_update slots_buffer_size v1 u) as [v2|] eqn:E; [|done].
  by destruct (process_update_keeps _ _ _ E) as (-> & -> & -> & ?).
Qed.

Lemma runs_follow v missed : runs v missed →
  Queue.running slots_buffer_size (context v) ∧ wanted (snapshot v) (snd (geyser_subscription_config v)) ∧
  ∀ l, subscribed v = Some l → missed = true ∨ fst (geyser_subscription_config v) = true ∨ l = snd (geyser_subscription_config v).
Proof.
  induction 1 as [pid v H|v m _ (Hr & Hw & Hl)|v m _ (Hr & Hw & Hl)|v m sent u _ (Hr & Hw & Hl) Hc|v v' m _ (Hr & Hw & Hl) H].
  - unfold start_service in H. apply bind_ok in H as (s & Hs%unwrap_result_ok & [= <-]). simpl.
    split_and!; [by eapply Queue.started|apply config_wanted|done].
  - simpl. split_and!; [done..|]. intros l [= <-]. auto.
  - simpl. by split_and!.
  - destruct (received_keeps sent u v) as (Eg & Es & En & Hrun). rewrite Eg, Es, En. simpl. split_and!; [auto|done|].
    intros l. destruct (fst (geyser_subscription_config v)) eqn:Ef; simpl; [destruct sent; simpl; [intros [= <-]; auto|auto]|].
    intros Hsub. destruct (Hl l Hsub) as [?|[?|?]]; [auto|done|auto].
  - destruct (turn_follows _ _ Hw H) as (Hq & Hw' & Es & Hg). split_and!; [by eapply Queue.turned|done|].
    intros l. rewrite Es. intros Hsub. destruct Hg as [->|?]; [by apply Hl|auto].
Qed.

(** C34: The snapshot service runs the queue
    of confirmed updates whose properties are proved of it alone, and the stream
    it asks the node for follows the snapshot.  As long as the node has not
    missed a change of the subscription, then after the next update received
    (with any change of the subscription it triggers sent) the node streams
    exactly the accounts of other programs the snapshot routes, those of banks
    that were created since included, and the configured ones, each once. *)
Theorem stream_follows_the_snapshot v missed : runs v missed →
  Queue.running slots_buffer_size (context v) ∧
  (missed = false → is_Some (subscribed v) → ∀ sent update, (sent = true ∨ fst (geyser_subscription_config v) = false) →
     ∃ l, subscribed (received slots_buffer_size sent update v) = Some l ∧
          wanted (snapshot (received slots_buffer_size sent update v)) l).
Proof.
  intros (Hr & Hw & Hl)%runs_follow. split; [done|]. intros -> [l Hsub] sent update Hsent.
  destruct (received_keeps sent update v) as (_ & -> & -> & _). specialize (Hl l Hsub).
  destruct (fst (geyser_subscription_config v)) eqn:Ef; simpl.
  - destruct Hsent as [->|?]; [|done]. eauto.
  - destruct Hl as [?|[?| ->]]; [done..|]. eauto.
Qed.
Lemma runs_sent v update : runs v false → is_Some (subscribed v) → runs (received slots_buffer_size true update v) false.
Proof.
  intros Hr Hs. pose proof (runs_received v false true update Hr Hs) as H.
  by destruct (fst (geyser_subscription_config v)).
Qed.
(** A change of the subscription that could not be sent is not sent again until
    the stream is connected anew. *)
Lemma failed_send_is_forgotten v update : fst (geyser_subscription_config v) = true →
  let v' := received slots_buffer_size false update v in
  subscribed v' = subscribed v ∧ ∀ update' sent, subscribed (received slots_buffer_size sent update' v') = subscribed v.
Proof.
  intros Ht v'. destruct (received_keeps false update v) as (Hg & Hs & _). rewrite andb_false_r in Hs. split; [done|].
  intros update' sent. destruct (received_keeps sent update' v') as (_ & -> & _). subst v'. by rewrite Hg.
Qed.
End Following.

(** ** The rows *)
Section RowFacts.
Context {A : Type}.
Implicit Types l : list (IndexerResult A).
Lemma rows_app l k : rows (l ++ k) = (let? a := rows l in let? b := rows k in Ok (a ++ b)).
Proof.
  induction l as [|[a|e|] l IH]; simpl; [by destruct (rows k)| |done|done].
  rewrite IH. destruct (rows l); simpl; [|done|done]. by destruct (rows k).
Qed.
(** Cutting the rows into requests loses none. *)
Lemma rows_of_chunks_concat (ls : list (list (IndexerResult A))) : rows (concat ls) = (let? rs := rows_of_chunks ls in Ok (concat rs)).
Proof.
  induction ls as [|l ls IH]; [done|]. simpl. rewrite rows_app, IH. destruct (rows l); simpl; [|done|done].
  by destruct (rows_of_chunks ls).
Qed.
Lemma account_requests_complete l : rows l = (let? rs := rows_of_chunks (chunks ACCOUNT_ROWS l) in Ok (concat rs)).
Proof.
  rewrite <- rows_of_chunks_concat. destruct (chunks_spec ACCOUNT_ROWS l) as [-> _]; [|done].
  unfold ACCOUNT_ROWS. lia.
Qed.
End RowFacts.

(** ** Concrete values *)
#[local] Existing Instance demo_oracle_sdk.
(** A node that finds no accounts, and decodes every bank as the same. *)
Definition demo_service_sdk : IndexerSdk (O := demo_oracle_sdk) := {|
  get_program_accounts program_id := Some [];
  get_multiple_accounts keys := Some ((λ _, None) <$> keys);
  bank_discriminator := replicate 8 1;
  marginfi_account_discriminator := replicate 8 2;
  marginfi_group_discriminator := replicate 8 3;
  bank_try_deserialize d := Some BankState.Bank.demo_bank;
  marginfi_account_try_deserialize d := None;
  marginfi_group_try_deserialize d := None;
  spl_unpack d := None;
  indexer_push_oracles := demo_push_oracles;
  get_price_unchecked d id := Err OtherPriceError;
  pull_feed_size := 3;
  pull_feed_aligned d := true;
  pull_feed_read d := mkPullFeed (mkCurrentResult 0 0) 0 0
|}.
#[local] Existing Instance demo_service_sdk.
(** An account of the program, 70, is created in slot 5, and the slot confirmed. *)
Definition demo_start : Service :=
  ok_value (mkService (Queue.mkContext ∅ ∅ (Snapshot.new 1)) 0 (false, []) None 0 0) (start_service [42] 1).
Definition demo_received : Service :=
  received 10 true (Some (UpdateSlot 5 1))
    (received 10 true (Some (UpdateAccount 5 (Some (70, mkAccount 1 (replicate 8 1))))) (connect demo_start)).
Definition demo_turned : Service := ok_value demo_received (update_account_map [42] demo_received).

Lemma stream_follows_the_snapshot_witness :
  subscribed demo_received = Some [42] ∧
  ∃ l, subscribed (received 10 true None demo_turned) = Some l ∧ length l = 5%nat ∧
       wanted [42] (Queue.account_snapshot (context (received 10 true None demo_turned))) l.
Proof.
  split; [vm_compute; reflexivity|].
  assert (runs [42] 10 demo_turned false) as Hr.
  { apply (runs_turn _ _ demo_received); [|vm_compute; reflexivity].
    apply runs_sent; [|vm_compute; by eexists].
    apply runs_sent; [|vm_compute; by eexists].
    apply (runs_connect _ _ _ false), (runs_start _ _ 1). vm_compute. reflexivity. }
  destruct (proj2 (stream_follows_the_snapshot [42] 10 demo_turned false Hr) eq_refl) with (sent := true) (update := None : option UpdateOneof)
    as (l & Hl & Hw); [vm_compute; by eexists|by left|].
  exists l. split; [exact Hl|]. split; [|exact Hw]. vm_compute in Hl. injection Hl as <-. reflexivity.
Defined.
