(* ===== verification/Alerts.v ===== *)
(** * The alerter

    [tools/alerting/src/main.rs]: a program run at regular intervals that opens
    an incident for every bank whose oracle has not been updated for too long
    and for every account that runs low on lamports, closes those that are over,
    and opens one of its own when it fails.

    The state is the list of the events the incident service (PagerDuty) has
    accepted; its documented meaning, that a trigger opens the incident of its
    key and a resolution closes it, is [open_incidents].  The node, the decoders
    and the clock are a class: their answers are those of the moment of the run.
    The texts of the alerts, the logs and the command line are left out. *)
From stdpp Require Import strings.
From S2P Require Import Prelude Floats Errors Fixed Constants BankState Price.
#[local] Open Scope Z_scope.

(** [Event::AlertTrigger], [Event::AlertResolve], with their [dedup_key]s *)
Inductive Event : Set := AlertTrigger (dedup_key : string) | AlertResolve (dedup_key : string).
Inductive AlertError : Set := AnyhowError.
Notation alerter := (effect (list Event) AlertError).

Class AlerterSdk := {
  alerter_push_oracles :: PushOracles;
  pubkey_from_str : string → option Pubkey;
  pubkey_to_string : Pubkey → string;
  (* the accounts of a program with the bytes of an address at an offset *)
  get_program_accounts_with_memcmp : Pubkey → Z → Pubkey → option (list (Pubkey * list Z));
  get_account : Pubkey → option (list Z);
  get_multiple_accounts : list Pubkey → option (list (option (list Z)));
  get_balance : Pubkey → option Z;
  (* bytemuck::try_from_bytes, after the discriminator *)
  bank_from_bytes : list Z → option Bank.Bank;
  (* latest_confirmed_round.round_open_timestamp of an AggregatorAccountData *)
  round_open_timestamp : list Z → option Z;
  pull_feed_from_bytes : list Z → option PullFeedAccountData;
  (* price_message.publish_time of PriceUpdateV2::deserialize *)
  price_publish_time : list Z → option Z;
  current_unix_timestamp_secs : Z;
  pd_accepts : Event → bool
}.

Record MarginfiGroupAlertingConfig := mkGroupConfig { group_address : string; max_age_secs : Z (* i64 *) }.
Record BalanceAlertingConfig := mkBalanceConfig { balance_address : string; min_balance : f64 }.
Record MarginfiAlerterConfig := mkAlerterConfig {
  marginfi_program_id : string;
  marginfi_groups : list MarginfiGroupAlertingConfig;
  balance_alert : list BalanceAlertingConfig
}.

Section Alerter.
Context {K : AlerterSdk}.
Notation group_configs := (gmap Pubkey MarginfiGroupAlertingConfig).

(** [pd.event(..)?] *)
Definition pd_event (e : Event) : alerter unit :=
  λ events, if pd_accepts e then (Ok tt, events ++ [e]) else (Err AnyhowError, events).

Definition get_oracle_dedup_key (address : Pubkey) : string := "stale-oracle-" +:+ pubkey_to_string address.
Definition send_stale_oracle_alert (address : Pubkey) : alerter unit := pd_event (AlertTrigger (get_oracle_dedup_key address)).
Definition clear_stale_oracle_alert (address : Pubkey) : alerter unit := pd_event (AlertResolve (get_oracle_dedup_key address)).
Definition send_balance_alert (c : BalanceAlertingConfig) : alerter unit :=
  pd_event (AlertTrigger ("balance-" +:+ balance_address c)).
Definition clear_balance_alert (address : Pubkey) : alerter unit :=
  pd_event (AlertResolve ("balance-" +:+ pubkey_to_string address)).
Definition ERROR_KEY : string := "marginfi-alerter-error".
Definition send_error_alert : alerter unit := pd_event (AlertTrigger ERROR_KEY).
Definition clear_error_alert : alerter unit := pd_event (AlertResolve ERROR_KEY).

(** [(min_balance * 10u64.pow(9) as f64).floor() as u64] *)
Definition min_balance_lamports (c : BalanceAlertingConfig) : Z :=
  f64_floor_as_u64 (f64_mul (min_balance c) (f64_of (10 ^ 9))).
Definition check_balance (c : BalanceAlertingConfig) : alerter unit :=
  do! address := effect_lift (ok_or (pubkey_from_str (balance_address c)) AnyhowError) in
  do! balance := effect_lift (ok_or (get_balance address) AnyhowError) in
  if balance <? min_balance_lamports c then send_balance_alert c else clear_balance_alert address.

(** [&data[8..]], which panics on less. *)
Definition skip_discriminator (data : list Z) : outcome AlertError (list Z) :=
  if (length data <? 8)%nat then Panic else Ok (drop 8 data).
(** The end of every check of an oracle. *)
Definition report_age (groups : group_configs) (address : Pubkey) (b : Bank.Bank) (last_update : Z) : alerter unit :=
  do! group_config := effect_lift (unwrap (groups !! Bank.group b)) in
  do! oracle_age := effect_lift (i64_checked (current_unix_timestamp_secs - last_update)) in
  if max_age_secs group_config <? oracle_age then send_stale_oracle_alert address else clear_stale_oracle_alert address.

Definition switchboard_v2_update (b : Bank.Bank) : outcome AlertError Z :=
  let? oracle_address := unwrap (head (BankConfig.oracle_keys (Bank.config b))) in
  let? oracle_account := ok_or (get_account oracle_address) AnyhowError in
  let? data := skip_discriminator oracle_account in
  ok_or (round_open_timestamp data) AnyhowError.
Definition check_switchboard_v2_oracle (groups : group_configs) (x : Pubkey * Bank) : alerter unit :=
  do! last_update := effect_lift (switchboard_v2_update (snd x)) in report_age groups (fst x) (snd x) last_update.

(** The account marginfi sponsors is taken if it exists, else the one Pyth
    sponsors. *)
Definition pyth_push_account (b : Bank.Bank) : outcome AlertError (list Z) :=
  let? feed_id := unwrap (head (BankConfig.oracle_keys (Bank.config b))) in
  let? accounts := ok_or (get_multiple_accounts [find_oracle_address PYTH_PUSH_MARGINFI_SPONSORED_SHARD_ID feed_id;
                                                 find_oracle_address PYTH_PUSH_PYTH_SPONSORED_SHARD_ID feed_id]) AnyhowError in
  match accounts !! 0%nat, accounts !! 1%nat with
  | Some (Some account), _ => Ok account
  | _, Some (Some account) => Ok account
  | _, _ => Err AnyhowError
  end.
Definition pyth_push_update (b : Bank.Bank) : outcome AlertError Z :=
  let? oracle_account := pyth_push_account b in
  let? data := skip_discriminator oracle_account in
  ok_or (price_publish_time data) AnyhowError.
Definition check_pyth_push_oracle (groups : group_configs) (x : Pubkey * Bank) : alerter unit :=
  do! publish_time := effect_lift (pyth_push_update (snd x)) in report_age groups (fst x) (snd x) publish_time.

Definition switchboard_pull_update (b : Bank.Bank) : outcome AlertError Z :=
  let? oracle_address := unwrap (head (BankConfig.oracle_keys (Bank.config b))) in
  let? oracle_account := ok_or (get_account oracle_address) AnyhowError in
  let? data := skip_discriminator oracle_account in
  let? pull_feed := ok_or (pull_feed_from_bytes data) AnyhowError in
  Ok (pf_last_update_timestamp pull_feed).
Definition check_switchboard_pull_oracle (groups : group_configs) (x : Pubkey * Bank) : alerter unit :=
  do! last_update := effect_lift (switchboard_pull_update (snd x)) in report_age groups (fst x) (snd x) last_update.

(** The banks of a group: the accounts of the program that have the group's
    address where a bank has it. *)
Fixpoint parse_banks (accounts : list (Pubkey * list Z)) : outcome AlertError (list (Pubkey * Bank.Bank)) :=
  match accounts with
  | [] => Ok []
  | (address, data) :: accounts =>
      let? data := skip_discriminator data in
      let? b := ok_or (bank_from_bytes data) AnyhowError in
      let? more := parse_banks accounts in
      Ok ((address, b) :: more)
  end.
Definition load_banks (c : MarginfiAlerterConfig) (g : MarginfiGroupAlertingConfig) : outcome AlertError (list (Pubkey * Bank.Bank)) :=
  let? program_id := ok_or (pubkey_from_str (marginfi_program_id c)) AnyhowError in
  let? group_pk := ok_or (pubkey_from_str (group_address g)) AnyhowError in
  let? bank_accounts := ok_or (get_program_accounts_with_memcmp program_id (8 + 32 + 1) group_pk) AnyhowError in
  parse_banks bank_accounts.
Definition with_setup (s : OracleSetup) (banks : list (Pubkey * Bank.Bank)) : list (Pubkey * Bank.Bank) :=
  filter (λ x, BankConfig.oracle_setup (Bank.config (snd x)) = s) banks.
Definition check_marginfi_group (c : MarginfiAlerterConfig) (groups : group_configs) (g : MarginfiGroupAlertingConfig)
    : alerter unit :=
  do! banks := effect_lift (load_banks c g) in
  do! _ := effect_each (check_switchboard_v2_oracle groups) (with_setup SwitchboardV2 banks) in
  do! _ := effect_each (check_pyth_push_oracle groups) (with_setup PythPushOracle banks) in
  effect_each (check_switchboard_pull_oracle groups) (with_setup SwitchboardPull banks).
Definition check_all (c : MarginfiAlerterConfig) (groups : group_configs) : alerter unit :=
  do! _ := effect_each (check_marginfi_group c groups) (marginfi_groups c) in
  effect_each check_balance (balance_alert c).

Fixpoint keyed_configs (l : list MarginfiGroupAlertingConfig) : outcome AlertError (list (Pubkey * MarginfiGroupAlertingConfig)) :=
  match l with
  | [] => Ok []
  | g :: l =>
      let? k := unwrap (pubkey_from_str (group_address g)) in
      let? more := keyed_configs l in
      Ok ((k, g) :: more)
  end.
(** A later entry for a group replaces an earlier one. *)
Definition group_config_map (c : MarginfiAlerterConfig) : outcome AlertError group_configs :=
  let? l := keyed_configs (marginfi_groups c) in Ok (list_to_map (reverse l)).
(** The exit code; an event about the run itself that is refused panics. *)
Definition main (c : MarginfiAlerterConfig) : alerter Z :=
  do! groups := effect_lift (group_config_map c) in
  λ events,
    match check_all c groups events with
    | (Ok _, events') =>
        match clear_error_alert events' with (Ok _, events') => (Ok 0, events') | (_, events') => (Panic, events') end
    | (Err _, events') =>
        match send_error_alert events' with (Ok _, events') => (Ok 1, events') | (_, events') => (Panic, events') end
    | (Panic, events') => (Panic, events')
    end.
End Alerter.

(** ** Incidents *)
Definition after (open : gset string) (e : Event) : gset string :=
  match e with AlertTrigger k => {[k]} ∪ open | AlertResolve k => open ∖ {[k]} end.
Definition incidents (open : gset string) (events : list Event) : gset string := foldl after open events.
Definition open_incidents (events : list Event) : gset string := incidents ∅ events.
(** The event that says whether something is wrong. *)
Definition verdict (d : string * bool) : Event := if snd d then AlertTrigger (fst d) else AlertResolve (fst d).

Lemma open_incidents_app l l' : open_incidents (l ++ l') = incidents (open_incidents l) l'.
Proof. apply foldl_app. Qed.
Lemma after_ne open d k : k ≠ fst d → k ∈ after open (verdict d) ↔ k ∈ open.
Proof. destruct d as [j []]; simpl; set_solver. Qed.
Lemma after_eq open k v : k ∈ after open (verdict (k, v)) ↔ v = true.
Proof. destruct v; simpl; set_solver. Qed.
Lemma incidents_untouched ds k : ∀ open, (∀ v, (k, v) ∉ ds) → k ∈ incidents open (verdict <$> ds) ↔ k ∈ open.
Proof.
  induction ds as [|[j v] ds IH]; intros open H; [done|]. cbn [incidents fmap list_fmap foldl].
  change (k ∈ incidents (after open (verdict (j, v))) (verdict <$> ds) ↔ k ∈ open). rewrite IH.
  - apply after_ne. intros ->. apply (H v). by left.
  - intros v' Hin. apply (H v'). by right.
Qed.
Lemma incidents_decided ds k v : ∀ open, (k, v) ∈ ds → (∀ v', (k, v') ∈ ds → v' = v) →
  k ∈ incidents open (verdict <$> ds) ↔ v = true.
Proof.
  induction ds as [|[j w] ds IH]; intros open Hin Hall; [by apply elem_of_nil in Hin|].
  change (k ∈ incidents (after open (verdict (j, w))) (verdict <$> ds) ↔ v = true).
  destruct (decide ((k, v) ∈ ds)) as [Hl|Hl].
  - apply IH; [done|]. intros v' Hv'. apply Hall. by right.
  - apply elem_of_cons in Hin as [[= <- <-]|Hin]; [|done]. rewrite incidents_untouched; [apply after_eq|].
    intros v' Hv'. assert (v' = v) as -> by (apply Hall; by right). done.
Qed.

(** ** What a check reports *)
Section Reports.
Context {K : AlerterSdk}.

(** When it succeeds, [P] holds and it has sent the verdicts of [R]. *)
Definition reports (P : Prop) (R : string → bool → Prop) (m : alerter unit) : Prop :=
  ∀ events events', m events = (Ok tt, events') →
    ∃ ds, events' = events ++ (verdict <$> ds) ∧ P ∧ ∀ k v, (k, v) ∈ ds ↔ R k v.
Lemma reports_iff P P' R R' m : (P → P') → (∀ k v, R k v ↔ R' k v) → reports P R m → reports P' R' m.
Proof.
  intros HP HR Hm events events' E. destruct (Hm _ _ E) as (ds & -> & Hp & Hd). exists ds.
  split_and!; [done|auto|]. intros k v. by rewrite Hd.
Qed.
Definition judged (R : string → bool → Prop) : Prop := ∃ k v, R k v.
Lemma reports_verdict (R : string → bool → Prop) k v : (∀ k' v', R k' v' ↔ k' = k ∧ v' = v) →
  reports (judged R) R (if v then pd_event (AlertTrigger k) else pd_event (AlertResolve k)).
Proof.
  intros HR events events' E. assert (events' = events ++ [verdict (k, v)]) as ->.
  { destruct v; unfold pd_event in E; destruct (pd_accepts _); try done; by injection E as <-. }
  exists [(k, v)]. split_and!; [done|by exists k, v; apply HR|]. intros k' v'.
  rewrite HR, list_elem_of_singleton. naive_solver.
Qed.
Lemma reports_lift {A} (r : outcome AlertError A) f P R :
  (∀ x, r = Ok x → reports P R (f x)) → reports P R (effect_bind f (effect_lift r)).
Proof. intros H events events' (x & s & [= E <-] & Hx)%effect_bind_ok. by apply (H x E). Qed.
Lemma reports_then P1 P2 R1 R2 (m1 m2 : alerter unit) : reports P1 R1 m1 → reports P2 R2 m2 →
  reports (P1 ∧ P2) (λ k v, R1 k v ∨ R2 k v) (do! _ := m1 in m2).
Proof.
  intros H1 H2 events events' ([] & s1 & (ds1 & -> & Hp1 & Hd1)%H1 & (ds2 & -> & Hp2 & Hd2)%H2)%effect_bind_ok.
  exists (ds1 ++ ds2). rewrite fmap_app, app_assoc. split_and!; [done..|]. intros k v. by rewrite elem_of_app, Hd1, Hd2.
Qed.
Lemma reports_each {A} (P : A → Prop) R (f : A → alerter unit) l : (∀ x, x ∈ l → reports (P x) (R x) (f x)) →
  reports (∀ x, x ∈ l → P x) (λ k v, ∃ x, x ∈ l ∧ R x k v) (effect_each f l).
Proof.
  induction l as [|x l IH]; intros H.
  { intros events events' [= <-]. exists []. rewrite app_nil_r. split_and!; [done|by intros x ?%elem_of_nil|].
    intros k v. rewrite elem_of_nil. split; [done|]. by intros (x & ?%elem_of_nil & _). }
  eapply reports_iff; [| |apply (reports_then _ _ _ _ (f x) (effect_each f l) (H x ltac:(by left)) (IH (λ y Hy, H y ltac:(by right))))].
  - intros [Hx Hl] y [->|Hy]%elem_of_cons; auto.
  - intros k v. split.
    + intros [Hx|(y & Hy & Hr)]; [exists x|exists y]; split; try done; [by left|by right].
    + intros (y & [->|Hy]%elem_of_cons & Hr); [by left|right; eauto].
Qed.

(** ** The checks *)
Notation now := current_unix_timestamp_secs.
Definition last_update (b : Bank.Bank) : outcome AlertError Z :=
  match BankConfig.oracle_setup (Bank.config b) with
  | SwitchboardV2 => switchboard_v2_update b
  | PythPushOracle => pyth_push_update b
  | SwitchboardPull => switchboard_pull_update b
  | OracleNone | PythLegacy => Err AnyhowError
  end.
Definition monitored (b : Bank.Bank) : Prop :=
  BankConfig.oracle_setup (Bank.config b) ∈ [SwitchboardV2; PythPushOracle; SwitchboardPull].
Lemma monitored_iff b : monitored b ↔ BankConfig.oracle_setup (Bank.config b) = SwitchboardV2 ∨
  BankConfig.oracle_setup (Bank.config b) = PythPushOracle ∨ BankConfig.oracle_setup (Bank.config b) = SwitchboardPull.
Proof. unfold monitored. rewrite !elem_of_cons, elem_of_nil. tauto. Qed.
(** A bank with its verdict: whether its oracle is older than its group
    tolerates. *)
Definition oracle_verdict (groups : gmap Pubkey MarginfiGroupAlertingConfig) (x : Pubkey * Bank.Bank) (k : string) (v : bool) : Prop :=
  ∃ g t, groups !! Bank.group (snd x) = Some g ∧ last_update (snd x) = Ok t ∧
    k = get_oracle_dedup_key (fst x) ∧ v = (max_age_secs g <? now - t).
Lemma report_age_reports groups a b t : last_update b = Ok t →
  reports (judged (oracle_verdict groups (a, b))) (oracle_verdict groups (a, b)) (report_age groups a b t).
Proof.
  intros Ht. unfold report_age. apply reports_lift. intros g Hg%unwrap_ok. apply reports_lift.
  intros age [-> _]%i64_checked_ok. apply reports_verdict. intros k v. unfold oracle_verdict. simpl.
  rewrite Hg, Ht. naive_solver.
Qed.
Lemma check_oracles_report groups s check update banks :
  (∀ x, check groups x = do! t := effect_lift (update (snd x)) in report_age groups (fst x) (snd x) t) →
  (∀ b, BankConfig.oracle_setup (Bank.config b) = s → last_update b = update b) →
  reports (∀ x, x ∈ with_setup s banks → judged (oracle_verdict groups x))
    (λ k v, ∃ x, x ∈ with_setup s banks ∧ oracle_verdict groups x k v) (effect_each (check groups) (with_setup s banks)).
Proof.
  intros Hc Hu. apply reports_each. intros [a b] [Hs _]%list_elem_of_filter. rewrite Hc. apply reports_lift.
  intros t Ht. apply report_age_reports. by rewrite Hu.
Qed.
Lemma check_group_reports c groups g :
  reports (∃ banks, load_banks c g = Ok banks ∧ ∀ x, x ∈ banks → monitored (snd x) → judged (oracle_verdict groups x))
    (λ k v, ∃ banks x, load_banks c g = Ok banks ∧ x ∈ banks ∧ monitored (snd x) ∧ oracle_verdict groups x k v)
    (check_marginfi_group c groups g).
Proof.
  unfold check_marginfi_group. apply reports_lift. intros banks Hb.
  assert (∀ s f, (∀ b, BankConfig.oracle_setup (Bank.config b) = s → last_update b = f b) →
    ∀ check, (∀ x, check groups x = do! t := effect_lift (f (snd x)) in report_age groups (fst x) (snd x) t) →
    reports _ _ (effect_each (check groups) (with_setup s banks))) as Hr by (intros; by eapply check_oracles_report).
  assert (∀ s x, x ∈ with_setup s banks ↔ x ∈ banks ∧ BankConfig.oracle_setup (Bank.config (snd x)) = s) as Hw.
  { intros s x. unfold with_setup. rewrite list_elem_of_filter. tauto. }
  eapply reports_iff; [| |apply reports_then; [|apply reports_then];
    [eapply (Hr SwitchboardV2 switchboard_v2_update)|eapply (Hr PythPushOracle pyth_push_update)
    |eapply (Hr SwitchboardPull switchboard_pull_update)]];
    try (by intros x); try (by intros b E; unfold last_update; rewrite E).
  - intros (H1 & H2 & H3). exists banks. split; [done|].
    intros x Hx [?|[?|?]]%monitored_iff; [apply H1|apply H2|apply H3]; by apply Hw.
  - intros k v. cbn beta. rewrite Hb. split.
    + intros [(x & [? ?]%Hw & ?)|[(x & [? ?]%Hw & ?)|(x & [? ?]%Hw & ?)]]; exists banks, x; rewrite monitored_iff; tauto.
    + intros (bs & x & [= <-] & Hx & [?|[?|?]]%monitored_iff & Hv);
        [left|right; left|right; right]; exists x; by rewrite Hw.
Qed.

(** What the documentation of the SDK promises: an address is printed as it is
    read, and the node answers from one state. *)
Class AlerterLaws : Prop := {
  from_str_display s a : pubkey_from_str s = Some a → pubkey_to_string a = s;
  display_from_str a : pubkey_from_str (pubkey_to_string a) = Some a;
  program_accounts_current p offset g l a d :
    get_program_accounts_with_memcmp p offset g = Some l → (a, d) ∈ l → get_account a = Some d
}.
Context {KL : AlerterLaws}.

Definition balance_key (c : BalanceAlertingConfig) : string := "balance-" +:+ balance_address c.
Definition balance_verdict (c : BalanceAlertingConfig) (k : string) (v : bool) : Prop :=
  ∃ a n, pubkey_from_str (balance_address c) = Some a ∧ get_balance a = Some n ∧
    k = balance_key c ∧ v = (n <? min_balance_lamports c).
Lemma check_balance_reports c : reports (judged (balance_verdict c)) (balance_verdict c) (check_balance c).
Proof.
  unfold check_balance. apply reports_lift. intros a Ha%ok_or_ok. apply reports_lift. intros n Hn%ok_or_ok.
  unfold send_balance_alert, clear_balance_alert. rewrite (from_str_display _ _ Ha).
  apply reports_verdict. intros k v. unfold balance_verdict. rewrite Ha. naive_solver.
Qed.

(** The banks a run looks at. *)
Definition listed (c : MarginfiAlerterConfig) (x : Pubkey * Bank.Bank) : Prop :=
  ∃ g banks, g ∈ marginfi_groups c ∧ load_banks c g = Ok banks ∧ x ∈ banks.
Lemma check_all_reports c groups :
  reports ((∀ x, listed c x → monitored (snd x) → judged (oracle_verdict groups x)) ∧
           ∀ b, b ∈ balance_alert c → judged (balance_verdict b))
    (λ k v, (∃ x, listed c x ∧ monitored (snd x) ∧ oracle_verdict groups x k v) ∨
            ∃ b, b ∈ balance_alert c ∧ balance_verdict b k v)
    (check_all c groups).
Proof.
  unfold check_all. eapply reports_iff; [| |apply reports_then; apply reports_each; intros;
    [apply check_group_reports|apply check_balance_reports]].
  - intros [Hg Hb]. split; [|done]. intros x (g & banks & Hin & Hl & Hx) Hm.
    destruct (Hg g Hin) as (banks' & E & Hj). assert (banks' = banks) as -> by congruence. by apply Hj.
  - intros k v. cbn beta. split.
    + intros [(g & Hin & banks & x & Hl & Hx & Hm & Hv)|Hb]; [left|by right]. exists x. split; [|done]. by exists g, banks.
    + intros [(x & (g & banks & Hin & Hl & Hx) & Hm & Hv)|Hb]; [left|by right]. exists g. split; [done|]. by exists banks, x.
Qed.

(** A bank is what its account says. *)
Lemma parse_banks_elem l : ∀ banks, parse_banks l = Ok banks → ∀ a b, (a, b) ∈ banks →
  ∃ d, (a, d) ∈ l ∧ bank_from_bytes (drop 8 d) = Some b.
Proof.
  induction l as [|[a0 d0] l IH]; intros banks H a b Hin; simpl in H; [injection H as <-; by apply elem_of_nil in Hin|].
  unfold skip_discriminator in H. destruct (_ <? _)%nat; [done|]. inv_ok.
  apply elem_of_cons in Hin as [[= -> ->]|Hin]; [exists d0; split; [by left|done]|].
  destruct (IH _ E1 a b Hin) as (d & Hd & Hb). exists d. split; [by right|done].
Qed.
Lemma listed_bank c a b : listed c (a, b) → ∃ d, get_account a = Some d ∧ bank_from_bytes (drop 8 d) = Some b.
Proof.
  intros (g & banks & _ & H & Hin). unfold load_banks in H.
  apply bind_ok in H as (p & _ & H). apply bind_ok in H as (k & _ & H). apply bind_ok in H as (l & Hl%ok_or_ok & H).
  destruct (parse_banks_elem _ _ H _ _ Hin) as (d & Hd & Hb). exists d. split; [|done].
  by eapply program_accounts_current.
Qed.
Lemma listed_once c a b b' : listed c (a, b) → listed c (a, b') → b = b'.
Proof. intros (d & Hd & Hb)%listed_bank (d' & Hd' & Hb')%listed_bank. congruence. Qed.

Lemma oracle_key_inj a a' : get_oracle_dedup_key a = get_oracle_dedup_key a' → a = a'.
Proof.
  intros H%(inj (String.app _)). pose proof (display_from_str a) as E. rewrite H, display_from_str in E. congruence.
Qed.
Lemma balance_key_inj c c' : balance_key c = balance_key c' → balance_address c = balance_address c'.
Proof. by intros H%(inj (String.app _)). Qed.

Lemma main_ok c events r events' : main c events = (Ok r, events') →
  ∃ groups s, group_config_map c = Ok groups ∧
    (r = 0 ∧ check_all c groups events = (Ok tt, s) ∧ events' = s ++ [AlertResolve ERROR_KEY] ∨
     r = 1 ∧ (∃ e, check_all c groups events = (Err e, s)) ∧ events' = s ++ [AlertTrigger ERROR_KEY]).
Proof.
  unfold main. intros (groups & s0 & [= Hg <-] & H)%effect_bind_ok. exists groups.
  destruct (check_all c groups events) as [[[]|e|] s]; [..|done]; exists s; split; try done;
    [left|right]; unfold clear_error_alert, send_error_alert, pd_event in H; destruct (pd_accepts _); simplify_eq; eauto.
Qed.
(** A key that nothing else of the run decides has the state its verdict says. *)
Lemma decided_after_run c groups events s k v e :
  check_all c groups events = (Ok tt, s) → (∃ j, e = AlertResolve j ∧ j ≠ k) →
  ((∃ x, listed c x ∧ monitored (snd x) ∧ oracle_verdict groups x k v) ∨ ∃ b, b ∈ balance_alert c ∧ balance_verdict b k v) →
  (∀ v', (∃ x, listed c x ∧ monitored (snd x) ∧ oracle_verdict groups x k v') ∨
         (∃ b, b ∈ balance_alert c ∧ balance_verdict b k v') → v' = v) →
  k ∈ open_incidents (s ++ [e]) ↔ v = true.
Proof.
  intros H (j & -> & Hj) Hv Hall. destruct (check_all_reports c groups _ _ H) as (ds & -> & _ & Hd).
  rewrite !open_incidents_app. cbn [incidents foldl after]. rewrite elem_of_difference, not_elem_of_singleton.
  rewrite (incidents_decided ds k v (open_incidents events) (proj2 (Hd k v) Hv) (λ v' H', Hall v' (proj1 (Hd k v') H'))).
  naive_solver.
Qed.

(** C37: A run of the alerter that ends
    without an error leaves exactly the right incidents open.  For every bank of
    the configured groups whose oracle it monitors, the incident of the bank is
    open if and only if the oracle was last updated longer ago than the group
    allows; for every account watched, its incident is open if and only if the
    account has fewer lamports than the minimum; the incident of the alerter
    itself is closed; any other incident is as it was.  A run that ends with the
    error code leaves the alerter's own incident open. *)
Theorem alerter_opens_what_is_wrong c events r events' :
  NoDup (balance_address <$> balance_alert c) → main c events = (Ok r, events') →
  (r = 1 ∧ ERROR_KEY ∈ open_incidents events') ∨
  (r = 0 ∧ ∃ groups, group_config_map c = Ok groups ∧
   (∀ a b, listed c (a, b) → monitored b → ∃ g t, groups !! Bank.group b = Some g ∧ last_update b = Ok t ∧
      (get_oracle_dedup_key a ∈ open_incidents events' ↔ max_age_secs g < now - t)) ∧
   (∀ w, w ∈ balance_alert c → ∃ a n, pubkey_from_str (balance_address w) = Some a ∧ get_balance a = Some n ∧
      (balance_key w ∈ open_incidents events' ↔ n < min_balance_lamports w)) ∧
   ERROR_KEY ∉ open_incidents events' ∧
   ∀ k, k ≠ ERROR_KEY → (∀ a b, listed c (a, b) → monitored b → k ≠ get_oracle_dedup_key a) →
     (∀ w, w ∈ balance_alert c → k ≠ balance_key w) → k ∈ open_incidents events' ↔ k ∈ open_incidents events).
Proof.
  intros Hnd (groups & s & Hg & [(-> & H & ->)|(-> & _ & ->)])%main_ok; [right|left]; (split; [done|]).
  2: { rewrite open_incidents_app. simpl. set_solver. }
  exists groups. split; [done|]. destruct (check_all_reports c groups _ _ H) as (ds & Hs & [Hj Hb] & Hd). split_and!.
  - intros a b Hl Hm. destruct (Hj (a, b) Hl Hm) as (k & v & Hv). pose proof Hv as (g & t & Hgr & Ht & -> & ->).
    exists g, t. split_and!; [done..|]. rewrite <- Z.ltb_lt. eapply decided_after_run; [done|by eexists|left; by exists (a, b)|].
    intros v' [([a' b'] & Hl' & _ & (g' & t' & Hgr' & Ht' & Hk & ->))|(w & _ & (? & ? & _ & _ & Hk & _))]; [|done].
    apply oracle_key_inj in Hk. simpl in *. subst a'. rewrite (listed_once c a b' b Hl' Hl) in *. congruence.
  - intros w Hw. destruct (Hb w Hw) as (k & v & Hv). pose proof Hv as (a & n & Ha & Hn & -> & ->).
    exists a, n. split_and!; [done..|]. rewrite <- Z.ltb_lt. eapply decided_after_run; [done|by eexists|right; by exists w|].
    intros v' [([a' b'] & _ & _ & (g' & t' & _ & _ & Hk & _))|(w' & Hw' & (a' & n' & Ha' & Hn' & Hk & ->))]; [done|].
    apply balance_key_inj in Hk. assert (w' = w) as ->; [|congruence].
    apply list_elem_of_lookup in Hw as [i Hi], Hw' as [i' Hi'].
    assert (i' = i) as ->; [|congruence]. eapply NoDup_lookup; [exact Hnd| |]; rewrite list_lookup_fmap.
    + by rewrite Hi'.
    + rewrite Hi. simpl. by rewrite Hk.
  - rewrite open_incidents_app. simpl. set_solver.
  - intros k Hk Ho Hw. rewrite Hs, !open_incidents_app. cbn [incidents foldl after].
    rewrite elem_of_difference, not_elem_of_singleton, incidents_untouched; [naive_solver|].
    intros v [([a b] & Hl & Hm & (? & ? & _ & _ & -> & _))|(w & Hw' & (? & ? & _ & _ & -> & _))]%Hd.
    + by apply (Ho a b).
    + by apply (Hw w).
Qed.
End Reports.

(** ** Concrete values *)
(** Addresses in unary, after a sign. *)
Fixpoint demo_ones (n : nat) : string := match n with 0%nat => "" | S n => "1" +:+ demo_ones n end.
Definition demo_to_string (a : Pubkey) : string := (if a <? 0 then "n" else "p") +:+ demo_ones (Z.to_nat (Z.abs a)).
Definition demo_decode (s : string) : Pubkey :=
  match s with
  | String c r => if decide (String c "" = "n") then - Z.of_nat (String.length r) else Z.of_nat (String.length r)
  | EmptyString => 0
  end.
Definition demo_from_str (s : string) : option Pubkey :=
  if decide (demo_to_string (demo_decode s) = s) then Some (demo_decode s) else None.
Lemma demo_decode_to_string a : demo_decode (demo_to_string a) = a.
Proof.
  assert (∀ n, String.length (demo_ones n) = n) as Hl by (induction n as [|n IH]; simpl; auto).
  unfold demo_to_string. destruct (Z.ltb_spec a 0).
  - change (- Z.of_nat (String.length (demo_ones (Z.to_nat (Z.abs a)))) = a). rewrite Hl. lia.
  - change (Z.of_nat (String.length (demo_ones (Z.to_nat (Z.abs a)))) = a). rewrite Hl. lia.
Qed.

(** A bank at 70 of the group 1, with the oracle 900, updated at 900. *)
Definition demo_pull_bank : Bank.Bank :=
  Bank.with_config (BankConfig.with_oracle_keys [900] (BankConfig.with_oracle_setup SwitchboardPull Bank.demo_config)) Bank.demo_bank.
Definition demo_data (x : Z) : list Z := replicate 8 0 ++ [x].
Definition demo_alerter (oracle : option (list Z)) : AlerterSdk := {|
  alerter_push_oracles := {| find_oracle_address shard feed_id := shard + feed_id |};
  pubkey_from_str := demo_from_str;
  pubkey_to_string := demo_to_string;
  get_program_accounts_with_memcmp p offset g := Some (if g =? 1 then [(70, demo_data 1)] else []);
  get_account a := if a =? 70 then Some (demo_data 1) else if a =? 900 then oracle else None;
  get_multiple_accounts l := Some ((λ _, None) <$> l);
  get_balance a := Some (10 ^ 9);
  bank_from_bytes d := match d with [1] => Some demo_pull_bank | _ => None end;
  round_open_timestamp d := None;
  pull_feed_from_bytes d := match d with [t] => Some (mkPullFeed (mkCurrentResult 0 0) t 0) | _ => None end;
  price_publish_time d := None;
  current_unix_timestamp_secs := 1000;
  pd_accepts e := true
|}.
Lemma demo_alerter_laws oracle : AlerterLaws (K := demo_alerter oracle).
Proof.
  split; simpl.
  - intros s a. unfold demo_from_str. destruct (decide _); [|done]. by intros [= <-].
  - intros a. unfold demo_from_str. rewrite !demo_decode_to_string. by rewrite decide_True.
  - intros p offset g l a d [= <-] Hin. destruct (g =? 1); [|by apply elem_of_nil in Hin].
    apply list_elem_of_singleton in Hin. by simplify_eq.
Qed.
(** An oracle is stale after a minute; the accounts 5 and 4 need 2 SOL and half
    of one. *)
Definition demo_alerts : MarginfiAlerterConfig :=
  mkAlerterConfig "p1" [mkGroupConfig "p1" 60]
    [mkBalanceConfig "p11111" (f64_of 2); mkBalanceConfig "p1111" (f64_div (f64_of 1) (f64_of 2))].
Definition demo_before : list Event := [AlertTrigger "balance-p1111"; AlertTrigger "disk-full"].
Definition demo_after (oracle : option (list Z)) : list Event := snd (main (K := demo_alerter oracle) demo_alerts demo_before).

(** The oracle is 100 seconds old: the incident of the bank is open. *)
Lemma alerter_opens_what_is_wrong_witness :
  let K := demo_alerter (Some (demo_data 900)) in
  main (K := K) demo_alerts demo_before = (Ok 0, demo_after (Some (demo_data 900))) ∧
  get_oracle_dedup_key (K := K) 70 ∈ open_incidents (demo_after (Some (demo_data 900))).
Proof.
  intros K. assert (main (K := K) demo_alerts demo_before = (Ok 0, demo_after (Some (demo_data 900)))) as Hm
    by (vm_compute; reflexivity).
  split; [exact Hm|].
  assert (NoDup (balance_address <$> balance_alert demo_alerts)) as Hnd by (apply (bool_decide_unpack _); vm_compute; exact I).
  assert (listed (K := K) demo_alerts (70, demo_pull_bank)) as Hl.
  { exists (mkGroupConfig "p1" 60), [(70, demo_pull_bank)]. split_and!; [by left|vm_compute; reflexivity|by left]. }
  destruct (alerter_opens_what_is_wrong (K := K) (KL := demo_alerter_laws _) demo_alerts demo_before 0 _ Hnd Hm)
    as [[Hr _]|(_ & groups & Hg & Hbanks & _)]; [discriminate Hr|].
  destruct (Hbanks 70 demo_pull_bank Hl) as (g & t & Hgr & Ht & Hiff); [vm_compute; by right; right; left|].
  apply Hiff. vm_compute in Hg. injection Hg as <-. vm_compute in Hgr, Ht. injection Hgr as <-. injection Ht as <-.
  reflexivity.
Defined.

(** An oracle that cannot be read ends the run: the accounts are not looked at,
    and the incident of the one that runs low is not opened. *)
Example one_failure_hides_the_rest :
  main (K := demo_alerter None) demo_alerts demo_before = (Ok 1, demo_before ++ [AlertTrigger ERROR_KEY]).
Proof. vm_compute. reflexivity. Qed.
(** One whose account holds less than a discriminator ends it without a word. *)
Example short_account_fails_silently :
  main (K := demo_alerter (Some [])) demo_alerts demo_before = (Panic, demo_before).
Proof. vm_compute. reflexivity. Qed.
(** Two minimums for one account share an incident, and the later one decides. *)
Example second_minimum_decides :
  let c := mkAlerterConfig "p1" [] [mkBalanceConfig "p11111" (f64_of 2); mkBalanceConfig "p11111" (f64_of 1)] in
  main (K := demo_alerter None) c [] =
    (Ok 0, [AlertTrigger "balance-p11111"; AlertResolve "balance-p11111"; AlertResolve ERROR_KEY]).
Proof. vm_compute. reflexivity. Qed.
