(* ===== verification/Lip.v ===== *)
(** * The liquidity incentive program

    [programs/liquidity-incentive-program/src/]: campaigns that lock deposits
    into a marginfi bank and guarantee them a yield.  The program keeps its own
    [Campaign] and [Deposit] accounts and calls marginfi's handlers, which run
    on the same [World] here.  [create_campaign], [create_deposit] and
    [end_deposit] are the three [process] functions, each preceded by the
    constraints of its accounts structure.

    The theorems: the reward vault of a campaign always covers what the open
    deposits and the remaining capacity can earn, the deposits never exceed the campaign's
    limit, what a deposit is paid, that a matured deposit can be paid, and that
    every instruction of this program is a run of marginfi instructions. *)
From S2P Require Import Prelude Errors Fixed Constants Utils GroupState InterestRate BankState Price Account BankAccount Risk World UserIx LiquidateIx BankruptcyIx GroupIx Frames System.

(** ** State *)
Record Campaign := mkCampaign {
  c_admin : Pubkey;
  lockup_period : Z;        (* u64 *)
  c_active : bool;
  max_deposits : Z;         (* u64 *)
  remaining_capacity : Z;   (* u64 *)
  max_rewards : Z;          (* u64 *)
  marginfi_bank_pk : Pubkey
}.
Definition with_remaining_capacity (v : Z) (c : Campaign) : Campaign :=
  mkCampaign (c_admin c) (lockup_period c) (c_active c) (max_deposits c) v (max_rewards c)
    (marginfi_bank_pk c).

Record Deposit := mkDeposit {
  dp_owner : Pubkey;
  dp_amount : Z;       (* u64 *)
  dp_start_time : Z;   (* i64 *)
  dp_campaign : Pubkey
}.

(** The seeds of constants.rs. *)
Inductive LipSeed : Set :=
| CAMPAIGN_SEED | CAMPAIGN_AUTH_SEED | DEPOSIT_MFI_AUTH_SIGNER_SEED | TEMP_TOKEN_ACCOUNT_AUTH_SEED
| MARGINFI_ACCOUNT_SEED.

(** The runtime as this program sees it: its own derived addresses,
    [find_program_address([SEED, key], id)], and the token program's
    [close_account(account, destination, authority)]. *)
Class LipRuntime := {
  lip_address : LipSeed → Pubkey → Pubkey;
  close_token : Pubkey → Pubkey → Pubkey → Pubkey → gmap Z TokenAccount →
                MarginfiResult (gmap Z TokenAccount)
}.

(** The accounts of the instructions; the [system_program], [rent] and
    [marginfi_program] fields are fixed addresses. *)
Record CreateCampaign := {
  cc_campaign : Pubkey; cc_campaign_reward_vault : Pubkey; cc_campaign_reward_vault_authority : Pubkey;
  cc_asset_mint : Pubkey; cc_marginfi_bank : Pubkey; cc_admin : Pubkey; cc_funding_account : Pubkey;
  cc_token_program : Pubkey
}.
Record CreateDeposit := {
  cd_campaign : Pubkey; cd_signer : Pubkey; cd_deposit : Pubkey; cd_mfi_pda_signer : Pubkey;
  cd_funding_account : Pubkey; cd_temp_token_account : Pubkey; cd_asset_mint : Pubkey;
  cd_marginfi_group : Pubkey; cd_marginfi_bank : Pubkey; cd_marginfi_account : Pubkey;
  cd_marginfi_bank_vault : Pubkey; cd_token_program : Pubkey; cd_remaining : list AccountInfo
}.
Record EndDeposit := {
  ed_campaign : Pubkey; ed_campaign_reward_vault : Pubkey; ed_campaign_reward_vault_authority : Pubkey;
  ed_signer : Pubkey; ed_deposit : Pubkey; ed_mfi_pda_signer : Pubkey; ed_temp_token_account : Pubkey;
  ed_temp_token_account_authority : Pubkey; ed_destination_account : Pubkey; ed_asset_mint : Pubkey;
  ed_marginfi_account : Pubkey; ed_marginfi_group : Pubkey; ed_marginfi_bank : Pubkey;
  ed_marginfi_bank_vault : Pubkey; ed_marginfi_bank_vault_authority : Pubkey; ed_token_program : Pubkey;
  ed_remaining : list AccountInfo
}.

Section Lip.
Context {F : FixedOps} {T : TokenSdk} {O : OracleSdk} {R : Runtime} {LR : LipRuntime}.

(** The accounts of both programs. *)
Record LipWorld := mkLipWorld {
  lw_world : World;
  campaigns : gmap Z Campaign;
  deposits_of : gmap Z Deposit
}.

(** ** Constraints and token calls *)
Definition check_lip_pda (seed : LipSeed) (key k : Pubkey) : MarginfiResult unit :=
  check (lip_address seed key =? k) ConstraintSeeds.
(** [init, token::mint = .., token::authority = ..] *)
Definition init_token_account (k mint authority : Pubkey) (w : World) : MarginfiResult World :=
  let? _ := check_new (tokens w) k in
  Ok (set_tokens (<[k := mkTokenAccount mint authority 0]> (tokens w)) w).
(** [asset_mint]: [address = marginfi_bank.load()?.mint]. *)
Definition load_asset_mint (w : World) (bank asset_mint : Pubkey) : MarginfiResult Mint :=
  let? mint := ok_or (mints w !! asset_mint) AccountNotInitialized in
  let? k := load_bank w bank in
  let? _ := check (asset_mint =? Bank.mint k) ConstraintAddress in
  Ok mint.
(** [onchain::invoke_transfer_checked] *)
Definition invoke_transfer_checked (program from mint to authority : Pubkey) (amount : Z) (w : World)
    : MarginfiResult World :=
  let? ts := spl_transfer (mkTransfer amount from to authority (Some mint) program) (tokens w) in
  Ok (set_tokens ts w).
(** [token_2022::close_account] *)
Definition close_token_account (k destination authority program : Pubkey) (w : World)
    : MarginfiResult World :=
  let? ts := close_token k destination authority program (tokens w) in
  Ok (set_tokens ts w).

(** ** create_campaign *)
Definition create_campaign (lw : LipWorld) (c : CreateCampaign)
    (lockup_period max_deposits max_rewards : Z) : MarginfiResult LipWorld :=
  let w := lw_world lw in
  let? _ := check_new (campaigns lw) (cc_campaign c) in
  let? _ := check_lip_pda CAMPAIGN_SEED (cc_campaign c) (cc_campaign_reward_vault c) in
  let? _ := check_token_program (cc_token_program c) in
  let? w := init_token_account (cc_campaign_reward_vault c) (cc_asset_mint c)
              (cc_campaign_reward_vault_authority c) w in
  let? _ := check_lip_pda CAMPAIGN_AUTH_SEED (cc_campaign c) (cc_campaign_reward_vault_authority c) in
  let? _ := load_asset_mint w (cc_marginfi_bank c) (cc_asset_mint c) in
  let? _ := check (0 <? max_deposits) RequireGtViolated in
  let? w := invoke_transfer_checked (cc_token_program c) (cc_funding_account c) (cc_asset_mint c)
              (cc_campaign_reward_vault c) (cc_admin c) max_rewards w in
  let? vault := load_token w (cc_campaign_reward_vault c) in
  let campaign := mkCampaign (cc_admin c) lockup_period true max_deposits max_deposits
                    (ta_amount vault) (cc_marginfi_bank c) in
  Ok (mkLipWorld w (<[cc_campaign c := campaign]> (campaigns lw)) (deposits_of lw)).

(** ** create_deposit *)
(** The accounts of the called [lending_account_deposit]. *)
Definition deposit_cpi (c : CreateDeposit) : LendingAccountDeposit := {|
  d_marginfi_group := cd_marginfi_group c; d_marginfi_account := cd_marginfi_account c;
  d_signer := cd_mfi_pda_signer c; d_bank := cd_marginfi_bank c;
  d_signer_token_account := cd_temp_token_account c;
  d_bank_liquidity_vault := cd_marginfi_bank_vault c;
  d_token_program := cd_token_program c; d_remaining := cd_remaining c |}.

Definition create_deposit_constraints (lw : LipWorld) (c : CreateDeposit)
    : MarginfiResult (World * Campaign * Mint) :=
  let w := lw_world lw in
  let? campaign := ok_or (campaigns lw !! cd_campaign c) AccountNotInitialized in
  let? _ := check_new (deposits_of lw) (cd_deposit c) in
  let? _ := check_lip_pda DEPOSIT_MFI_AUTH_SIGNER_SEED (cd_deposit c) (cd_mfi_pda_signer c) in
  let? _ := check_token_program (cd_token_program c) in
  let? w := init_token_account (cd_temp_token_account c) (cd_asset_mint c) (cd_mfi_pda_signer c) w in
  let? mint := load_asset_mint w (cd_marginfi_bank c) (cd_asset_mint c) in
  let? _ := check (cd_marginfi_bank c =? marginfi_bank_pk campaign) ConstraintAddress in
  let? _ := check_lip_pda MARGINFI_ACCOUNT_SEED (cd_deposit c) (cd_marginfi_account c) in
  Ok (w, campaign, mint).

Definition create_deposit (lw : LipWorld) (clock : Clock) (c : CreateDeposit) (amount : Z)
    : MarginfiResult LipWorld :=
  let? '(w, campaign, mint) := create_deposit_constraints lw c in
  let? _ := check (c_active campaign) CampaignNotActive in
  let? _ := check (amount <=? remaining_capacity campaign) DepositAmountTooLarge in
  let? _ := check (0 <? amount) RequireGtViolated in
  let? w := invoke_transfer_checked (cd_token_program c) (cd_funding_account c) (cd_asset_mint c)
              (cd_temp_token_account c) (cd_signer c) amount w in
  let? w := initialize_account w (cd_marginfi_group c) (cd_marginfi_account c) (cd_mfi_pda_signer c) in
  let? _ := check (negb (nonzero_fee mint (epoch clock))) EInvalidAccountData in
  let? w := lending_account_deposit w clock (deposit_cpi c) amount in
  let? w := close_token_account (cd_temp_token_account c) (cd_signer c) (cd_mfi_pda_signer c)
              (cd_token_program c) w in
  let deposit := mkDeposit (cd_signer c) amount (unix_timestamp clock) (cd_campaign c) in
  let? remaining := unwrap (u64_checked_sub (remaining_capacity campaign) amount) in
  Ok (mkLipWorld w (<[cd_campaign c := with_remaining_capacity remaining campaign]> (campaigns lw))
        (<[cd_deposit c := deposit]> (deposits_of lw))).

(** ** end_deposit *)
Definition withdraw_cpi (c : EndDeposit) : LendingAccountWithdraw := {|
  wd_marginfi_group := ed_marginfi_group c; wd_marginfi_account := ed_marginfi_account c;
  wd_signer := ed_mfi_pda_signer c; wd_bank := ed_marginfi_bank c;
  wd_destination_token_account := ed_temp_token_account c;
  wd_bank_liquidity_vault_authority := ed_marginfi_bank_vault_authority c;
  wd_bank_liquidity_vault := ed_marginfi_bank_vault c;
  wd_token_program := ed_token_program c; wd_remaining := ed_remaining c |}.

Definition end_deposit_constraints (lw : LipWorld) (c : EndDeposit)
    : MarginfiResult (World * Campaign * Deposit) :=
  let w := lw_world lw in
  let? campaign := ok_or (campaigns lw !! ed_campaign c) AccountNotInitialized in
  let? deposit := ok_or (deposits_of lw !! ed_deposit c) AccountNotInitialized in
  let? _ := check (ed_campaign c =? dp_campaign deposit) ConstraintAddress in
  let? _ := load_token w (ed_campaign_reward_vault c) in
  let? _ := check_lip_pda CAMPAIGN_SEED (ed_campaign c) (ed_campaign_reward_vault c) in
  let? _ := check_lip_pda CAMPAIGN_AUTH_SEED (ed_campaign c) (ed_campaign_reward_vault_authority c) in
  let? _ := check (ed_signer c =? dp_owner deposit) ConstraintAddress in
  let? _ := check_lip_pda DEPOSIT_MFI_AUTH_SIGNER_SEED (ed_deposit c) (ed_mfi_pda_signer c) in
  let? _ := check_token_program (ed_token_program c) in
  let? w := init_token_account (ed_temp_token_account c) (ed_asset_mint c)
              (ed_temp_token_account_authority c) w in
  let? _ := check_lip_pda TEMP_TOKEN_ACCOUNT_AUTH_SEED (ed_deposit c)
              (ed_temp_token_account_authority c) in
  let? _ := load_asset_mint w (ed_marginfi_bank c) (ed_asset_mint c) in
  let? _ := check_lip_pda MARGINFI_ACCOUNT_SEED (ed_deposit c) (ed_marginfi_account c) in
  let? _ := check (ed_marginfi_bank c =? marginfi_bank_pk campaign) ConstraintAddress in
  Ok (w, campaign, deposit).

(** [require_gte!(now, start_time + lockup_period as i64, DepositNotMature)] *)
Definition check_matured (now : Z) (campaign : Campaign) (deposit : Deposit) : MarginfiResult unit :=
  let? maturity := i64_checked (dp_start_time deposit + u64_as_i64 (lockup_period campaign)) in
  check (maturity <=? now) DepositNotMature.

(** The reward a deposit is guaranteed, and the part of it its own yield does
    not cover. *)
Definition max_reward_for_deposit (campaign : Campaign) (deposit : Deposit) : MarginfiResult Z :=
  let max_rewards_pre_campaign := from_num (max_rewards campaign) in
  let max_deposits_pre_campaign := from_num (max_deposits campaign) in
  let deposit_amount := from_num (dp_amount deposit) in
  let? share := unwrap (checked_div deposit_amount max_deposits_pre_campaign) in
  let? reward := unwrap (checked_mul share max_rewards_pre_campaign) in
  unwrap (checked_to_u64 reward).
Definition additional_reward (campaign : Campaign) (deposit : Deposit) (end_deposit : Z)
    : MarginfiResult Z :=
  let base_yield := u64_saturating_sub end_deposit (dp_amount deposit) in
  let? max_reward := max_reward_for_deposit campaign deposit in
  Ok (u64_saturating_sub max_reward base_yield).

(** The transfer of the additional reward, when there is one. *)
Definition pay_reward (c : EndDeposit) (amount : Z) (w : World) : MarginfiResult World :=
  if 0 <? amount then
    invoke_transfer_checked (ed_token_program c) (ed_campaign_reward_vault c) (ed_asset_mint c)
      (ed_temp_token_account c) (ed_campaign_reward_vault_authority c) amount w
  else Ok w.

(** Everything in the temporary account goes to the user, and the account is
    closed. *)
Definition pay_out (c : EndDeposit) (w : World) : MarginfiResult World :=
  let? temp := load_token w (ed_temp_token_account c) in
  let? w := invoke_transfer_checked (ed_token_program c) (ed_temp_token_account c) (ed_asset_mint c)
              (ed_destination_account c) (ed_temp_token_account_authority c) (ta_amount temp) w in
  close_token_account (ed_temp_token_account c) (ed_signer c) (ed_temp_token_account_authority c)
    (ed_token_program c) w.

Definition end_deposit (lw : LipWorld) (clock : Clock) (c : EndDeposit) : MarginfiResult LipWorld :=
  let? '(w, campaign, deposit) := end_deposit_constraints lw c in
  let? _ := check_matured (unix_timestamp clock) campaign deposit in
  let? w := lending_account_withdraw w clock (withdraw_cpi c) 0 (Some true) in
  let? temp := load_token w (ed_temp_token_account c) in
  let? additional_reward_amount := additional_reward campaign deposit (ta_amount temp) in
  let? w := pay_reward c additional_reward_amount w in
  let? w := pay_out c w in
  Ok (mkLipWorld w (campaigns lw) (delete (ed_deposit c) (deposits_of lw))).

(** ** The program *)
Inductive LipIx : Set :=
| IxCreateCampaign (c : CreateCampaign) (lockup_period max_deposits max_rewards : Z)
| IxCreateDeposit (c : CreateDeposit) (amount : Z)
| IxEndDeposit (c : EndDeposit).

Definition liquidity_incentive_program (lw : LipWorld) (clock : Clock) (ix : LipIx)
    : MarginfiResult LipWorld :=
  match ix with
  | IxCreateCampaign c lockup_period max_deposits max_rewards =>
      create_campaign lw c lockup_period max_deposits max_rewards
  | IxCreateDeposit c amount => create_deposit lw clock c amount
  | IxEndDeposit c => end_deposit lw clock c
  end.
End Lip.
Arguments LipWorld {T}.

(** What this file assumes of derived addresses (no collisions, across seeds,
    keys and programs) and of closing a token account. *)
Class LipLaws (R : Runtime) (LR : LipRuntime) : Prop := {
  lip_address_inj s k s' k' : lip_address s k = lip_address s' k' → s = s' ∧ k = k';
  lip_address_foreign s k s' keys bump : create_program_address s' keys bump ≠ Some (lip_address s k);
  close_token_spec k d a p ts ts' :
    close_token k d a p ts = Ok ts' → is_Some (ts !! k) ∧ ts' = delete k ts
}.

(** ** Token accounts *)
(** Every token amount is a [u64]. *)
Definition amounts_ok (ts : gmap Z TokenAccount) : Prop := ∀ k a, ts !! k = Some a → is_u64 (ta_amount a).
(** The account [k] has lost nothing. *)
Definition not_debited (k : Pubkey) (ts ts' : gmap Z TokenAccount) : Prop :=
  token_amount ts k ≤ token_amount ts' k.
#[global] Instance not_debited_preorder k : PreOrder (not_debited k).
Proof. split; [intros ts; apply Z.le_refl|intros t1 t2 t3; apply Z.le_trans]. Qed.

Section TokenFacts.
Context {F : FixedOps} {T : TokenSdk} {TL : TokenLaws T} {O : OracleSdk} {R : Runtime} {LR : LipRuntime}.
Context {LL : LipLaws R LR}.

Lemma transfer_not_debited t ts ts' k :
  spl_transfer t ts = Ok ts' → k ≠ tr_from t → not_debited k ts ts'.
Proof.
  intros (_ & _ & _ & Hne & Ho)%spl_transfer_spec Hf. unfold not_debited.
  destruct (decide (k = tr_to t)) as [->|Hk].
  - destruct Hne as (_ & fee & Hfee & _ & ->); [done|]. lia.
  - unfold token_amount. by rewrite Ho.
Qed.

Lemma transfer_amounts t ts ts' : spl_transfer t ts = Ok ts' → amounts_ok ts → amounts_ok ts'.
Proof. intros H Hu k a. exact (spl_transfer_u64 _ _ _ H Hu k a). Qed.

(** The transfers of this program. *)
Lemma invoke_transfer_ok program from mint to auth n w w' :
  invoke_transfer_checked program from mint to auth n w = Ok w' →
  ∃ ts, spl_transfer (mkTransfer n from to auth (Some mint) program) (tokens w) = Ok ts ∧
    w' = set_tokens ts w ∧ (amounts_ok (tokens w) → amounts_ok ts) ∧
    ∀ k, k ≠ from → not_debited k (tokens w) ts.
Proof.
  unfold invoke_transfer_checked. intros H. apply bind_ok in H as (ts & Hts & H). injection H as <-.
  exists ts. split_and!; [done..|by apply (transfer_amounts _ _ _ Hts)|].
  intros k Hk. by eapply transfer_not_debited.
Qed.
Lemma close_token_ok k d a p w w' :
  close_token_account k d a p w = Ok w' →
  is_Some (tokens w !! k) ∧ w' = set_tokens (delete k (tokens w)) w.
Proof.
  unfold close_token_account. intros H. apply bind_ok in H as (ts & Hts & H). injection H as <-.
  by apply close_token_spec in Hts as [? ->].
Qed.
Lemma init_temp_ok k mint auth w w' :
  init_token_account k mint auth w = Ok w' →
  tokens w !! k = None ∧ w' = set_tokens (<[k := mkTokenAccount mint auth 0]> (tokens w)) w.
Proof.
  unfold init_token_account. intros H. apply bind_ok in H as (u & Hn & H). injection H as <-.
  by apply check_new_ok in Hn.
Qed.
Lemma init_amounts k mint auth ts :
  amounts_ok ts → amounts_ok (<[k := mkTokenAccount mint auth 0]> ts).
Proof. intros H j a [[_ <-]|[_ Ha]]%lookup_insert_Some; [done|by eapply H]. Qed.
Lemma delete_amounts k ts : amounts_ok ts → amounts_ok (delete k ts).
Proof. intros H j a [_ Ha]%lookup_delete_Some. by eapply H. Qed.
Lemma init_not_debited j k mint auth ts :
  ts !! k = None → not_debited j ts (<[k := mkTokenAccount mint auth 0]> ts).
Proof.
  intros Hn. unfold not_debited, token_amount. destruct (decide (j = k)) as [->|].
  - by rewrite Hn, lookup_insert_eq.
  - by rewrite lookup_insert_ne.
Qed.
Lemma delete_not_debited j k ts : j ≠ k → not_debited j ts (delete k ts).
Proof. intros Hn. unfold not_debited, token_amount. by rewrite lookup_delete_ne. Qed.

(** The calls of marginfi. *)
Lemma deposit_cpi_tokens w clock c n w' :
  lending_account_deposit w clock c n = Ok w' →
  (amounts_ok (tokens w) → amounts_ok (tokens w')) ∧
  ∀ k, k ≠ d_signer_token_account c → not_debited k (tokens w) (tokens w').
Proof.
  intros (m & k0 & mint & w1 & w2 & pre & _ & Ha & Hp & _ & Ht)%deposit_ok.
  apply transfer_in_ok in Ht as (? & ts & _ & _ & Hts & ->).
  apply with_position_frame in Hp as (? & ? & ? & _ & ->). apply accrue_tokens in Ha.
  simpl in *. rewrite <- Ha. split; [by apply (transfer_amounts _ _ _ Hts)|].
  intros k Hk. by eapply transfer_not_debited.
Qed.
Lemma withdraw_cpi_tokens w clock c n all w' :
  lending_account_withdraw w clock c n all = Ok w' →
  (amounts_ok (tokens w) → amounts_ok (tokens w')) ∧
  ∀ s k, not_debited (lip_address s k) (tokens w) (tokens w').
Proof.
  intros H. assert (∃ bump, create_program_address LIQUIDITY_VAULT_SEED [wd_bank c] bump
                            = Some (wd_bank_liquidity_vault c)) as [bump Hpda].
  { unfold lending_account_withdraw in H. apply bind_ok in H as (x & H & _).
    unfold withdraw_constraints, check_pda in H. inv_res.
    repeat match goal with H : bool_decide _ = true |- _ => apply bool_decide_eq_true in H end. eauto. }
  apply withdraw_ok in H as (m & k0 & mint & rest & w1 & w2 & n' & m' & _ & Ha & Hp & Ht & _).
  apply transfer_out_ok in Ht as (ts & Hts & ->).
  apply with_position_frame in Hp as (? & ? & ? & _ & ->). apply accrue_tokens in Ha.
  simpl in *. rewrite <- Ha. split; [by apply (transfer_amounts _ _ _ Hts)|].
  intros s k. eapply transfer_not_debited; [done|]. simpl. intros E.
  rewrite <- E in Hpda. by apply lip_address_foreign in Hpda.
Qed.
End TokenFacts.

(** ** What a successful instruction has done *)
Section Inversion.
Context {F : FixedOps} {T : TokenSdk} {TL : TokenLaws T} {O : OracleSdk} {R : Runtime} {LR : LipRuntime}.
Context {LL : LipLaws R LR}.

Lemma check_lip_pda_ok s key k u : check_lip_pda s key k = Ok u → lip_address s key = k.
Proof. unfold check_lip_pda. intros H%check_ok. by bool_prop. Qed.

Lemma create_campaign_ok lw c lockup md mr lw' :
  create_campaign lw c lockup md mr = Ok lw' →
  ∃ w1 w2 vault,
    campaigns lw !! cc_campaign c = None ∧ 0 < md ∧
    cc_campaign_reward_vault c = lip_address CAMPAIGN_SEED (cc_campaign c) ∧
    init_token_account (cc_campaign_reward_vault c) (cc_asset_mint c)
      (cc_campaign_reward_vault_authority c) (lw_world lw) = Ok w1 ∧
    invoke_transfer_checked (cc_token_program c) (cc_funding_account c) (cc_asset_mint c)
      (cc_campaign_reward_vault c) (cc_admin c) mr w1 = Ok w2 ∧
    tokens w2 !! cc_campaign_reward_vault c = Some vault ∧
    lw' = mkLipWorld w2 (<[cc_campaign c := mkCampaign (cc_admin c) lockup true md md (ta_amount vault)
                             (cc_marginfi_bank c)]> (campaigns lw)) (deposits_of lw).
Proof.
  unfold create_campaign. intros H. apply bind_ok in H as (u & Hn & H). apply check_new_ok in Hn.
  apply bind_ok in H as (u1 & Hv & H). apply check_lip_pda_ok in Hv. apply bind_ok in H as (u2 & _ & H).
  apply bind_ok in H as (w1 & Hw1 & H). apply bind_ok in H as (u3 & _ & H).
  apply bind_ok in H as (mint & _ & H). apply bind_ok in H as (u4 & Hmd & H). apply check_ok in Hmd. bool_prop.
  apply bind_ok in H as (w2 & Hw2 & H). apply bind_ok in H as (vault & Hvault & H).
  injection H as <-. constraints. by exists w1, w2, vault.
Qed.

Record deposit_made (lw : LipWorld) (clock : Clock) (c : CreateDeposit) (amount : Z) (lw' : LipWorld)
    (camp : Campaign) (mint : Mint) (w1 w2 w3 w4 w5 : World) : Prop := {
  dm_campaign : campaigns lw !! cd_campaign c = Some camp;
  dm_new : deposits_of lw !! cd_deposit c = None;
  dm_bank : cd_marginfi_bank c = marginfi_bank_pk camp;
  dm_signer : cd_mfi_pda_signer c = lip_address DEPOSIT_MFI_AUTH_SIGNER_SEED (cd_deposit c);
  dm_account : cd_marginfi_account c = lip_address MARGINFI_ACCOUNT_SEED (cd_deposit c);
  dm_active : c_active camp = true;
  dm_amount : 0 < amount ≤ remaining_capacity camp;
  dm_fee : nonzero_fee mint (epoch clock) = false;
  dm_temp : init_token_account (cd_temp_token_account c) (cd_asset_mint c) (cd_mfi_pda_signer c)
              (lw_world lw) = Ok w1;
  dm_funded : invoke_transfer_checked (cd_token_program c) (cd_funding_account c) (cd_asset_mint c)
                (cd_temp_token_account c) (cd_signer c) amount w1 = Ok w2;
  dm_opened : initialize_account w2 (cd_marginfi_group c) (cd_marginfi_account c) (cd_mfi_pda_signer c)
              = Ok w3;
  dm_deposited : lending_account_deposit w3 clock (deposit_cpi c) amount = Ok w4;
  dm_closed : close_token_account (cd_temp_token_account c) (cd_signer c) (cd_mfi_pda_signer c)
                (cd_token_program c) w4 = Ok w5;
  dm_result : lw' = mkLipWorld w5
    (<[cd_campaign c := with_remaining_capacity (remaining_capacity camp - amount) camp]> (campaigns lw))
    (<[cd_deposit c := mkDeposit (cd_signer c) amount (unix_timestamp clock) (cd_campaign c)]>
       (deposits_of lw))
}.

Lemma create_deposit_ok lw clock c amount lw' :
  create_deposit lw clock c amount = Ok lw' →
  ∃ camp mint w1 w2 w3 w4 w5, deposit_made lw clock c amount lw' camp mint w1 w2 w3 w4 w5.
Proof.
  unfold create_deposit, create_deposit_constraints. intros H.
  apply bind_ok in H as ([[w1 camp] mint] & Hc & H).
  apply bind_ok in Hc as (camp' & Hcamp & Hc). apply ok_or_ok in Hcamp.
  apply bind_ok in Hc as (u & Hn & Hc). apply check_new_ok in Hn.
  apply bind_ok in Hc as (u1 & Hs & Hc). apply check_lip_pda_ok in Hs. apply bind_ok in Hc as (u2 & _ & Hc).
  apply bind_ok in Hc as (w1' & Hw1 & Hc). apply bind_ok in Hc as (mint' & _ & Hc).
  apply bind_ok in Hc as (u3 & Hb & Hc). apply check_ok in Hb.
  apply bind_ok in Hc as (u4 & Ha & Hc). apply check_lip_pda_ok in Ha. injection Hc as -> -> ->.
  apply bind_ok in H as (u5 & Hact & H). apply check_ok in Hact.
  apply bind_ok in H as (u6 & Hcap & H). apply check_ok in Hcap.
  apply bind_ok in H as (u7 & Hpos & H). apply check_ok in Hpos.
  apply bind_ok in H as (w2 & Hw2 & H). apply bind_ok in H as (w3 & Hw3 & H).
  apply bind_ok in H as (u8 & Hfee & H). apply check_ok in Hfee.
  apply bind_ok in H as (w4 & Hw4 & H). apply bind_ok in H as (w5 & Hw5 & H).
  apply bind_ok in H as (r & Hr & H). apply unwrap_ok, u64_checked_some in Hr as [-> _]. injection H as <-.
  bool_prop. exists camp, mint, w1, w2, w3, w4, w5. by split.
Qed.

Record deposit_ended (lw : LipWorld) (clock : Clock) (c : EndDeposit) (lw' : LipWorld) (camp : Campaign)
    (dep : Deposit) (w1 w2 w3 w4 : World) (temp : TokenAccount) (extra : Z) : Prop := {
  de_campaign : campaigns lw !! ed_campaign c = Some camp;
  de_deposit : deposits_of lw !! ed_deposit c = Some dep;
  de_of : dp_campaign dep = ed_campaign c;
  de_owner : ed_signer c = dp_owner dep;
  de_vault : ed_campaign_reward_vault c = lip_address CAMPAIGN_SEED (ed_campaign c);
  de_authority : ed_campaign_reward_vault_authority c = lip_address CAMPAIGN_AUTH_SEED (ed_campaign c);
  de_has_vault : is_Some (tokens (lw_world lw) !! ed_campaign_reward_vault c);
  de_account : ed_marginfi_account c = lip_address MARGINFI_ACCOUNT_SEED (ed_deposit c);
  de_bank : ed_marginfi_bank c = marginfi_bank_pk camp;
  de_matured : check_matured (unix_timestamp clock) camp dep = Ok tt;
  de_temp : init_token_account (ed_temp_token_account c) (ed_asset_mint c)
              (ed_temp_token_account_authority c) (lw_world lw) = Ok w1;
  de_withdrawn : lending_account_withdraw w1 clock (withdraw_cpi c) 0 (Some true) = Ok w2;
  de_redeemed : tokens w2 !! ed_temp_token_account c = Some temp;
  de_extra : additional_reward camp dep (ta_amount temp) = Ok extra;
  de_rewarded : pay_reward c extra w2 = Ok w3;
  de_paid : pay_out c w3 = Ok w4;
  de_result : lw' = mkLipWorld w4 (campaigns lw) (delete (ed_deposit c) (deposits_of lw))
}.

Lemma end_deposit_constraints_ok lw c w1 camp dep :
  end_deposit_constraints lw c = Ok (w1, camp, dep) →
  campaigns lw !! ed_campaign c = Some camp ∧ deposits_of lw !! ed_deposit c = Some dep ∧
  dp_campaign dep = ed_campaign c ∧ ed_signer c = dp_owner dep ∧
  ed_campaign_reward_vault c = lip_address CAMPAIGN_SEED (ed_campaign c) ∧
  ed_campaign_reward_vault_authority c = lip_address CAMPAIGN_AUTH_SEED (ed_campaign c) ∧
  is_Some (tokens (lw_world lw) !! ed_campaign_reward_vault c) ∧
  ed_marginfi_account c = lip_address MARGINFI_ACCOUNT_SEED (ed_deposit c) ∧
  ed_marginfi_bank c = marginfi_bank_pk camp ∧
  init_token_account (ed_temp_token_account c) (ed_asset_mint c) (ed_temp_token_account_authority c)
    (lw_world lw) = Ok w1.
Proof.
  unfold end_deposit_constraints. intros H.
  apply bind_ok in H as (camp' & Hcamp & H). apply ok_or_ok in Hcamp.
  apply bind_ok in H as (dep' & Hdep & H). apply ok_or_ok in Hdep.
  apply bind_ok in H as (u & Hof & H). apply check_ok in Hof.
  apply bind_ok in H as (v & Hv & H). constraints.
  apply bind_ok in H as (u1 & Hvk & H). apply check_lip_pda_ok in Hvk.
  apply bind_ok in H as (u2 & Hak & H). apply check_lip_pda_ok in Hak.
  apply bind_ok in H as (u3 & How & H). apply check_ok in How.
  apply bind_ok in H as (u4 & _ & H). apply bind_ok in H as (u5 & _ & H).
  apply bind_ok in H as (w' & Hw & H). apply bind_ok in H as (u6 & _ & H).
  apply bind_ok in H as (mint & _ & H). apply bind_ok in H as (u7 & Hacc & H).
  apply check_lip_pda_ok in Hacc. apply bind_ok in H as (u8 & Hb & H). apply check_ok in Hb.
  injection H as -> -> ->. bool_prop. split_and!; by eauto.
Qed.

Lemma end_deposit_ok lw clock c lw' :
  end_deposit lw clock c = Ok lw' →
  ∃ camp dep w1 w2 w3 w4 temp extra, deposit_ended lw clock c lw' camp dep w1 w2 w3 w4 temp extra.
Proof.
  unfold end_deposit. intros H. apply bind_ok in H as ([[w1 camp] dep] & Hc & H).
  apply end_deposit_constraints_ok in Hc as (? & ? & ? & ? & ? & ? & ? & ? & ? & ?).
  apply bind_ok in H as ([] & Hmat & H). apply bind_ok in H as (w2 & Hw2 & H).
  apply bind_ok in H as (temp & Ht & H). apply bind_ok in H as (extra & He & H).
  apply bind_ok in H as (w3 & Hw3 & H). apply bind_ok in H as (w4 & Hw4 & H). injection H as <-.
  constraints. by exists camp, dep, w1, w2, w3, w4, temp, extra.
Qed.
End Inversion.

(** ** Rewards *)
(** The share of the deposit in the campaign, cut to 48 bits, of the rewards. *)
Definition reward_of (camp : Campaign) (dep : Deposit) : Z :=
  dp_amount dep * SCALE / max_deposits camp * max_rewards camp / SCALE.

Lemma reward_bounds camp dep :
  0 ≤ dp_amount dep → 0 < max_deposits camp → 0 ≤ max_rewards camp →
  0 ≤ reward_of camp dep ∧ reward_of camp dep * max_deposits camp ≤ dp_amount dep * max_rewards camp ∧
  dp_amount dep * max_rewards camp * SCALE
    < (reward_of camp dep + 1) * max_deposits camp * SCALE + max_rewards camp * max_deposits camp.
Proof.
  intros Ha Hm Hr. unfold reward_of. pose proof SCALE_pos.
  pose proof (div_bounds (dp_amount dep * SCALE) (max_deposits camp) Hm) as [Hq1 Hq2].
  set (q := dp_amount dep * SCALE / max_deposits camp) in *.
  assert (0 ≤ q) by (apply Z.div_pos; nia).
  pose proof (div_bounds (q * max_rewards camp) SCALE ltac:(done)) as [Hx1 Hx2].
  set (x := q * max_rewards camp / SCALE) in *.
  assert (0 ≤ x) by (apply Z.div_pos; nia).
  split_and!; [done| |].
  - assert (SCALE * (x * max_deposits camp) ≤ SCALE * (dp_amount dep * max_rewards camp)); [|nia].
    transitivity (q * max_rewards camp * max_deposits camp); nia.
  - apply Z.le_lt_trans with (q * max_rewards camp * max_deposits camp + max_rewards camp * max_deposits camp);
      nia.
Qed.

Section Rewards.
Context {F : FixedOps} {L : FixedLaws F}.

Lemma share_of a m : 0 < m → fdiv (from_num a) (from_num m) = a * SCALE / m.
Proof.
  intros Hm. unfold fdiv, from_num. rewrite Z.div_mul_cancel_r; [done|lia|discriminate].
Qed.
Lemma share_times q r : fmul q (from_num r) = q * r.
Proof. unfold fmul, from_num. rewrite Z.mul_assoc. apply Z.div_mul. discriminate. Qed.

(** The reward never overflows when the deposit is within the campaign. *)
Lemma max_reward_runs camp dep :
  0 ≤ dp_amount dep ≤ max_deposits camp → 0 < max_deposits camp → is_u64 (max_rewards camp) →
  max_reward_for_deposit camp dep = Ok (reward_of camp dep).
Proof.
  intros Ha Hm [Hr Hr']. pose proof SCALE_pos.
  destruct (reward_bounds camp dep) as (H0 & H1 & _); [lia..|].
  assert (0 ≤ dp_amount dep * SCALE / max_deposits camp ≤ SCALE) as Hq.
  { split; [apply Z.div_pos; nia|]. apply Z.div_le_upper_bound; nia. }
  unfold max_reward_for_deposit.
  rewrite div_ok; rewrite ?share_of by done;
    [|unfold from_num; nia|unfold from_num; nia|unfold SCALE, I80F48_MAX in *; lia].
  simpl. rewrite mul_ok; rewrite ?share_times; [|lia|unfold from_num; nia|
    unfold U64_MAX, SCALE, I80F48_MAX in *; nia].
  simpl. rewrite checked_to_u64_spec.
  change (_ / SCALE) with (reward_of camp dep). unfold u64_checked.
  rewrite (proj2 (Z.leb_le 0 _)) by done.
  rewrite (proj2 (Z.leb_le _ _)); [done|]. nia.
Qed.
Lemma max_reward_ok camp dep r :
  0 ≤ dp_amount dep → 0 ≤ max_deposits camp → 0 ≤ max_rewards camp →
  max_reward_for_deposit camp dep = Ok r → 0 < max_deposits camp ∧ r = reward_of camp dep.
Proof.
  intros Ha Hm Hr H. pose proof SCALE_pos. unfold max_reward_for_deposit in H. inv_res.
  apply div_some in E as (Hp & -> & _); [|unfold from_num; nia..].
  assert (0 < max_deposits camp) as Hm' by (unfold from_num in Hp; nia).
  rewrite share_of in E0 by done.
  apply mul_some in E0 as [-> _]; [|apply Z.div_pos; nia|unfold from_num; nia].
  rewrite share_times in H. by apply to_u64_some in H as [-> _].
Qed.
End Rewards.

(** ** The campaigns' books *)
Definition reward_vault {LR : LipRuntime} (k : Pubkey) : Pubkey := lip_address CAMPAIGN_SEED k.
Definition locked (k : Pubkey) (d : Deposit) : Z := if dp_campaign d =? k then dp_amount d else 0.
(** What the open deposits of a campaign add up to. *)
Definition open_deposits (k : Pubkey) (ds : gmap Z Deposit) : Z := map_sum (locked k) ds.

(** The vault of a campaign holds what the open deposits and the remaining
    capacity can still earn. *)
Record funded {T : TokenSdk} {LR : LipRuntime} (lw : LipWorld) (k : Pubkey) (camp : Campaign) : Prop := {
  fu_max : 0 < max_deposits camp;
  fu_rewards_u64 : is_u64 (max_rewards camp);
  fu_remaining : 0 ≤ remaining_capacity camp;
  fu_capacity : open_deposits k (deposits_of lw) + remaining_capacity camp ≤ max_deposits camp;
  fu_vault : max_rewards camp * (open_deposits k (deposits_of lw) + remaining_capacity camp)
             ≤ token_amount (tokens (lw_world lw)) (reward_vault k) * max_deposits camp
}.
Record campaign_books {T : TokenSdk} {LR : LipRuntime} (lw : LipWorld) : Prop := {
  cb_deposits d dep : deposits_of lw !! d = Some dep →
    0 < dp_amount dep ∧ is_Some (campaigns lw !! dp_campaign dep);
  cb_funded k camp : campaigns lw !! k = Some camp → funded lw k camp
}.

Section Books.
Context {F : FixedOps} {L : FixedLaws F} {T : TokenSdk} {TL : TokenLaws T} {O : OracleSdk} {R : Runtime}.
Context {LR : LipRuntime} {LL : LipLaws R LR}.

Lemma locked_eq k dep : dp_campaign dep = k → locked k dep = dp_amount dep.
Proof. intros E. unfold locked. by rewrite (proj2 (Z.eqb_eq _ _) E). Qed.
Lemma locked_ne k dep : dp_campaign dep ≠ k → locked k dep = 0.
Proof. intros E. unfold locked. by rewrite (proj2 (Z.eqb_neq _ _) E). Qed.
Lemma open_deposits_insert k d dep ds :
  ds !! d = None → open_deposits k (<[d := dep]> ds) = locked k dep + open_deposits k ds.
Proof. apply map_sum_insert_new. Qed.
Lemma open_deposits_delete k d dep ds :
  ds !! d = Some dep → open_deposits k (delete d ds) = open_deposits k ds - locked k dep.
Proof. intros H. unfold open_deposits. rewrite (map_sum_delete _ ds d dep H). lia. Qed.
Lemma locked_nonneg k lw d dep : campaign_books lw → deposits_of lw !! d = Some dep → 0 ≤ locked k dep.
Proof. intros Hb Hd. destruct (cb_deposits _ Hb _ _ Hd). unfold locked. destruct (_ =? _); lia. Qed.

Lemma open_deposits_none k ds : (∀ d dep, ds !! d = Some dep → dp_campaign dep ≠ k) → open_deposits k ds = 0.
Proof. intros H. apply map_sum_zero. intros d dep Hd. by apply locked_ne, (H d). Qed.
Lemma open_deposits_nonneg k lw : campaign_books lw → 0 ≤ open_deposits k (deposits_of lw).
Proof. intros Hb. apply map_sum_nonneg. intros d dep Hd. by eapply locked_nonneg. Qed.
Lemma open_deposits_ge lw d dep :
  campaign_books lw → deposits_of lw !! d = Some dep →
  dp_amount dep ≤ open_deposits (dp_campaign dep) (deposits_of lw).
Proof.
  intros Hb Hd. rewrite <- (locked_eq (dp_campaign dep) dep eq_refl).
  apply (map_sum_ge _ _ d); [|done]. intros d' dep' Hd'. by eapply locked_nonneg.
Qed.

(** Deposits of other campaigns do not count, and a vault may gain. *)
Lemma funded_ext lw lw' k camp :
  funded lw k camp → open_deposits k (deposits_of lw') = open_deposits k (deposits_of lw) →
  not_debited (reward_vault k) (tokens (lw_world lw)) (tokens (lw_world lw')) →
  funded lw' k camp.
Proof.
  intros [] E Hn. unfold not_debited in Hn. split; rewrite ?E; try done.
  etransitivity; [done|]. apply Z.mul_le_mono_nonneg_r; lia.
Qed.

Lemma create_campaign_books lw c lockup md mr lw' :
  campaign_books lw → (∀ k, cc_funding_account c ≠ reward_vault k) →
  amounts_ok (tokens (lw_world lw)) →
  create_campaign lw c lockup md mr = Ok lw' → campaign_books lw'.
Proof.
  intros Hb Hf Hu (w1 & w2 & vault & Hn & Hmd & Hv & Hw1 & Hw2 & Hva & ->)%create_campaign_ok.
  apply init_temp_ok in Hw1 as [Hnv ->].
  apply invoke_transfer_ok in Hw2 as (ts & _ & -> & Hts & Hnd). simpl in *.
  assert (is_u64 (ta_amount vault)) as Hvu by (by eapply (Hts (init_amounts _ _ _ _ Hu))).
  split; simpl.
  - intros d dep Hd. destruct (cb_deposits _ Hb _ _ Hd) as [? Hc]. split; [done|].
    destruct (decide (dp_campaign dep = cc_campaign c)) as [->|];
      [rewrite lookup_insert_eq; by eexists|by rewrite lookup_insert_ne].
  - intros k camp [[<- <-]|[Hk Hc]]%lookup_insert_Some.
    + assert (open_deposits (cc_campaign c) (deposits_of lw) = 0) as Ho.
      { apply open_deposits_none. intros d dep Hd E.
        destruct (cb_deposits _ Hb _ _ Hd) as [_ [camp Hc]]. congruence. }
      rewrite Hv in Hva. split; simpl; rewrite ?Ho; try done; try lia.
      unfold reward_vault, token_amount. rewrite Hva. lia.
    + eapply funded_ext; [by eapply cb_funded|done|]. simpl. etransitivity; [|by apply Hnd, not_eq_sym, Hf].
      by apply init_not_debited.
Qed.

(** An account that did not exist has lost nothing. *)
Lemma new_not_debited k ts ts' : ts !! k = None → amounts_ok ts' → not_debited k ts ts'.
Proof.
  intros Hn Hu. unfold not_debited, token_amount. rewrite Hn.
  destruct (ts' !! k) as [a|] eqn:E; [by destruct (Hu _ _ E)|lia].
Qed.

Lemma create_deposit_tokens lw clock c amount lw' camp mint w1 w2 w3 w4 w5 k :
  deposit_made lw clock c amount lw' camp mint w1 w2 w3 w4 w5 →
  (∀ k, cd_funding_account c ≠ reward_vault k) → amounts_ok (tokens w5) →
  not_debited (reward_vault k) (tokens (lw_world lw)) (tokens w5).
Proof.
  intros [_ _ _ _ _ _ _ _ Hw1 Hw2 Hw3 Hw4 Hw5 _] Hf Hu.
  destruct (tokens (lw_world lw) !! reward_vault k) as [v|] eqn:Hk; [|by apply new_not_debited].
  apply init_temp_ok in Hw1 as [Hn ->]. apply invoke_transfer_ok in Hw2 as (ts & _ & -> & _ & H2).
  apply initialize_account_ok in Hw3 as (_ & _ & ->). apply deposit_cpi_tokens in Hw4 as [_ H4].
  apply close_token_ok in Hw5 as [_ ->]. simpl in *.
  assert (reward_vault k ≠ cd_temp_token_account c) as Hne by congruence.
  etransitivity; [by apply init_not_debited|]. etransitivity; [by apply H2, not_eq_sym, Hf|].
  etransitivity; [by apply H4|]. by apply delete_not_debited.
Qed.

Lemma create_deposit_books lw clock c amount lw' :
  campaign_books lw → (∀ k, cd_funding_account c ≠ reward_vault k) → amounts_ok (tokens (lw_world lw')) →
  create_deposit lw clock c amount = Ok lw' → campaign_books lw'.
Proof.
  intros Hb Hf Hu (camp & mint & w1 & w2 & w3 & w4 & w5 & H)%create_deposit_ok.
  pose proof (dm_amount _ _ _ _ _ _ _ _ _ _ _ _ H) as [Hpos Hcap].
  pose proof (dm_campaign _ _ _ _ _ _ _ _ _ _ _ _ H) as Hc.
  pose proof (dm_new _ _ _ _ _ _ _ _ _ _ _ _ H) as Hn.
  rewrite (dm_result _ _ _ _ _ _ _ _ _ _ _ _ H) in *. simpl in *.
  assert (∀ k, not_debited (reward_vault k) (tokens (lw_world lw)) (tokens w5)) as Hnd
    by (intros k; by eapply create_deposit_tokens).
  split; simpl.
  - intros d dep [[<- <-]|[_ Hd]]%lookup_insert_Some; simpl; [split; [done|rewrite lookup_insert_eq; by eexists]|].
    destruct (cb_deposits _ Hb _ _ Hd) as [? Hk]. split; [done|].
    destruct (decide (dp_campaign dep = cd_campaign c)) as [->|];
      [rewrite lookup_insert_eq; by eexists|by rewrite lookup_insert_ne].
  - intros k camp' [[<- <-]|[Hk Hc']]%lookup_insert_Some.
    + destruct (cb_funded _ Hb _ _ Hc) as [H1 H2 H3 H4 H5].
      specialize (Hnd (cd_campaign c)). unfold not_debited in Hnd.
      split; simpl; rewrite ?open_deposits_insert, ?locked_eq by done; simpl; try done; try lia.
      etransitivity; [|apply Z.mul_le_mono_nonneg_r; [lia|exact Hnd]].
      etransitivity; [|exact H5]. apply Z.eq_le_incl. f_equal. lia.
    + eapply funded_ext; [by eapply cb_funded| |apply Hnd]. simpl.
      by rewrite open_deposits_insert, locked_ne by done.
Qed.

Lemma pay_reward_ok c extra w w' :
  ed_campaign_reward_vault c ≠ ed_temp_token_account c → 0 ≤ extra → pay_reward c extra w = Ok w' →
  ∃ ts, w' = set_tokens ts w ∧ (amounts_ok (tokens w) → amounts_ok ts) ∧
    token_amount ts (ed_campaign_reward_vault c) = token_amount (tokens w) (ed_campaign_reward_vault c) - extra ∧
    (∃ fee, 0 ≤ fee ≤ extra ∧ token_amount ts (ed_temp_token_account c)
                              = token_amount (tokens w) (ed_temp_token_account c) + extra - fee) ∧
    ∀ k, k ≠ ed_campaign_reward_vault c → not_debited k (tokens w) ts.
Proof.
  unfold pay_reward. intros Hne Hx H. destruct (0 <? extra) eqn:E; bool_prop.
  - apply invoke_transfer_ok in H as (ts & Hts & -> & Hu & Hnd). exists ts.
    apply spl_transfer_spec in Hts as (_ & _ & _ & Ham & _). simpl in Ham.
    destruct (Ham Hne) as (Hf & fee & Hfee & _ & Ht). split_and!; try done. by exists fee.
  - injection H as <-. exists (tokens w). split_and!; try done; [by destruct w|lia|exists 0; lia].
Qed.

Lemma pay_out_ok c w w' :
  pay_out c w = Ok w' →
  ∃ temp ts, tokens w !! ed_temp_token_account c = Some temp ∧
    spl_transfer (mkTransfer (ta_amount temp) (ed_temp_token_account c) (ed_destination_account c)
      (ed_temp_token_account_authority c) (Some (ed_asset_mint c)) (ed_token_program c)) (tokens w) = Ok ts ∧
    w' = set_tokens (delete (ed_temp_token_account c) ts) w ∧ (amounts_ok (tokens w) → amounts_ok ts) ∧
    ∀ k, k ≠ ed_temp_token_account c → not_debited k (tokens w) (tokens w').
Proof.
  unfold pay_out. intros H. apply bind_ok in H as (temp & Ht & H). constraints.
  apply bind_ok in H as (w1 & Hw1 & H). apply invoke_transfer_ok in Hw1 as (ts & Hts & -> & Hu & Hnd).
  apply close_token_ok in H as [_ ->]. exists temp, ts. split_and!; try done.
  intros k Hk. simpl. etransitivity; [by apply Hnd|]. by apply delete_not_debited.
Qed.

Lemma additional_reward_ok camp dep n extra :
  0 ≤ dp_amount dep → 0 ≤ max_deposits camp → 0 ≤ max_rewards camp →
  additional_reward camp dep n = Ok extra →
  0 < max_deposits camp ∧ extra = Z.max 0 (reward_of camp dep - Z.max 0 (n - dp_amount dep)).
Proof.
  intros ? ? ? H. unfold additional_reward in H. apply bind_ok in H as (r & Hr & H). injection H as <-.
  by apply max_reward_ok in Hr as [? ->].
Qed.

Lemma end_deposit_tokens lw clock c lw' camp dep w1 w2 w3 w4 temp extra :
  deposit_ended lw clock c lw' camp dep w1 w2 w3 w4 temp extra → 0 ≤ extra →
  let vault := ed_campaign_reward_vault c in
  not_debited vault (tokens (lw_world lw)) (tokens w2) ∧
  token_amount (tokens w3) vault = token_amount (tokens w2) vault - extra ∧
  token_amount (tokens w3) vault ≤ token_amount (tokens w4) vault ∧
  (amounts_ok (tokens w4) → ∀ k, k ≠ ed_campaign c →
     not_debited (reward_vault k) (tokens (lw_world lw)) (tokens w4)).
Proof.
  intros [_ _ _ _ Hv _ [v Hhas] _ _ _ Hw1 Hw2 _ _ Hw3 Hw4 _] Hx vault.
  apply init_temp_ok in Hw1 as [Hn ->].
  assert (vault ≠ ed_temp_token_account c) as Hne by (unfold vault; congruence).
  apply withdraw_cpi_tokens in Hw2 as [_ H2]. simpl in H2.
  apply pay_reward_ok in Hw3 as (ts & -> & _ & Hvt & _ & H3); [|done..].
  apply pay_out_ok in Hw4 as (temp' & ts' & _ & _ & _ & _ & H4). simpl in H4.
  split_and!.
  - etransitivity; [by apply init_not_debited|]. unfold vault. rewrite Hv. apply H2.
  - done.
  - by apply H4.
  - intros Hu k Hk.
    destruct (tokens (lw_world lw) !! reward_vault k) as [v'|] eqn:Hk'; [|by apply new_not_debited].
    etransitivity; [by apply init_not_debited|]. etransitivity; [apply H2|].
    etransitivity; [apply H3|apply H4; congruence].
    rewrite Hv. by intros [_ ?]%lip_address_inj.
Qed.

Lemma end_deposit_books lw clock c lw' :
  campaign_books lw → amounts_ok (tokens (lw_world lw')) →
  end_deposit lw clock c = Ok lw' → campaign_books lw'.
Proof.
  intros Hb Hu (camp & dep & w1 & w2 & w3 & w4 & temp & extra & H)%end_deposit_ok.
  pose proof (de_campaign _ _ _ _ _ _ _ _ _ _ _ _ H) as Hc.
  pose proof (de_deposit _ _ _ _ _ _ _ _ _ _ _ _ H) as Hd.
  pose proof (de_of _ _ _ _ _ _ _ _ _ _ _ _ H) as Hof.
  pose proof (de_vault _ _ _ _ _ _ _ _ _ _ _ _ H) as Hv.
  destruct (cb_deposits _ Hb _ _ Hd) as [Hpos _]. destruct (cb_funded _ Hb _ _ Hc) as [H1 H2 H3 H4 H5].
  pose proof (de_extra _ _ _ _ _ _ _ _ _ _ _ _ H) as He.
  apply additional_reward_ok in He as [_ ->]; [|destruct H2; lia..].
  destruct (reward_bounds camp dep) as (Hr0 & Hr1 & _); [destruct H2; lia..|].
  apply end_deposit_tokens in H as Ht; [|lia]. destruct Ht as (Ht1 & Ht2 & Ht3 & Ht4).
  rewrite (de_result _ _ _ _ _ _ _ _ _ _ _ _ H) in *. clear H. simpl in *.
  unfold not_debited in Ht1. rewrite Hv in *. fold (reward_vault (ed_campaign c)) in *.
  set (extra := Z.max 0 (reward_of camp dep - Z.max 0 (ta_amount temp - dp_amount dep))) in *.
  assert (extra * max_deposits camp ≤ dp_amount dep * max_rewards camp) as Hex.
  { etransitivity; [|exact Hr1]. apply Z.mul_le_mono_nonneg_r; unfold extra; lia. }
  split; simpl.
  - intros d dep' [_ Hd']%lookup_delete_Some. by apply (cb_deposits _ Hb d).
  - intros k camp' Hk. destruct (decide (k = ed_campaign c)) as [->|Hne].
    + det_ok. split; simpl; rewrite ?(open_deposits_delete _ _ _ _ Hd), ?locked_eq by done; try done; [lia|].
      etransitivity; [|apply Z.mul_le_mono_nonneg_r; [lia|exact Ht3]]. rewrite Ht2.
      assert (token_amount (tokens (lw_world lw)) (reward_vault (ed_campaign c)) * max_deposits camp
              ≤ token_amount (tokens w2) (reward_vault (ed_campaign c)) * max_deposits camp)
        by (apply Z.mul_le_mono_nonneg_r; lia).
      rewrite Z.mul_sub_distr_r. lia.
    + eapply funded_ext; [by eapply cb_funded| |by apply Ht4]. simpl.
      rewrite (open_deposits_delete _ _ _ _ Hd), locked_ne by congruence. lia.
Qed.
End Books.

(** ** Both programs together *)
Section LipSystem.
Context {F : FixedOps} {L : FixedLaws F} {T : TokenSdk} {TL : TokenLaws T} {O : OracleSdk} {R : Runtime}.
Context {LR : LipRuntime} {LL : LipLaws R LR}.

(** The arguments are [u64], and the account that pays is nobody's reward
    vault: its owner signs, and a vault's owner is an address only this
    program signs for. *)
Definition lip_ix_ok (ix : LipIx) : Prop :=
  match ix with
  | IxCreateCampaign c lockup md mr =>
      (is_u64 lockup ∧ is_u64 md ∧ is_u64 mr) ∧ ∀ k, cc_funding_account c ≠ reward_vault k
  | IxCreateDeposit c amount => is_u64 amount ∧ ∀ k, cd_funding_account c ≠ reward_vault k
  | IxEndDeposit _ => True
  end.

(** An instruction of this program, or a step of the rest of the chain (marginfi or
    another program), which cannot debit a reward vault. *)
Inductive lip_step (lw lw' : LipWorld) : Prop :=
| lip_step_ix clock ix :
    lip_ix_ok ix → liquidity_incentive_program lw clock ix = Ok lw' → in_range (lw_world lw') →
    lip_step lw lw'
| lip_step_other w' :
    step (lw_world lw) w' →
    (∀ k, not_debited (reward_vault k) (tokens (lw_world lw)) (tokens w')) →
    lw' = mkLipWorld w' (campaigns lw) (deposits_of lw) → lip_step lw lw'.
Definition lip_reachable (lw : LipWorld) : Prop :=
  ∃ w0, genesis w0 ∧ rtc lip_step (mkLipWorld w0 ∅ ∅) lw.

Lemma in_range_amounts w : in_range w → amounts_ok (tokens w).
Proof. intros [_ Ht _] k a. apply Ht. Qed.
Lemma in_range_banks w w' :
  in_range w → banks w' = banks w → groups w' = groups w → amounts_ok (tokens w') → in_range w'.
Proof. intros [H1 _ H3] Eb Eg Ht. split; rewrite ?Eb, ?Eg; [exact H1|exact Ht|exact H3]. Qed.

(** One step of the marginfi model. *)
Lemma tokens_step w ts : in_range w → amounts_ok ts → step w (set_tokens ts w).
Proof. intros Hr Ht. eapply step_env; [reflexivity|]. by eapply in_range_banks. Qed.
Lemma transfer_step program from mint to auth n w w' :
  in_range w → invoke_transfer_checked program from mint to auth n w = Ok w' → step w w' ∧ in_range w'.
Proof.
  intros Hr (ts & _ & -> & Hu & _)%invoke_transfer_ok. pose proof (Hu (in_range_amounts _ Hr)).
  split; [by apply tokens_step|by eapply in_range_banks].
Qed.
Lemma init_step k mint auth w w' :
  in_range w → init_token_account k mint auth w = Ok w' → step w w' ∧ in_range w'.
Proof.
  intros Hr [_ ->]%init_temp_ok. pose proof (init_amounts k mint auth _ (in_range_amounts _ Hr)).
  split; [by apply tokens_step|by eapply in_range_banks].
Qed.
Lemma close_step k d a p w w' :
  in_range w → close_token_account k d a p w = Ok w' → step w w'.
Proof. intros Hr [_ ->]%close_token_ok. apply tokens_step, delete_amounts, in_range_amounts; done. Qed.

Lemma create_campaign_runs lw c lockup md mr lw' :
  in_range (lw_world lw) → create_campaign lw c lockup md mr = Ok lw' →
  rtc step (lw_world lw) (lw_world lw').
Proof.
  intros Hr (w1 & w2 & vault & _ & _ & _ & Hw1 & Hw2 & _ & ->)%create_campaign_ok. simpl.
  apply init_step in Hw1 as [Hs1 Hr1]; [|done]. apply transfer_step in Hw2 as [Hs2 _]; [|done].
  by eapply rtc_l, rtc_once.
Qed.

Lemma create_deposit_runs lw clock c amount lw' :
  in_range (lw_world lw) → in_range (lw_world lw') → is_u64 amount →
  create_deposit lw clock c amount = Ok lw' → rtc step (lw_world lw) (lw_world lw').
Proof.
  intros Hr Hr' Hu (camp & mint & w1 & w2 & w3 & w4 & w5 & H)%create_deposit_ok.
  rewrite (dm_result _ _ _ _ _ _ _ _ _ _ _ _ H) in *. simpl in *.
  destruct H as [_ _ _ _ _ _ _ _ Hw1 Hw2 Hw3 Hw4 Hw5 _].
  apply init_step in Hw1 as [Hs1 Hr1]; [|done]. apply transfer_step in Hw2 as [Hs2 Hr2]; [|done].
  assert (in_range w3 ∧ step w2 w3) as [Hr3 Hs3].
  { assert (in_range w3) as Hr3; [|split; [done|]].
    - apply initialize_account_ok in Hw3 as (_ & _ & ->).
      apply (in_range_banks w2); [done..|by apply (in_range_amounts w2)].
    - by eapply (step_ix _ _ clock (Build_TxContext [] 0 false)
                   (IxAccountInitialize _ (cd_marginfi_account c) _)). }
  pose proof Hw5 as [_ E5]%close_token_ok.
  assert (in_range w4 ∧ step w3 w4) as [Hr4 Hs4].
  { assert (in_range w4) as Hr4.
    { apply (in_range_banks w5); [done|by rewrite E5..|].
      apply (deposit_cpi_tokens _ _ _ _ _ Hw4). by apply in_range_amounts. }
    split; [done|]. by eapply (step_ix _ _ clock (Build_TxContext [] 0 false) (IxDeposit (deposit_cpi c) amount)). }
  apply close_step in Hw5; [|done].
  by eapply rtc_l, rtc_l, rtc_l, rtc_l, rtc_once.
Qed.

Lemma pay_reward_runs c extra w w' :
  in_range w → pay_reward c extra w = Ok w' → rtc step w w' ∧ in_range w'.
Proof.
  unfold pay_reward. intros Hr H. destruct (0 <? extra).
  - apply transfer_step in H as [? ?]; [|done]. split; [by apply rtc_once|done].
  - by injection H as <-.
Qed.
Lemma pay_out_runs c w w' : in_range w → pay_out c w = Ok w' → rtc step w w'.
Proof.
  unfold pay_out. intros Hr H. apply bind_ok in H as (temp & _ & H). apply bind_ok in H as (w1 & Hw1 & H).
  apply transfer_step in Hw1 as [? ?]; [|done]. apply close_step in H; [|done]. by eapply rtc_l, rtc_once.
Qed.

Lemma end_deposit_runs lw clock c lw' :
  in_range (lw_world lw) → in_range (lw_world lw') →
  end_deposit lw clock c = Ok lw' → rtc step (lw_world lw) (lw_world lw').
Proof.
  intros Hr Hr' (camp & dep & w1 & w2 & w3 & w4 & temp & extra & H)%end_deposit_ok.
  rewrite (de_result _ _ _ _ _ _ _ _ _ _ _ _ H) in *. simpl in *.
  destruct H as [_ _ _ _ _ _ _ _ _ _ Hw1 Hw2 _ _ Hw3 Hw4 _].
  apply init_step in Hw1 as [Hs1 Hr1]; [|done].
  assert (banks w2 = banks w4 ∧ groups w2 = groups w4) as [Eb Eg].
  { pose proof Hw4 as (? & ? & _ & _ & -> & _)%pay_out_ok. simpl. unfold pay_reward in Hw3.
    destruct (0 <? extra); [by apply invoke_transfer_ok in Hw3 as (? & _ & -> & _)|by injection Hw3 as <-]. }
  assert (in_range w2) as Hr2.
  { apply (in_range_banks w4); [done..|].
    apply (withdraw_cpi_tokens _ _ _ _ _ _ Hw2). by apply in_range_amounts. }
  assert (step w1 w2) as Hs2
    by (by eapply (step_ix _ _ clock (Build_TxContext [] 0 false) (IxWithdraw (withdraw_cpi c) 0 (Some true)))).
  apply pay_reward_runs in Hw3 as [Hs3 Hr3]; [|done]. apply pay_out_runs in Hw4; [|done].
  eapply rtc_l, rtc_l; [done..|]. by etransitivity.
Qed.

Lemma lip_step_runs lw lw' : in_range (lw_world lw) → lip_step lw lw' → rtc step (lw_world lw) (lw_world lw').
Proof.
  intros Hr [clock ix Hok H Hr'|w' Hs _ ->]; [|by apply rtc_once].
  destruct ix; simpl in *; [by eapply create_campaign_runs|destruct Hok; by eapply create_deposit_runs|
                            by eapply end_deposit_runs].
Qed.
Lemma lip_step_range lw lw' : lip_step lw lw' → in_range (lw_world lw').
Proof. by intros [clock ix _ _ Hr|w' [? ? ? ? ? ?|? ? ? ? ?] _ ->]. Qed.

Lemma lip_step_books lw lw' :
  in_range (lw_world lw) → campaign_books lw → lip_step lw lw' → campaign_books lw'.
Proof.
  intros Hr Hb Hs. pose proof (in_range_amounts _ (lip_step_range _ _ Hs)) as Hu'.
  destruct Hs as [clock ix Hok H Hr'|w' _ Hnd ->].
  - destruct ix; simpl in *; [|destruct Hok; by eapply create_deposit_books|by eapply end_deposit_books].
    destruct Hok as [_ Hf]. eapply create_campaign_books; try done. by apply in_range_amounts.
  - split; [apply Hb|]. intros k camp Hk. eapply funded_ext; [by eapply cb_funded|done|apply Hnd].
Qed.

Lemma lip_run lw lw' :
  rtc lip_step lw lw' → in_range (lw_world lw) → campaign_books lw →
  in_range (lw_world lw') ∧ campaign_books lw' ∧ rtc step (lw_world lw) (lw_world lw').
Proof.
  intros Hs. induction Hs as [lw|lw0 lw1 lw2 Hs _ IH]; intros Hr Hb; [done|].
  destruct IH as (? & ? & ?); [by eapply lip_step_range|by eapply lip_step_books|].
  split_and!; [done..|]. etransitivity; [by eapply lip_step_runs|done].
Qed.

Lemma lip_reach lw : lip_reachable lw →
  in_range (lw_world lw) ∧ campaign_books lw ∧ reachable (lw_world lw).
Proof.
  intros (w0 & Hg & Hs). apply lip_run in Hs as (? & ? & ?).
  - split_and!; [done..|by exists w0].
  - apply Hg.
  - split; simpl; intros ? ? H; by apply lookup_empty_Some in H.
Qed.
End LipSystem.

(** ** The theorems *)
Section LipTheorems.
Context {F : FixedOps} {L : FixedLaws F} {T : TokenSdk} {TL : TokenLaws T} {O : OracleSdk} {R : Runtime}.
Context {LR : LipRuntime} {LL : LipLaws R LR}.

(** What the open deposits of a campaign have been promised. *)
Definition open_rewards (k : Pubkey) (camp : Campaign) (ds : gmap Z Deposit) : Z :=
  map_sum (λ dep, if dp_campaign dep =? k then reward_of camp dep else 0) ds.

Lemma open_rewards_le k camp ds :
  0 < max_deposits camp → 0 ≤ max_rewards camp → (∀ d dep, ds !! d = Some dep → 0 ≤ dp_amount dep) →
  open_rewards k camp ds * max_deposits camp ≤ max_rewards camp * open_deposits k ds.
Proof.
  intros Hm Hr. unfold open_rewards, open_deposits.
  induction ds as [|d dep ds Hn IH] using map_ind; intros Hp; [change (0 ≤ max_rewards camp * 0); lia|].
  rewrite !map_sum_insert_new by done.
  assert (∀ d' dep', ds !! d' = Some dep' → 0 ≤ dp_amount dep') as Hp'.
  { intros d' dep' Hd'. apply (Hp d'). rewrite lookup_insert_ne; [done|congruence]. }
  specialize (IH Hp'). pose proof (Hp d dep (lookup_insert_eq _ _ _)) as Ha.
  destruct (reward_bounds camp dep Ha Hm Hr) as (_ & Hb & _).
  unfold locked at 1. destruct (dp_campaign dep =? k); lia.
Qed.

(** C16: In every state the two programs can reach, the
    open deposits of a campaign and its remaining capacity add up to at most
    its limit, and its reward vault holds the rewards of all its
    open deposits at once, with enough left for the same share of the capacity
    that remains. *)
Theorem campaigns_stay_funded lw k camp :
  lip_reachable lw → campaigns lw !! k = Some camp →
  let vault := token_amount (tokens (lw_world lw)) (reward_vault k) in
  let open := open_deposits k (deposits_of lw) in
  0 ≤ open ∧ 0 ≤ remaining_capacity camp ∧ open + remaining_capacity camp ≤ max_deposits camp ∧
  max_rewards camp * (open + remaining_capacity camp) ≤ vault * max_deposits camp ∧
  open_rewards k camp (deposits_of lw) ≤ vault.
Proof.
  intros (_ & Hb & _)%lip_reach Hk vault open. destruct (cb_funded _ Hb _ _ Hk) as [H1 [H2 _] H3 H4 H5].
  assert (0 ≤ open) by by apply open_deposits_nonneg.
  split_and!; try done.
  assert (open_rewards k camp (deposits_of lw) * max_deposits camp ≤ vault * max_deposits camp); [|nia].
  etransitivity; [apply open_rewards_le; [done..|]|].
  - intros d dep Hd. destruct (cb_deposits _ Hb _ _ Hd). lia.
  - etransitivity; [|exact H5]. apply Z.mul_le_mono_nonneg_l; unfold open in *; lia.
Qed.


(** A campaign never disappears and keeps its terms; only
    its remaining capacity goes down.  An open deposit is never
    changed; it ends only by [end_deposit] signed by its owner, no earlier than
    its start plus the lockup of its campaign. *)
Theorem deposit_terms_fixed lw clock ix lw' :
  liquidity_incentive_program lw clock ix = Ok lw' →
  (∀ k camp, campaigns lw !! k = Some camp → ∃ left, campaigns lw' !! k = Some (with_remaining_capacity left camp) ∧
     left ≤ remaining_capacity camp) ∧
  (∀ d dep, deposits_of lw !! d = Some dep → deposits_of lw' !! d = Some dep ∨
     deposits_of lw' !! d = None ∧ ∃ c camp, ix = IxEndDeposit c ∧ d = ed_deposit c ∧
       ed_signer c = dp_owner dep ∧ campaigns lw !! dp_campaign dep = Some camp ∧
       (lockup_period camp < 2 ^ 63 → dp_start_time dep + lockup_period camp ≤ unix_timestamp clock)).
Proof.
  assert (∀ k camp, campaigns lw !! k = Some camp → ∃ left,
    campaigns lw !! k = Some (with_remaining_capacity left camp) ∧ left ≤ remaining_capacity camp) as Hsame
    by (intros k camp Hk; exists (remaining_capacity camp); split; [by destruct camp|done]).
  destruct ix as [c lockup md mr|c amount|c]; simpl; intros H.
  - apply create_campaign_ok in H as (w1 & w2 & vault & Hn & _ & _ & _ & _ & _ & ->). simpl.
    split; [|by left]. intros k camp Hk. rewrite lookup_insert_ne by congruence. by apply Hsame.
  - apply create_deposit_ok in H as (camp & mint & w1 & w2 & w3 & w4 & w5 & [Hc Hn _ _ _ _ Ha _ _ _ _ _ _ ->]).
    simpl. split.
    + intros k camp' Hk. destruct (decide (k = cd_campaign c)) as [->|];
        [|rewrite lookup_insert_ne by done; by apply Hsame].
      det_ok. rewrite lookup_insert_eq. eexists. split; [done|lia].
    + intros d dep Hd. left. by rewrite lookup_insert_ne by congruence.
  - apply end_deposit_ok in H as (camp & dep & w1 & w2 & w3 & w4 & temp & extra &
      [Hc Hd Hof How _ _ _ _ _ Hm _ _ _ _ _ _ ->]). simpl. split; [done|].
    intros d dep' Hd'. destruct (decide (d = ed_deposit c)) as [->|]; [right|left; by rewrite lookup_delete_ne].
    det_ok. split; [by rewrite lookup_delete_eq|]. exists c, camp. rewrite Hof. split_and!; try done.
    intros Hl. unfold check_matured in Hm. apply bind_ok in Hm as (t & Ht & Hm).
    apply i64_checked_ok in Ht as [-> _]. apply check_ok in Hm. bool_prop.
    unfold u64_as_i64 in Hm. by rewrite (proj2 (Z.ltb_lt _ _) Hl) in Hm.
Qed.

Lemma reach_terms lw k camp d dep :
  lip_reachable lw → campaigns lw !! k = Some camp → deposits_of lw !! d = Some dep → dp_campaign dep = k →
  0 < max_deposits camp ∧ is_u64 (max_rewards camp) ∧ 0 < dp_amount dep ≤ max_deposits camp.
Proof.
  intros (_ & Hb & _)%lip_reach Hk Hd <-. destruct (cb_funded _ Hb _ _ Hk) as [H1 H2 H3 H4 _].
  destruct (cb_deposits _ Hb _ _ Hd). pose proof (open_deposits_ge _ _ _ Hb Hd). split_and!; try done; lia.
Qed.

(** Ending a deposit withdraws everything from its marginfi
    account and pays the owner what was redeemed plus the part of the guaranteed
    reward the yield did not cover, which the reward vault loses: for a position
    that has not lost value, the larger of what it redeemed and the deposit plus its reward.
    The reward is the deposit's share of the campaign's rewards, less than
    a token and the rounding of the share below the exact fraction and never above it. *)
Theorem end_deposit_pays lw clock c lw' :
  lip_reachable lw → end_deposit lw clock c = Ok lw' →
  ∃ camp dep w1 w2 redeemed ts ts' fee,
    campaigns lw !! ed_campaign c = Some camp ∧ deposits_of lw !! ed_deposit c = Some dep ∧
    init_token_account (ed_temp_token_account c) (ed_asset_mint c) (ed_temp_token_account_authority c)
      (lw_world lw) = Ok w1 ∧
    lending_account_withdraw w1 clock (withdraw_cpi c) 0 (Some true) = Ok w2 ∧
    token_amount (tokens w2) (ed_temp_token_account c) = redeemed ∧
    let reward := reward_of camp dep in
    let extra := Z.max 0 (reward - Z.max 0 (redeemed - dp_amount dep)) in
    reward * max_deposits camp ≤ dp_amount dep * max_rewards camp ∧
    dp_amount dep * max_rewards camp * SCALE
      < (reward + 1) * max_deposits camp * SCALE + max_rewards camp * max_deposits camp ∧
    (dp_amount dep ≤ redeemed → redeemed + extra = Z.max redeemed (dp_amount dep + reward)) ∧
    token_amount ts (reward_vault (ed_campaign c)) =
      token_amount (tokens w2) (reward_vault (ed_campaign c)) - extra ∧
    0 ≤ fee ≤ extra ∧
    spl_transfer (mkTransfer (redeemed + extra - fee) (ed_temp_token_account c) (ed_destination_account c)
      (ed_temp_token_account_authority c) (Some (ed_asset_mint c)) (ed_token_program c)) ts = Ok ts' ∧
    lw' = mkLipWorld (set_tokens (delete (ed_temp_token_account c) ts') w2) (campaigns lw)
            (delete (ed_deposit c) (deposits_of lw)).
Proof.
  intros Hreach (camp & dep & w1 & w2 & w3 & w4 & temp & extra & H)%end_deposit_ok.
  destruct H as [Hc Hd Hof _ Hv _ [v Hhas] _ _ _ Hw1 Hw2 Ht He Hw3 Hw4 ->].
  destruct (reach_terms _ _ _ _ _ Hreach Hc Hd Hof) as (Hm & [Hr _] & Ha).
  apply additional_reward_ok in He as [_ ->]; [|lia..].
  destruct (reward_bounds camp dep) as (Hr0 & Hr1 & Hr2); [lia..|].
  pose proof Hw1 as [Hn _]%init_temp_ok.
  apply pay_reward_ok in Hw3 as (ts & -> & _ & Hvt & (fee & Hfee & Htt) & _); [|congruence|lia].
  apply pay_out_ok in Hw4 as (temp' & ts' & Ht' & Hts & -> & _ & _). simpl in Ht', Hts.
  assert (token_amount (tokens w2) (ed_temp_token_account c) = ta_amount temp) as Et
    by (unfold token_amount; by rewrite Ht).
  assert (token_amount ts (ed_temp_token_account c) = ta_amount temp') as Et'
    by (unfold token_amount; by rewrite Ht').
  exists camp, dep, w1, w2, (ta_amount temp), ts, ts', fee. rewrite Hv in Hvt. rewrite Et', Et in Htt.
  cbv zeta. rewrite <- Htt. split_and!; try done; lia.
Qed.

(** C17: Once the lockup has passed, and marginfi has
    returned the deposit, nothing in [end_deposit] can fail but the token program:
    the reward computation neither overflows nor panics, and the reward vault holds
    the additional reward that is transferred out of it. *)
Theorem matured_deposit_is_payable lw clock c w1 camp dep w2 temp :
  lip_reachable lw → end_deposit_constraints lw c = Ok (w1, camp, dep) →
  lockup_period camp < 2 ^ 63 → is_i64 (dp_start_time dep + lockup_period camp) →
  dp_start_time dep + lockup_period camp ≤ unix_timestamp clock →
  lending_account_withdraw w1 clock (withdraw_cpi c) 0 (Some true) = Ok w2 →
  tokens w2 !! ed_temp_token_account c = Some temp →
  ∃ extra, 0 ≤ extra ≤ token_amount (tokens w2) (ed_campaign_reward_vault c) ∧
    end_deposit lw clock c =
      let? w := pay_reward c extra w2 in
      let? w := pay_out c w in
      Ok (mkLipWorld w (campaigns lw) (delete (ed_deposit c) (deposits_of lw))).
Proof.
  intros Hreach Hcons Hl Hi Hm Hw2 Ht.
  pose proof Hcons as (Hc & Hd & Hof & _ & Hv & _ & [v Hhas] & _ & _ & Hw1)%end_deposit_constraints_ok.
  destruct (reach_terms _ _ _ _ _ Hreach Hc Hd Hof) as (Hmd & Hr & Ha).
  destruct (reward_bounds camp dep) as (Hr0 & Hr1 & _); [destruct Hr; lia..|].
  exists (Z.max 0 (reward_of camp dep - Z.max 0 (ta_amount temp - dp_amount dep))). split.
  - split; [lia|]. apply lip_reach in Hreach as (_ & Hb & _).
    destruct (cb_funded _ Hb _ _ Hc) as [_ _ H3 _ H5].
    pose proof (open_deposits_ge _ _ _ Hb Hd) as Hge. rewrite Hof in Hge.
    apply init_temp_ok in Hw1 as [Hn ->]. apply withdraw_cpi_tokens in Hw2 as [_ Hnd].
    pose proof (init_not_debited (ed_campaign_reward_vault c) _ (ed_asset_mint c)
                  (ed_temp_token_account_authority c) _ Hn) as Hn1.
    specialize (Hnd CAMPAIGN_SEED (ed_campaign c)). rewrite <- Hv in Hnd. simpl in Hnd.
    unfold reward_vault in H5. rewrite <- Hv in H5. unfold not_debited in *.
    destruct Hr as [Hr _]. set (vault := token_amount (tokens (lw_world lw)) _) in *.
    assert (dp_amount dep * max_rewards camp ≤ vault * max_deposits camp)
      by (etransitivity; [|exact H5]; rewrite (Z.mul_comm (dp_amount dep)); apply Z.mul_le_mono_nonneg_l; lia).
    assert (reward_of camp dep ≤ vault) by nia. lia.
  - unfold end_deposit. rewrite Hcons. simpl. unfold check_matured, u64_as_i64.
    rewrite (proj2 (Z.ltb_lt _ _) Hl). rewrite (proj2 (i64_checked_ok _ _) (conj eq_refl Hi)). simpl.
    rewrite (proj2 (Z.leb_le _ _) Hm). simpl. rewrite Hw2. simpl. unfold load_token. rewrite Ht. simpl.
    unfold additional_reward. by rewrite max_reward_runs by (done || lia).
Qed.

(** A deposit into an account just opened. *)
Lemma first_deposit_worth w clock c amount g auth w' :
  books_balance w → is_u64 amount →
  accounts w !! d_marginfi_account c = Some (MarginfiAccount.initialize MarginfiAccount.zeroed g auth) →
  lending_account_deposit w clock c amount = Ok w' →
  ∃ k, banks w' !! d_bank c = Some k ∧
    from_num amount - rounding k - ZERO_AMOUNT_THRESHOLD - ONE
      ≤ worth w' (d_marginfi_account c) (d_bank c) ≤ from_num amount + 2.
Proof.
  intros Hb Hu Hacc (m & k0 & mint & w1 & w2 & pre & _ & Ha & Hp & _ & Ht)%deposit_ok.
  pose proof Ha as (k & k' & Hk & E1 & _ & _ & _ & Hb1)%accrue_ok; [|done].
  apply with_position_deposit in Hp.
  pose proof (with_position_worth _ _ _ _ _ _ _ _ Hb1 Hp) as (p0 & p1 & Hf & Hwf & Hbk & Hn0 & Hstep).
  pose proof (deposit_step_net _ _ _ _ _ Hu Hwf Hf) as (_ & Hps & Hnet).
  destruct (Hstep Hps) as (_ & Hn1 & Hbk' & _). apply transfer_in_ok in Ht as (? & ts & _ & _ & _ & ->).
  exists (BankAccountWrapper.bank p1). split; [done|].
  rewrite (rounding_frame _ _ (step_frame _ _ Hps)).
  change (worth (set_tokens ts w2)) with (worth w2). rewrite Hn1.
  assert (net p0 = 0) as E0; [|lia].
  rewrite <- Hn0, E1. unfold worth. simpl. rewrite Hacc, lookup_insert_eq.
  rewrite !no_position_no_shares; [by rewrite !fmul_0_l|..]; by intros b' [-> _]%elem_of_replicate.
Qed.

(** A deposit is only taken by an active campaign and up to its
    remaining capacity, which goes down by exactly the amount; the deposit is
    recorded for its owner with its start time; and a new marginfi account, whose
    authority is an address only this program signs for, holds a position worth the
    amount up to the rounding of its shares. *)
Theorem create_deposit_locks {PN : PricesNonneg O} lw clock c amount lw' :
  lip_reachable lw → in_range (lw_world lw') → lip_ix_ok (IxCreateDeposit c amount) →
  create_deposit lw clock c amount = Ok lw' →
  ∃ camp m' k, campaigns lw !! cd_campaign c = Some camp ∧ c_active camp = true ∧
    0 < amount ≤ remaining_capacity camp ∧
    campaigns lw' = <[cd_campaign c := with_remaining_capacity (remaining_capacity camp - amount) camp]>
                      (campaigns lw) ∧
    deposits_of lw !! cd_deposit c = None ∧
    deposits_of lw' = <[cd_deposit c := mkDeposit (cd_signer c) amount (unix_timestamp clock) (cd_campaign c)]>
                        (deposits_of lw) ∧
    accounts (lw_world lw) !! cd_marginfi_account c = None ∧
    accounts (lw_world lw') !! cd_marginfi_account c = Some m' ∧
    MarginfiAccount.authority m' = lip_address DEPOSIT_MFI_AUTH_SIGNER_SEED (cd_deposit c) ∧
    cd_marginfi_bank c = marginfi_bank_pk camp ∧
    banks (lw_world lw') !! cd_marginfi_bank c = Some k ∧
    from_num amount - rounding k - ZERO_AMOUNT_THRESHOLD - ONE
      ≤ worth (lw_world lw') (cd_marginfi_account c) (cd_marginfi_bank c) ≤ from_num amount + 2.
Proof.
  intros Hreach Hr' [Hu Hf] (camp & mint & w1 & w2 & w3 & w4 & w5 & H)%create_deposit_ok.
  pose proof (lip_reach _ Hreach) as (Hr & _ & [_ [Hb _ _]]%reach_invariant).
  destruct H as [Hc Hn Hbk Hs Ha Hact Hcap _ Hw1 Hw2 Hw3 Hw4 Hw5 ->]. simpl in *.
  apply init_temp_ok in Hw1 as [_ ->]. apply invoke_transfer_ok in Hw2 as (ts & _ & -> & _).
  apply initialize_account_ok in Hw3 as (_ & Hnew & ->). simpl in Hnew.
  pose proof (first_deposit_worth _ _ _ _ _ _ _ (new_account_books _ (cd_marginfi_account c)
    (cd_marginfi_group c) (cd_mfi_pda_signer c) (set_tokens_books _ ts (set_tokens_books _ _ Hb)) Hnew)
    Hu (lookup_insert_eq _ _ _) Hw4) as (k & Hk & Hworth).
  pose proof (deposit_moves _ _ _ _ _ Hw4) as Hmv.
  destruct (accounts w4 !! cd_marginfi_account c) as [m'|] eqn:Hm'.
  - destruct (moves_account _ _ _ _ _ Hmv Hm') as (m & Hm & Hh). simpl in Hm.
    rewrite lookup_insert_eq in Hm. injection Hm as <-.
    apply close_token_ok in Hw5 as [_ ->]. exists camp, m', k.
    do 8 (split; [done|]). split; [|done].
    pose proof (f_equal MarginfiAccount.authority Hh : MarginfiAccount.authority m' = _) as E.
    rewrite E. exact Hs.
  - pose proof (mv_headers _ _ _ Hmv (cd_marginfi_account c)) as E. rewrite Hm' in E. simpl in E.
    by rewrite lookup_insert_eq in E.
Qed.
End LipTheorems.

(** ** Witnesses *)
#[local] Existing Instance i80f48.
#[local] Existing Instance demo_token_sdk.
#[local] Existing Instance demo_oracle_sdk.
#[local] Existing Instance demo_runtime.

Definition demo_seed (s : LipSeed) : Z :=
  match s with
  | CAMPAIGN_SEED => 1 | CAMPAIGN_AUTH_SEED => 2 | DEPOSIT_MFI_AUTH_SIGNER_SEED => 3
  | TEMP_TOKEN_ACCOUNT_AUTH_SEED => 4 | MARGINFI_ACCOUNT_SEED => 5
  end.
Definition demo_lip_runtime : LipRuntime := {|
  lip_address s k := - (10 * (if k <? 0 then - 2 * k - 1 else 2 * k) + demo_seed s);
  close_token k _ _ _ ts :=
    match ts !! k with
    | Some a => if ta_amount a =? 0 then Ok (delete k ts) else Err (ECpi 11)
    | None => Err (ECpi 12)
    end
|}.
#[local] Existing Instance demo_lip_runtime.

#[export] Instance demo_lip_laws : LipLaws demo_runtime demo_lip_runtime.
Proof.
  split.
  - intros s k s' k'. simpl. destruct (Z.ltb_spec k 0), (Z.ltb_spec k' 0), s, s'; simpl; intros E; split; done || lia.
  - intros s k s' keys bump. simpl. destruct keys as [|j keys]; [done|]. simpl.
    destruct (Z.ltb_spec j 0); simpl; [done|]. destruct (negb _); [done|].
    destruct (Z.ltb_spec k 0), s, s'; simpl; intros [= E]; lia.
  - simpl. intros k d a p ts ts' H. destruct (ts !! k) as [x|]; [|done].
    destruct (_ =? 0); [|done]. injection H as <-. by split; [eexists|].
Qed.

(** A campaign on bank 700: at most 1000 units for 100 units of rewards, locked
    for 50 seconds; user 70 deposits 500 and ends the deposit 70 seconds later. *)
Definition demo_create_campaign : CreateCampaign := {|
  cc_campaign := 50; cc_campaign_reward_vault := lip_address CAMPAIGN_SEED 50;
  cc_campaign_reward_vault_authority := lip_address CAMPAIGN_AUTH_SEED 50;
  cc_asset_mint := 500; cc_marginfi_bank := 700; cc_admin := 70; cc_funding_account := 801;
  cc_token_program := token_id |}.
Definition demo_create_deposit : CreateDeposit := {|
  cd_campaign := 50; cd_signer := 70; cd_deposit := 60;
  cd_mfi_pda_signer := lip_address DEPOSIT_MFI_AUTH_SIGNER_SEED 60; cd_funding_account := 801;
  cd_temp_token_account := 61; cd_asset_mint := 500; cd_marginfi_group := 1; cd_marginfi_bank := 700;
  cd_marginfi_account := lip_address MARGINFI_ACCOUNT_SEED 60; cd_marginfi_bank_vault := 701;
  cd_token_program := token_id; cd_remaining := [] |}.
Definition demo_end_deposit : EndDeposit := {|
  ed_campaign := 50; ed_campaign_reward_vault := lip_address CAMPAIGN_SEED 50;
  ed_campaign_reward_vault_authority := lip_address CAMPAIGN_AUTH_SEED 50; ed_signer := 70;
  ed_deposit := 60; ed_mfi_pda_signer := lip_address DEPOSIT_MFI_AUTH_SIGNER_SEED 60;
  ed_temp_token_account := 62;
  ed_temp_token_account_authority := lip_address TEMP_TOKEN_ACCOUNT_AUTH_SEED 60;
  ed_destination_account := 801; ed_asset_mint := 500;
  ed_marginfi_account := lip_address MARGINFI_ACCOUNT_SEED 60; ed_marginfi_group := 1;
  ed_marginfi_bank := 700; ed_marginfi_bank_vault := 701; ed_marginfi_bank_vault_authority := 704;
  ed_token_program := token_id; ed_remaining := [] |}.
Definition demo_later : Clock := mkClock 100 0.

Definition demo_lip_script : list MarginfiIx := take 3 demo_script.
Definition demo_lip0 : LipWorld :=
  mkLipWorld (default demo_genesis (replay demo_genesis demo_clock demo_tx demo_lip_script)) ∅ ∅.
Definition demo_campaign_ix : LipIx := IxCreateCampaign demo_create_campaign 50 1000 100.
Definition demo_deposit_ix : LipIx := IxCreateDeposit demo_create_deposit 500.
Definition demo_lip_run (lw : LipWorld) (clock : Clock) (ix : LipIx) : LipWorld :=
  ok_value lw (liquidity_incentive_program lw clock ix).
Definition demo_lip1 : LipWorld := demo_lip_run demo_lip0 demo_clock demo_campaign_ix.
Definition demo_lip2 : LipWorld := demo_lip_run demo_lip1 demo_clock demo_deposit_ix.
Definition demo_lip3 : LipWorld := demo_lip_run demo_lip2 demo_later (IxEndDeposit demo_end_deposit).

Lemma demo_lip_run_ok lw clock ix :
  is_ok (liquidity_incentive_program lw clock ix) = true →
  liquidity_incentive_program lw clock ix = Ok (demo_lip_run lw clock ix).
Proof. apply ok_value_ok. Qed.

(** Before any campaign, marginfi's instructions debit no reward vault. *)
Definition no_vaultsb (w : World) : bool := bool_decide (map_Forall (λ k _, 0 ≤ k) (tokens w)).
Lemma lip_replay_steps clock tx ixs : Forall ix_amounts_ok ixs → ∀ w w' cs ds,
  Forall (λ n, default false (no_vaultsb <$> replay w clock tx (take n ixs)) = true) (seq 0 (length ixs)) →
  replay w clock tx ixs = Some w' → rtc lip_step (mkLipWorld w cs ds) (mkLipWorld w' cs ds).
Proof.
  induction 1 as [|ix ixs Hu _ IH]; intros w w' cs ds Hn H; [injection H as <-; constructor|].
  apply (Forall_cons_1 _ 0%nat (seq 1 (length ixs))) in Hn as [Hv Hn]. simpl in Hv, H.
  destruct (marginfi w clock tx ix) as [w1| |] eqn:H1; [|done..].
  destruct (in_rangeb w1) eqn:Hr; [|done]. pose proof (in_rangeb_in_range _ Hr) as Hr'.
  eapply rtc_l.
  - eapply lip_step_other; [by eapply step_ix| |reflexivity]. intros k. simpl.
    apply new_not_debited; [|by apply in_range_amounts].
    unfold no_vaultsb in Hv. apply bool_decide_eq_true in Hv.
    destruct (tokens w !! reward_vault k) as [a|] eqn:E; [|done]. specialize (Hv _ _ E).
    unfold reward_vault in Hv. simpl in Hv. destruct (Z.ltb_spec k 0); lia.
  - apply IH; [|done]. rewrite <- fmap_S_seq, Forall_fmap in Hn.
    rewrite Forall_forall in Hn |- *. intros n Hin. specialize (Hn n Hin). simpl in Hn.
    by rewrite H1, Hr in Hn.
Qed.

Lemma replay_default w clock tx ixs :
  bool_decide (is_Some (replay w clock tx ixs)) = true →
  replay w clock tx ixs = Some (default w (replay w clock tx ixs)).
Proof. intros [x ->]%bool_decide_eq_true. done. Qed.

Lemma demo_lip0_reachable : lip_reachable demo_lip0.
Proof.
  exists demo_genesis. split.
  - split; [reflexivity..|apply in_rangeb_in_range; vm_compute; reflexivity].
  - apply (lip_replay_steps demo_clock demo_tx demo_lip_script).
    + repeat constructor.
    + repeat constructor; vm_compute; reflexivity.
    + apply replay_default. vm_compute. reflexivity.
Qed.

Lemma demo_lip_step lw clock ix :
  lip_ix_ok ix → is_ok (liquidity_incentive_program lw clock ix) && in_rangeb (lw_world (demo_lip_run lw clock ix)) = true →
  lip_reachable lw → lip_reachable (demo_lip_run lw clock ix).
Proof.
  intros Hok [H Hr]%andb_prop (w0 & Hg & Hs). exists w0. split; [done|].
  eapply rtc_r; [done|]. eapply lip_step_ix; [done|by apply (ok_value_ok lw)|by apply in_rangeb_in_range].
Qed.
Lemma positive_no_vault j k : 0 < j → j ≠ reward_vault k.
Proof. unfold reward_vault. simpl. destruct (Z.ltb_spec k 0); lia. Qed.
Lemma demo_campaign_ix_ok : lip_ix_ok demo_campaign_ix.
Proof. split; [repeat split; discriminate|]. intros k. by apply positive_no_vault. Qed.
Lemma demo_deposit_ix_ok : lip_ix_ok demo_deposit_ix.
Proof. split; [repeat split; discriminate|]. intros k. by apply positive_no_vault. Qed.
Lemma demo_lip1_reachable : lip_reachable demo_lip1.
Proof.
  apply demo_lip_step; [apply demo_campaign_ix_ok|vm_compute; reflexivity|apply demo_lip0_reachable].
Qed.
Lemma demo_lip2_reachable : lip_reachable demo_lip2.
Proof.
  apply demo_lip_step; [apply demo_deposit_ix_ok|vm_compute; reflexivity|apply demo_lip1_reachable].
Qed.

Lemma campaigns_stay_funded_witness :
  let vault := token_amount (tokens (lw_world demo_lip2)) (reward_vault 50) in
  vault = 100 ∧ open_deposits 50 (deposits_of demo_lip2) = 500 ∧
  ∀ camp, campaigns demo_lip2 !! 50 = Some camp → open_rewards 50 camp (deposits_of demo_lip2) ≤ vault.
Proof.
  split; [vm_compute; reflexivity|]. split; [vm_compute; reflexivity|]. intros camp Hc.
  destruct (campaigns_stay_funded (F := i80f48) demo_lip2 50 camp demo_lip2_reachable Hc) as (_ & _ & _ & _ & H).
  exact H.
Defined.


Lemma deposit_terms_fixed_witness :
  dp_owner <$> deposits_of demo_lip2 !! 60 = Some 70 ∧
  ∀ dep, deposits_of demo_lip2 !! 60 = Some dep → deposits_of demo_lip3 !! 60 = Some dep ∨
    deposits_of demo_lip3 !! 60 = None ∧ 70 = dp_owner dep.
Proof.
  split; [vm_compute; reflexivity|]. intros dep Hd. destruct (deposit_terms_fixed (F := i80f48) demo_lip2 demo_later (IxEndDeposit demo_end_deposit) demo_lip3)
    as [_ H]; [apply demo_lip_run_ok; vm_compute; reflexivity|].
  destruct (H 60 dep Hd) as [?|[? (c & camp & E & _ & Ho & _)]]; [left; assumption|right].
  split; [assumption|]. injection E as <-. exact Ho.
Defined.

Lemma end_deposit_pays_witness :
  token_amount (tokens (lw_world demo_lip3)) 801 = 1000000000 - 100 - 500 + 550 ∧
  ∃ camp dep, campaigns demo_lip2 !! 50 = Some camp ∧ deposits_of demo_lip2 !! 60 = Some dep ∧
    reward_of camp dep * max_deposits camp ≤ dp_amount dep * max_rewards camp.
Proof.
  split; [vm_compute; reflexivity|].
  destruct (end_deposit_pays (F := i80f48) demo_lip2 demo_later demo_end_deposit demo_lip3 demo_lip2_reachable)
    as (camp & dep & _ & _ & _ & _ & _ & _ & Hc & Hd & _ & _ & _ & Hr & _).
  - apply (demo_lip_run_ok demo_lip2 demo_later (IxEndDeposit demo_end_deposit)). vm_compute. reflexivity.
  - exists camp, dep. split; [exact Hc|]. split; [exact Hd|exact Hr].
Defined.

(** The state of the deposit when its withdrawal has returned. *)
Definition demo_ended_constraints : World * Campaign * Deposit :=
  ok_value (lw_world demo_lip2, mkCampaign 0 0 false 0 0 0 0, mkDeposit 0 0 0 0)
    (end_deposit_constraints demo_lip2 demo_end_deposit).
Definition demo_withdrawn_world : World :=
  ok_value (lw_world demo_lip2)
    (lending_account_withdraw (demo_ended_constraints.1.1) demo_later (withdraw_cpi demo_end_deposit) 0 (Some true)).
Lemma demo_ended_ok :
  end_deposit_constraints demo_lip2 demo_end_deposit =
    Ok (demo_ended_constraints.1.1, demo_ended_constraints.1.2, demo_ended_constraints.2).
Proof.
  transitivity (Ok (E := error) demo_ended_constraints); [|by destruct demo_ended_constraints as [[]]].
  apply ok_value_ok. vm_compute. reflexivity.
Qed.
Lemma demo_withdrawn_ok :
  lending_account_withdraw (demo_ended_constraints.1.1) demo_later (withdraw_cpi demo_end_deposit) 0 (Some true)
    = Ok demo_withdrawn_world.
Proof. apply ok_value_ok. vm_compute. reflexivity. Qed.
Lemma matured_deposit_is_payable_witness :
  ∃ extra, 0 ≤ extra ≤ token_amount (tokens demo_withdrawn_world) (reward_vault 50) ∧
    is_ok (pay_reward demo_end_deposit extra demo_withdrawn_world) = true.
Proof.
  destruct (matured_deposit_is_payable (F := i80f48) demo_lip2 demo_later demo_end_deposit
              demo_ended_constraints.1.1 demo_ended_constraints.1.2 demo_ended_constraints.2
              demo_withdrawn_world (mkTokenAccount 500 (lip_address TEMP_TOKEN_ACCOUNT_AUTH_SEED 60) 500)
              demo_lip2_reachable) as (extra & He & Hend).
  - exact demo_ended_ok.
  - vm_compute. reflexivity.
  - vm_compute. split; [discriminate|reflexivity].
  - vm_compute. discriminate.
  - exact demo_withdrawn_ok.
  - vm_compute. reflexivity.
  - exists extra. split; [exact He|].
    assert (is_ok (end_deposit demo_lip2 demo_later demo_end_deposit) = true) as Hok by (vm_compute; reflexivity).
    rewrite Hend in Hok. destruct (pay_reward _ _ _); [reflexivity|discriminate Hok|discriminate Hok].
Defined.

Lemma create_deposit_locks_witness :
  ∃ m' k, accounts (lw_world demo_lip2) !! lip_address MARGINFI_ACCOUNT_SEED 60 = Some m' ∧
    banks (lw_world demo_lip2) !! 700 = Some k ∧
    from_num 500 - rounding k - ZERO_AMOUNT_THRESHOLD - ONE
      ≤ worth (lw_world demo_lip2) (lip_address MARGINFI_ACCOUNT_SEED 60) 700.
Proof.
  destruct (create_deposit_locks (F := i80f48) demo_lip1 demo_clock demo_create_deposit 500 demo_lip2
              demo_lip1_reachable) as (camp & m' & k & _ & _ & _ & _ & _ & _ & _ & Hm & _ & _ & Hk & Hw & _).
  - apply lip_reach, demo_lip2_reachable.
  - apply demo_deposit_ix_ok.
  - apply (demo_lip_run_ok demo_lip1 demo_clock demo_deposit_ix). vm_compute. reflexivity.
  - exists m', k. split; [exact Hm|]. split; [exact Hk|exact Hw].
Defined.
